(* ===== verification/_CoqProject ===== *)
-Q . S2P
Prelude.v
GoStrings.v
GoFmt.v
GoNet.v
GoIO.v
GoJson.v
GoUrl.v
Dhcp.v
Logging.v
Udp.v
Pxe.v
Tftp.v
TftpTransfer.v
TftpTime.v
Base64.v
GoHttp.v
Api.v
Remote.v
DhcpServer.v
Http.v
Concurrent.v
Assets.v
Main.v
Process.v
Boot.v
Netboot.v
Example.v
