(* ===== verification/Prelude.v ===== *)
(** * Pixiecore, verified

    Pixiecore netboots machines.  It answers their PXE discovery ([dhcp/]), points
    them to itself as boot server ([pxe/]), hands them the boot loader pxelinux
    over TFTP ([tftp/]), and then serves pxelinux its configuration, kernel and
    initrds over HTTP ([http/]).  What a machine boots is decided by a [Booter]
    ([api/]): the static booter serves local files, the remote booter asks an API
    server and proxies the URLs it names.  [pixiecore/] reads the flags, picks the
    booter and starts the servers; [log/] prints what they report; [assets/] holds
    the embedded boot loader; [example/] is a small API server.

    ** Files

    The Go run time and library, as far as the program uses them:
    - this file: bytes, strings, panics ([go]: [Ret], [Panic], [OutOfFuel]), slice
      and index expressions, 16-bit integers, the shared tactics and hints;
    - [GoStrings], [GoFmt], [GoNet], [GoIO], [GoJson], [GoUrl], [Base64], [GoHttp]:
      the functions of [strings], [strconv], [path/filepath], [fmt], [unicode/utf8],
      [net], [io], [encoding/json], [net/url], [encoding/base64] and [net/http] that
      the program calls, as in recent releases of Go, but for [ServeMux], which is that of
      Go 1.21 (and of later releases under [GODEBUG=httpmuxgo121=1]).

    The program, one file per component, with the names of the source:
    - [Dhcp] (dhcp/dhcp.go: [DhcpOption], [ParseDHCP], [OfferDHCP], [InterfaceIP])
      and [DhcpServer] ([ServeProxyDHCP]);
    - [Pxe] (pxe/pxe.go: [ParsePXE], [ReplyPXE], [ServePXE]);
    - [Udp]: the socket and the endless loop that the servers share;
    - [Tftp] (tftp/tftp.go: [nullStr], [parseRRQ], [mkError], [Serve], the default log
      functions), [TftpTransfer] ([sendPacket], [transfer], [Blob]) and [TftpTime]
      ([sendPacket] with its read deadlines on a clock);
    - [Api] (api/api.go: [Booter], [StaticBooter] and its methods) and [Remote]
      ([RemoteBooter] and its methods);
    - [Http] (http/http.go: the three handlers, the routes, [ServeHTTP]) and
      [Concurrent] (the handlers cut into steps that interleave);
    - [Logging] (log/logging.go), [Assets] (assets/pxelinux_autogen.go), [Main]
      (pixiecore/pixiecore.go: the flags and [main]) and [Process] (the goroutines of
      [main] and those the servers start, the log hooks, the end of the process),
      [Example] (example/main.go).

    The program as a whole:
    - [Boot]: what the four servers do for any client that follows the protocols;
    - [Netboot]: an executable client, the PXE firmware and pxelinux, that boots
      against the servers; what it sends arrives only where a server listens, at the
      addresses and ports it was told.  The client is specification, not a model of code
      here.

    ** How state and effects are modelled

    A function that can panic is a function to [go]; a [(T, error)] result is a
    [result]; both are monads.  A server loop is a step function from its state
    (the read buffer, which is reused across iterations) and one socket event to
    the new state and the actions taken, folded over the list of events by
    [serve_loop].  A TFTP transfer runs against the list of the events its socket
    will deliver, after which every read times out.  The booters act on a [World]:
    a heap that holds the arrays of the string slices (the HTTP server overwrites
    the slice a booter hands out, so the aliasing matters), the randomness, the
    file system, the HTTP clients, and the number of streams left open.  [Http]
    handles a request in one go; [Concurrent.cstep] interleaves the accesses of any
    number of requests to the heap and to their streams, with discoveries, with
    changes of the world outside, and with streams that change while they are copied.
    [Logging.log_step] interleaves the senders of the log with the recorder, over a
    channel without a buffer.

    ** Interfaces

    [Api.BooterLaws] says what a booter promises its callers: a plan per machine,
    ids that stand for the planned files, a specification that may be overwritten.
    [Concurrent.BooterFrame] adds which arrays it touches.  [Api.static_laws],
    [Remote.remote_laws], [Concurrent.static_frame] and [Concurrent.remote_frame]
    discharge them; [DhcpServer], [Http], [Concurrent] and the client of [Netboot] are
    proved against them.

    ** What the theorems show

    - The whole: [netboot_static] and [netboot_api] (a machine boots, end to end, and
      has exactly the configured files and command line), [static_mode_boots] and
      [api_mode_boots] (each stage, for every client that meets the stage's conditions),
      [pickBooter_table], [process_exits_iff] (when the process ends: no server and no
      transfer panics), [example_serves_remote].
    - Parsers ([ParseDHCP_correct], [ParsePXE_correct], [parseRRQ_correct]): each
      returns on every input without a panic and accepts exactly the packets of an
      independent specification (option lists, request encodings).
    - Encoders ([OfferDHCP_wire], [ReplyPXE_wire]): the packets sent decode to the
      intended fields and options.
    - Servers ([ServeProxyDHCP_serves], [ServeProxyDHCP_offers], [ServePXE_serves],
      [ServePXE_replies], [Serve_serves]): they never stop, and what they send is
      exactly what each event calls for.
    - Transfers ([sendPacket_correct], [sendPacket_deadlines], [transfer_delivers],
      [transfer_ordered], [transfer_prefix], [transfer_bounded]): termination, retries
      and when they happen, order, completeness, the prefix property on networks that
      lose, repeat and reorder packets, the bounds on what is sent.
    - Booters ([StaticBooter_correct], [static_File_confined], [getSpec_correct],
      [getSpec_refuses], [remote_BootSpec_complete], [remote_File_authentic]): the
      contract, and that no client can read another file or use the program as an
      open proxy; [Decode_Encode], the round trip of the answers of the API server.
    - HTTP ([PxelinuxConfig_boots], [File_correct], [mux_route_handles],
      [config_roundtrip]), and for the static booter under interleaving
      [http_linearizable], [static_config_stable], [static_no_leak].
    - The log ([log_faithful]) and the assets ([assets_consistent],
      [RestoreAssets_complete]).
    - What the code does that it should not: [transfer_exact_multiple_fails],
      [ParseDHCP_ignores_htype], [ParseDHCP_pad_refused],
      [bindataRead_loses_close_error], [remote_File_ignores_status],
      [getSpec_leaks] and the last clauses of [ReplyPXE_wire].

    ** Fuel

    [for_options], [boot_type_loop] and [parseRRQ_options] are given the length of
    what is left of the packet: every iteration consumes at least two bytes of it.
    [transfer_loop] is given one more than the length of the file: every iteration
    but the last consumes a block of at least one byte.  [RestoreAssets] needs the
    depth of the tree, one.  The theorems show that [OutOfFuel] does not occur.

    ** Parameters

    Code that is not part of the repository is a parameter: NaCl's secretbox (with
    the laws [SecretboxLaws]), [compress/gzip] and the compressed bytes, the Unicode
    tables behind [%q], the texts of the errors of the JSON scanner ([JsonTexts]), the
    interface table of the operating system, the iteration order of Go maps.  Each has
    an instance with which the witnesses evaluate.

    ** Not modelled

    The [Timeout] of the API client, which also ends a body that is never closed; flag
    parsing; the listening on sockets beyond its result; the flags and widths of [fmt].
    Streams are finite, and a stream does not itself end with [io.ErrUnexpectedEOF], which
    [transfer] would take for the end of the file.  Clients of the HTTP server take what
    they are sent: [io.Copy] to a closed connection is not modelled.  Requests for the
    target [*] are not represented.  One call of a booter is one step of [Concurrent],
    which is exact for the static booter; theorems about interleaving are about that one.
    The [go:generate] directive of lib.go and the compressed data of the assets are not
    code.

    ** Plan

    Next: the inflation of the embedded assets, and the interleaving of the requests that
    one call of the remote booter makes. *)
From stdpp Require Export base tactics list numbers strings gmap sets.
From Stdlib Require Export Strings.Byte Lia.

(** * Bytes

    Go's [byte] is the 256-element type [Byte.byte]; a Go [[]byte] and a Go
    [string] are both byte sequences, so both are [bytes] here. *)

Abbreviation bytes := (list Byte.byte).
Abbreviation GoString := (list Byte.byte).

#[export] Instance byte_eq_decision : EqDecision Byte.byte := Byte.byte_eq_dec.

#[export] Instance byte_countable : Countable Byte.byte :=
  inj_countable Byte.to_N Byte.of_N Byte.of_to_N.

(** The value of a byte as an unsigned 8-bit integer. *)
Definition u8 (b : Byte.byte) : Z := Z.of_N (Byte.to_N b).

(** The conversion [byte(z)]: reduction modulo 256. *)
Definition to_byte (z : Z) : Byte.byte :=
  default Byte.x00 (Byte.of_N (Z.to_N (z `mod` 256))).

(** Numeric literals for bytes, in a scope of their own: [[53; 1; 2]%gb]. *)
Declare Scope gobyte_scope.
Delimit Scope gobyte_scope with gb.
Definition byte_of_num (z : Z) : option Byte.byte :=
  if bool_decide (0 ≤ z)%Z then Byte.of_N (Z.to_N z) else None.
Definition num_of_byte (b : Byte.byte) : Z := u8 b.
Number Notation Byte.byte byte_of_num num_of_byte : gobyte_scope.

(** A Go string literal. *)
Definition str (s : string) : GoString := String.list_byte_of_string s.
Arguments str _%_string_scope.

(** * Outcomes of a Go computation

    [Ret] is a normal return, [Panic] a run-time panic (an index or a slice out
    of range, a failed type assertion, a nil dereference), [OutOfFuel] marks a
    bounded loop of the model that was cut short: theorems show it never occurs. *)

Inductive go (A : Type) : Type :=
| Ret (a : A)
| Panic
| OutOfFuel.
Arguments Ret {A} a.
Arguments Panic {A}.
Arguments OutOfFuel {A}.

#[export] Instance go_ret : MRet go := @Ret.
#[export] Instance go_bind : MBind go := λ A B k m,
  match m with Ret a => k a | Panic => Panic | OutOfFuel => OutOfFuel end.

(** * Slices and arrays

    [sub i n b] is the window of [n] bytes at offset [i].  The Go slice
    expressions panic when a bound exceeds the length.  (Go itself checks the
    upper bound against the capacity; the model is stricter, so that the absence
    of panics proved here also says that no slice reaches past its length.) *)

Definition sub (i n : nat) (b : bytes) : bytes := take n (drop i b).

(** [b[i]] *)
Definition index (b : bytes) (i : nat) : go Byte.byte :=
  match b !! i with Some x => Ret x | None => Panic end.

(** [b[i:j]] *)
Definition slice (b : bytes) (i j : nat) : go bytes :=
  if bool_decide (i ≤ j ∧ j ≤ length b) then Ret (sub i (j - i) b) else Panic.

(** [b[i:]] *)
Definition slice_from (b : bytes) (i : nat) : go bytes := slice b i (length b).

(** [copy(dst[off:], src)]: copies [min(len(dst)-off, len(src))] bytes. *)
Definition copy_at (off : nat) (src dst : bytes) : bytes :=
  take off dst ++ take (length dst - off) src ++ drop (off + length src) dst.

(** [binary.BigEndian.Uint16] and [binary.BigEndian.PutUint16]; the latter
    returns the two bytes written. *)
Definition Uint16 (b : bytes) : go Z :=
  b1 ← index b 1; b0 ← index b 0;
  Ret (Z.lor (u8 b1) (Z.shiftl (u8 b0) 8)).

Definition PutUint16 (v : Z) : bytes := [to_byte (Z.shiftr v 8); to_byte v].

(** The conversion [uint16(z)]. *)
Definition u16 (z : Z) : Z := z `mod` 65536.

(** * Automation *)

Create HintDb pixie.
Create Rewrite HintDb pixie_simpl.

(** Case analysis on the tests of a definition, outermost first. *)
Ltac case_test :=
  match goal with
  | |- context [bool_decide ?P] => case_bool_decide
  | |- context [decide ?P] => case_decide
  | |- context [if ?b then _ else _] => destruct b eqn:?
  | |- context [match ?x with _ => _ end] => destruct x eqn:?
  end.

(** Split conjunctions and existentials of the context. *)
Ltac split_hyps :=
  repeat match goal with
  | H : _ ∧ _ |- _ => let H' := fresh H in destruct H as [H' H]
  | H : ∃ _, _ |- _ => let x := fresh "x" in destruct H as [x H]
  | H : _ * _ |- _ => let x := fresh "x" in destruct H as [x H]
  end.

(** ** Lemmas on bytes *)

Lemma u8_range b : (0 ≤ u8 b < 256)%Z.
Proof. unfold u8. pose proof (Byte.to_N_bounded b). lia. Qed.

Lemma u8_inj a b : u8 a = u8 b → a = b.
Proof.
  intros H%N2Z.inj.
  pose proof (Byte.of_to_N a) as Ha. pose proof (Byte.of_to_N b) as Hb.
  rewrite H in Ha. congruence.
Qed.

Lemma u8_to_byte z : u8 (to_byte z) = (z `mod` 256)%Z.
Proof.
  pose proof (Z.mod_pos_bound z 256 ltac:(lia)) as Hz.
  unfold u8, to_byte.
  destruct (Byte.of_N (Z.to_N (z `mod` 256))) as [b|] eqn:E; simpl.
  - rewrite (Byte.to_of_N _ E). lia.
  - apply Byte.of_N_None_iff in E. lia.
Qed.

Lemma to_byte_u8 b : to_byte (u8 b) = b.
Proof.
  apply u8_inj. rewrite u8_to_byte, Z.mod_small; [done|apply u8_range].
Qed.

Lemma u8_to_byte_small z : (0 ≤ z < 256)%Z → u8 (to_byte z) = z.
Proof. intros. rewrite u8_to_byte. by apply Z.mod_small. Qed.

(** Every statement about one byte that is decided by a boolean test holds
    as soon as the test holds of the 256 values. *)
Definition all_bytes : bytes := map (λ n, to_byte (Z.of_nat n)) (seq 0 256).

Lemma elem_of_all_bytes b : b ∈ all_bytes.
Proof.
  pose proof (u8_range b). unfold all_bytes. apply list_elem_of_In, in_map_iff.
  exists (Z.to_nat (u8 b)). rewrite Z2Nat.id by lia.
  split; [apply to_byte_u8|]. apply in_seq. lia.
Qed.

Lemma byte_forall (P : Byte.byte → bool) :
  forallb P all_bytes = true → ∀ b, P b = true.
Proof.
  intros H b. rewrite forallb_forall in H.
  apply H, list_elem_of_In, elem_of_all_bytes.
Qed.

Lemma u8_bits_high b n : (8 ≤ n)%Z → Z.testbit (u8 b) n = false.
Proof.
  intros Hn. pose proof (u8_range b). rewrite <- (Z.mod_small (u8 b) (2 ^ 8)) by done.
  apply Z.mod_pow2_bits_high. lia.
Qed.

Lemma Uint16_cons a b l : Uint16 (a :: b :: l) = Ret (u8 a * 256 + u8 b)%Z.
Proof.
  unfold Uint16, index. simpl. f_equal.
  pose proof (u8_range a). pose proof (u8_range b).
  rewrite Z.lor_comm.
  assert (Z.land (Z.shiftl (u8 a) 8) (u8 b) = 0)%Z as Hland;
    [|pose proof (Z.add_lor_land (Z.shiftl (u8 a) 8) (u8 b)) as E;
      rewrite Hland, Z.shiftl_mul_pow2 in * by lia; lia].
  apply Z.bits_inj'. intros n Hn.
  rewrite Z.bits_0, Z.land_spec.
  destruct (decide (n < 8)%Z).
  - by rewrite Z.shiftl_spec_low by lia.
  - rewrite u8_bits_high by lia.
    apply andb_false_r.
Qed.

Lemma Uint16_PutUint16 v l : Uint16 (PutUint16 v ++ l) = Ret (u16 v).
Proof.
  unfold PutUint16, u16. cbn [app]. rewrite Uint16_cons, !u8_to_byte.
  rewrite Z.shiftr_div_pow2 by lia. f_equal.
  pose proof (Z.div_mod v 65536). pose proof (Z.mod_pos_bound v 65536).
  pose proof (Z.div_mod v 256). pose proof (Z.mod_pos_bound v 256).
  pose proof (Z.div_mod (v `div` 256) 256). pose proof (Z.mod_pos_bound (v `div` 256) 256).
  change (2 ^ 8)%Z with 256%Z.
  replace (v `mod` 65536)%Z with (v `mod` (256 * 256))%Z by done.
  rewrite Z.rem_mul_r by lia. lia.
Qed.

(** ** Lemmas on the outcome monad *)

Lemma go_bind_Ret {A B} (k : A → go B) a : (Ret a ≫= k) = k a.
Proof. done. Qed.

Lemma go_bind_inv {A B} (m : go A) (k : A → go B) b :
  (m ≫= k) = Ret b → ∃ a, m = Ret a ∧ k a = Ret b.
Proof. destruct m; simpl; intros; simplify_eq; eauto. Qed.

Lemma map_replicate {A B} (f : A → B) n x : map f (replicate n x) = replicate n (f x).
Proof. induction n as [|n IH]; simpl; congruence. Qed.

(** ** Lemmas on slices *)

Lemma index_lookup b i x : b !! i = Some x → index b i = Ret x.
Proof. unfold index. by intros ->. Qed.

Lemma index_lt b i : i < length b → ∃ x, index b i = Ret x ∧ b !! i = Some x.
Proof. intros [x Hx]%lookup_lt_is_Some. eauto using index_lookup. Qed.

Lemma slice_ok b i j : i ≤ j → j ≤ length b → slice b i j = Ret (sub i (j - i) b).
Proof. intros. unfold slice. by rewrite bool_decide_true. Qed.

Lemma slice_from_ok b i : i ≤ length b → slice_from b i = Ret (drop i b).
Proof.
  intros. unfold slice_from. rewrite slice_ok by lia. unfold sub.
  by rewrite take_ge by (rewrite length_drop; lia).
Qed.

Lemma length_sub i n b : i + n ≤ length b → length (sub i n b) = n.
Proof. intros. unfold sub. rewrite length_take, length_drop. lia. Qed.

Lemma sub_app_l i n a b : i + n ≤ length a → sub i n (a ++ b) = sub i n a.
Proof.
  intros. unfold sub. rewrite drop_app_le by lia.
  by rewrite take_app_le by (rewrite length_drop; lia).
Qed.

Lemma sub_app_r i n a b : length a ≤ i → sub i n (a ++ b) = sub (i - length a) n b.
Proof. intros. unfold sub. by rewrite drop_app_ge by lia. Qed.

Lemma lookup_copy_at off src dst i :
  off + length src ≤ length dst →
  copy_at off src dst !! i =
    if decide (off ≤ i < off + length src) then src !! (i - off) else dst !! i.
Proof.
  intros Hlen. unfold copy_at. rewrite (take_ge src) by lia.
  assert (length (take off dst) = off) as Hoff by (rewrite length_take; lia).
  case_decide as Hd.
  - rewrite lookup_app_r, Hoff by lia. rewrite lookup_app_l by lia. done.
  - destruct (decide (i < off)).
    + rewrite lookup_app_l by lia. by rewrite lookup_take_lt.
    + rewrite lookup_app_r, Hoff by lia. rewrite lookup_app_r by lia.
      rewrite lookup_drop. f_equal. lia.
Qed.

Lemma length_copy_at off src dst :
  off + length src ≤ length dst → length (copy_at off src dst) = length dst.
Proof.
  intros. unfold copy_at.
  rewrite !length_app, !length_take, length_drop. lia.
Qed.

Lemma copy_at_app off src a r :
  length a = off → length src ≤ length r →
  copy_at off src (a ++ r) = a ++ src ++ drop (length src) r.
Proof.
  intros <- Hr. unfold copy_at. rewrite take_app_length, length_app.
  rewrite (take_ge src) by lia. do 2 f_equal.
  rewrite drop_app_ge by lia. f_equal. lia.
Qed.

Lemma lookup_sub i n b k : sub i n b !! k = if decide (k < n) then b !! (i + k) else None.
Proof.
  unfold sub. case_decide.
  - by rewrite lookup_take_lt, lookup_drop.
  - by rewrite lookup_take_ge by lia.
Qed.

Lemma sub_copy_same off n src dst :
  length src = n → off + n ≤ length dst → sub off n (copy_at off src dst) = src.
Proof.
  intros <- ?. apply list_eq. intros k. rewrite lookup_sub, lookup_copy_at by done.
  case_decide as Hk.
  - rewrite decide_True by lia. f_equal. lia.
  - symmetry. apply lookup_ge_None. lia.
Qed.

Lemma sub_copy_other i n off src dst :
  off + length src ≤ length dst → i + n ≤ off ∨ off + length src ≤ i →
  sub i n (copy_at off src dst) = sub i n dst.
Proof.
  intros. apply list_eq. intros k. rewrite !lookup_sub, lookup_copy_at by done.
  case_decide; [|done]. by rewrite decide_False by lia.
Qed.

#[export] Hint Rewrite @length_sub using (simpl; lia) : pixie_simpl.
#[export] Hint Rewrite length_copy_at using (simpl; lia) : pixie_simpl.
#[export] Hint Resolve u8_range u8_to_byte to_byte_u8 elem_of_all_bytes : pixie.
