(* ===== verification/GoStrings.v ===== *)
(** The parts of Go's [bytes], [strings], [strconv] and [path/filepath] that the
    program calls, on byte sequences, with the lemmas its theorems use. *)
From S2P Require Import Prelude.

(** * bytes and strings *)

(** [bytes.IndexByte]: [None] is Go's -1. *)
Fixpoint IndexByte (b : bytes) (c : Byte.byte) : option nat :=
  match b with
  | [] => None
  | x :: b' => if decide (x = c) then Some 0 else S <$> IndexByte b' c
  end.

(** [strings.HasPrefix] and [strings.HasSuffix]. *)
Definition HasPrefix (s prefix : GoString) : bool :=
  bool_decide (take (length prefix) s = prefix).

Definition HasSuffix (s suffix : GoString) : bool :=
  bool_decide (length suffix ≤ length s ∧ drop (length s - length suffix) s = suffix).

(** [strings.Join]. *)
Fixpoint Join (l : list GoString) (sep : GoString) : GoString :=
  match l with
  | [] => []
  | [s] => s
  | s :: l' => s ++ sep ++ Join l' sep
  end.

(** [strings.Split] for a separator of one byte. *)
Fixpoint Split (s : GoString) (sep : Byte.byte) : list GoString :=
  match s with
  | [] => [[]]
  | c :: s' =>
      if decide (c = sep) then [] :: Split s' sep
      else match Split s' sep with
           | [] => [[c]]
           | x :: l => (c :: x) :: l
           end
  end.

(** [strings.Replace(s, old, new, -1)] for an [old] of one byte. *)
Definition Replace (s : GoString) (old : Byte.byte) (new : GoString) : GoString :=
  flat_map (λ c, if decide (c = old) then new else [c]) s.

(** * path/filepath *)

Fixpoint drop_while (f : Byte.byte → bool) (s : bytes) : bytes :=
  match s with
  | [] => []
  | c :: s' => if f c then drop_while f s' else s
  end.

Fixpoint take_while (f : Byte.byte → bool) (s : bytes) : bytes :=
  match s with
  | [] => []
  | c :: s' => if f c then c :: take_while f s' else []
  end.

Definition is_slash (c : Byte.byte) : bool := bool_decide (c = 47%gb).

(** [filepath.Base] on Unix: trailing slashes are stripped, then everything up
    to the last remaining slash. *)
Definition Base (path : GoString) : GoString :=
  match path with
  | [] => str "."
  | _ =>
      let stripped := drop_while is_slash (rev path) in
      match rev (take_while (λ c, negb (is_slash c)) stripped) with
      | [] => str "/"
      | p => p
      end
  end.

(** * strconv *)

(** Decimal digits of a non-negative number, most significant first. *)
Fixpoint dec_digits (fuel : nat) (n : Z) : GoString :=
  match fuel with
  | O => []
  | S fuel =>
      (if (n <? 10)%Z then [] else dec_digits fuel (n `div` 10)) ++
      [to_byte (48 + n `mod` 10)]
  end.

Definition Utoa (n : Z) : GoString := dec_digits (S (Z.to_nat (Z.log2 n))) n.

(** [strconv.Itoa]. *)
Definition Itoa (z : Z) : GoString :=
  if (z <? 0)%Z then 45%gb :: Utoa (- z) else Utoa z.

Definition is_digit (b : Byte.byte) : bool := (48 <=? u8 b)%Z && (u8 b <=? 57)%Z.

(** The value of a digit string, [None] when a byte is not a digit. *)
Fixpoint digits_value (acc : Z) (s : GoString) : option Z :=
  match s with
  | [] => Some acc
  | c :: s' => if is_digit c then digits_value (10 * acc + (u8 c - 48)) s' else None
  end.

Definition max_int : Z := 2 ^ 63 - 1.
Definition min_int : Z := - 2 ^ 63.

(** [strconv.Atoi] with a 64-bit [int]; [None] is a syntax or a range error. *)
Definition Atoi (s : GoString) : option Z :=
  let signed neg s' :=
    match s' with
    | [] => None
    | _ =>
        match digits_value 0 s' with
        | Some v =>
            let z := if neg : bool then (- v)%Z else v in
            if bool_decide (min_int ≤ z ≤ max_int)%Z then Some z else None
        | None => None
        end
    end in
  match s with
  | 45%gb :: s' => signed true s'
  | 43%gb :: s' => signed false s'
  | _ => signed false s
  end.

(** Lower-case hexadecimal digits. *)
Definition hex_digit (n : Z) : Byte.byte :=
  if (n <? 10)%Z then to_byte (48 + n) else to_byte (87 + n).

Definition hex2 (b : Byte.byte) : GoString :=
  [hex_digit (u8 b `div` 16); hex_digit (u8 b `mod` 16)].

(** * Lemmas *)

(** ** NUL-free strings and IndexByte *)

Lemma IndexByte_app s c l : c ∉ s → IndexByte (s ++ c :: l) c = Some (length s).
Proof.
  induction s as [|x s IH]; simpl; intros Hc.
  - by rewrite decide_True.
  - rewrite not_elem_of_cons in Hc. destruct Hc as [Hx Hs].
    rewrite decide_False by congruence. by rewrite IH.
Qed.

Lemma IndexByte_Some b c i :
  IndexByte b c = Some i → c ∉ take i b ∧ b = take i b ++ c :: drop (S i) b.
Proof.
  revert i. induction b as [|x b IH]; simpl; intros i H; [done|].
  case_decide as Hx.
  - simplify_eq. split; [set_solver|done].
  - destruct (IndexByte b c) as [j|] eqn:E; simplify_eq/=.
    destruct (IH j eq_refl) as [H1 H2]. split; [set_solver|].
    by rewrite <- H2.
Qed.

Lemma IndexByte_None b c : IndexByte b c = None ↔ c ∉ b.
Proof.
  induction b as [|x b IH]; simpl; [set_solver|].
  case_decide; [set_solver|].
  destruct (IndexByte b c); simpl; set_solver.
Qed.

(** ** Decimal conversions *)

Lemma digits_value_app acc s t :
  digits_value acc (s ++ t) = (digits_value acc s ≫= λ a, digits_value a t).
Proof.
  revert acc. induction s as [|c s IH]; intros acc; simpl; [done|].
  by destruct (is_digit c).
Qed.

Lemma u8_digit d : (0 ≤ d < 10)%Z → u8 (to_byte (48 + d)) = (48 + d)%Z.
Proof. intros. apply u8_to_byte_small. lia. Qed.

Lemma is_digit_digit d : (0 ≤ d < 10)%Z → is_digit (to_byte (48 + d)) = true.
Proof. intros. unfold is_digit. rewrite u8_digit by lia. lia. Qed.

Lemma dec_digits_value fuel n :
  (0 ≤ n < 2 ^ Z.of_nat fuel)%Z → digits_value 0 (dec_digits fuel n) = Some n.
Proof.
  revert n. induction fuel as [|fuel IH]; intros n Hn.
  { simpl in *. f_equal. lia. }
  pose proof (Z.mod_pos_bound n 10 ltac:(lia)) as Hm.
  simpl. rewrite digits_value_app. destruct (Z.ltb_spec n 10).
  - simpl. rewrite is_digit_digit, u8_digit by lia. f_equal.
    rewrite Z.mod_small by lia. lia.
  - rewrite IH.
    + simpl. rewrite is_digit_digit, u8_digit by lia. f_equal.
      pose proof (Z.div_mod n 10). lia.
    + rewrite Nat2Z.inj_succ, Z.pow_succ_r in Hn by lia.
      split; [apply Z.div_pos; lia|]. apply Z.div_lt_upper_bound; lia.
Qed.

Lemma Utoa_value n : (0 ≤ n)%Z → digits_value 0 (Utoa n) = Some n.
Proof.
  intros Hn. apply dec_digits_value. split; [done|].
  rewrite Nat2Z.inj_succ, Z2Nat.id by apply Z.log2_nonneg.
  destruct (decide (n = 0)%Z) as [->|]; [done|].
  apply Z.log2_spec. lia.
Qed.

Lemma dec_digits_digits fuel n : (0 ≤ n)%Z → Forall (λ b, is_digit b = true) (dec_digits fuel n).
Proof.
  revert n. induction fuel as [|fuel IH]; intros n Hn; simpl; [constructor|].
  pose proof (Z.mod_pos_bound n 10 ltac:(lia)).
  apply Forall_app. split.
  - destruct (n <? 10)%Z; [constructor|]. apply IH, Z.div_pos; lia.
  - constructor; [|constructor]. apply is_digit_digit. lia.
Qed.

Lemma Utoa_digits n : (0 ≤ n)%Z → Forall (λ b, is_digit b = true) (Utoa n).
Proof. apply dec_digits_digits. Qed.

Lemma Utoa_nonempty n : Utoa n ≠ [].
Proof. unfold Utoa. cbn [dec_digits]. intros H%app_eq_nil. naive_solver. Qed.

Lemma dec_digits_length fuel n (k : nat) :
  (0 ≤ n < 10 ^ Z.of_nat k)%Z → 1 ≤ k → length (dec_digits fuel n) ≤ k.
Proof.
  revert n k. induction fuel as [|fuel IH]; intros n k Hn Hk; simpl; [lia|].
  rewrite length_app. simpl. destruct (Z.ltb_spec n 10); simpl; [lia|].
  destruct k as [|[|k]]; [lia|simpl in *; lia|].
  specialize (IH (n `div` 10)%Z (S k)). rewrite Nat.add_1_r. apply le_n_S, IH; [|lia].
  split; [apply Z.div_pos; lia|]. apply Z.div_lt_upper_bound; [lia|].
  rewrite (Nat2Z.inj_succ (S k)), Z.pow_succ_r in Hn by lia. lia.
Qed.

(** The numeral of an [int] has at most 20 characters, that of a byte at most 3. *)
Lemma Itoa_length z : (min_int ≤ z ≤ max_int)%Z → length (Itoa z) ≤ 20.
Proof.
  unfold min_int, max_int. intros Hz. unfold Itoa, Utoa. destruct (Z.ltb_spec z 0).
  - cbn [length]. apply le_n_S, dec_digits_length; lia.
  - transitivity 19; [apply dec_digits_length; lia|lia].
Qed.

Lemma Itoa_u8_length b : length (Itoa (u8 b)) ≤ 3.
Proof.
  pose proof (u8_range b). unfold Itoa, Utoa.
  destruct (Z.ltb_spec (u8 b) 0); [lia|]. apply dec_digits_length; lia.
Qed.

Lemma Itoa_nonempty z : Itoa z ≠ [].
Proof. unfold Itoa. destruct (z <? 0)%Z; [done|]. apply Utoa_nonempty. Qed.

(** [Atoi] inverts [Itoa] on every value of the [int] type. *)
Lemma Atoi_Itoa z : (min_int ≤ z ≤ max_int)%Z → Atoi (Itoa z) = Some z.
Proof.
  intros Hz. unfold Itoa, Atoi. destruct (Z.ltb_spec z 0).
  - pose proof (Utoa_nonempty (- z)) as Hne. pose proof (Utoa_value (- z)) as Hv.
    destruct (Utoa (- z)) as [|c s] eqn:E; [done|].
    rewrite Hv by lia. rewrite bool_decide_true by lia. f_equal. lia.
  - pose proof (Utoa_nonempty z) as Hne. pose proof (Utoa_value z) as Hv.
    pose proof (Utoa_digits z) as Hd.
    destruct (Utoa z) as [|c s] eqn:E; [done|].
    rewrite Hv by lia. specialize (Hd ltac:(lia)). inversion Hd as [|? ? Hc _]; subst.
    assert (c ≠ 45%gb ∧ c ≠ 43%gb) as [? ?] by (split; by intros ->).
    rewrite bool_decide_true by lia. by destruct c.
Qed.

(** A decimal numeral contains only digits and a minus sign. *)
Lemma Itoa_not_in c z : is_digit c = false → c ≠ 45%gb → c ∉ Itoa z.
Proof.
  intros Hc Hm. unfold Itoa.
  assert (∀ n, (0 ≤ n)%Z → c ∉ Utoa n) as Hu.
  { intros n Hn Hin. pose proof (Utoa_digits n Hn) as H.
    rewrite Forall_forall in H. rewrite (H c Hin) in Hc. done. }
  destruct (Z.ltb_spec z 0); [apply not_elem_of_cons; split; [done|]|]; apply Hu; lia.
Qed.

(** ** Paths *)

Lemma drop_while_id f s : (∀ c, c ∈ s → f c = false) → drop_while f s = s.
Proof. destruct s as [|c s]; simpl; [done|]. intros H. rewrite H by set_solver. done. Qed.

Lemma take_while_app f s c l :
  (∀ x, x ∈ s → f x = true) → f c = false → take_while f (s ++ c :: l) = s.
Proof.
  induction s as [|x s IH]; simpl; intros Hs Hc; [by rewrite Hc|].
  rewrite Hs by set_solver. rewrite IH; [done|set_solver|done].
Qed.

(** The base of [dir/name] is [name] when [name] is a non-empty plain name. *)
Lemma Base_join dir name :
  47%gb ∉ name → name ≠ [] → Base (dir ++ 47%gb :: name) = name.
Proof.
  intros Hn Hne. unfold Base.
  destruct (dir ++ 47%gb :: name) as [|c0 p0] eqn:Ep; [by destruct dir|]. rewrite <- Ep.
  rewrite rev_app_distr. cbn [rev]. rewrite <- app_assoc. cbn [app].
  assert (∀ x, x ∈ rev name → is_slash x = false) as Hr.
  { intros x Hx. apply list_elem_of_In, in_rev, list_elem_of_In in Hx.
    unfold is_slash. apply bool_decide_eq_false. by intros ->. }
  assert (rev name ≠ []) as Hrn.
  { intros H. apply Hne. rewrite <- (rev_involutive name), H. done. }
  destruct (rev name) as [|x xs] eqn:Er; [done|].
  cbn [app drop_while]. rewrite (Hr x) by set_solver.
  change (x :: xs ++ 47%gb :: rev dir) with ((x :: xs) ++ 47%gb :: rev dir).
  rewrite take_while_app; [|intros y Hy; by rewrite (Hr y)|done].
  rewrite <- Er, rev_involutive. by destruct name.
Qed.

(** ** Joining and splitting *)

Lemma Split_nonempty s c : Split s c ≠ [].
Proof. destruct s as [|x s]; simpl; [done|]. case_decide; [done|]. by destruct (Split s c). Qed.

(** [strings.Join] inverts [strings.Split]. *)
Lemma Join_Split s c : Join (Split s c) [c] = s.
Proof.
  induction s as [|x s IH]; simpl; [done|].
  case_decide as Hx.
  - subst x. destruct (Split s c) as [|y l] eqn:E; [by apply Split_nonempty in E|].
    simpl in *. by rewrite IH.
  - destruct (Split s c) as [|y l] eqn:E; [by apply Split_nonempty in E|].
    rewrite <- IH. by destruct l.
Qed.
