(* ===== verification/GoFmt.v ===== *)
(** Go's [fmt.Sprintf] for the verbs the program uses ([%s], [%q], [%d], [%v]), with
    [strconv.Quote] and the UTF-8 decoding behind [%q]; error values and the
    [(T, error)] results built on them. *)
From S2P Require Import Prelude GoStrings.

(** The Unicode tables of [strconv.IsPrint] above U+00FF are data of the Go
    distribution: a parameter of everything that renders [%q]. *)
Class UnicodeTables := { isPrintHigh : Z → bool }.

(** * UTF-8 *)

Definition RuneError : Z := 65533.
Definition MaxRune : Z := 1114111.

Definition in_range (lo hi z : Z) : bool := (lo <=? z)%Z && (z <=? hi)%Z.
Definition is_cont (b : Byte.byte) : bool := in_range 128 191 (u8 b).

(** The bounds on the second byte that the first byte imposes, and the number of
    continuation bytes; [None] for a byte that starts no sequence. *)
Definition utf8_first (b : Z) : option (nat * Z * Z) :=
  if in_range 194 223 b then Some (1, 128%Z, 191%Z)
  else if (b =? 224)%Z then Some (2, 160%Z, 191%Z)
  else if (b =? 237)%Z then Some (2, 128%Z, 159%Z)
  else if in_range 225 239 b then Some (2, 128%Z, 191%Z)
  else if (b =? 240)%Z then Some (3, 144%Z, 191%Z)
  else if in_range 241 243 b then Some (3, 128%Z, 191%Z)
  else if (b =? 244)%Z then Some (3, 128%Z, 143%Z)
  else None.

Definition cont_bits (b : Byte.byte) : Z := Z.land (u8 b) 63.

(** [utf8.DecodeRuneInString] on a non-empty string: the rune and its width. *)
Definition DecodeRune (s : GoString) : Z * nat :=
  match s with
  | [] => (RuneError, 0)
  | b0 :: s1 =>
      if (u8 b0 <? 128)%Z then (u8 b0, 1) else
      match utf8_first (u8 b0), s1 with
      | Some (1, lo, hi), b1 :: _ =>
          if in_range lo hi (u8 b1)
          then (Z.lor (Z.shiftl (Z.land (u8 b0) 31) 6) (cont_bits b1), 2)
          else (RuneError, 1)
      | Some (2, lo, hi), b1 :: b2 :: _ =>
          if in_range lo hi (u8 b1) && is_cont b2
          then (Z.lor (Z.shiftl (Z.land (u8 b0) 15) 12)
                  (Z.lor (Z.shiftl (cont_bits b1) 6) (cont_bits b2)), 3)
          else (RuneError, 1)
      | Some (3, lo, hi), b1 :: b2 :: b3 :: _ =>
          if in_range lo hi (u8 b1) && is_cont b2 && is_cont b3
          then (Z.lor (Z.shiftl (Z.land (u8 b0) 7) 18)
                  (Z.lor (Z.shiftl (cont_bits b1) 12)
                     (Z.lor (Z.shiftl (cont_bits b2) 6) (cont_bits b3))), 4)
          else (RuneError, 1)
      | _, _ => (RuneError, 1)
      end
  end.

(** [utf8.AppendRune]. *)
Definition EncodeRune (r : Z) : GoString :=
  let cont k := to_byte (128 + Z.land (Z.shiftr r k) 63) in
  if in_range 0 127 r then [to_byte r]
  else if in_range 0 2047 r then [to_byte (192 + Z.shiftr r 6); cont 0%Z]
  else if in_range 55296 57343 r || negb (in_range 0 MaxRune r)
  then [239; 191; 189]%gb
  else if in_range 0 65535 r
  then [to_byte (224 + Z.shiftr r 12); cont 6%Z; cont 0%Z]
  else [to_byte (240 + Z.shiftr r 18); cont 12%Z; cont 6%Z; cont 0%Z].

Definition ValidRune (r : Z) : bool := in_range 0 55295 r || in_range 57344 MaxRune r.

(** * strconv.Quote and strconv.QuoteRune *)

Section quote.
Context `{UnicodeTables}.

(** [strconv.IsPrint], with its Latin-1 fast path. *)
Definition IsPrint (r : Z) : bool :=
  if (r <=? 255)%Z
  then in_range 32 126 r || (in_range 161 255 r && negb (r =? 173)%Z)
  else isPrintHigh r.

Fixpoint hex_fixed (digits : nat) (r : Z) : GoString :=
  match digits with
  | O => []
  | S d => hex_fixed d (Z.shiftr r 4) ++ [hex_digit (Z.land r 15)]
  end.

(** [appendEscapedRune(buf, r, quote, false, false)]. *)
Definition escape_rune (quote r : Z) : GoString :=
  if (r =? quote)%Z || (r =? 92)%Z then [92%gb; to_byte r]
  else if IsPrint r then EncodeRune r
  else match r with
       | 7%Z => str "\a" | 8%Z => str "\b" | 12%Z => str "\f" | 10%Z => str "\n"
       | 13%Z => str "\r" | 9%Z => str "\t" | 11%Z => str "\v"
       | _ =>
           if (r <? 32)%Z || (r =? 127)%Z then str "\x" ++ hex_fixed 2 r
           else let r := if ValidRune r then r else RuneError in
                if (r <? 65536)%Z then str "\u" ++ hex_fixed 4 r
                else str "\U" ++ hex_fixed 8 r
       end.

(** The loop of [appendQuotedWith]; the fuel is the length of the string, and
    every iteration consumes at least one byte. *)
Fixpoint quote_body (fuel : nat) (s : GoString) : GoString :=
  match fuel, s with
  | S fuel, b :: _ =>
      let '(r, width) := if (u8 b <? 128)%Z then (u8 b, 1) else DecodeRune s in
      (if bool_decide (width = 1) && (r =? RuneError)%Z
       then str "\x" ++ hex2 b else escape_rune 34 r) ++
      quote_body fuel (drop (width `max` 1) s)
  | _, _ => []
  end.

Definition Quote (s : GoString) : GoString :=
  34%gb :: quote_body (length s) s ++ [34%gb].

(** [%q] of an integer: a quoted character literal. *)
Definition QuoteRune (c : Z) : GoString :=
  let r := if in_range 0 MaxRune c then c else RuneError in
  let r := if ValidRune r then r else RuneError in
  39%gb :: escape_rune 39 r ++ [39%gb].

(** * fmt.Sprintf *)

(** An operand: something with a text (a string, an [error] through [Error()], a
    [Stringer] through [String()]), or an [int]. *)
Inductive arg :=
| AStr (s : GoString)
| AInt (z : Z).

Definition typed_value (a : arg) : GoString :=
  match a with
  | AStr s => str "string=" ++ s
  | AInt z => str "int=" ++ Itoa z
  end.

Definition bad_verb (v : Byte.byte) (a : arg) : GoString :=
  str "%!" ++ [v] ++ str "(" ++ typed_value a ++ str ")".

Definition format_verb (v : Byte.byte) (a : arg) : GoString :=
  match v, a with
  | 115%gb, AStr s => s
  | 118%gb, AStr s => s
  | 118%gb, AInt z => Itoa z
  | 113%gb, AStr s => Quote s
  | 113%gb, AInt z => QuoteRune z
  | 100%gb, AInt z => Itoa z
  | _, _ => bad_verb v a
  end.

(** Verbs without flags or width, which is all the program's formats have. *)
Fixpoint Sprintf (f : GoString) (args : list arg) : GoString :=
  match f with
  | [] =>
      match args with
      | [] => []
      | _ => str "%!(EXTRA " ++ Join (map typed_value args) (str ", ") ++ str ")"
      end
  | [37%gb] => str "%!(NOVERB)"
  | 37%gb :: 37%gb :: f' => 37%gb :: Sprintf f' args
  | 37%gb :: v :: f' =>
      match args with
      | a :: args' => format_verb v a ++ Sprintf f' args'
      | [] => str "%!" ++ [v] ++ str "(MISSING)" ++ Sprintf f' []
      end
  | c :: f' => c :: Sprintf f' args
  end.

End quote.

(** * Errors *)

(** [errors.New] (also every error that comes from outside the program, by its
    text) and [fmt.Errorf], kept unrendered. *)
Inductive error :=
| ErrNew (s : GoString)
| Errorf (f : GoString) (args : list arg).

(** The method [Error()]. *)
Definition Error `{UnicodeTables} (e : error) : GoString :=
  match e with
  | ErrNew s => s
  | Errorf f args => Sprintf f args
  end.

(** A [(T, error)] result: the value when the error is nil, else the error. *)
Inductive result (A : Type) : Type :=
| Ok (a : A)
| Err (e : error).
Arguments Ok {A} a.
Arguments Err {A} e.

#[export] Instance arg_eq_dec : EqDecision arg.
Proof. solve_decision. Defined.
#[export] Instance error_eq_dec : EqDecision error.
Proof. solve_decision. Defined.
#[export] Instance result_eq_dec {A} `{EqDecision A} : EqDecision (result A).
Proof. solve_decision. Defined.

Definition is_ok {A} (r : result A) : bool := match r with Ok _ => true | Err _ => false end.

(** [return err] on a non-nil error, inside a function with [(T, error)] result. *)
#[export] Instance result_ret : MRet result := @Ok.
#[export] Instance result_bind : MBind result := λ A B k m,
  match m with Ok a => k a | Err e => Err e end.

(** Tables with which witnesses and examples evaluate: nothing above U+00FF is
    printable. *)
Definition latin1_tables : UnicodeTables := {| isPrintHigh := λ _, false |}.

(** * Lemmas on UTF-8 *)

Lemma lor_shiftl a b k : (0 ≤ k)%Z → (0 ≤ b < 2 ^ k)%Z → Z.lor (Z.shiftl a k) b = (a * 2 ^ k + b)%Z.
Proof.
  intros Hk Hb. rewrite <- Z.shiftl_mul_pow2 by done.
  assert (Z.land (Z.shiftl a k) b = 0)%Z as E.
  { apply Z.bits_inj'. intros n Hn. rewrite Z.land_spec, Z.bits_0, andb_false_iff.
    destruct (Z.lt_ge_cases n k).
    - left. by apply Z.shiftl_spec_low.
    - right. rewrite <- (Z.mod_small b (2 ^ k)) by done. by apply Z.mod_pow2_bits_high. }
  pose proof (Z.add_lor_land (Z.shiftl a k) b). lia.
Qed.

Lemma in_range_spec lo hi z : in_range lo hi z = true ↔ (lo ≤ z ≤ hi)%Z.
Proof. unfold in_range. lia. Qed.

Lemma in_range_false lo hi z : in_range lo hi z = false ↔ (z < lo ∨ hi < z)%Z.
Proof. unfold in_range. lia. Qed.

(** The payload bits of the bytes of a sequence. *)
Lemma land_bits x k lo : (0 ≤ k)%Z → (lo `mod` 2 ^ k = 0)%Z → (lo ≤ x < lo + 2 ^ k)%Z →
  Z.land x (Z.ones k) = (x - lo)%Z.
Proof.
  intros Hk Hlo Hx. rewrite Z.land_ones by done.
  assert (0 < 2 ^ k)%Z by (apply Z.pow_pos_nonneg; lia).
  replace x with ((x - lo) + (lo `div` 2 ^ k) * 2 ^ k)%Z at 1 by (pose proof (Z.div_mod lo (2 ^ k)); lia).
  rewrite Z.mod_add by lia. apply Z.mod_small. lia.
Qed.

Lemma cont_bits_eq b : (128 ≤ u8 b ≤ 191)%Z → cont_bits b = (u8 b - 128)%Z.
Proof. intros. apply (land_bits _ 6 128); [lia|done|simpl; lia]. Qed.

(** The continuation byte for the six bits [x] of a rune [q * 64 + x]. *)
Lemma cont_byte r k b q :
  (0 ≤ k)%Z → (128 ≤ u8 b ≤ 191)%Z → Z.shiftr r k = (q * 64 + (u8 b - 128))%Z →
  to_byte (128 + Z.land (Z.shiftr r k) 63) = b.
Proof.
  intros Hk Hb ->. rewrite (Z.land_ones _ 6) by lia. change (2 ^ 6)%Z with 64%Z.
  rewrite (Z.add_comm (q * 64)), Z.mod_add, Z.mod_small by lia.
  replace (128 + (u8 b - 128))%Z with (u8 b) by lia. apply to_byte_u8.
Qed.

Lemma first_byte z b : z = u8 b → to_byte z = b.
Proof. intros ->. apply to_byte_u8. Qed.

Ltac div_by_hand := repeat rewrite Z.shiftr_div_pow2 by lia; Z.to_euclidean_division_equations; lia.

Lemma EncodeRune_2 b0 b1 :
  (194 ≤ u8 b0 ≤ 223)%Z → (128 ≤ u8 b1 ≤ 191)%Z →
  EncodeRune (Z.lor (Z.shiftl (Z.land (u8 b0) 31) 6) (cont_bits b1)) = [b0; b1].
Proof.
  intros H0 H1. rewrite cont_bits_eq, (land_bits _ 5 192), lor_shiftl by (first [done|simpl; lia]).
  set (r := (_ * _ + _)%Z). assert (r = (u8 b0 - 192) * 64 + (u8 b1 - 128))%Z as Hr by done. clearbody r.
  unfold EncodeRune. rewrite (proj2 (in_range_false 0 127 r)), (proj2 (in_range_spec 0 2047 r)) by lia.
  f_equal; [apply first_byte|f_equal; apply (cont_byte r 0 b1 (u8 b0 - 192))]; try lia; div_by_hand.
Qed.

Lemma EncodeRune_3 b0 b1 b2 lo hi :
  utf8_first (u8 b0) = Some (2, lo, hi) → (lo ≤ u8 b1 ≤ hi)%Z → (128 ≤ u8 b2 ≤ 191)%Z →
  EncodeRune (Z.lor (Z.shiftl (Z.land (u8 b0) 15) 12)
                (Z.lor (Z.shiftl (cont_bits b1) 6) (cont_bits b2))) = [b0; b1; b2].
Proof.
  intros Hf H1 H2.
  assert ((u8 b0 = 224 ∧ 160 ≤ u8 b1 ≤ 191) ∨ (u8 b0 = 237 ∧ 128 ≤ u8 b1 ≤ 159) ∨
          (225 ≤ u8 b0 ≤ 239 ∧ u8 b0 ≠ 237 ∧ 128 ≤ u8 b1 ≤ 191))%Z as Hb.
  { revert Hf. unfold utf8_first, in_range. repeat case_test; intros [= <- <-]; lia. }
  rewrite !cont_bits_eq by lia.
  rewrite (land_bits _ 4 224), (lor_shiftl (u8 b1 - 128) _ 6), lor_shiftl by (first [done|simpl; lia]).
  set (r := (_ * 2 ^ 12 + _)%Z).
  assert (r = (u8 b0 - 224) * 4096 + (u8 b1 - 128) * 64 + (u8 b2 - 128))%Z as Hr by (subst r; lia).
  clearbody r. unfold EncodeRune.
  rewrite (proj2 (in_range_false 0 127 r)), (proj2 (in_range_false 0 2047 r)),
    (proj2 (in_range_false 55296 57343 r)), (proj2 (in_range_spec 0 MaxRune r)),
    (proj2 (in_range_spec 0 65535 r)) by (unfold MaxRune; lia).
  cbn [negb orb].
  f_equal; [apply first_byte|f_equal; [apply (cont_byte r 6 b1 (u8 b0 - 224))|
    f_equal; apply (cont_byte r 0 b2 ((u8 b0 - 224) * 64 + (u8 b1 - 128)))]]; try lia; div_by_hand.
Qed.

Lemma EncodeRune_4 b0 b1 b2 b3 lo hi :
  utf8_first (u8 b0) = Some (3, lo, hi) → (lo ≤ u8 b1 ≤ hi)%Z → (128 ≤ u8 b2 ≤ 191)%Z →
  (128 ≤ u8 b3 ≤ 191)%Z →
  EncodeRune (Z.lor (Z.shiftl (Z.land (u8 b0) 7) 18)
                (Z.lor (Z.shiftl (cont_bits b1) 12)
                   (Z.lor (Z.shiftl (cont_bits b2) 6) (cont_bits b3)))) = [b0; b1; b2; b3].
Proof.
  intros Hf H1 H2 H3.
  assert ((u8 b0 = 240 ∧ 144 ≤ u8 b1 ≤ 191) ∨ (u8 b0 = 244 ∧ 128 ≤ u8 b1 ≤ 143) ∨
          (241 ≤ u8 b0 ≤ 243 ∧ 128 ≤ u8 b1 ≤ 191))%Z as Hb.
  { revert Hf. unfold utf8_first, in_range. repeat case_test; intros [= <- <-]; lia. }
  rewrite !cont_bits_eq by lia.
  rewrite (land_bits _ 3 240), (lor_shiftl (u8 b2 - 128) _ 6), (lor_shiftl (u8 b1 - 128) _ 12),
    lor_shiftl by (first [done|simpl; lia]).
  set (r := (_ * 2 ^ 18 + _)%Z).
  assert (r = (u8 b0 - 240) * 262144 + (u8 b1 - 128) * 4096 + (u8 b2 - 128) * 64 + (u8 b3 - 128))%Z
    as Hr by (subst r; lia).
  clearbody r. unfold EncodeRune.
  rewrite (proj2 (in_range_false 0 127 r)), (proj2 (in_range_false 0 2047 r)),
    (proj2 (in_range_false 55296 57343 r)), (proj2 (in_range_spec 0 MaxRune r)),
    (proj2 (in_range_false 0 65535 r)) by (unfold MaxRune; lia).
  cbn [negb orb].
  f_equal; [apply first_byte|f_equal; [apply (cont_byte r 12 b1 (u8 b0 - 240))|f_equal;
    [apply (cont_byte r 6 b2 ((u8 b0 - 240) * 64 + (u8 b1 - 128)))|f_equal;
     apply (cont_byte r 0 b3 (((u8 b0 - 240) * 64 + (u8 b1 - 128)) * 64 + (u8 b2 - 128)))]]];
    try lia; div_by_hand.
Qed.

(** A decoded rune of more than one byte: its bytes are above ASCII, what follows
    them does not matter, and encoding it gives them back. *)
Lemma DecodeRune_multi c s r w :
  (128 ≤ u8 c)%Z → DecodeRune (c :: s) = (r, w) →
  (w = 1 ∧ r = RuneError) ∨
  (2 ≤ w ≤ length (c :: s) ∧ Forall (λ b, 128 ≤ u8 b)%Z (take w (c :: s)) ∧
   (∀ t, DecodeRune (take w (c :: s) ++ t) = (r, w)) ∧ EncodeRune r = take w (c :: s)).
Proof.
  intros Hc. cbn [DecodeRune]. rewrite (proj2 (Z.ltb_ge _ _)) by done.
  destruct (utf8_first (u8 c)) as [[[n lo] hi]|] eqn:Ef; [|intros [= <- <-]; by left].
  assert (128 ≤ lo ∧ hi ≤ 191 ∧ (n = 1%nat → lo = 128 ∧ hi = 191 ∧ 194 ≤ u8 c ≤ 223))%Z as (Hlo & Hhi & H1).
  { pose proof Ef as Ef'. revert Ef'. unfold utf8_first, in_range. repeat case_test; intros [= <- <- <-]; lia. }
  destruct n as [|[|[|[|n]]]].
  - by destruct s; intros [= <- <-]; left.
  - destruct s as [|b1 s]; [intros [= <- <-]; by left|].
    destruct (in_range lo hi (u8 b1)) eqn:E1; intros [= <- <-]; [|by left]. apply in_range_spec in E1.
    right. simpl. split; [lia|]. split; [repeat constructor; lia|]. split.
    + intros t. rewrite (proj2 (Z.ltb_ge _ _)), Ef, (proj2 (in_range_spec lo hi (u8 b1))) by done. done.
    + apply EncodeRune_2; lia.
  - destruct s as [|b1 [|b2 s]]; [intros [= <- <-]; by left..|].
    destruct (in_range lo hi (u8 b1)) eqn:E1, (is_cont b2) eqn:E2; intros [= <- <-]; try by left.
    pose proof E1 as R1. pose proof E2 as R2. apply in_range_spec in R1, R2.
    right. simpl. split; [lia|]. split; [repeat constructor; lia|]. split.
    + intros t. by rewrite (proj2 (Z.ltb_ge _ _)), Ef, E1, E2 by done.
    + by eapply EncodeRune_3.
  - destruct s as [|b1 [|b2 [|b3 s]]]; [intros [= <- <-]; by left..|].
    destruct (in_range lo hi (u8 b1)) eqn:E1, (is_cont b2) eqn:E2, (is_cont b3) eqn:E3;
      intros [= <- <-]; try by left.
    pose proof E1 as R1. pose proof E2 as R2. pose proof E3 as R3. apply in_range_spec in R1, R2, R3.
    right. simpl. split; [lia|]. split; [repeat constructor; lia|]. split.
    + intros t. by rewrite (proj2 (Z.ltb_ge _ _)), Ef, E1, E2, E3 by done.
    + by eapply EncodeRune_4.
  - destruct s; intros [= <- <-]; by left.
Qed.
