(* ===== verification/GoNet.v ===== *)
(** The parts of Go's [net] package the program uses: hardware addresses, IPv4
    addresses and their classes, textual forms, [net.ParseMAC]. *)
From S2P Require Import Prelude GoStrings.

(** * Hardware addresses *)

Abbreviation HardwareAddr := (list Byte.byte).

(** [HardwareAddr.String]. *)
Definition HardwareAddr_String (hw : HardwareAddr) : GoString := Join (map hex2 hw) (str ":").

Definition hex_value (c : Byte.byte) : option Z :=
  let v := u8 c in
  if (48 <=? v)%Z && (v <=? 57)%Z then Some (v - 48)%Z
  else if (97 <=? v)%Z && (v <=? 102)%Z then Some (v - 87)%Z
  else if (65 <=? v)%Z && (v <=? 70)%Z then Some (v - 55)%Z
  else None.

(** [xtoi2(s, e)]: the first two bytes of [s] as a hexadecimal byte; a third
    byte, if there is one, must be [e]. *)
Definition xtoi2 (s : GoString) (e : Byte.byte) : option Byte.byte :=
  match s with
  | c1 :: c2 :: rest =>
      if bool_decide (rest = [] ∨ head rest = Some e)
      then h ← hex_value c1; l ← hex_value c2; Some (to_byte (h * 16 + l))
      else None
  | _ => None
  end.

Fixpoint mac_pairs (n : nat) (s : GoString) (sep : Byte.byte) : option HardwareAddr :=
  match n with
  | O => Some []
  | S n => b ← xtoi2 s sep; bs ← mac_pairs n (drop 3 s) sep; Some (b :: bs)
  end.

Fixpoint mac_quads (n : nat) (s : GoString) (sep : Byte.byte) : option HardwareAddr :=
  match n with
  | O => Some []
  | S n =>
      b1 ← xtoi2 (take 2 s) 0%gb; b2 ← xtoi2 (drop 2 s) sep;
      bs ← mac_quads n (drop 5 s) sep; Some (b1 :: b2 :: bs)
  end.

Definition mac_length_ok (n : nat) : bool := bool_decide (n = 6 ∨ n = 8 ∨ n = 20).

(** [net.ParseMAC]; [None] is its error. *)
Definition ParseMAC (s : GoString) : option HardwareAddr :=
  if (length s <? 14)%nat then None else
  if bool_decide (s !! 2 = Some 58%gb ∨ s !! 2 = Some 45%gb) then
    if bool_decide ((length s + 1) `mod` 3 ≠ 0) then None else
    let n := (length s + 1) / 3 in
    if mac_length_ok n then mac_pairs n s (default 0%gb (s !! 2)) else None
  else if bool_decide (s !! 4 = Some 46%gb) then
    if bool_decide ((length s + 1) `mod` 5 ≠ 0) then None else
    let n := 2 * (length s + 1) / 5 in
    if mac_length_ok n then mac_quads (n / 2) s 46%gb else None
  else None.

(** * IP addresses *)

Abbreviation IP := (list Byte.byte).

Definition v4InV6Prefix : bytes := replicate 10 0%gb ++ [255; 255]%gb.

(** [net.IP.To4]; [None] is nil. *)
Definition To4 (ip : IP) : option IP :=
  if bool_decide (length ip = 4) then Some ip
  else if bool_decide (length ip = 16 ∧ take 12 ip = v4InV6Prefix) then Some (drop 12 ip)
  else None.

(** The address classes, on the 4-byte form that [To4] returns. *)
Definition IPv4bcast : IP := [255; 255; 255; 255]%gb.
Definition IPv4zero : IP := [0; 0; 0; 0]%gb.
Definition IsLoopback (ip : IP) : bool := bool_decide (ip !! 0 = Some 127%gb).
Definition IsMulticast (ip : IP) : bool :=
  match ip !! 0 with Some a => (Z.land (u8 a) 240 =? 224)%Z | None => false end.
Definition IsLinkLocalUnicast (ip : IP) : bool :=
  bool_decide (ip !! 0 = Some 169%gb ∧ ip !! 1 = Some 254%gb).
Definition IsGlobalUnicast (ip : IP) : bool :=
  negb (bool_decide (ip = IPv4bcast)) && negb (bool_decide (ip = IPv4zero)) &&
  negb (IsLoopback ip) && negb (IsMulticast ip) && negb (IsLinkLocalUnicast ip).

(** ** Textual form *)

Fixpoint hex_digits (fuel : nat) (n : Z) : GoString :=
  match fuel with
  | O => []
  | S fuel =>
      (if (n <? 16)%Z then [] else hex_digits fuel (n `div` 16)) ++ [hex_digit (n `mod` 16)]
  end.

Fixpoint groups16 (ip : IP) : list Z :=
  match ip with
  | a :: b :: ip' => (u8 a * 256 + u8 b)%Z :: groups16 ip'
  | _ => []
  end.

Fixpoint zero_run (g : list Z) : nat :=
  match g with 0%Z :: g' => S (zero_run g') | _ => 0 end.

(** The first longest run of zero groups: its start and its length. *)
Fixpoint longest_run (i : nat) (g : list Z) (best : nat * nat) : nat * nat :=
  match g with
  | [] => best
  | _ :: g' =>
      longest_run (S i) g' (if (best.2 <? zero_run g)%nat then (i, zero_run g) else best)
  end.

Definition ip6_string (ip : IP) : GoString :=
  let g := groups16 ip in
  let show l := Join (map (hex_digits 4) l) (str ":") in
  let '(e0, n) := longest_run 0 g (0, 0) in
  if (n <? 2)%nat then show g
  else show (take e0 g) ++ str "::" ++ show (drop (e0 + n) g).

(** [net.IP.String]. *)
Definition IP_String (ip : IP) : GoString :=
  match ip with
  | [] => str "<nil>"
  | _ =>
      match To4 ip with
      | Some ip4 => Join (map (λ b, Itoa (u8 b)) ip4) (str ".")
      | None =>
          if bool_decide (length ip = 16) then ip6_string ip
          else str "?" ++ flat_map hex2 ip
      end
  end.

(** * Network addresses *)

(** A [net.Addr]: a UDP address, or some other implementation of the interface. *)
Inductive Addr :=
| UDPAddr (ip : IP) (port : Z)
| OtherAddr (text : GoString).

Definition Addr_String (a : Addr) : GoString :=
  match a with
  | UDPAddr ip port => IP_String ip ++ str ":" ++ Itoa port
  | OtherAddr t => t
  end.

(** * Lemmas *)

Lemma hex_digit_value n : (0 ≤ n < 16)%Z → hex_value (hex_digit n) = Some n.
Proof.
  intros Hn. assert (n = 0 ∨ n = 1 ∨ n = 2 ∨ n = 3 ∨ n = 4 ∨ n = 5 ∨ n = 6 ∨ n = 7 ∨ n = 8 ∨
    n = 9 ∨ n = 10 ∨ n = 11 ∨ n = 12 ∨ n = 13 ∨ n = 14 ∨ n = 15)%Z as Hc by lia.
  by repeat destruct Hc as [->|Hc]; [..|subst].
Qed.

Lemma xtoi2_hex2 b rest e :
  rest = [] ∨ head rest = Some e → xtoi2 (hex2 b ++ rest) e = Some b.
Proof.
  intros Hr. pose proof (u8_range b) as Hb.
  pose proof (Z.mod_pos_bound (u8 b) 16). pose proof (Z.div_mod (u8 b) 16).
  assert (0 ≤ u8 b `div` 16 < 16)%Z
    by (split; [apply Z.div_pos; lia|apply Z.div_lt_upper_bound; lia]).
  unfold xtoi2, hex2. cbn [app]. rewrite bool_decide_true by done.
  rewrite !hex_digit_value by lia. simpl. f_equal.
  apply u8_inj. rewrite u8_to_byte_small; lia.
Qed.

Lemma mac_pairs_Join hw sep :
  mac_pairs (length hw) (Join (map hex2 hw) [sep]) sep = Some hw.
Proof.
  induction hw as [|b [|b' hw] IH]; [done| |].
  - cbn [length map Join mac_pairs]. rewrite <- (app_nil_r (hex2 b)).
    rewrite xtoi2_hex2 by auto. done.
  - change (Join (map hex2 (b :: b' :: hw)) [sep])
      with (hex2 b ++ [sep] ++ Join (map hex2 (b' :: hw)) [sep]).
    change (length (b :: b' :: hw)) with (S (length (b' :: hw))).
    cbn [mac_pairs]. rewrite xtoi2_hex2 by auto. cbn [mbind option_bind].
    change (drop 3 (hex2 b ++ [sep] ++ Join (map hex2 (b' :: hw)) [sep]))
      with (Join (map hex2 (b' :: hw)) [sep]).
    by rewrite IH.
Qed.

Lemma length_Join_hex2 hw sep :
  hw ≠ [] → length (Join (map hex2 hw) [sep]) + 1 = 3 * length hw.
Proof.
  induction hw as [|b [|b' hw] IH]; [done|done|]. intros _.
  change (Join (map hex2 (b :: b' :: hw)) [sep])
    with (hex2 b ++ [sep] ++ Join (map hex2 (b' :: hw)) [sep]).
  specialize (IH ltac:(done)). rewrite !length_app. simpl in *. lia.
Qed.

(** [ParseMAC] reads back the colon and the dash notation of an address of a
    legal length. *)
Lemma ParseMAC_Join hw sep :
  sep = 58%gb ∨ sep = 45%gb → mac_length_ok (length hw) = true →
  ParseMAC (Join (map hex2 hw) [sep]) = Some hw.
Proof.
  intros Hsep Hok. unfold mac_length_ok in Hok. apply bool_decide_eq_true in Hok.
  assert (hw ≠ []) as Hne by (intros ->; simpl in *; lia).
  pose proof (length_Join_hex2 hw sep Hne) as Hlen.
  assert (Join (map hex2 hw) [sep] !! 2 = Some sep) as Hs.
  { destruct hw as [|b [|b' hw]]; [done|simpl in *; lia|done]. }
  unfold ParseMAC. destruct (Nat.ltb_spec (length (Join (map hex2 hw) [sep])) 14); [lia|].
  rewrite Hs, bool_decide_true by (destruct Hsep as [->| ->]; auto).
  rewrite Hlen. rewrite (Nat.mul_comm 3), Nat.Div0.mod_mul, Nat.div_mul by lia.
  rewrite bool_decide_false by lia. unfold mac_length_ok. rewrite bool_decide_true by done.
  apply mac_pairs_Join.
Qed.

Lemma To4_length ip ip4 : To4 ip = Some ip4 → length ip4 = 4.
Proof.
  unfold To4. case_bool_decide; [congruence|]. case_bool_decide as Hm; [|done].
  intros [= <-]. rewrite length_drop. lia.
Qed.

Lemma IP_String_4 a b c d :
  IP_String [a; b; c; d] =
    Itoa (u8 a) ++ str "." ++ Itoa (u8 b) ++ str "." ++ Itoa (u8 c) ++ str "." ++ Itoa (u8 d).
Proof. done. Qed.

Lemma IP_String_length ip : length ip = 4 → length (IP_String ip) ≤ 15.
Proof.
  intros H. do 4 (destruct ip as [|? ip]; [done|]). destruct ip; [|done].
  rewrite IP_String_4, !length_app. change (length (str ".")) with 1.
  pose proof (Itoa_u8_length b). pose proof (Itoa_u8_length b0).
  pose proof (Itoa_u8_length b1). pose proof (Itoa_u8_length b2). lia.
Qed.

Lemma hex2_no_slash b : 47%gb ∉ hex2 b.
Proof.
  assert (forallb (λ b, bool_decide (47%gb ∉ hex2 b)) all_bytes = true) as Hall
    by (vm_compute; reflexivity).
  pose proof (byte_forall _ Hall b) as H. by apply bool_decide_eq_true in H.
Qed.

Lemma Join_not_in c l sep :
  Forall (λ s, c ∉ s) l → c ∉ sep → c ∉ Join l sep.
Proof.
  intros Hl Hsep. induction Hl as [|s l Hs Hl IH]; [set_solver|].
  destruct l as [|s' l]; [done|]. change (Join (s :: s' :: l) sep) with (s ++ sep ++ Join (s' :: l) sep).
  set_solver.
Qed.

Lemma mac_no_slash hw : 47%gb ∉ HardwareAddr_String hw.
Proof.
  apply Join_not_in; [|by apply (bool_decide_unpack _)].
  apply Forall_map, Forall_forall. intros b _. apply hex2_no_slash.
Qed.
