(* ===== verification/GoIO.v ===== *)
(** The parts of Go's [io] package the program uses: byte streams, [io.ReadFull]
    and [io.Copy]. *)
From S2P Require Import Prelude GoStrings GoFmt.

(** A byte stream behind [io.ReadCloser]: its bytes, finitely many, then [io.EOF]
    ([None]) or another error, which is not [io.ErrUnexpectedEOF]. *)
Record reader := mkReader {
  rd_data : bytes;
  rd_end : option error
}.

Inductive read_err :=
| NilErr
| EOF
| ErrUnexpectedEOF
| OtherErr (e : error).

(** [io.ReadFull] into a buffer of [k] bytes. *)
Definition ReadFull (r : reader) (k : nat) : bytes * read_err * reader :=
  let chunk := take k (rd_data r) in
  let rest := mkReader (drop k (rd_data r)) (rd_end r) in
  if (k <=? length (rd_data r))%nat then (chunk, NilErr, rest)
  else match rd_end r with
       | Some e => (chunk, OtherErr e, rest)
       | None => match chunk with
                 | [] => (chunk, EOF, rest)
                 | _ => (chunk, ErrUnexpectedEOF, rest)
                 end
       end.

(** The text of the errors of [ReadFull]. *)
Definition read_err_text `{UnicodeTables} (e : read_err) : GoString :=
  match e with
  | NilErr => []
  | EOF => str "EOF"
  | ErrUnexpectedEOF => str "unexpected EOF"
  | OtherErr e => Error e
  end.

(** [io.Copy(w, r)] to a writer that takes everything: the bytes copied, and the
    error the stream ended with, if it was not [io.EOF]. *)
Definition Copy (r : reader) : bytes * option error := (rd_data r, rd_end r).

(** * Lemmas *)

Lemma ReadFull_full r k :
  k ≤ length (rd_data r) →
  ReadFull r k = (take k (rd_data r), NilErr, mkReader (drop k (rd_data r)) (rd_end r)).
Proof. intros. unfold ReadFull. by destruct (Nat.leb_spec k (length (rd_data r))); [|lia]. Qed.

(** [ReadFull] returns no error exactly when it filled the buffer. *)
Lemma ReadFull_nil r k chunk r' :
  ReadFull r k = (chunk, NilErr, r') →
  length chunk = k ∧ rd_data r = chunk ++ rd_data r' ∧ rd_end r' = rd_end r.
Proof.
  unfold ReadFull. destruct (Nat.leb_spec k (length (rd_data r))).
  - intros [= <- <-]. rewrite length_take. simpl. rewrite take_drop. split_and!; [lia|done..].
  - destruct (rd_end r); [done|]. by destruct (take k (rd_data r)).
Qed.
