(* ===== verification/GoJson.v ===== *)
(** The parts of Go's [encoding/json] the program uses: the scanner, [Decoder.Decode]
    into the struct that [getSpec] reads an answer of the API server with, and
    [Encoder.Encode] of the struct that the example server answers with. *)
From S2P Require Import Prelude GoStrings GoFmt GoIO.

(** The wording of syntax and type errors differs between the releases of Go: a
    parameter, by the text that was decoded. *)
Class JsonTexts := {
  syntax_text : bytes → GoString;
  type_text : bytes → GoString
}.

Module Json.

(** * JSON values *)

(** A number is kept as it is written: the program decodes none. *)
Inductive json :=
| JNull
| JBool (b : bool)
| JNum (raw : bytes)
| JStr (s : GoString)
| JArr (vs : list json)
| JObj (ms : list (GoString * json)).

(** * Strings *)

Definition hex_value (c : Byte.byte) : option Z :=
  if in_range 48 57 (u8 c) then Some (u8 c - 48)%Z
  else if in_range 97 102 (u8 c) then Some (u8 c - 87)%Z
  else if in_range 65 70 (u8 c) then Some (u8 c - 55)%Z
  else None.

(** [getu4]: the value of [\uXXXX] at the head of the text; [None] is Go's -1. *)
Definition getu4 (s : bytes) : option Z :=
  match s with
  | 92%gb :: 117%gb :: a :: b :: c :: d :: _ =>
      a ← hex_value a; b ← hex_value b; c ← hex_value c; d ← hex_value d;
      Some (4096 * a + 256 * b + 16 * c + d)%Z
  | _ => None
  end.

(** [utf16.IsSurrogate] and [utf16.DecodeRune]. *)
Definition IsSurrogate (r : Z) : bool := in_range 55296 57343 r.

Definition utf16_DecodeRune (r1 r2 : Z) : Z :=
  if in_range 55296 56319 r1 && in_range 56320 57343 r2
  then (Z.shiftl (r1 - 55296) 10 + (r2 - 56320) + 65536)%Z else RuneError.

(** What the text inside the quotes stands for at its head: the bytes, and how many
    bytes of the text they take. *)
Definition unquote_at (s : bytes) : bytes * nat :=
  match s with
  | [] => ([], 1)
  | 92%gb :: c :: _ =>
      match c with
      | 98%gb => ([8]%gb, 2)
      | 102%gb => ([12]%gb, 2)
      | 110%gb => ([10]%gb, 2)
      | 114%gb => ([13]%gb, 2)
      | 116%gb => ([9]%gb, 2)
      | 117%gb =>
          match getu4 s with
          | None => ([], 1)
          | Some r =>
              if IsSurrogate r then
                let dec := default RuneError (utf16_DecodeRune r <$> getu4 (drop 6 s)) in
                if decide (dec = RuneError) then (EncodeRune RuneError, 6) else (EncodeRune dec, 12)
              else (EncodeRune r, 6)
          end
      | _ => ([c], 2)
      end
  | c :: _ =>
      if (u8 c <? 128)%Z then ([c], 1)
      else let '(r, w) := DecodeRune s in (EncodeRune r, w)
  end.

(** [unquote] on a string the scanner accepted; [skip] bytes belong to what was
    already translated. *)
Fixpoint unquote (skip : nat) (s : bytes) : GoString :=
  match s with
  | [] => []
  | _ :: s' =>
      match skip with
      | S k => unquote k s'
      | O => (unquote_at s).1 ++ unquote (pred (unquote_at s).2) s'
      end
  end.

(** * The scanner

    A value is built up on a stack of the arrays and objects that are open; [FKey]
    is an object whose next key is being read, [FVal] one whose next value is. *)

Inductive frame :=
| FKey (ms : list (GoString * json))
| FVal (ms : list (GoString * json)) (k : GoString)
| FArr (vs : list json).

(** The states of a number: [stateNeg], [state0], [state1], [stateDot], [stateDot0],
    [stateE], [stateESign], [stateE0]. *)
Inductive num_state := NNeg | N0 | N1 | NDot | NDot0 | NE | NESign | NE0.

Inductive mode :=
| MBegin                                     (** stateBeginValue *)
| MBeginOrEmpty                              (** stateBeginValueOrEmpty *)
| MBeginStr                                  (** stateBeginString *)
| MBeginStrOrEmpty                           (** stateBeginStringOrEmpty *)
| MEnd (v : json)                            (** stateEndValue *)
| MStr (raw : bytes)                         (** stateInString; the text, reversed *)
| MEsc (raw : bytes)                         (** stateInStringEsc *)
| MEscU (k : nat) (raw : bytes)              (** stateInStringEscU...: [S k] digits to come *)
| MNum (st : num_state) (raw : bytes)
| MLit (word : bytes) (v : json).            (** stateT, stateTr, ...: the rest of the word *)

Definition state : Type := mode * list frame.

Definition is_space (c : Byte.byte) : bool :=
  bool_decide (c ∈ [32; 9; 13; 10]%gb).

Definition begin_string (stk : list frame) (c : Byte.byte) : option state :=
  if is_space c then Some (MBeginStr, stk)
  else if decide (c = 34%gb) then Some (MStr [], stk) else None.

(** [pushParseState]: [maxNestingDepth] arrays and objects may be open. *)
Definition push (s : state) : option state :=
  if (Z.of_nat (length s.2) <=? 10000)%Z then Some s else None.

Definition begin_value (stk : list frame) (c : Byte.byte) : option state :=
  if is_space c then Some (MBegin, stk) else
  match c with
  | 123%gb => push (MBeginStrOrEmpty, FKey [] :: stk)
  | 91%gb => push (MBeginOrEmpty, FArr [] :: stk)
  | 34%gb => Some (MStr [], stk)
  | 45%gb => Some (MNum NNeg [c], stk)
  | 48%gb => Some (MNum N0 [c], stk)
  | 116%gb => Some (MLit (str "rue") (JBool true), stk)
  | 102%gb => Some (MLit (str "alse") (JBool false), stk)
  | 110%gb => Some (MLit (str "ull") JNull, stk)
  | _ => if is_digit c then Some (MNum N1 [c], stk) else None
  end.

(** [stateEndValue] after the value [v]; outside every array and object the value is
    the whole text. *)
Definition end_value (v : json) (stk : list frame) (c : Byte.byte) : option state :=
  match stk with
  | [] => None
  | f :: stk' =>
      if is_space c then Some (MEnd v, stk) else
      match f with
      | FKey ms =>
          match v with
          | JStr k => if decide (c = 58%gb) then Some (MBegin, FVal ms k :: stk') else None
          | _ => None
          end
      | FVal ms k =>
          if decide (c = 44%gb) then Some (MBeginStr, FKey (ms ++ [(k, v)]) :: stk')
          else if decide (c = 125%gb) then Some (MEnd (JObj (ms ++ [(k, v)])), stk') else None
      | FArr vs =>
          if decide (c = 44%gb) then Some (MBegin, FArr (vs ++ [v]) :: stk')
          else if decide (c = 93%gb) then Some (MEnd (JArr (vs ++ [v])), stk') else None
      end
  end.

(** The next state of a number on a byte that belongs to it. *)
Definition num_step (st : num_state) (c : Byte.byte) : option num_state :=
  let digit := is_digit c in
  let dot := bool_decide (c = 46%gb) in
  let exp := bool_decide (c = 101%gb ∨ c = 69%gb) in
  match st with
  | NNeg => if decide (c = 48%gb) then Some N0 else if digit then Some N1 else None
  | N1 => if digit then Some N1 else if dot then Some NDot else if exp then Some NE else None
  | N0 => if dot then Some NDot else if exp then Some NE else None
  | NDot => if digit then Some NDot0 else None
  | NDot0 => if digit then Some NDot0 else if exp then Some NE else None
  | NE => if decide (c = 43%gb ∨ c = 45%gb) then Some NESign else if digit then Some NE0 else None
  | NESign => if digit then Some NE0 else None
  | NE0 => if digit then Some NE0 else None
  end.

(** A number may end here. *)
Definition num_ends (st : num_state) : bool :=
  match st with N0 | N1 | NDot0 | NE0 => true | _ => false end.

(** One byte; [None] is a syntax error. *)
Definition step (s : state) (c : Byte.byte) : option state :=
  let '(m, stk) := s in
  match m with
  | MBegin => begin_value stk c
  | MBeginOrEmpty =>
      if is_space c then Some (MBeginOrEmpty, stk)
      else if decide (c = 93%gb) then Some (MEnd (JArr []), tail stk)
      else begin_value stk c
  | MBeginStr => begin_string stk c
  | MBeginStrOrEmpty =>
      if is_space c then Some (MBeginStrOrEmpty, stk)
      else if decide (c = 125%gb) then Some (MEnd (JObj []), tail stk)
      else begin_string stk c
  | MEnd v => end_value v stk c
  | MStr raw =>
      if decide (c = 34%gb) then Some (MEnd (JStr (unquote 0 (rev raw))), stk)
      else if decide (c = 92%gb) then Some (MEsc (c :: raw), stk)
      else if (u8 c <? 32)%Z then None
      else Some (MStr (c :: raw), stk)
  | MEsc raw =>
      if decide (c = 117%gb) then Some (MEscU 3 (c :: raw), stk)
      else if decide (c ∈ str "bfnrt\/" ++ [34%gb]) then Some (MStr (c :: raw), stk) else None
  | MEscU k raw =>
      match hex_value c with
      | None => None
      | Some _ => Some (match k with O => MStr (c :: raw) | S k => MEscU k (c :: raw) end, stk)
      end
  | MNum st raw =>
      match num_step st c with
      | Some st => Some (MNum st (c :: raw), stk)
      | None => if num_ends st then end_value (JNum (rev raw)) stk c else None
      end
  | MLit [] v => end_value v stk c
  | MLit (x :: word) v =>
      if decide (c = x) then Some (match word with [] => MEnd v | _ => MLit word v end, stk) else None
  end.

(** The value a text in this state stands for when nothing, or a space, follows. *)
Definition complete (s : state) : option json :=
  match s with
  | (MEnd v, []) => Some v
  | (MNum st raw, []) => if num_ends st then Some (JNum (rev raw)) else None
  | _ => None
  end.

(** The end of an array or an object is seen at once, that of another value only at
    the byte after it. *)
Definition closed_value (s : state) : option json :=
  match s with
  | (MEnd (JArr vs), []) => Some (JArr vs)
  | (MEnd (JObj ms), []) => Some (JObj ms)
  | _ => None
  end.

Inductive outcome :=
| ODone (v : json) (rest : bytes)
| OMore (s : state)
| OBad.

(** The first value of a text. *)
Fixpoint scan (s : state) (text : bytes) : outcome :=
  match closed_value s with
  | Some v => ODone v text
  | None =>
      match text with
      | [] => OMore s
      | c :: text' =>
          match step s c with
          | Some s' => scan s' text'
          | None => match complete s with Some v => ODone v text | None => OBad end
          end
      end
  end.

(** * Decoding

    The fields of the struct.  [r_initrd] is the backing array of the slice, of which
    [r_len] elements are visible: a later value of the key is decoded over an earlier
    one.  [r_bad] is the saved [UnmarshalTypeError]. *)
Record spec_fields := mkFields {
  r_kernel : GoString;
  r_initrd : list GoString;
  r_len : nat;
  r_cmdline : GoString;
  r_bad : bool
}.

Definition zero_fields : spec_fields := mkFields [] [] 0 [] false.

(** [literalStore] into a string: [null] leaves it, anything but a string is an error. *)
Definition store_string (v : json) (old : GoString) : GoString * bool :=
  match v with
  | JStr s => (s, false)
  | JNull => (old, false)
  | _ => (old, true)
  end.

(** The elements of an array, over the backing array from index [i]. *)
Fixpoint store_elems (vs : list json) (arr : list GoString) : list GoString * bool :=
  match vs with
  | [] => (arr, false)
  | v :: vs =>
      let '(s, bad) := store_string v (default [] (head arr)) in
      let '(arr, bad') := store_elems vs (tail arr) in
      (s :: arr, bad || bad')
  end.

Definition store_slice (v : json) (arr : list GoString) (n : nat) : list GoString * nat * bool :=
  match v with
  | JArr [] => ([], 0, false)
  | JArr vs => let '(arr, bad) := store_elems vs arr in (arr, length vs, bad)
  | JNull => ([], 0, false)
  | _ => (arr, n, true)
  end.

(** [unicode.ToLower] on ASCII. *)
Definition ascii_lower (c : Byte.byte) : Byte.byte :=
  if in_range 65 90 (u8 c) then to_byte (u8 c + 32) else c.

(** The fold of a key to the letters of the field names: upper case, and the Kelvin
    sign, which folds to [k]. *)
Fixpoint fold_key (k : GoString) : GoString :=
  match k with
  | 226%gb :: 132%gb :: 170%gb :: k => 107%gb :: fold_key k
  | c :: k => ascii_lower c :: fold_key k
  | [] => []
  end.

Inductive field := FKernel | FInitrd | FCmdline.

(** The field a key names: the name itself, or a name it folds to. *)
Definition field_of (k : GoString) : option field :=
  let k := fold_key k in
  if decide (k = str "kernel") then Some FKernel
  else if decide (k = str "initrd") then Some FInitrd
  else if decide (k = str "cmdline") then Some FCmdline
  else None.

Definition store_member (r : spec_fields) (m : GoString * json) : spec_fields :=
  match field_of m.1 with
  | Some FKernel =>
      let '(s, bad) := store_string m.2 (r_kernel r) in
      mkFields s (r_initrd r) (r_len r) (r_cmdline r) (r_bad r || bad)
  | Some FInitrd =>
      let '(arr, n, bad) := store_slice m.2 (r_initrd r) (r_len r) in
      mkFields (r_kernel r) arr n (r_cmdline r) (r_bad r || bad)
  | Some FCmdline =>
      let '(s, bad) := store_string m.2 (r_cmdline r) in
      mkFields (r_kernel r) (r_initrd r) (r_len r) s (r_bad r || bad)
  | None => r
  end.

(** [unmarshal] of a value into the zero struct. *)
Definition unmarshal (v : json) : spec_fields :=
  match v with
  | JObj ms => foldl store_member zero_fields ms
  | JNull => zero_fields
  | _ => mkFields [] [] 0 [] true
  end.

Section decode.
Context `{JsonTexts}.

Definition unmarshal_result (text : bytes) (v : json)
    : result (GoString * list GoString * GoString) :=
  let r := unmarshal v in
  if r_bad r then Err (ErrNew (type_text text))
  else Ok (r_kernel r, take (r_len r) (r_initrd r), r_cmdline r).

(** [json.NewDecoder(body).Decode(&r)]: the first value of the stream; what follows
    is not looked at. *)
Definition Decode (body : reader) : result (GoString * list GoString * GoString) :=
  let text := rd_data body in
  match scan (MBegin, []) text with
  | ODone v _ => unmarshal_result text v
  | OBad => Err (ErrNew (syntax_text text))
  | OMore s =>
      match rd_end body with
      | Some e => Err e
      | None =>
          match complete s with
          | Some v => unmarshal_result text v
          | None =>
              if forallb is_space text then Err (ErrNew (str "EOF"))
              else Err (ErrNew (str "unexpected EOF"))
          end
      end
  end.

End decode.

(** * Encoding *)

(** What [encodeState.string] writes for the head of a string, and how many bytes of
    the string it stands for. *)
Definition escape_at (s : GoString) : bytes * nat :=
  match s with
  | [] => ([], 1)
  | c :: _ =>
      if (u8 c <? 128)%Z then
        (match c with
         | 92%gb | 34%gb => [92%gb; c]
         | 8%gb => str "\b"
         | 12%gb => str "\f"
         | 10%gb => str "\n"
         | 13%gb => str "\r"
         | 9%gb => str "\t"
         | 60%gb | 62%gb | 38%gb => str "\u00" ++ hex2 c
         | _ => if (u8 c <? 32)%Z then str "\u00" ++ hex2 c else [c]
         end, 1)
      else
        let '(r, w) := DecodeRune s in
        if bool_decide (w = 1) && (r =? RuneError)%Z then (str "\ufffd", 1)
        else if (r =? 8232)%Z || (r =? 8233)%Z then (str "\u202" ++ [hex_digit (Z.land r 15)], w)
        else (take w s, w)
  end.

Fixpoint escape (skip : nat) (s : GoString) : bytes :=
  match s with
  | [] => []
  | _ :: s' =>
      match skip with
      | S k => escape k s'
      | O => (escape_at s).1 ++ escape (pred (escape_at s).2) s'
      end
  end.

Definition json_string (s : GoString) : bytes := 34%gb :: escape 0 s ++ [34%gb].

(** The object that [json.NewEncoder(w).Encode(&resp)] writes; the newline after it is
    added by the caller. *)
Definition Encode (x : GoString * list GoString * GoString) : bytes :=
  let '(kernel, initrd, cmdline) := x in
  [123; 34]%gb ++ str "kernel" ++ [34; 58]%gb ++ json_string kernel ++
  [44; 34]%gb ++ str "initrd" ++ [34; 58; 91]%gb ++ Join (map json_string initrd) (str ",") ++
  [93; 44; 34]%gb ++ str "cmdline" ++ [34; 58]%gb ++ json_string cmdline ++ [125]%gb.

(** * Lemmas on strings *)

(** What a string comes out as after a round trip: every byte that is not part of
    valid UTF-8 becomes U+FFFD. *)
Definition coerce_at (s : GoString) : bytes * nat :=
  match s with
  | [] => ([], 1)
  | c :: _ =>
      if (u8 c <? 128)%Z then ([c], 1)
      else let '(r, w) := DecodeRune s in (EncodeRune r, w)
  end.

Fixpoint coerce (skip : nat) (s : GoString) : GoString :=
  match s with
  | [] => []
  | _ :: s' =>
      match skip with
      | S k => coerce k s'
      | O => (coerce_at s).1 ++ coerce (pred (coerce_at s).2) s'
      end
  end.

Lemma unquote_skip k s : unquote k s = unquote 0 (drop k s).
Proof. revert s. induction k as [|k IH]; intros [|c s]; [done..|apply IH]. Qed.

Lemma escape_skip k s : escape k s = escape 0 (drop k s).
Proof. revert s. induction k as [|k IH]; intros [|c s]; [done..|apply IH]. Qed.

Lemma coerce_skip k s : coerce k s = coerce 0 (drop k s).
Proof. revert s. induction k as [|k IH]; intros [|c s]; [done..|apply IH]. Qed.

Lemma step_skip {A} (f : nat → GoString → A) (Hf : ∀ k s, f k s = f 0 (drop k s)) c s w :
  1 ≤ w → f (pred w) s = f 0 (drop w (c :: s)).
Proof. intros Hw. rewrite Hf. by destruct w; [lia|]. Qed.

Lemma coerce_at_width s : 1 ≤ (coerce_at s).2.
Proof.
  destruct s as [|c s]; [done|]. unfold coerce_at. destruct (Z.ltb_spec (u8 c) 128); [done|].
  destruct (DecodeRune (c :: s)) as [r w] eqn:E. simpl.
  destruct (DecodeRune_multi c s r w) as [[-> _]|(? & _)]; [lia|done|lia|lia].
Qed.

Lemma escape_at_width s : (escape_at s).2 = (coerce_at s).2.
Proof.
  destruct s as [|c s]; [done|]. unfold escape_at, coerce_at. destruct (Z.ltb_spec (u8 c) 128); [done|].
  destruct (DecodeRune (c :: s)) as [r w] eqn:E. simpl.
  destruct (DecodeRune_multi c s r w) as [[-> ->]|(? & _)]; [lia|done|done|].
  rewrite bool_decide_false by lia. simpl. by case_test.
Qed.

Lemma coerce_cons c s : coerce 0 (c :: s) = (coerce_at (c :: s)).1 ++ coerce 0 (drop (coerce_at (c :: s)).2 (c :: s)).
Proof. cbn [coerce]. by rewrite (step_skip coerce coerce_skip c) by apply coerce_at_width. Qed.

Lemma escape_cons c s : escape 0 (c :: s) = (escape_at (c :: s)).1 ++ escape 0 (drop (coerce_at (c :: s)).2 (c :: s)).
Proof.
  cbn [escape]. rewrite (step_skip escape escape_skip c)
    by (rewrite escape_at_width; apply coerce_at_width). by rewrite escape_at_width.
Qed.

(** Induction along the runes of a string. *)
Lemma rune_ind (P : GoString → Prop) :
  P [] → (∀ c s, P (drop (coerce_at (c :: s)).2 (c :: s)) → P (c :: s)) → ∀ s, P s.
Proof.
  intros H0 Hs s. induction s as [s IH] using (induction_ltof1 _ length). unfold ltof in IH.
  destruct s as [|c s]; [done|]. apply Hs, IH. rewrite length_drop.
  pose proof (coerce_at_width (c :: s)). cbn [length]. lia.
Qed.

Lemma unquote_at_plain c s : c ≠ 92%gb → unquote_at (c :: s) = coerce_at (c :: s).
Proof. intros Hc. destruct c; done. Qed.

Lemma unquote_plain c s :
  c ≠ 92%gb →
  unquote 0 (c :: s) = (coerce_at (c :: s)).1 ++ unquote 0 (drop (coerce_at (c :: s)).2 (c :: s)).
Proof.
  intros Hc. cbn [unquote]. rewrite unquote_at_plain by done.
  by rewrite (step_skip unquote unquote_skip c) by apply coerce_at_width.
Qed.

(** What [escape_at] writes is read back as the head of the string, whatever follows. *)
Lemma unquote_escape_at c s t :
  unquote 0 ((escape_at (c :: s)).1 ++ t) = (coerce_at (c :: s)).1 ++ unquote 0 t.
Proof.
  unfold escape_at, coerce_at. destruct (Z.ltb_spec (u8 c) 128) as [Hc|Hc].
  { clear s. by destruct c; first [vm_compute in Hc; discriminate|reflexivity]. }
  destruct (DecodeRune (c :: s)) as [r w] eqn:E.
  destruct (DecodeRune_multi c s r w) as [[-> ->]|(Hw & Hb & Ht & He)]; [lia|done|reflexivity|].
  rewrite bool_decide_false by lia. cbn [andb].
  destruct (Z.eqb_spec r 8232) as [->|]; [reflexivity|].
  destruct (Z.eqb_spec r 8233) as [->|]; [reflexivity|]. cbn [orb fst].
  assert (∃ s', take w (c :: s) ++ t = c :: s') as [s' Hs'] by (destruct w; [lia|by eexists]).
  assert (coerce_at (c :: s') = (EncodeRune r, w)) as Hat.
  { unfold coerce_at. rewrite (proj2 (Z.ltb_ge _ _)) by done. by rewrite <- Hs', Ht. }
  rewrite Hs', unquote_plain, Hat by (intros ->; vm_compute in Hc; congruence). cbn [fst snd].
  rewrite <- Hs', drop_app_length' by (rewrite length_take; lia). done.
Qed.

Lemma unquote_escape s t : unquote 0 (escape 0 s ++ t) = coerce 0 s ++ unquote 0 t.
Proof.
  induction s as [|c s IH] using rune_ind; [done|].
  rewrite escape_cons, coerce_cons, <- !app_assoc, unquote_escape_at. by rewrite IH.
Qed.

(** [utf8.ValidString]. *)
Fixpoint ValidString (skip : nat) (s : GoString) : bool :=
  match s with
  | [] => true
  | _ :: s' =>
      match skip with
      | S k => ValidString k s'
      | O => negb (bool_decide (DecodeRune s = (RuneError, 1))) && ValidString (pred (DecodeRune s).2) s'
      end
  end.

Lemma ValidString_skip k s : ValidString k s = ValidString 0 (drop k s).
Proof. revert s. induction k as [|k IH]; intros [|c s]; [done..|apply IH]. Qed.

(** Valid UTF-8 comes back as it was. *)
Lemma coerce_valid s : ValidString 0 s = true → coerce 0 s = s.
Proof.
  induction s as [|c s IH] using rune_ind; [done|]. cbn [ValidString].
  rewrite andb_true_iff, negb_true_iff, bool_decide_eq_false. intros [Hne Hv].
  rewrite coerce_cons. revert IH. unfold coerce_at. destruct (Z.ltb_spec (u8 c) 128) as [Hc|Hc].
  - cbn [fst snd]. intros IH. change (c :: coerce 0 s = c :: s). f_equal. apply IH.
    assert ((DecodeRune (c :: s)).2 = 1) as Hw.
    { unfold DecodeRune. by rewrite (proj2 (Z.ltb_lt _ _)). }
    by rewrite Hw in Hv.
  - destruct (DecodeRune (c :: s)) as [r w] eqn:E. cbn [fst snd] in *.
    destruct (DecodeRune_multi c s r w) as [[-> ->]|(Hw & _ & _ & ->)]; [lia|done|done|].
    intros IH. rewrite IH; [apply take_drop|].
    by rewrite <- (step_skip ValidString ValidString_skip c) by lia.
Qed.

Lemma coerce_ascii s : Forall (λ c, u8 c < 128)%Z s → coerce 0 s = s.
Proof.
  induction 1 as [|c s Hc _ IH]; [done|]. rewrite coerce_cons. unfold coerce_at.
  rewrite (proj2 (Z.ltb_lt _ _)) by done.
  change (c :: coerce 0 s = c :: s). by rewrite IH.
Qed.

(** * Lemmas on the scanner *)

(** Text that the scanner passes over inside a string. *)
Definition passes (out : bytes) : Prop :=
  ∀ raw stk rest, scan (MStr raw, stk) (out ++ rest) = scan (MStr (rev out ++ raw), stk) rest.

Lemma passes_app a b : passes a → passes b → passes (a ++ b).
Proof.
  intros Ha Hb raw stk rest. by rewrite <- app_assoc, Ha, Hb, rev_app_distr, app_assoc.
Qed.

Lemma passes_high c : (128 ≤ u8 c)%Z → passes [c].
Proof.
  intros Hc raw stk rest. cbn [app scan closed_value step].
  rewrite decide_False by (intros ->; vm_compute in Hc; congruence).
  rewrite decide_False by (intros ->; vm_compute in Hc; congruence).
  by rewrite (proj2 (Z.ltb_ge _ _)) by lia.
Qed.

Lemma passes_all l : Forall (λ b, 128 ≤ u8 b)%Z l → passes l.
Proof.
  induction 1 as [|c l Hc _ IH]; [by intros raw stk rest|].
  apply (passes_app [c]); [by apply passes_high|done].
Qed.

Lemma passes_escape_at c s : passes (escape_at (c :: s)).1.
Proof.
  unfold escape_at. destruct (Z.ltb_spec (u8 c) 128) as [Hc|Hc].
  { clear s. intros raw stk rest. by destruct c; first [vm_compute in Hc; discriminate|reflexivity]. }
  destruct (DecodeRune (c :: s)) as [r w] eqn:E.
  destruct (DecodeRune_multi c s r w) as [[-> ->]|(Hw & Hb & _)]; [lia|done|by intros raw stk rest|].
  rewrite bool_decide_false by lia. cbn [andb].
  destruct (Z.eqb_spec r 8232) as [->|]; [by intros raw stk rest|].
  destruct (Z.eqb_spec r 8233) as [->|]; [by intros raw stk rest|]. by apply passes_all.
Qed.

Lemma passes_escape s : passes (escape 0 s).
Proof.
  induction s as [|c s IH] using rune_ind; [by intros raw stk rest|].
  rewrite escape_cons. apply passes_app; [apply passes_escape_at|done].
Qed.

(** A string where a value is expected. *)
Lemma scan_string m s stk rest :
  m = MBegin ∨ m = MBeginOrEmpty →
  scan (m, stk) (json_string s ++ rest) = scan (MEnd (JStr (coerce 0 s)), stk) rest.
Proof.
  intros Hm. unfold json_string. rewrite <- app_comm_cons, <- app_assoc.
  transitivity (scan (MStr [], stk) (escape 0 s ++ [34%gb] ++ rest)); [by destruct Hm as [->| ->]|].
  rewrite passes_escape, app_nil_r. cbn [app scan closed_value step].
  rewrite decide_True by done. rewrite rev_involutive.
  rewrite <- (app_nil_r (escape 0 s)), unquote_escape. simpl. by rewrite app_nil_r.
Qed.

(** The strings of an array, from the first or a later one. *)
Lemma scan_strings m vs l stk rest :
  l ≠ [] → m = MBegin ∨ m = MBeginOrEmpty →
  scan (m, FArr vs :: stk) (Join (map json_string l) (str ",") ++ 93%gb :: rest) =
  scan (MEnd (JArr (vs ++ map (λ s, JStr (coerce 0 s)) l)), stk) rest.
Proof.
  intros Hl Hm. revert m vs Hm. induction l as [|s l IH]; intros m vs Hm; [done|].
  destruct l as [|s' l].
  - cbn [map Join]. rewrite scan_string by done. reflexivity.
  - change (Join (map json_string (s :: s' :: l)) (str ",")) with
      (json_string s ++ 44%gb :: Join (map json_string (s' :: l)) (str ",")).
    rewrite <- app_assoc, scan_string by done.
    transitivity (scan (MBegin, FArr (vs ++ [JStr (coerce 0 s)]) :: stk)
      (Join (map json_string (s' :: l)) (str ",") ++ 93%gb :: rest)); [reflexivity|].
    rewrite IH by auto. cbn [map]. by rewrite <- app_assoc.
Qed.

(** The value of the text of an answer. *)
Definition answer_value (x : GoString * list GoString * GoString) : json :=
  let '(kernel, initrd, cmdline) := x in
  JObj [(str "kernel", JStr (coerce 0 kernel));
        (str "initrd", JArr (map (λ s, JStr (coerce 0 s)) initrd));
        (str "cmdline", JStr (coerce 0 cmdline))].

Lemma scan_Encode x rest : scan (MBegin, []) (Encode x ++ rest) = ODone (answer_value x) rest.
Proof.
  destruct x as [[k ims] c]. unfold Encode. rewrite <- !app_assoc.
  transitivity (scan (MBegin, [FVal [] (str "kernel")]) (json_string k ++
    [44; 34]%gb ++ str "initrd" ++ [34; 58; 91]%gb ++ Join (map json_string ims) (str ",") ++
    [93; 44; 34]%gb ++ str "cmdline" ++ [34; 58]%gb ++ json_string c ++ [125]%gb ++ rest)); [reflexivity|].
  rewrite scan_string by auto.
  transitivity (scan (MBeginOrEmpty, [FArr []; FVal [(str "kernel", JStr (coerce 0 k))] (str "initrd")])
    (Join (map json_string ims) (str ",") ++
     93%gb :: [44; 34]%gb ++ str "cmdline" ++ [34; 58]%gb ++ json_string c ++ [125]%gb ++ rest)); [reflexivity|].
  transitivity (scan (MEnd (JArr (map (λ s, JStr (coerce 0 s)) ims)),
      [FVal [(str "kernel", JStr (coerce 0 k))] (str "initrd")])
    ([44; 34]%gb ++ str "cmdline" ++ [34; 58]%gb ++ json_string c ++ [125]%gb ++ rest)).
  { destruct ims as [|i ims]; [reflexivity|]. rewrite scan_strings by auto. reflexivity. }
  transitivity (scan (MBegin, [FVal [(str "kernel", JStr (coerce 0 k));
      (str "initrd", JArr (map (λ s, JStr (coerce 0 s)) ims))] (str "cmdline")])
    (json_string c ++ [125]%gb ++ rest)); [reflexivity|].
  rewrite scan_string by auto. destruct rest; reflexivity.
Qed.

(** What follows a value does not change it, and a text that is cut short is read on. *)
Lemma scan_done_app s a b v r : scan s a = ODone v r → scan s (a ++ b) = ODone v (r ++ b).
Proof.
  revert s. induction a as [|c a IH]; intros s; cbn [scan app].
  - destruct (closed_value s) as [v'|] eqn:E; [|done]. intros [= <- <-]. by destruct b; simpl; rewrite E.
  - destruct (closed_value s) as [v'|]; [by intros [= <- <-]|].
    destruct (step s c) as [s'|]; [apply IH|]. destruct (complete s); [|done]. by intros [= <- <-].
Qed.

Lemma scan_more_app s a b s' : scan s a = OMore s' → scan s (a ++ b) = scan s' b.
Proof.
  revert s. induction a as [|c a IH]; intros s; cbn [scan app].
  - destruct (closed_value s); [done|]. by intros [= <-].
  - destruct (closed_value s); [done|]. destruct (step s c) as [s1|]; [apply IH|].
    by destruct (complete s).
Qed.

Lemma scan_bad_app s a b : scan s a = OBad → scan s (a ++ b) = OBad.
Proof.
  revert s. induction a as [|c a IH]; intros s; cbn [scan app].
  - by destruct (closed_value s).
  - destruct (closed_value s); [done|]. destruct (step s c) as [s1|]; [apply IH|].
    by destruct (complete s).
Qed.

Lemma scan_num st raw t v r : scan (MNum st raw, []) t = ODone v r → ∃ raw', v = JNum raw'.
Proof.
  revert st raw. induction t as [|c t IH]; intros st raw; cbn [scan closed_value step complete]; [done|].
  destruct (num_step st c) as [st'|]; [apply IH|]. destruct (num_ends st) eqn:E; [|done].
  cbn [end_value]. intros [= <- _]. eauto.
Qed.

Lemma scan_more_open s a s' : scan s a = OMore s' → closed_value s' = None.
Proof.
  revert s. induction a as [|c a IH]; intros s; cbn [scan].
  - destruct (closed_value s) eqn:E; [done|]. by intros [= <-].
  - destruct (closed_value s); [done|]. destruct (step s c) as [s1|]; [apply IH|]. by destruct (complete s).
Qed.

Lemma scan_rest s a v r : scan s a = ODone v r → length r ≤ length a.
Proof.
  revert s. induction a as [|c a IH]; intros s; cbn [scan].
  - destruct (closed_value s); [|done]. by intros [= _ <-].
  - destruct (closed_value s); [by intros [= _ <-]|]. destruct (step s c) as [s1|].
    + intros Hr%IH. simpl. lia.
    + destruct (complete s); [|done]. by intros [= _ <-].
Qed.

(** An object that is not at its end takes at least a byte more. *)
Lemma scan_open_object s t ms r :
  closed_value s = None → scan s t = ODone (JObj ms) r → length t ≤ length r → False.
Proof.
  intros Hc. destruct t as [|c t]; cbn [scan]; rewrite Hc; [done|].
  destruct (step s c) as [s1|]; [intros Hr%scan_rest Hl; simpl in Hl; lia|].
  destruct (complete s) as [v|] eqn:E; [|done]. intros [= -> _] _.
  destruct s as [[] [|f stk]]; try done; simpl in E; [by simplify_eq|by case_match; simplify_eq].
Qed.

Section theorems.
Context `{JsonTexts}.

Lemma store_strings l arr : store_elems (map JStr l) arr = (l ++ drop (length l) arr, false).
Proof.
  revert arr. induction l as [|s l IH]; intros arr; [done|]. cbn [map store_elems store_string].
  rewrite IH. destruct arr as [|a arr]; cbn [tail length app orb]; [|done]. by rewrite !drop_nil.
Qed.

Lemma unmarshal_answer text x :
  unmarshal_result text (answer_value x) = Ok (coerce 0 x.1.1, map (coerce 0) x.1.2, coerce 0 x.2).
Proof.
  destruct x as [[k ims] c]. unfold unmarshal_result, answer_value, unmarshal. cbn [foldl].
  assert (store_slice (JArr (map (λ s, JStr (coerce 0 s)) ims)) [] 0 =
    (map (coerce 0) ims, length ims, false)) as Hs.
  { destruct ims as [|i ims]; [done|]. unfold store_slice.
    rewrite <- (map_map (coerce 0) JStr). rewrite store_strings, drop_nil, app_nil_r, !length_map.
    by destruct ims. }
  change (store_member zero_fields (str "kernel", JStr (coerce 0 k))) with
    (mkFields (coerce 0 k) [] 0 [] false).
  assert (store_member (mkFields (coerce 0 k) [] 0 [] false)
      (str "initrd", JArr (map (λ s, JStr (coerce 0 s)) ims)) =
    mkFields (coerce 0 k) (map (coerce 0) ims) (length ims) [] false) as ->.
  { unfold store_member. change (field_of (str "initrd", JArr (map (λ s, JStr (coerce 0 s)) ims)).1)
      with (Some FInitrd). cbn [snd r_initrd r_len]. by rewrite Hs. }
  change (store_member (mkFields (coerce 0 k) (map (coerce 0) ims) (length ims) [] false)
    (str "cmdline", JStr (coerce 0 c))) with
    (mkFields (coerce 0 k) (map (coerce 0) ims) (length ims) (coerce 0 c) false).
  cbn [r_bad r_kernel r_initrd r_len r_cmdline]. rewrite take_ge; [done|]. rewrite length_map. lia.
Qed.

Lemma Decode_answer x rest e :
  Decode (mkReader (Encode x ++ rest) e) = Ok (coerce 0 x.1.1, map (coerce 0) x.1.2, coerce 0 x.2).
Proof. unfold Decode. cbn [rd_data]. by rewrite scan_Encode, unmarshal_answer. Qed.

(** C20: what the example server encodes, the remote booter decodes: kernel, initrds
    and command line come back in place, whatever follows the answer, unchanged when
    they are valid UTF-8 and with U+FFFD for every byte that is not part of it. *)
Theorem Decode_Encode x rest e :
  Decode (mkReader (Encode x ++ rest) e) = Ok (coerce 0 x.1.1, map (coerce 0) x.1.2, coerce 0 x.2) ∧
  (ValidString 0 x.1.1 && forallb (ValidString 0) x.1.2 && ValidString 0 x.2 = true →
   Decode (mkReader (Encode x ++ rest) e) = Ok x).
Proof.
  rewrite Decode_answer. split; [done|]. rewrite !andb_true_iff. intros [[Hk Hi] Hc].
  destruct x as [[k ims] c]. cbn [fst snd] in *. rewrite !coerce_valid by done.
  assert (map (coerce 0) ims = ims) as ->; [|done].
  induction ims as [|i ims IH]; [done|]. cbn [map forallb] in *.
  apply andb_true_iff in Hi as [Hi Hims]. by rewrite coerce_valid, IH.
Qed.

(** An answer that is cut short before the end of its object is never taken for an
    answer: decoding fails, with the error of the connection or with an end of file. *)
Lemma Decode_cut ms rest p t e :
  scan (MBegin, []) (p ++ t) = ODone (JObj ms) rest → length rest < length t →
  Decode (mkReader p e) =
    Err (match e with
         | Some e => e
         | None => ErrNew (if forallb is_space p then str "EOF" else str "unexpected EOF")
         end).
Proof.
  intros Hs Ht. unfold Decode. cbn [rd_data rd_end].
  destruct (scan (MBegin, []) p) as [v r|s|] eqn:E.
  - rewrite (scan_done_app _ _ t _ _ E) in Hs. injection Hs as _ <-. rewrite length_app in Ht. lia.
  - rewrite (scan_more_app _ _ t _ E) in Hs. destruct e as [e|]; [done|].
    assert (complete s = None) as ->; [|by destruct (forallb is_space p)].
    destruct s as [m [|f stk]]; [|by destruct m]. destruct t as [|c t]; [simpl in Ht; lia|]. destruct m; try done.
    + exfalso. cbn [scan] in Hs. destruct (closed_value (MEnd v, [])); [|simpl in Hs].
      all: injection Hs as _ <-; lia.
    + by apply scan_num in Hs as [raw' Hs].
  - by rewrite (scan_bad_app _ _ t E) in Hs.
Qed.

(** Without the text after its object an answer says the same. *)
Lemma Decode_trim ms rest p t e e' x :
  scan (MBegin, []) (p ++ t) = ODone (JObj ms) rest → length t ≤ length rest →
  Decode (mkReader p e) = Ok x ↔ Decode (mkReader (p ++ t) e') = Ok x.
Proof.
  intros Hs Ht.
  assert (∃ r, scan (MBegin, []) p = ODone (JObj ms) r) as [r Hp].
  { destruct (scan (MBegin, []) p) as [v r|s|] eqn:E.
    - rewrite (scan_done_app _ _ t _ _ E) in Hs. injection Hs as <- _. by eexists.
    - exfalso. rewrite (scan_more_app _ _ t _ E) in Hs. by eapply scan_open_object; [eapply scan_more_open| |].
    - by rewrite (scan_bad_app _ _ t E) in Hs. }
  unfold Decode. cbn [rd_data]. rewrite Hs, Hp. unfold unmarshal_result. by destruct (r_bad _).
Qed.

End theorems.

End Json.

(** * Witnesses *)

Definition toy_texts : JsonTexts := {|
  syntax_text _ := str "invalid character";
  type_text _ := str "json: cannot unmarshal"
|}.

Section witnesses.
#[local] Existing Instance toy_texts.

(** A text written with single quotes for double ones. *)
Definition quoted (s : GoString) : GoString := Replace s 39%gb [34%gb].

(** Keys are matched without regard to case, [null] leaves a field alone, a later
    value of a key is decoded over an earlier one, escapes are undone, and what
    follows the object is not read. *)
Example Decode_object :
  Json.Decode (mkReader (quoted (str " {'Kernel': 'a', 'x': [1, -2.5e3, {}], 'initrd': ['b', 'c'],
    'KERNEL': null, 'cmdline': 'q\u0041\n\ud83d\ude00\ud800', 'initrd': [null, 'd', 'e']} }")) None) =
  Ok (str "a", [str "b"; str "d"; str "e"],
      str "qA" ++ [10; 240; 159; 152; 128; 239; 191; 189]%gb).
Proof. reflexivity. Qed.

Example Decode_errors :
  map (λ s, Json.Decode (mkReader (quoted (str s)) None))
    [""; "  "; "{"; "{'kernel': 'a' 'b'}"; "{'kernel': 1}"; "[]"; "null"; "truex"; "01"; "-"; "{} trailing"]%string =
  let bad s := Err (ErrNew (str s)) in
  [bad "EOF"; bad "EOF"; bad "unexpected EOF"; bad "invalid character"; bad "json: cannot unmarshal";
   bad "json: cannot unmarshal"; Ok ([], [], []); bad "json: cannot unmarshal";
   bad "json: cannot unmarshal"; bad "unexpected EOF"; Ok ([], [], [])]%string.
Proof. reflexivity. Qed.

End witnesses.
