(* ===== verification/GoUrl.v ===== *)
(** The parts of Go's [net/url] the program uses: [url.Parse], [URL.IsAbs] and
    [URL.String]. *)
From S2P Require Import Prelude GoStrings GoFmt.

(** The name and the password, if one is given. *)
Record Userinfo := mkUserinfo {
  username : GoString;
  password : option GoString
}.

Record URL := mkURL {
  Scheme : GoString;
  Opaque : GoString;
  User : option Userinfo;
  url_Host : GoString;
  Path : GoString;
  RawPath : GoString;
  OmitHost : bool;
  ForceQuery : bool;
  RawQuery : GoString;
  Fragment : GoString;
  RawFragment : GoString
}.

Definition IsAbs (u : URL) : bool := bool_decide (Scheme u ≠ []).

(** * Escapes *)

Inductive encoding := encodePath | encodeUserPassword | encodeHost | encodeZone | encodeFragment.

#[export] Instance encoding_eq_dec : EqDecision encoding.
Proof. solve_decision. Defined.

Definition is_letter (c : Byte.byte) : bool := in_range 97 122 (u8 c) || in_range 65 90 (u8 c).

Definition one_of (s : GoString) (c : Byte.byte) : bool := bool_decide (c ∈ s).

Definition shouldEscape (c : Byte.byte) (mode : encoding) : bool :=
  if is_letter c || is_digit c then false
  else if bool_decide (mode = encodeHost ∨ mode = encodeZone) && one_of (34%gb :: str "!$&'()*+,;=:[]<>") c
  then false
  else if one_of (str "-_.~") c then false
  else if one_of (str "$&+,/:;=?@") c && bool_decide (mode ∈ [encodePath; encodeUserPassword; encodeFragment])
  then match mode with
       | encodePath => one_of (str "?") c
       | encodeUserPassword => one_of (str "@/?:") c
       | _ => false
       end
  else if bool_decide (mode = encodeFragment) && one_of (str "!()*") c then false
  else true.

Definition unhex (c : Byte.byte) : option Z :=
  if is_digit c then Some (u8 c - 48)%Z
  else if in_range 97 102 (u8 c) then Some (u8 c - 87)%Z
  else if in_range 65 70 (u8 c) then Some (u8 c - 55)%Z
  else None.

Section texts.
Context `{UnicodeTables}.

(** [EscapeError] and [InvalidHostError]. *)
Definition EscapeError (s : GoString) : error := ErrNew (str "invalid URL escape " ++ Quote s).
Definition InvalidHostError (s : GoString) : error :=
  ErrNew (str "invalid character " ++ Quote s ++ str " in host name").

(** [unescape]. *)
Fixpoint unescape (mode : encoding) (s : GoString) : result GoString :=
  let host := bool_decide (mode = encodeHost ∨ mode = encodeZone) in
  match s with
  | [] => Ok []
  | 37%gb :: s1 =>
      match s1 with
      | a :: b :: s' =>
          match unhex a, unhex b with
          | Some x, Some y =>
              let v := to_byte (16 * x + y) in
              let percent := bool_decide (a = 50%gb ∧ b = 53%gb) in
              if bool_decide (mode = encodeHost) && (x <? 8)%Z && negb percent
              then Err (EscapeError [37%gb; a; b])
              else if bool_decide (mode = encodeZone) && negb percent &&
                      negb (bool_decide (v = 32%gb)) && shouldEscape v encodeHost
              then Err (EscapeError [37%gb; a; b])
              else out ← unescape mode s'; Ok (v :: out)
          | _, _ => Err (EscapeError (take 3 s))
          end
      | _ => Err (EscapeError (take 3 s))
      end
  | c :: s' =>
      if host && (u8 c <? 128)%Z && shouldEscape c mode then Err (InvalidHostError [c])
      else out ← unescape mode s'; Ok (c :: out)
  end.

(** * Parsing *)

(** [strings.Cut] at the first [c]; the second part is nil when there is none. *)
Definition Cut (s : GoString) (c : Byte.byte) : GoString * GoString :=
  match IndexByte s c with
  | Some i => (take i s, drop (S i) s)
  | None => (s, [])
  end.

(** [strings.LastIndex] of one byte. *)
Fixpoint LastIndexByte (s : GoString) (c : Byte.byte) : option nat :=
  match s with
  | [] => None
  | x :: s =>
      match LastIndexByte s c with
      | Some i => Some (S i)
      | None => if decide (x = c) then Some 0 else None
      end
  end.

(** [strings.Index(s, "%25")]. *)
Fixpoint index_zone (s : GoString) : option nat :=
  match s with
  | [] => None
  | c :: s' => if HasPrefix s (str "%25") then Some 0 else S <$> index_zone s'
  end.

(** [getScheme]: [i] is the number of bytes seen, [acc] these bytes, reversed. *)
Fixpoint getScheme_from (acc raw s : GoString) : result (GoString * GoString) :=
  match s with
  | [] => Ok ([], raw)
  | c :: s =>
      if is_letter c then getScheme_from (c :: acc) raw s
      else if is_digit c || one_of (str "+-.") c then
        match acc with [] => Ok ([], raw) | _ => getScheme_from (c :: acc) raw s end
      else if decide (c = 58%gb) then
        match acc with
        | [] => Err (ErrNew (str "missing protocol scheme"))
        | _ => Ok (rev acc, s)
        end
      else Ok ([], raw)
  end.

Definition getScheme (raw : GoString) : result (GoString * GoString) := getScheme_from [] raw raw.

(** [strings.ToLower] of a scheme, which is ASCII. *)
Definition ToLower (s : GoString) : GoString :=
  map (λ c, if in_range 65 90 (u8 c) then to_byte (u8 c + 32) else c) s.

Definition validOptionalPort (port : GoString) : bool :=
  match port with
  | [] => true
  | 58%gb :: digits => forallb is_digit digits
  | _ => false
  end.

Definition bad_port (p : GoString) : error :=
  Errorf (str "invalid port %q after host") [AStr p].

Definition parseHost (host : GoString) : result GoString :=
  let plain := unescape encodeHost host in
  if HasPrefix host (str "[") then
    match LastIndexByte host 93%gb with
    | None => Err (ErrNew (str "missing ']' in host"))
    | Some i =>
        let colonPort := drop (S i) host in
        if negb (validOptionalPort colonPort) then Err (bad_port colonPort) else
        match index_zone (take i host) with
        | Some zone =>
            host1 ← unescape encodeHost (take zone host);
            host2 ← unescape encodeZone (take (i - zone) (drop zone host));
            host3 ← unescape encodeHost (drop i host);
            Ok (host1 ++ host2 ++ host3)
        | None => plain
        end
    end
  else
    match LastIndexByte host 58%gb with
    | Some i =>
        let colonPort := drop i host in
        if negb (validOptionalPort colonPort) then Err (bad_port colonPort) else plain
    | None => plain
    end.

Definition validUserinfo (s : GoString) : bool :=
  forallb (λ c, is_letter c || is_digit c || one_of (str "-._:~!$&'()*+,;=%@") c) s.

Definition parseAuthority (authority : GoString) : result (option Userinfo * GoString) :=
  match LastIndexByte authority 64%gb with
  | None => host ← parseHost authority; Ok (None, host)
  | Some i =>
      host ← parseHost (drop (S i) authority);
      let userinfo := take i authority in
      if negb (validUserinfo userinfo) then Err (ErrNew (str "net/url: invalid userinfo")) else
      match IndexByte userinfo 58%gb with
      | None =>
          name ← unescape encodeUserPassword userinfo;
          Ok (Some (mkUserinfo name None), host)
      | Some j =>
          name ← unescape encodeUserPassword (take j userinfo);
          pass ← unescape encodeUserPassword (drop (S j) userinfo);
          Ok (Some (mkUserinfo name (Some pass)), host)
      end
  end.

(** [escape]. *)
Definition hex_upper (n : Z) : Byte.byte :=
  if (n <? 10)%Z then to_byte (48 + n) else to_byte (55 + n).

Definition url_escape (s : GoString) (mode : encoding) : GoString :=
  flat_map (λ c, if shouldEscape c mode
                 then [37%gb; hex_upper (u8 c `div` 16); hex_upper (u8 c `mod` 16)] else [c]) s.

(** [setPath] and [setFragment]: the decoded text, and the encoded one where it is
    not the default encoding. *)
Definition set_escaped (mode : encoding) (p : GoString) : result (GoString * GoString) :=
  path ← unescape mode p;
  Ok (path, if decide (p = url_escape path mode) then [] else p).

Definition stringContainsCTLByte (s : GoString) : bool :=
  existsb (λ b, (u8 b <? 32)%Z || (u8 b =? 127)%Z) s.

(** The query: [rest] up to the first question mark, whether the query is an empty
    one, and the query. *)
Definition split_query (rest : GoString) : GoString * bool * GoString :=
  if HasSuffix rest (str "?") && bool_decide (length (filter (λ c, c = 63%gb) rest) = 1)
  then (take (length rest - 1) rest, true, [])
  else let '(rest, q) := Cut rest 63%gb in (rest, false, q).

(** [parse(rawURL, false)], for a text without a fragment. *)
Definition parse_url (raw : GoString) : result URL :=
  if stringContainsCTLByte raw
  then Err (ErrNew (str "net/url: invalid control character in URL")) else
  if decide (raw = str "*") then Ok (mkURL [] [] None [] raw [] false false [] [] []) else
  '(scheme, rest) ← getScheme raw;
  let scheme := ToLower scheme in
  let '(rest, force, query) := split_query rest in
  let rooted := HasPrefix rest (str "/") in
  if negb rooted && bool_decide (scheme ≠ [])
  then Ok (mkURL scheme rest None [] [] [] false force query [] []) else
  if negb rooted && bool_decide (58%gb ∈ (Cut rest 47%gb).1)
  then Err (ErrNew (str "first path segment in URL cannot contain colon")) else
  '(user, host, rest, omit) ←
    (if (bool_decide (scheme ≠ []) || negb (HasPrefix rest (str "///"))) && HasPrefix rest (str "//")
     then
       let auth := drop 2 rest in
       let '(authority, rest) :=
         match IndexByte auth 47%gb with
         | Some i => (take i auth, drop i auth)
         | None => (auth, [])
         end in
       '(user, host) ← parseAuthority authority; Ok (user, host, rest, false)
     else Ok (None, [], rest, bool_decide (scheme ≠ []) && rooted));
  '(path, rawpath) ← set_escaped encodePath rest;
  Ok (mkURL scheme [] user host path rawpath omit force query [] []).

(** [url.Parse]; [parse_error] is the [*url.Error] it returns. *)
Definition parse_error (url : GoString) (e : error) : error :=
  Errorf (str "%s %q: %s") [AStr (str "parse"); AStr url; AStr (Error e)].

Definition url_Parse (raw : GoString) : result URL :=
  let '(u, frag) := Cut raw 35%gb in
  match parse_url u with
  | Err e => Err (parse_error u e)
  | Ok url =>
      match frag with
      | [] => Ok url
      | _ =>
          match set_escaped encodeFragment frag with
          | Err e => Err (parse_error raw e)
          | Ok (f, rf) =>
              Ok (mkURL (Scheme url) (Opaque url) (User url) (url_Host url) (Path url) (RawPath url)
                    (OmitHost url) (ForceQuery url) (RawQuery url) f rf)
          end
      end
  end.

End texts.

(** * Printing *)

Definition validEncoded (s : GoString) (mode : encoding) : bool :=
  forallb (λ c, one_of (str "!$&'()*+,;=:@[]%") c || negb (shouldEscape c mode)) s.

(** [EscapedPath] and [EscapedFragment]. *)
Definition escaped `{UnicodeTables} (mode : encoding) (raw text : GoString) : GoString :=
  if negb (bool_decide (raw = [])) && validEncoded raw mode && bool_decide (unescape mode raw = Ok text)
  then raw
  else if bool_decide (mode = encodePath ∧ text = str "*") then str "*"
  else url_escape text mode.

Definition Userinfo_String (u : Userinfo) : GoString :=
  if bool_decide (username u = [] ∧ default [] (password u) = []) then []
  else url_escape (username u) encodeUserPassword ++
       match password u with
       | Some p => str ":" ++ url_escape p encodeUserPassword
       | None => []
       end.

Definition URL_text `{UnicodeTables} (u : URL) : GoString :=
  let named := bool_decide (url_Host u ≠ []) || bool_decide (is_Some (User u)) in
  let scheme := if IsAbs u then Scheme u ++ str ":" else [] in
  let body :=
    if bool_decide (Opaque u ≠ []) then Opaque u else
    let authority :=
      if (IsAbs u || named) && negb (OmitHost u && negb named) then
        (if named || bool_decide (Path u ≠ []) then str "//" else []) ++
        match User u with Some ui => Userinfo_String ui ++ str "@" | None => [] end ++
        url_escape (url_Host u) encodeHost
      else [] in
    let path := escaped encodePath (RawPath u) (Path u) in
    let sep := if bool_decide (path ≠ []) && negb (HasPrefix path (str "/")) &&
                  bool_decide (url_Host u ≠ []) then str "/" else [] in
    let dot := if bool_decide (scheme ++ authority ++ sep = []) && bool_decide (58%gb ∈ (Cut path 47%gb).1)
               then str "./" else [] in
    authority ++ sep ++ dot ++ path in
  scheme ++ body ++
  (if ForceQuery u || bool_decide (RawQuery u ≠ []) then str "?" ++ RawQuery u else []) ++
  (if bool_decide (Fragment u ≠ []) then str "#" ++ escaped encodeFragment (RawFragment u) (Fragment u)
   else []).

(** * Lemmas *)

(** ** The scheme *)

Definition scheme_char (c : Byte.byte) : bool := is_letter c || is_digit c || one_of (str "+-.") c.

(** A letter, then letters, digits and [+-.]. *)
Definition valid_scheme (s : GoString) : bool :=
  match s with [] => false | c :: s => is_letter c && forallb scheme_char s end.

Lemma not_scheme_colon c : scheme_char c = true → c ≠ 58%gb.
Proof. by intros Hc ->. Qed.

Lemma getScheme_from_spec acc raw s sch rest :
  getScheme_from acc raw s = Ok (sch, rest) → sch ≠ [] →
  ∃ mid, s = mid ++ 58%gb :: rest ∧ sch = rev acc ++ mid ∧ forallb scheme_char mid = true ∧
    (acc = [] → valid_scheme mid = true).
Proof.
  revert acc. induction s as [|c s IH]; intros acc; cbn [getScheme_from]; [by intros [= <- _]|].
  destruct (is_letter c) eqn:El.
  { intros Hg Hs. destruct (IH _ Hg Hs) as (mid & -> & -> & Hm & _). exists (c :: mid).
    cbn [rev forallb valid_scheme]. rewrite <- app_assoc, Hm, El.
    split_and!; [done|done| |done]. unfold scheme_char. by rewrite El. }
  destruct (is_digit c || one_of (str "+-.") c) eqn:Ed.
  { destruct acc as [|a acc]; [by intros [= <- _]|]. intros Hg Hs.
    destruct (IH _ Hg Hs) as (mid & -> & -> & Hm & _). exists (c :: mid). cbn [rev forallb].
    rewrite <- !app_assoc, Hm. split_and!; [done|done| |done].
    unfold scheme_char. by rewrite El, <- orb_assoc, orb_false_l, Ed. }
  case_decide as Hc; [|by intros [= <- _]]. subst c. destruct acc as [|a acc]; [done|].
  intros [= <- <-] _. exists []. by rewrite app_nil_r.
Qed.

Lemma getScheme_from_ok acc raw mid rest :
  (acc = [] → valid_scheme mid = true) → forallb scheme_char mid = true →
  getScheme_from acc raw (mid ++ 58%gb :: rest) = Ok (rev acc ++ mid, rest).
Proof.
  revert acc. induction mid as [|c mid IH]; intros acc Hv Hm; cbn [app getScheme_from forallb] in *.
  { destruct acc; [by specialize (Hv eq_refl)|]. by rewrite app_nil_r. }
  apply andb_true_iff in Hm as [Hc Hm].
  assert (rev (c :: acc) ++ mid = rev acc ++ c :: mid) as Heq by (cbn [rev]; by rewrite <- app_assoc).
  destruct (is_letter c) eqn:El; [by rewrite IH, Heq|].
  assert (is_digit c || one_of (str "+-.") c = true) as ->.
  { unfold scheme_char in Hc. by rewrite El, <- orb_assoc in Hc. }
  destruct acc as [|a acc]; [|by rewrite IH, Heq].
  specialize (Hv eq_refl). simpl in Hv. by rewrite El in Hv.
Qed.

(** [getScheme] finds a scheme exactly where the text starts with one. *)
Lemma getScheme_spec raw sch rest :
  sch ≠ [] → getScheme raw = Ok (sch, rest) ↔ raw = sch ++ 58%gb :: rest ∧ valid_scheme sch = true.
Proof.
  intros Hne. unfold getScheme. split.
  - intros Hg. destruct (getScheme_from_spec _ _ _ _ _ Hg Hne) as (mid & -> & -> & _ & Hv). eauto.
  - intros [-> Hv]. apply getScheme_from_ok; [done|]. destruct sch as [|c s]; [done|].
    cbn [valid_scheme forallb] in *. apply andb_true_iff in Hv as [Hl ->].
    unfold scheme_char. by rewrite Hl.
Qed.

Lemma ToLower_nil s : ToLower s = [] ↔ s = [].
Proof. by destruct s. Qed.

Section theorems.
Context `{UnicodeTables}.

Lemma parse_url_scheme raw u :
  parse_url raw = Ok u → Scheme u ≠ [] →
  ∃ sch rest, raw = sch ++ 58%gb :: rest ∧ valid_scheme sch = true ∧ Scheme u = ToLower sch.
Proof.
  unfold parse_url. destruct (stringContainsCTLByte raw); [done|]. case_decide; [by intros [= <-]|].
  destruct (getScheme raw) as [[sch rest]|e] eqn:Hg; [|done]. cbn [mbind result_bind].
  destruct (split_query rest) as [[rest' force] query]. intros Hp Hs.
  assert (Scheme u = ToLower sch) as Hu.
  { revert Hp. match goal with |- (if ?b then _ else _) = _ → _ => destruct b end; [by intros [= <-]|].
    match goal with |- (if ?b then _ else _) = _ → _ => destruct b end; [done|].
    match goal with |- mbind _ ?x = _ → _ => destruct x as [[[[user host] r] omit]|e] end; [|done].
    cbn [mbind result_bind]. destruct (set_escaped encodePath r) as [[path rawpath]|e]; [|done].
    cbn [mbind result_bind]. by intros [= <-]. }
  exists sch, rest. rewrite Hu, ToLower_nil in Hs. by apply getScheme_spec in Hg as [-> Hv].
Qed.

Lemma Cut_app s c : s = (Cut s c).1 ∨ s = (Cut s c).1 ++ c :: (Cut s c).2.
Proof.
  unfold Cut. destruct (IndexByte s c) as [i|] eqn:E; [|by left]. right. by apply IndexByte_Some in E as [_ E].
Qed.

Lemma url_Parse_parts raw u :
  url_Parse raw = Ok u → ∃ v, parse_url (Cut raw 35%gb).1 = Ok v ∧ Scheme u = Scheme v.
Proof.
  unfold url_Parse. destruct (Cut raw 35%gb) as [a frag]. cbn [fst].
  destruct (parse_url a) as [v|e]; [|done]. destruct frag as [|c frag]; [intros [= <-]; eauto|].
  destruct (set_escaped encodeFragment (c :: frag)) as [[f rf]|e]; [|done]. intros [= <-]. eauto.
Qed.

(** A URL that parses is absolute exactly when its text starts with a scheme. *)
Lemma url_Parse_absolute raw u :
  url_Parse raw = Ok u →
  IsAbs u = true ↔ ∃ sch rest, raw = sch ++ 58%gb :: rest ∧ valid_scheme sch = true ∧ Scheme u = ToLower sch.
Proof.
  intros Hp. unfold IsAbs. rewrite bool_decide_eq_true. split.
  - intros Hs. destruct (url_Parse_parts raw u Hp) as (v & Hv & Hsv). rewrite Hsv in Hs |- *.
    destruct (parse_url_scheme _ _ Hv Hs) as (sch & rest & Hc & Hval & Hsch).
    destruct (Cut_app raw 35%gb) as [Hr|Hr]; rewrite Hr, Hc.
    + by exists sch, rest.
    + exists sch, (rest ++ 35%gb :: (Cut raw 35%gb).2). by rewrite <- app_assoc.
  - intros (sch & rest & -> & Hv & ->). rewrite ToLower_nil. by destruct sch.
Qed.

End theorems.

(** ** Plain URLs *)

Definition host_char (c : Byte.byte) : bool := is_letter c || is_digit c || one_of (str "-._") c.
Definition path_char (c : Byte.byte) : bool := is_letter c || is_digit c || one_of (str "-._~/=") c.

(** A name or an address, and an optional port. *)
Definition plain_host (host : GoString) : Prop :=
  ∃ name port, host = name ++ port ∧ forallb host_char name = true ∧ validOptionalPort port = true.

Lemma Forall_chars (f : Byte.byte → bool) (P : Byte.byte → bool) s :
  forallb (λ c, implb (f c) (P c)) all_bytes = true → forallb f s = true → Forall (λ c, P c = true) s.
Proof.
  intros Hall Hs. rewrite forallb_forall in Hs. apply Forall_forall. intros c Hc.
  pose proof (byte_forall _ Hall c) as Hi. simpl in Hi. rewrite (Hs c) in Hi by by apply list_elem_of_In. done.
Qed.

Lemma not_in_chars (P : Byte.byte → bool) s c : P c = false → Forall (λ c, P c = true) s → c ∉ s.
Proof. intros Hc Hs Hin. rewrite Forall_forall in Hs. rewrite (Hs c Hin) in Hc. done. Qed.

Lemma unescape_plain `{UnicodeTables} mode s :
  Forall (λ c, negb (bool_decide (c = 37%gb)) && negb (shouldEscape c mode) = true) s → unescape mode s = Ok s.
Proof.
  induction 1 as [|c s Hc _ IH]; [done|]. apply andb_true_iff in Hc as [Hc Hsh].
  apply negb_true_iff, bool_decide_eq_false in Hc. apply negb_true_iff in Hsh.
  assert (unescape mode (c :: s) =
    if bool_decide (mode = encodeHost ∨ mode = encodeZone) && (u8 c <? 128)%Z && shouldEscape c mode
    then Err (InvalidHostError [c]) else out ← unescape mode s; Ok (c :: out)) as -> by by destruct c.
  rewrite Hsh, andb_false_r, IH. done.
Qed.

Lemma url_escape_plain mode s :
  Forall (λ c, negb (bool_decide (c = 37%gb)) && negb (shouldEscape c mode) = true) s → url_escape s mode = s.
Proof.
  induction 1 as [|c s Hc _ IH]; [done|]. apply andb_true_iff in Hc as [_ Hsh].
  apply negb_true_iff in Hsh. cbn [url_escape flat_map]. rewrite Hsh. simpl. f_equal. exact IH.
Qed.

Lemma LastIndexByte_none s c : c ∉ s → LastIndexByte s c = None.
Proof.
  induction s as [|x s IH]; [done|]. rewrite not_elem_of_cons. intros [Hx Hs]. cbn [LastIndexByte].
  rewrite IH by done. by rewrite decide_False.
Qed.

Lemma LastIndexByte_app a c b : c ∉ b → LastIndexByte (a ++ c :: b) c = Some (length a).
Proof.
  intros Hb. induction a as [|x a IH]; cbn [app LastIndexByte].
  - by rewrite LastIndexByte_none, decide_True.
  - by rewrite IH.
Qed.

(** The characters of a plain URL: nothing that ends a part of it or needs an escape. *)
Definition url_char (c : Byte.byte) : bool :=
  negb ((u8 c <? 32)%Z || (u8 c =? 127)%Z || one_of (str "#?%@[") c).

Lemma plain_host_chars host : plain_host host →
  Forall (λ c, url_char c = true) host ∧ 47%gb ∉ host ∧
  Forall (λ c, negb (bool_decide (c = 37%gb)) && negb (shouldEscape c encodeHost) = true) host.
Proof.
  intros (name & port & -> & Hn & Hp).
  assert (forallb (λ c, host_char c || bool_decide (c = 58%gb)) (name ++ port) = true) as Hall.
  { rewrite forallb_app. apply andb_true_iff. split.
    - rewrite forallb_forall in Hn |- *. intros c Hc. by rewrite Hn.
    - destruct port as [|c port]; [done|].
      assert (c = 58%gb ∧ forallb is_digit port = true) as [-> Hd] by (destruct c; done).
      rewrite forallb_forall in Hd |- *. intros c [<-|Hc]; [done|]. unfold host_char. rewrite Hd by done.
      by rewrite orb_true_r. }
  split_and!.
  - eapply Forall_chars; [|exact Hall]. vm_compute. reflexivity.
  - eapply (not_in_chars (λ c, negb (bool_decide (c = 47%gb)))); [done|].
    eapply Forall_chars; [|exact Hall]. vm_compute. reflexivity.
  - eapply (Forall_chars _ (λ c, negb (bool_decide (c = 37%gb)) && negb (shouldEscape c encodeHost)));
      [|exact Hall]. vm_compute. reflexivity.
Qed.

Lemma plain_path_chars path : forallb path_char path = true →
  Forall (λ c, url_char c = true) path ∧
  Forall (λ c, negb (bool_decide (c = 37%gb)) && negb (shouldEscape c encodePath) = true) path.
Proof.
  intros Hp. split.
  - eapply Forall_chars; [|exact Hp]. vm_compute. reflexivity.
  - eapply (Forall_chars _ (λ c, negb (bool_decide (c = 37%gb)) && negb (shouldEscape c encodePath)));
      [|exact Hp]. vm_compute. reflexivity.
Qed.

Section plain.
Context `{UnicodeTables}.

Lemma parseAuthority_plain host : plain_host host → parseAuthority host = Ok (None, host).
Proof.
  intros Hh. destruct (plain_host_chars host Hh) as (Hc & _ & Hu).
  unfold parseAuthority. rewrite LastIndexByte_none by by eapply (not_in_chars url_char).
  assert (parseHost host = Ok host) as ->; [|done]. unfold parseHost.
  rewrite (unescape_plain encodeHost host Hu).
  assert (HasPrefix host (str "[") = false) as ->.
  { apply bool_decide_eq_false. destruct host as [|c host]; [done|]. intros [= ->].
    by apply Forall_cons in Hc as [Hc _]. }
  destruct Hh as (name & port & -> & Hn & Hp).
  assert (58%gb ∉ name) as Hcol.
  { eapply (not_in_chars (λ c, negb (bool_decide (c = 58%gb)))); [done|].
    eapply Forall_chars; [|exact Hn]. vm_compute. reflexivity. }
  destruct port as [|c port]; [by rewrite app_nil_r, LastIndexByte_none|].
  assert (c = 58%gb ∧ forallb is_digit port = true) as [-> Hd] by (destruct c; done).
  rewrite LastIndexByte_app.
  - rewrite drop_app_length. by rewrite Hp.
  - eapply (not_in_chars (λ c, negb (bool_decide (c = 58%gb)))); [done|].
    eapply Forall_chars; [|exact Hd]. vm_compute. reflexivity.
Qed.

Lemma split_query_plain s : 63%gb ∉ s → split_query s = (s, false, []).
Proof.
  intros Hs. unfold split_query. assert (HasSuffix s (str "?") = false) as ->.
  - apply bool_decide_eq_false. intros [_ Hd]. apply Hs.
    rewrite <- (take_drop (length s - length (str "?")) s), Hd. apply elem_of_app. right. by left.
  - cbn [andb]. unfold Cut. by rewrite (proj2 (IndexByte_None s 63%gb)).
Qed.

Lemma no_ctl s : Forall (λ c, url_char c = true) s → stringContainsCTLByte s = false.
Proof.
  intros Hs. unfold stringContainsCTLByte. apply not_true_iff_false. rewrite existsb_exists.
  intros (c & Hc & Hb). rewrite Forall_forall in Hs. specialize (Hs c ltac:(by apply list_elem_of_In)).
  unfold url_char in Hs. by rewrite Hb in Hs.
Qed.

(** A plain http URL parses into its parts. *)
Lemma url_Parse_http host path :
  plain_host host → forallb path_char path = true → path = [] ∨ HasPrefix path (str "/") = true →
  url_Parse (str "http://" ++ host ++ path) =
    Ok (mkURL (str "http") [] None host path [] false false [] [] []).
Proof.
  intros Hh Hp Hroot. destruct (plain_host_chars host Hh) as (Hhc & Hsl & _).
  destruct (plain_path_chars path Hp) as [Hpc Hpe].
  set (raw := str "http://" ++ host ++ path).
  assert (Forall (λ c, url_char c = true) raw) as Hraw.
  { apply Forall_app. split; [|by apply Forall_app]. repeat constructor. }
  unfold url_Parse, Cut. rewrite (proj2 (IndexByte_None raw 35%gb)) by by eapply (not_in_chars url_char).
  unfold parse_url. rewrite no_ctl by done. rewrite decide_False by done.
  change raw with (str "http" ++ 58%gb :: str "//" ++ host ++ path).
  rewrite (proj2 (getScheme_spec _ (str "http") (str "//" ++ host ++ path) ltac:(done))) by done.
  cbn [mbind result_bind]. change (ToLower (str "http")) with (str "http").
  rewrite split_query_plain.
  2:{ eapply (not_in_chars url_char); [done|]. by do 5 apply Forall_cons in Hraw as [_ Hraw]. }
  change (HasPrefix (str "//" ++ host ++ path) (str "/")) with true.
  change (HasPrefix (str "//" ++ host ++ path) (str "//")) with true.
  rewrite bool_decide_true by done. cbn [negb andb orb].
  change (drop 2 (str "//" ++ host ++ path)) with (host ++ path).
  assert (match IndexByte (host ++ path) 47%gb with
          | Some i => (take i (host ++ path), drop i (host ++ path))
          | None => (host ++ path, [])
          end = (host, path)) as ->.
  { destruct Hroot as [->|Hr].
    - rewrite app_nil_r. by rewrite (proj2 (IndexByte_None host 47%gb)).
    - apply bool_decide_eq_true in Hr. destruct path as [|c path]; [done|]. injection Hr as ->.
      by rewrite IndexByte_app, take_app_length, drop_app_length. }
  rewrite parseAuthority_plain by done. cbn [mbind result_bind]. unfold set_escaped.
  rewrite unescape_plain by done. cbn [mbind result_bind]. by rewrite url_escape_plain, decide_True.
Qed.

End plain.

Section examples.
#[local] Existing Instance latin1_tables.

(** Parsed and printed again: an opaque URL, user and port, escapes kept and undone,
    a query, a fragment; and texts that are refused. *)
Example Parse_texts :
  map (λ s, match url_Parse (str s) with Ok u => (Scheme u, url_Host u, Path u, URL_text u) | Err e => ([], [], [], Error e) end)
    ["HTTP://u:p@[fe80::1%25en0]:80/a%20b%2fc?x=%zz#f"; "mailto:a@b"; "/kernel"; "kernel?"; "//h/k"; "./a:b"]%string =
  [(str "http", str "[fe80::1%en0]:80", str "/a b/c", str "http://u:p@[fe80::1%25en0]:80/a%20b%2fc?x=%zz#f");
   (str "mailto", [], [], str "mailto:a@b"); ([], [], str "/kernel", str "/kernel");
   ([], [], str "kernel", str "kernel?"); ([], str "h", str "/k", str "//h/k");
   ([], [], str "./a:b", str "./a:b")].
Proof. vm_compute. reflexivity. Qed.

Example Parse_refused :
  map (λ s, is_ok (url_Parse (str s)))
    ["http://h:8x/"; "http://[::1/"; "a:b%"; "http://h/%zz"; "http://h%41/"; ":x"; "a_b:c"; "http://a b/"]%string =
  [false; false; true; false; false; false; false; false].
Proof. vm_compute. reflexivity. Qed.

End examples.
