(* ===== verification/Dhcp.v ===== *)
(** dhcp/dhcp.go, the packet layer: [DhcpOption], [ParseDHCP], [OfferDHCP] and
    [InterfaceIP], with the option-list reading of a packet they are proved
    against. *)
From S2P Require Import Prelude GoStrings GoFmt GoNet.

(** * Definitions from dhcp/dhcp.go *)

Definition DhcpMagic : bytes := [99; 130; 83; 99]%gb.

(** [GUID] is tested against nil, so it is an option; the other slices are not. *)
Record DHCPPacket := mkDHCPPacket {
  TID : bytes;
  MAC : HardwareAddr;
  GUID : option bytes;
  ServerIP : IP
}.

#[export] Instance DHCPPacket_eq_dec : EqDecision DHCPPacket.
Proof. solve_decision. Defined.

Definition set_GUID (g : bytes) (p : DHCPPacket) : DHCPPacket :=
  mkDHCPPacket (TID p) (MAC p) (Some g) (ServerIP p).

Definition set_ServerIP (ip : IP) (p : DHCPPacket) : DHCPPacket :=
  mkDHCPPacket (TID p) (MAC p) (GUID p) ip.

Definition DhcpOption (b : bytes) : go (Byte.byte * bytes * bytes) :=
  if (length b <? 2)%nat then Ret (255%gb, [], []) else
  b0 ← index b 0;
  if decide (b0 = 255%gb) then Ret (255%gb, [], []) else
  typ ← index b 0;
  b1 ← index b 1;
  let l := Z.to_nat (u8 b1) in
  if (length b <? l + 2)%nat then Ret (255%gb, [], []) else
  val ← slice b 2 (2 + l);
  next ← slice_from b (2 + l);
  Ret (typ, val, next).

(** The [switch typ] of [ParseDHCP]: the packet updated, or the error returned. *)
Definition ParseDHCP_switch (ret : DHCPPacket) (typ : Byte.byte) (val : bytes)
    : go (result DHCPPacket) :=
  let mac := AStr (HardwareAddr_String (MAC ret)) in
  if decide (typ = 53%gb) then
    if decide (length val ≠ 1)
    then Ret (Err (Errorf (str "packet from %s has malformed option 53") [mac])) else
    v0 ← index val 0;
    if decide (v0 ≠ 1%gb)
    then Ret (Err (Errorf (str "packet from %s is not a DHCPDISCOVER") [mac])) else
    Ret (Ok ret)
  else if decide (typ = 93%gb) then
    if decide (length val ≠ 2)
    then Ret (Err (Errorf (str "packet from %s has malformed option 93") [mac])) else
    arch ← Uint16 val;
    if decide (arch ≠ 0%Z)
    then Ret (Err (Errorf (str "%s is not an x86 PXE client") [mac])) else
    Ret (Ok ret)
  else if decide (typ = 97%gb) then
    if decide (length val ≠ 17)
    then Ret (Err (Errorf (str "packet from %s has malformed option 97") [mac])) else
    v0 ← index val 0;
    if decide (v0 ≠ 0%gb)
    then Ret (Err (Errorf (str "packet from %s has malformed option 97") [mac])) else
    guid ← slice_from val 1;
    Ret (Ok (set_GUID guid ret))
  else Ret (Ok ret).

(** The loop [for typ != 255 { body; typ, val, opts = DhcpOption(opts) }], whose
    body updates a state or returns an error. *)
Fixpoint for_options {S : Type} (body : S → Byte.byte → bytes → go (result S))
    (fuel : nat) (s : S) (typ : Byte.byte) (val opts : bytes) : go (result S) :=
  if decide (typ = 255%gb) then Ret (Ok s) else
  match fuel with
  | O => OutOfFuel
  | Datatypes.S fuel =>
      r ← body s typ val;
      match r with
      | Err e => Ret (Err e)
      | Ok s' =>
          '(typ', val', opts') ← DhcpOption opts;
          for_options body fuel s' typ' val' opts'
      end
  end.

Definition ParseDHCP (b : bytes) : go (result DHCPPacket) :=
  if (length b <? 240)%nat then Ret (Err (ErrNew (str "packet too short"))) else
  tid ← slice b 4 8;
  mac ← slice b 28 34;
  let ret := mkDHCPPacket tid mac None [] in
  let macs := AStr (HardwareAddr_String mac) in
  b0 ← index b 0;
  if decide (b0 ≠ 1%gb)
  then Ret (Err (Errorf (str "packet from %s is not a BOOTP request") [macs])) else
  b1 ← index b 1;
  not_ether ← (if decide (b1 ≠ 1%gb)
               then b2 ← index b 2; Ret (bool_decide (b2 ≠ 6%gb))
               else Ret false);
  if not_ether : bool
  then Ret (Err (Errorf (str "packet from %s is not for an Ethernet PHY") [macs])) else
  magic ← slice b 236 240;
  if decide (magic ≠ DhcpMagic)
  then Ret (Err (Errorf (str "packet from %s is not a DHCP request") [macs])) else
  tail ← slice_from b 240;
  '(typ, val, opts) ← DhcpOption tail;
  r ← for_options ParseDHCP_switch (length b) ret typ val opts;
  match r with
  | Err e => Ret (Err e)
  | Ok ret =>
      match GUID ret with
      | None => Ret (Err (Errorf (str "%s is not a PXE client") [macs]))
      | Some _ => Ret (Ok ret)
      end
  end.

(** The fixed-length BOOTP reply that [OfferDHCP] writes first. *)
Definition Offer_bootp (p : DHCPPacket) : bytes :=
  let bootp := replicate 236 0%gb in
  let bootp := <[0 := 2%gb]> bootp in
  let bootp := <[1 := 1%gb]> bootp in
  let bootp := <[2 := 6%gb]> bootp in
  let bootp := <[10 := 128%gb]> bootp in
  let bootp := copy_at 4 (TID p) bootp in
  copy_at 28 (MAC p) bootp.

(** The PXE vendor options, written to a buffer of their own. *)
Definition Offer_pxe (p : DHCPPacket) : bytes :=
  [6; 1; 3]%gb ++
  [8; 7; 128; 0; 1]%gb ++ ServerIP p ++
  [9; 12; 128; 0; 9]%gb ++ str "Pixiecore" ++
  [10; 10; 0]%gb ++ str "Pixiecore" ++
  [255]%gb.

Definition OfferDHCP (p : DHCPPacket) : bytes :=
  let pxe := Offer_pxe p in
  Offer_bootp p ++ DhcpMagic ++
  [53; 1; 2]%gb ++
  [54; 4]%gb ++ ServerIP p ++
  [60; 9]%gb ++ str "PXEClient" ++
  [97; 17; 0]%gb ++ default [] (GUID p) ++
  [43%gb; to_byte (Z.of_nat (length pxe))] ++ pxe ++
  [255]%gb.

(** What [net.InterfaceByIndex] and [Interface.Addrs] say of an interface: its
    name and its addresses, each an [IPNet] or another kind of [net.Addr]. *)
Inductive IfAddr :=
| IPNet (ip : IP)
| OtherIfAddr.

Record Interface := mkInterface {
  if_name : GoString;
  if_addrs : result (list IfAddr)
}.

(** The inner loop: the first usable address that satisfies [f]. *)
Fixpoint first_addr (f : IP → bool) (addrs : list IfAddr) : option IP :=
  match addrs with
  | [] => None
  | IPNet ip :: addrs' =>
      match To4 ip with
      | None => first_addr f addrs'
      | Some ip4 => if f ip4 then Some ip4 else first_addr f addrs'
      end
  | OtherIfAddr :: addrs' => first_addr f addrs'
  end.

(** The outer loop over the address classes. *)
Fixpoint first_class (fs : list (IP → bool)) (addrs : list IfAddr) : option IP :=
  match fs with
  | [] => None
  | f :: fs' =>
      match first_addr f addrs with
      | Some ip => Some ip
      | None => first_class fs' addrs
      end
  end.

Definition InterfaceIP (byIndex : Z → result Interface) (ifIdx : Z) : result IP :=
  iface ← byIndex ifIdx;
  addrs ← if_addrs iface;
  match first_class [IsGlobalUnicast; IsLinkLocalUnicast; IsLoopback] addrs with
  | Some ip => Ok ip
  | None => Err (Errorf (str "interface %s has no usable unicast addresses")
                   [AStr (if_name iface)])
  end.


(** * The option list of a packet

    The reading the parsers are proved against: a sequence of type, length and
    value triples up to the end marker 255, a missing length byte, or a value
    that is cut short. *)

Abbreviation dhcp_option := (Byte.byte * bytes)%type.

Fixpoint decode_options (fuel : nat) (b : bytes) : list dhcp_option :=
  match fuel, b with
  | S fuel, t :: l :: rest =>
      let n := Z.to_nat (u8 l) in
      if decide (t = 255%gb) then []
      else if (length rest <? n)%nat then []
      else (t, take n rest) :: decode_options fuel (drop n rest)
  | _, _ => []
  end.

Definition options_of (b : bytes) : list dhcp_option := decode_options (length b) b.

(** The wire form of an option, and the options that have one. *)
Definition option_bytes (o : dhcp_option) : bytes :=
  o.1 :: to_byte (Z.of_nat (length o.2)) :: o.2.

Definition wf_option (o : dhcp_option) : Prop := o.1 ≠ 255%gb ∧ length o.2 < 256.

(** What [for_options] computes, as a fold over the option list. *)
Fixpoint fold_options {S : Type} (body : S → Byte.byte → bytes → go (result S))
    (s : S) (opts : list dhcp_option) : go (result S) :=
  match opts with
  | [] => Ret (Ok s)
  | (t, v) :: opts' =>
      r ← body s t v;
      match r with
      | Err e => Ret (Err e)
      | Ok s' => fold_options body s' opts'
      end
  end.

(** ** Decoding and encoding *)

Lemma decode_options_fuel f1 f2 b :
  length b ≤ f1 → length b ≤ f2 → decode_options f1 b = decode_options f2 b.
Proof.
  revert f2 b. induction f1 as [|f1 IH]; intros f2 b H1 H2.
  - destruct b; simpl in *; [by destruct f2|lia].
  - destruct b as [|t [|l rest]]; [by destruct f2..|].
    destruct f2 as [|f2]; simpl in *; [lia|].
    case_decide; [done|]. case_match; [done|]. f_equal.
    apply IH; rewrite length_drop; lia.
Qed.

Lemma options_of_unfold f b : length b ≤ f → decode_options f b = options_of b.
Proof. intros. by apply decode_options_fuel. Qed.

Lemma options_of_step t l rest :
  options_of (t :: l :: rest) =
    let n := Z.to_nat (u8 l) in
    if decide (t = 255%gb) then []
    else if (length rest <? n)%nat then []
    else (t, take n rest) :: options_of (drop n rest).
Proof.
  unfold options_of at 1. remember (length rest) as k eqn:Hk.
  cbn [length]. rewrite <- Hk. remember (S k) as f eqn:Hf. simpl.
  case_decide; [done|]. rewrite <- Hk. case_match; [done|]. f_equal.
  apply options_of_unfold. rewrite length_drop. lia.
Qed.

Lemma options_of_end b : options_of (255%gb :: b) = [].
Proof. by destruct b. Qed.

Lemma options_of_cons o b :
  wf_option o → options_of (option_bytes o ++ b) = o :: options_of b.
Proof.
  intros [Ht Hl]. destruct o as [t v]. simpl in *.
  cbn [option_bytes fst snd app]. rewrite options_of_step. cbv zeta.
  rewrite decide_False by done. rewrite u8_to_byte_small, Nat2Z.id by lia.
  destruct (Nat.ltb_spec (length (v ++ b)) (length v)) as [H|H];
    [rewrite length_app in H; lia|].
  by rewrite take_app_length, drop_app_length.
Qed.

Lemma options_of_app opts b :
  Forall wf_option opts → options_of (flat_map option_bytes opts ++ b) = opts ++ options_of b.
Proof.
  induction 1 as [|o opts Ho _ IH]; [done|].
  cbn [flat_map]. rewrite <- app_assoc, options_of_cons by done. by rewrite IH.
Qed.

(** ** The decoder [DhcpOption] against the option list *)

Lemma DhcpOption_cases b :
  (options_of b = [] ∧ DhcpOption b = Ret (255%gb, [], [])) ∨
  (∃ t v next, t ≠ 255%gb ∧ length next + 2 ≤ length b ∧
     options_of b = (t, v) :: options_of next ∧ DhcpOption b = Ret (t, v, next)).
Proof.
  destruct b as [|t [|l rest]]; [by left..|].
  rewrite options_of_step. unfold DhcpOption. cbv zeta. cbn [length].
  destruct (Nat.ltb_spec (S (S (length rest))) 2); [lia|].
  unfold index. cbn [lookup list_lookup mbind go_bind].
  case_decide; [by left|].
  destruct (Nat.ltb_spec (length rest) (Z.to_nat (u8 l))) as [Hs|Hs];
    destruct (Nat.ltb_spec (S (S (length rest))) (Z.to_nat (u8 l) + 2)); try lia; [by left|].
  right. exists t, (take (Z.to_nat (u8 l)) rest), (drop (Z.to_nat (u8 l)) rest).
  rewrite length_drop. split_and!; [done|lia|done|].
  rewrite slice_ok by (simpl; lia). rewrite slice_from_ok by (simpl; lia).
  unfold sub. cbn [mbind go_bind drop Nat.add].
  by replace (S (S (Z.to_nat (u8 l))) - 2) with (Z.to_nat (u8 l)) by lia.
Qed.

(** A loop over the options runs as the fold over the decoded list, whenever its
    fuel is at least the number of bytes left. *)
Lemma for_options_fold {S} (body : S → Byte.byte → bytes → go (result S))
    b fuel s typ val next :
  length b ≤ fuel → DhcpOption b = Ret (typ, val, next) →
  for_options body fuel s typ val next = fold_options body s (options_of b).
Proof.
  revert b s typ val next. induction fuel as [|fuel IH]; intros b s typ val next Hf Hd;
    (destruct (DhcpOption_cases b) as [[Ho Hd']|(t & v & nx & Ht & Hl & Ho & Hd')];
     rewrite Hd in Hd'; simplify_eq; rewrite Ho; simpl).
  - done.
  - lia.
  - done.
  - rewrite decide_False by done.
    destruct (body s t v) as [r| |]; [|done|done]. simpl. destruct r as [s'|e]; [|done].
    destruct (DhcpOption_cases nx) as [[Ho2 Hd2]|(t2 & v2 & nx2 & _ & _ & Ho2 & Hd2)];
      rewrite Hd2; simpl; apply IH; try done; lia.
Qed.

(** * ParseDHCP *)

(** The options [ParseDHCP] lets through: a DISCOVER message type, the x86 BIOS
    architecture, a client identifier of 17 bytes with a zero type. *)
Definition valid_option (o : dhcp_option) : Prop :=
  (o.1 = 53%gb → o.2 = [1%gb]) ∧
  (o.1 = 93%gb → o.2 = [0; 0]%gb) ∧
  (o.1 = 97%gb → length o.2 = 17 ∧ head o.2 = Some 0%gb).

(** The last client identifier of an option list wins. *)
Definition last_guid (g : option bytes) (opts : list dhcp_option) : option bytes :=
  foldl (λ g o, if decide (o.1 = 97%gb) then Some (tail o.2) else g) g opts.

(** The fixed part of a BOOTP request, as [ParseDHCP] checks it. *)
Definition bootp_request (b : bytes) : Prop :=
  240 ≤ length b ∧ b !! 0 = Some 1%gb ∧ (b !! 1 = Some 1%gb ∨ b !! 2 = Some 6%gb) ∧
  sub 236 4 b = [99; 130; 83; 99]%gb.

(** The packets a ProxyDHCP server answers, and what it reads out of them. *)
Definition pxe_discover (b : bytes) (p : DHCPPacket) : Prop :=
  bootp_request b ∧ Forall valid_option (options_of (drop 240 b)) ∧
  ∃ g, last_guid None (options_of (drop 240 b)) = Some g ∧
       p = mkDHCPPacket (sub 4 4 b) (sub 28 6 b) (Some g) [].

(** Runs a decided [go] program of known shape to a [Ret] and leaves the claim
    about its value. *)
Ltac run_switch :=
  unfold ParseDHCP_switch; repeat (case_decide; simplify_eq/=; try done);
  (eexists; split; [reflexivity|]); simpl.

Lemma switch_spec ret t v :
  ∃ r, ParseDHCP_switch ret t v = Ret r ∧
    match r with
    | Ok ret' => valid_option (t, v) ∧
        ret' = (if decide (t = 97%gb) then set_GUID (tail v) ret else ret)
    | Err _ => ¬ valid_option (t, v)
    end.
Proof.
  unfold valid_option. simpl.
  destruct (decide (t = 53%gb)) as [->|H53].
  { destruct v as [|x [|y v]]; run_switch; naive_solver. }
  destruct (decide (t = 93%gb)) as [->|H93].
  { destruct v as [|x [|y [|z v]]]; [run_switch; naive_solver..| |run_switch; naive_solver].
    unfold ParseDHCP_switch. rewrite Uint16_cons. simpl.
    pose proof (u8_range x). pose proof (u8_range y).
    case_decide as Hxy; eexists; (split; [reflexivity|]); simpl.
    - intros (_ & Hv & _). specialize (Hv eq_refl). by simplify_eq.
    - assert (x = 0%gb ∧ y = 0%gb) as [-> ->];
        [split; apply u8_inj; change (u8 0%gb) with 0%Z; lia|]. naive_solver. }
  destruct (decide (t = 97%gb)) as [->|H97]; [|run_switch; naive_solver].
  destruct v as [|x v]; [run_switch; naive_solver|].
  unfold ParseDHCP_switch. rewrite slice_from_ok by (simpl; lia).
  run_switch; naive_solver.
Qed.

Lemma fold_switch_spec ret opts :
  ∃ r, fold_options ParseDHCP_switch ret opts = Ret r ∧
    match r with
    | Ok ret' => Forall valid_option opts ∧
        ret' = mkDHCPPacket (TID ret) (MAC ret) (last_guid (GUID ret) opts) (ServerIP ret)
    | Err _ => ¬ Forall valid_option opts
    end.
Proof.
  revert ret. induction opts as [|[t v] opts IH]; intros ret.
  { eexists. split; [done|]. simpl. split; [done|]. by destruct ret. }
  simpl. destruct (switch_spec ret t v) as (r & -> & Hr). simpl.
  destruct r as [ret'|e]; [|exists (Err e); split; [done|by inversion 1]].
  destruct Hr as [Hv ->]. destruct (IH (if decide (t = 97%gb) then set_GUID (tail v) ret else ret))
    as (r & -> & Hr).
  exists r. split; [done|]. destruct r as [ret'|e].
  - destruct Hr as [Hf ->]. split; [by constructor|]. by case_decide.
  - intros Hf. apply Hr. by inversion Hf.
Qed.

(** The test [b[1] != 1 && b[2] != 6] rejects a packet only when both its hardware
    type and its address length are not those of Ethernet. *)
Lemma not_ether_test (b1 b2 : Byte.byte) :
  (if decide (b1 ≠ 1%gb) then Ret (bool_decide (b2 ≠ 6%gb)) else Ret false) =
  Ret (negb (bool_decide (b1 = 1%gb ∨ b2 = 6%gb))).
Proof. case_decide; f_equal; repeat case_bool_decide; simpl; tauto. Qed.

(** The header checks of [ParseDHCP], reduced to the option loop. *)
Lemma ParseDHCP_header b :
  bootp_request b →
  ∃ r, fold_options ParseDHCP_switch (mkDHCPPacket (sub 4 4 b) (sub 28 6 b) None [])
         (options_of (drop 240 b)) = Ret r ∧
    ParseDHCP b = Ret match r with
      | Err e => Err e
      | Ok ret => match GUID ret with
                  | None => Err (Errorf (str "%s is not a PXE client")
                                   [AStr (HardwareAddr_String (sub 28 6 b))])
                  | Some _ => Ok ret
                  end
      end.
Proof.
  intros (Hlen & H0 & H12 & Hm).
  destruct (fold_switch_spec (mkDHCPPacket (sub 4 4 b) (sub 28 6 b) None [])
    (options_of (drop 240 b))) as (r & Hr & _).
  exists r. split; [done|]. unfold ParseDHCP.
  destruct (Nat.ltb_spec (length b) 240); [lia|].
  rewrite !slice_ok, slice_from_ok by lia. cbn [mbind go_bind Nat.sub].
  rewrite (index_lookup b 0 _ H0). cbn [mbind go_bind].
  rewrite decide_False by (intros Hx; by apply Hx).
  destruct (index_lt b 1 ltac:(lia)) as (b1 & -> & Hb1).
  destruct (index_lt b 2 ltac:(lia)) as (b2 & -> & Hb2). cbn [mbind go_bind].
  rewrite not_ether_test, bool_decide_true by (destruct H12; naive_solver).
  cbn [mbind go_bind]. rewrite decide_False by (intros Hx; by apply Hx).
  destruct (DhcpOption_cases (drop 240 b)) as [[_ Hd]|(t & v & nx & _ & _ & _ & Hd)];
    rewrite Hd; cbn [mbind go_bind];
    rewrite (for_options_fold _ (drop 240 b)) by (done || rewrite length_drop; lia);
    rewrite Hr; cbn [mbind go_bind]; (destruct r as [ret|e]; [by destruct (GUID ret)|done]).
Qed.

Lemma ParseDHCP_reject b : ¬ bootp_request b → ∃ e, ParseDHCP b = Ret (Err e).
Proof.
  intros Hn. unfold ParseDHCP. destruct (Nat.ltb_spec (length b) 240); [by eexists|].
  destruct (index_lt b 0 ltac:(lia)) as (b0 & -> & Hb0).
  destruct (index_lt b 1 ltac:(lia)) as (b1 & -> & Hb1).
  destruct (index_lt b 2 ltac:(lia)) as (b2 & -> & Hb2).
  unfold bootp_request in Hn. rewrite Hb0, Hb1, Hb2 in Hn.
  rewrite !slice_ok by lia. cbn [mbind go_bind Nat.sub].
  destruct (decide (b0 = 1%gb)) as [->|]; cycle 1.
  { rewrite decide_True by done. by eexists. }
  rewrite decide_False by (intros Hx; by apply Hx).
  rewrite not_ether_test.
  destruct (decide (b1 = 1%gb ∨ b2 = 6%gb)) as [H12|H12]; cycle 1.
  { rewrite bool_decide_false by done. by eexists. }
  rewrite bool_decide_true by done. cbn [mbind go_bind]. rewrite decide_True; [by eexists|].
  intros Hm. apply Hn. destruct H12 as [-> | ->]; auto.
Qed.

#[export] Instance bootp_request_dec b : Decision (bootp_request b).
Proof. unfold bootp_request. apply _. Defined.

Lemma ParseDHCP_returns b : ∃ r, ParseDHCP b = Ret r.
Proof.
  destruct (decide (bootp_request b)) as [Hb|Hb].
  - destruct (ParseDHCP_header b Hb) as (r & _ & ->). by eexists.
  - destruct (ParseDHCP_reject b Hb) as [e ->]. by eexists.
Qed.

Lemma ParseDHCP_iff b p : ParseDHCP b = Ret (Ok p) ↔ pxe_discover b p.
Proof.
  unfold pxe_discover. destruct (decide (bootp_request b)) as [Hb|Hb]; cycle 1.
  { destruct (ParseDHCP_reject b Hb) as [e ->]. split; [done|tauto]. }
  destruct (ParseDHCP_header b Hb) as (r & Hf & ->).
  destruct (fold_switch_spec (mkDHCPPacket (sub 4 4 b) (sub 28 6 b) None [])
    (options_of (drop 240 b))) as (r' & Hf' & Hr).
  rewrite Hf in Hf'. simplify_eq. destruct r' as [ret|e].
  - destruct Hr as [Hv ->]. simpl.
    destruct (last_guid None (options_of (drop 240 b))) as [g|]; naive_solver.
  - naive_solver.
Qed.

(** C10: [ParseDHCP] returns on every byte sequence (it neither panics on an index
    or a slice nor loops), and accepts exactly the BOOTP requests whose options
    are all admissible and that carry a client identifier, reading the transaction
    id, the hardware address and the last client identifier out of them. *)
Theorem ParseDHCP_correct b :
  (∃ r, ParseDHCP b = Ret r) ∧ ∀ p, ParseDHCP b = Ret (Ok p) ↔ pxe_discover b p.
Proof. split; [apply ParseDHCP_returns|apply ParseDHCP_iff]. Qed.

(** The hardware type of a request is not checked when its address length is
    that of Ethernet: changing it leaves an accepted packet accepted, with the
    same fields. *)
Theorem ParseDHCP_ignores_htype b p t :
  ParseDHCP b = Ret (Ok p) → b !! 2 = Some 6%gb → ParseDHCP (<[1 := t]> b) = Ret (Ok p).
Proof.
  rewrite !ParseDHCP_iff. unfold pxe_discover, bootp_request, sub.
  intros ((Hl & H0 & _ & Hm) & Hv & Hg) H2.
  rewrite length_insert, !drop_insert_lt by lia.
  rewrite list_lookup_insert_ne by lia. split_and!; auto.
  right. by rewrite list_lookup_insert_ne by lia.
Qed.

(** * Packets in range

    The field lengths that make the reply encoders produce well-formed options. *)
Definition wf_packet (p : DHCPPacket) : Prop :=
  length (TID p) = 4 ∧ length (MAC p) = 6 ∧
  (∃ g, GUID p = Some g ∧ length g = 16) ∧ length (ServerIP p) = 4.

Definition valid_guid_option (o : dhcp_option) : Prop :=
  o.1 = 97%gb → length o.2 = 17 ∧ head o.2 = Some 0%gb.

Lemma last_guid_length opts g0 g :
  Forall valid_guid_option opts → (∀ g, g0 = Some g → length g = 16) →
  last_guid g0 opts = Some g → length g = 16.
Proof.
  intros Hv. revert g0. induction Hv as [|[t v] opts H97 _ IH]; simpl; intros g0 Hg0.
  - apply Hg0.
  - apply IH. case_decide as Ht; [|done]. intros g' [= <-].
    destruct (H97 Ht) as [Hl _]. destruct v; simpl in *; lia.
Qed.

(** The fields [ParseDHCP] fills in have the lengths the encoders assume. *)
Lemma ParseDHCP_wf b p ip :
  ParseDHCP b = Ret (Ok p) → length ip = 4 → wf_packet (set_ServerIP ip p).
Proof.
  intros ((Hlen & _) & Hv & g & Hg & ->)%ParseDHCP_iff Hip.
  unfold wf_packet. simpl. rewrite !length_sub by lia.
  split_and!; try done. exists g. split; [done|].
  eapply (last_guid_length _ None); [|done|done].
  eapply Forall_impl; [done|]. by intros o (_ & _ & ?).
Qed.

(** * OfferDHCP *)

(** The bytes of the BOOTP header before the copies. *)
Definition bootp_template : bytes :=
  <[10 := 128%gb]> (<[2 := 6%gb]> (<[1 := 1%gb]> (<[0 := 2%gb]> (replicate 236 0%gb)))).

Lemma length_bootp_template : length bootp_template = 236.
Proof. done. Qed.

Lemma sub_whole n b : length b = n → sub 0 n b = b.
Proof. intros <-. unfold sub. rewrite drop_0. apply firstn_all. Qed.

Lemma Offer_bootp_fields p :
  length (TID p) = 4 → length (MAC p) = 6 →
  length (Offer_bootp p) = 236 ∧ sub 0 4 (Offer_bootp p) = [2; 1; 6; 0]%gb ∧
  sub 4 4 (Offer_bootp p) = TID p ∧ sub 8 4 (Offer_bootp p) = [0; 0; 128; 0]%gb ∧
  sub 12 16 (Offer_bootp p) = replicate 16 0%gb ∧ sub 28 6 (Offer_bootp p) = MAC p ∧
  sub 34 202 (Offer_bootp p) = replicate 202 0%gb.
Proof.
  intros Ht Hm. unfold Offer_bootp. fold bootp_template.
  pose proof length_bootp_template as Hl.
  assert (length (copy_at 4 (TID p) bootp_template) = 236) as Hl4
    by (rewrite length_copy_at; lia).
  split_and!; rewrite ?length_copy_at by lia; [done|..];
    repeat first [rewrite (sub_copy_same 28) by lia; done
                 |rewrite (sub_copy_other _ _ 28) by lia
                 |rewrite (sub_copy_same 4) by lia; done
                 |rewrite (sub_copy_other _ _ 4) by lia]; done.
Qed.

(** The option list of the offer, and of its PXE vendor option. *)
Definition offer_options (p : DHCPPacket) : list dhcp_option :=
  [(53, [2]); (54, ServerIP p); (60, str "PXEClient");
   (97, 0 :: default [] (GUID p)); (43, Offer_pxe p)]%gb.

Definition menu_options (p : DHCPPacket) : list dhcp_option :=
  [(6, [3]); (8, [128; 0; 1] ++ ServerIP p); (9, [128; 0; 9] ++ str "Pixiecore");
   (10, 0 :: str "Pixiecore")]%gb.

(** Well-formedness of a literal option list, up to the lengths of its values. *)
Ltac wf_options :=
  repeat first [apply Forall_cons_2 | apply Forall_nil_2];
  (split; [done|]); cbn [fst snd].

Lemma Offer_pxe_encoded p :
  length (ServerIP p) = 4 →
  Offer_pxe p = flat_map option_bytes (menu_options p) ++ [255%gb].
Proof.
  intros H. unfold Offer_pxe, menu_options. simpl. unfold option_bytes. simpl.
  rewrite H. simpl. repeat (rewrite <- ?app_assoc; simpl; f_equal).
Qed.

Lemma OfferDHCP_encoded p :
  wf_packet p →
  OfferDHCP p = (Offer_bootp p ++ DhcpMagic) ++
                flat_map option_bytes (offer_options p) ++ [255%gb].
Proof.
  intros (_ & _ & (g & Hg & Hgl) & Hip). unfold OfferDHCP, offer_options. rewrite Hg.
  rewrite <- !app_assoc. do 2 f_equal. simpl. unfold option_bytes. simpl.
  rewrite Hip, Hgl. simpl. repeat (rewrite <- ?app_assoc; simpl; f_equal).
Qed.

Lemma OfferDHCP_content p :
  wf_packet p →
  let b := OfferDHCP p in
  length b = 321 ∧ sub 0 4 b = [2; 1; 6; 0]%gb ∧ b !! 10 = Some 128%gb ∧
  sub 4 4 b = TID p ∧ sub 28 6 b = MAC p ∧ sub 236 4 b = DhcpMagic ∧
  options_of (drop 240 b) = offer_options p ∧
  options_of (Offer_pxe p) = menu_options p.
Proof.
  intros Hwf b. subst b.
  pose proof Hwf as (Ht & Hm & (g & Hg & Hgl) & Hip).
  destruct (Offer_bootp_fields p Ht Hm) as (Hl & H0 & H4 & H8 & _ & H28 & _).
  assert (Forall wf_option (menu_options p)) as Hmenu
    by (wf_options; rewrite ?length_app, ?Hip; simpl; lia).
  assert (length (Offer_pxe p) = 39) as Hpxe
    by (unfold Offer_pxe; rewrite !length_app, Hip; done).
  assert (Forall wf_option (offer_options p)) as Hoffer.
  { unfold offer_options. rewrite Hg.
    wf_options; rewrite ?Hpxe, ?Hip; simpl; rewrite ?Hgl; lia. }
  assert (length (Offer_bootp p ++ DhcpMagic) = 240) as Hl2
    by (rewrite length_app, Hl; done).
  assert (length (OfferDHCP p) = 321) as Hlen.
  { unfold OfferDHCP. cbv zeta. rewrite !length_app, Hl, Hpxe, Hip, Hg.
    simpl. rewrite Hgl. done. }
  rewrite Hlen, OfferDHCP_encoded by done. split_and!; [done|..].
  - rewrite !sub_app_l by lia. done.
  - rewrite !lookup_app_l by lia.
    replace (Offer_bootp p !! 10) with (sub 8 4 (Offer_bootp p) !! 2)
      by (rewrite lookup_sub; done). by rewrite H8.
  - rewrite !sub_app_l by lia. done.
  - rewrite !sub_app_l by lia. done.
  - rewrite sub_app_l by lia. rewrite sub_app_r by lia. rewrite Hl. done.
  - rewrite drop_app_ge by lia. rewrite Hl2. rewrite Nat.sub_diag, drop_0.
    rewrite options_of_app by done. rewrite options_of_end. apply app_nil_r.
  - rewrite Offer_pxe_encoded by done.
    rewrite options_of_app by done. rewrite options_of_end. apply app_nil_r.
Qed.

(** C11: the offer sent for a well-formed request is a BOOTP reply that repeats the
    transaction id and the hardware address, asks for broadcast replies, and
    carries exactly the DHCPOFFER options; its PXE vendor option is itself a
    well-formed option list: discovery control, the boot server at our address,
    a one-entry menu for that server, and a zero-timeout prompt. *)
Theorem OfferDHCP_wire p :
  wf_packet p →
  let b := OfferDHCP p in
  length b = 321 ∧ sub 0 4 b = [2; 1; 6; 0]%gb ∧ b !! 10 = Some 128%gb ∧
  sub 4 4 b = TID p ∧ sub 28 6 b = MAC p ∧ sub 236 4 b = [99; 130; 83; 99]%gb ∧
  options_of (drop 240 b) = offer_options p ∧
  options_of (Offer_pxe p) = menu_options p.
Proof. apply OfferDHCP_content. Qed.

(** * InterfaceIP *)

(** The IPv4 addresses of an interface, in order. *)
Definition v4_addrs (addrs : list IfAddr) : list IP :=
  omap (λ a, match a with IPNet ip => To4 ip | OtherIfAddr => None end) addrs.

(** The preference class of an address: global unicast, link-local, loopback. *)
Definition addr_class (ip : IP) : option nat :=
  if IsGlobalUnicast ip then Some 0
  else if IsLinkLocalUnicast ip then Some 1
  else if IsLoopback ip then Some 2
  else None.

Lemma first_addr_spec f addrs :
  match first_addr f addrs with
  | Some ip => ∃ pre post, v4_addrs addrs = pre ++ ip :: post ∧ f ip = true ∧
                 ∀ x, x ∈ pre → f x = false
  | None => ∀ x, x ∈ v4_addrs addrs → f x = false
  end.
Proof.
  induction addrs as [|[ip|] addrs IH]; simpl; [set_solver| |done].
  destruct (To4 ip) as [ip4|]; [|done].
  destruct (f ip4) eqn:E; [by exists [], (v4_addrs addrs); set_solver|].
  destruct (first_addr f addrs) as [ip'|]; [|set_solver].
  destruct IH as (pre & post & Heq & Hf & Hpre).
  exists (ip4 :: pre), post. unfold v4_addrs in *. rewrite Heq. set_solver.
Qed.

Lemma InterfaceIP_length byIndex ifIdx ip : InterfaceIP byIndex ifIdx = Ok ip → length ip = 4.
Proof.
  unfold InterfaceIP. destruct (byIndex ifIdx) as [iface|]; [|done]. simpl.
  destruct (if_addrs iface) as [addrs|]; [|done]. simpl.
  assert (∀ f ip, first_addr f addrs = Some ip → length ip = 4) as H4.
  { intros f ip' Hf. pose proof (first_addr_spec f addrs) as Hs. rewrite Hf in Hs.
    destruct Hs as (pre & post & Heq & _). assert (ip' ∈ v4_addrs addrs) as Hin by (rewrite Heq; set_solver).
    apply list_elem_of_omap in Hin as ([ip0|] & _ & Heq'); [by eapply To4_length|done]. }
  repeat case_match; intros; simplify_eq; eauto.
Qed.

(** C32: [InterfaceIP] picks the first IPv4 address of the best class present on
    the interface (global unicast before link-local before loopback), and fails
    only when no address of any class is present. *)
Theorem InterfaceIP_best byIndex ifIdx iface addrs :
  byIndex ifIdx = Ok iface → if_addrs iface = Ok addrs →
  match InterfaceIP byIndex ifIdx with
  | Ok ip =>
      ∃ pre post k, v4_addrs addrs = pre ++ ip :: post ∧ addr_class ip = Some k ∧
        (∀ x j, x ∈ pre → addr_class x = Some j → k < j) ∧
        (∀ x j, x ∈ post → addr_class x = Some j → k ≤ j)
  | Err e => ∀ x, x ∈ v4_addrs addrs → addr_class x = None
  end.
Proof.
  intros Hi Ha. unfold InterfaceIP. rewrite Hi. simpl. rewrite Ha. simpl.
  pose proof (first_addr_spec IsGlobalUnicast addrs) as Hg.
  pose proof (first_addr_spec IsLinkLocalUnicast addrs) as Hll.
  pose proof (first_addr_spec IsLoopback addrs) as Hlo.
  destruct (first_addr IsGlobalUnicast addrs) as [ip|];
    [|destruct (first_addr IsLinkLocalUnicast addrs) as [ip|];
      [|destruct (first_addr IsLoopback addrs) as [ip|]]].
  - destruct Hg as (pre & post & Heq & Hf & Hpre).
    exists pre, post, 0. unfold addr_class at 1. rewrite Hf. split_and!; try done; [|lia].
    intros x j Hx. unfold addr_class. rewrite Hpre by done.
    intros. repeat case_match; simplify_eq; lia.
  - destruct Hll as (pre & post & Heq & Hf & Hpre). rewrite Heq in *.
    exists pre, post, 1. unfold addr_class. rewrite Hf, Hg by set_solver. split_and!; try done.
    + intros x j Hx. rewrite Hg, Hpre by set_solver. intros. repeat case_match; simplify_eq; lia.
    + intros x j Hx. rewrite Hg by set_solver. intros. repeat case_match; simplify_eq; lia.
  - destruct Hlo as (pre & post & Heq & Hf & Hpre). rewrite Heq in *.
    exists pre, post, 2. unfold addr_class. rewrite Hf, Hg, Hll by set_solver. split_and!; try done.
    + intros x j Hx. rewrite Hg, Hll, Hpre by set_solver. done.
    + intros x j Hx. rewrite Hg, Hll by set_solver. intros. repeat case_match; simplify_eq; lia.
  - intros x Hx. unfold addr_class. by rewrite Hg, Hll, Hlo.
Qed.

(** ** A client's packets *)

(** The discovery a PXE client broadcasts: the BOOTP header with its transaction
    id and hardware address, the magic, the message type, further options, and
    its identifier. *)
Definition mk_discover (tid mac guid : bytes) (opts : list dhcp_option) : bytes :=
  copy_at 28 mac (copy_at 4 tid ([1; 1; 6; 0]%gb ++ replicate 232 0%gb)) ++ [99; 130; 83; 99]%gb ++
  flat_map option_bytes ((53%gb, [1%gb]) :: opts ++ [(97%gb, 0%gb :: guid)]) ++ [255%gb].

Lemma mk_discover_fields tid mac guid opts :
  length tid = 4 → length mac = 6 → length guid = 16 → Forall wf_option opts →
  bootp_request (mk_discover tid mac guid opts) ∧
  sub 4 4 (mk_discover tid mac guid opts) = tid ∧ sub 28 6 (mk_discover tid mac guid opts) = mac ∧
  options_of (drop 240 (mk_discover tid mac guid opts)) =
    (53%gb, [1%gb]) :: opts ++ [(97%gb, 0%gb :: guid)].
Proof.
  intros Ht Hm Hg Ho. unfold mk_discover.
  set (tmpl := [1; 1; 6; 0]%gb ++ replicate 232 0%gb).
  assert (length tmpl = 236) as Hl0 by done.
  assert (length (copy_at 4 tid tmpl) = 236) as Hl1 by (rewrite length_copy_at; lia).
  assert (length (copy_at 28 mac (copy_at 4 tid tmpl)) = 236) as Hl
    by (rewrite length_copy_at; lia).
  set (hdr := copy_at 28 mac (copy_at 4 tid tmpl)) in *.
  assert (∀ i, i < 4 → hdr !! i = tmpl !! i) as Hi.
  { intros i Hi. subst hdr. rewrite !lookup_copy_at by lia. by rewrite !decide_False by lia. }
  split; [unfold bootp_request; split_and!|split_and!].
  - rewrite length_app, length_app, Hl. cbn [length]. lia.
  - rewrite lookup_app_l by lia. by rewrite Hi by lia.
  - left. rewrite lookup_app_l by lia. by rewrite Hi by lia.
  - rewrite sub_app_r, Hl by lia. done.
  - rewrite sub_app_l by lia. subst hdr. rewrite sub_copy_other by lia. apply sub_copy_same; lia.
  - rewrite sub_app_l by lia. subst hdr. apply sub_copy_same; lia.
  - rewrite app_assoc, drop_app_length' by (rewrite length_app, Hl; done).
    rewrite (options_of_app ((53%gb, [1%gb]) :: opts ++ [(97%gb, 0%gb :: guid)]));
      [by rewrite options_of_end, app_nil_r|].
    apply Forall_cons. split; [split; [done|simpl; lia]|]. apply Forall_app. split; [done|].
    apply Forall_singleton. split; [done|simpl; lia].
Qed.

(** [ParseDHCP] reads a client's discovery back, whatever other options the packet has,
    as long as they carry no other message type, architecture or identifier. *)
Lemma ParseDHCP_discover tid mac guid opts :
  length tid = 4 → length mac = 6 → length guid = 16 →
  Forall (λ o, wf_option o ∧ o.1 ∉ [53; 93; 97]%gb) opts →
  ParseDHCP (mk_discover tid mac guid opts) = Ret (Ok (mkDHCPPacket tid mac (Some guid) [])).
Proof.
  intros Ht Hm Hg Ho. assert (Forall wf_option opts) as Hw by (eapply Forall_impl; [done|naive_solver]).
  destruct (mk_discover_fields tid mac guid opts Ht Hm Hg Hw) as (Hb & H4 & H28 & Hopts).
  apply ParseDHCP_iff. split; [done|]. rewrite Hopts, H4, H28. split.
  - apply Forall_cons. split; [done|]. apply Forall_app. split.
    + eapply Forall_impl; [exact Ho|]. intros o [_ Hn]. unfold valid_option. set_solver.
    + apply Forall_singleton. unfold valid_option. simpl. split_and!; try done. intros _. split; [lia|done].
  - exists guid. split; [|done]. cbn [last_guid foldl]. unfold last_guid.
    rewrite foldl_app. simpl. done.
Qed.

Lemma options_of_cut t l rest : length rest < Z.to_nat (u8 l) → options_of (t :: l :: rest) = [].
Proof.
  intros Hl. rewrite options_of_step. cbv zeta. case_decide; [done|].
  by destruct (Nat.ltb_spec (length rest) (Z.to_nat (u8 l))); [|lia].
Qed.

Lemma last_guid_other g opts : Forall (λ o, o.1 ≠ 97%gb) opts → last_guid g opts = g.
Proof.
  unfold last_guid. intros Ho. revert g. induction Ho as [|o opts Hne _ IH]; intros g; [done|].
  cbn [foldl]. by rewrite decide_False.
Qed.

(** C39: a pad option (a single zero byte, RFC 2132) is taken for an option whose
    length is the byte after it.  Of a discovery of valid options that has its client
    identifier last, with fewer than 78 bytes after the end option, [ParseDHCP] accepts
    every one; with one pad between the other options and the identifier it refuses every
    one, since the identifier's code, 97, becomes a length the packet is too short for. *)
Theorem ParseDHCP_pad_refused hdr opts guid trailer :
  length hdr = 240 → Forall (λ o, wf_option o ∧ o.1 ≠ 97%gb) opts → length guid = 16 →
  length trailer < 78 →
  (bootp_request hdr → Forall valid_option opts →
   ParseDHCP (hdr ++ flat_map option_bytes opts ++ option_bytes (97%gb, 0%gb :: guid) ++ 255%gb :: trailer) =
     Ret (Ok (mkDHCPPacket (sub 4 4 hdr) (sub 28 6 hdr) (Some guid) []))) ∧
  ∃ e, ParseDHCP (hdr ++ flat_map option_bytes opts ++
                  0%gb :: option_bytes (97%gb, 0%gb :: guid) ++ 255%gb :: trailer) = Ret (Err e).
Proof.
  intros Hh Ho Hg Ht.
  assert (Forall wf_option opts) as Hw by (eapply Forall_impl; [exact Ho|by intros ? []]).
  assert (Forall (λ o, o.1 ≠ 97%gb) opts) as Hne by (eapply Forall_impl; [exact Ho|by intros ? []]).
  split.
  - intros (Hl & H0 & H12 & Hm) Hv. apply ParseDHCP_iff. split; [|split].
    + split_and!; [rewrite length_app; lia|by apply lookup_app_l_Some|
        by destruct H12; [left|right]; apply lookup_app_l_Some|by rewrite sub_app_l by lia].
    + rewrite drop_app_length', options_of_app, options_of_cons, options_of_end by (done || (split; [done|simpl; lia])).
      apply Forall_app. split; [done|]. apply Forall_singleton. unfold valid_option. simpl. split_and!; try done.
      intros _. split; [lia|done].
    + exists guid. rewrite !sub_app_l by lia. split; [|done].
      rewrite drop_app_length', options_of_app, options_of_cons, options_of_end by (done || (split; [done|simpl; lia])).
      unfold last_guid. rewrite foldl_app. done.
  - match goal with |- ∃ e, ParseDHCP ?x = _ => destruct (ParseDHCP_returns x) as [[p|e] Hr]; [|by exists e] end.
    apply ParseDHCP_iff in Hr as (_ & _ & g & Hl & _).
    rewrite drop_app_length', options_of_app in Hl by done. cbn [option_bytes fst snd app] in Hl.
    rewrite options_of_cut, app_nil_r, last_guid_other in Hl; [done|done|].
    change (Z.to_nat (u8 97%gb)) with 97. cbn [length]. rewrite length_app, Hg. simpl. lia.
Qed.

(** * Witnesses *)

Definition toy_packet : DHCPPacket :=
  mkDHCPPacket [1; 2; 3; 4]%gb [82; 84; 0; 18; 52; 86]%gb (Some (replicate 16 9%gb)) [10; 0; 0; 1]%gb.

Definition toy_discover : bytes :=
  mk_discover (TID toy_packet) (MAC toy_packet) (replicate 16 9%gb) [(60%gb, str "PXEClient")].

Lemma ParseDHCP_pad_refused_witness :
  (∃ p, ParseDHCP (take 240 toy_discover ++ flat_map option_bytes [(53%gb, [1%gb]); (60%gb, str "PXEClient")] ++
                   option_bytes (97%gb, 0%gb :: replicate 16 9%gb) ++ [255%gb]) = Ret (Ok p)) ∧
  ∃ e, ParseDHCP (take 240 toy_discover ++ flat_map option_bytes [(53%gb, [1%gb]); (60%gb, str "PXEClient")] ++
                  0%gb :: option_bytes (97%gb, 0%gb :: replicate 16 9%gb) ++ [255%gb]) = Ret (Err e).
Proof.
  destruct (ParseDHCP_pad_refused (take 240 toy_discover) [(53%gb, [1%gb]); (60%gb, str "PXEClient")]
    (replicate 16 9%gb) []) as [Hok Herr];
    [reflexivity|repeat constructor; simpl; (done || lia)|reflexivity|apply Nat.ltb_lt; reflexivity|].
  split; [|exact Herr]. eexists. apply Hok.
  - split_and!; [apply Nat.leb_le; reflexivity|reflexivity|left; reflexivity|reflexivity].
  - repeat constructor; done.
Defined.

Lemma ParseDHCP_ignores_htype_witness :
  ParseDHCP (<[1 := 32%gb]> toy_discover) =
    Ret (Ok (mkDHCPPacket [1; 2; 3; 4]%gb [82; 84; 0; 18; 52; 86]%gb (Some (replicate 16 9%gb)) [])).
Proof. apply ParseDHCP_ignores_htype; vm_compute; reflexivity. Defined.

Lemma OfferDHCP_wire_witness :
  length (OfferDHCP toy_packet) = 321 ∧
  options_of (drop 240 (OfferDHCP toy_packet)) = offer_options toy_packet.
Proof.
  destruct (OfferDHCP_wire toy_packet) as (Hl & _ & _ & _ & _ & _ & Ho & _).
  - split; [reflexivity|]. split; [reflexivity|]. split; [|reflexivity].
    exists (replicate 16 9%gb). split; reflexivity.
  - split; [exact Hl|exact Ho].
Defined.

Definition toy_interfaces (i : Z) : result Interface :=
  if decide (i = 3%Z)
  then Ok (mkInterface (str "eth0")
             (Ok [IPNet [169; 254; 7; 7]%gb; OtherIfAddr; IPNet (v4InV6Prefix ++ [10; 0; 0; 1]%gb)]))
  else Err (ErrNew (str "no such network interface")).

Lemma InterfaceIP_best_witness :
  InterfaceIP toy_interfaces 3 = Ok [10; 0; 0; 1]%gb ∧
  match InterfaceIP toy_interfaces 3 with
  | Ok ip => ∃ pre post k, [[169; 254; 7; 7]; [10; 0; 0; 1]]%gb = pre ++ ip :: post ∧
      addr_class ip = Some k ∧
      (∀ x j, x ∈ pre → addr_class x = Some j → k < j) ∧
      (∀ x j, x ∈ post → addr_class x = Some j → k ≤ j)
  | Err e => True
  end.
Proof.
  split; [reflexivity|]. exact (InterfaceIP_best toy_interfaces 3 _ _ eq_refl eq_refl).
Defined.
