(* ===== verification/Logging.v ===== *)
(** log/logging.go: the log channel.  [Log] and [Debug] build the entry that is
    sent on [logCh]; [RecordLogs] turns the received entries into printed lines. *)
From S2P Require Import Prelude GoStrings GoFmt.
From stdpp Require Import relations fin_maps.

(** * Definitions from log/logging.go *)

Record LogEntry := mkLogEntry {
  Subsystem : GoString;
  IsDebug : bool;
  Msg : GoString
}.

#[export] Instance LogEntry_eq_dec : EqDecision LogEntry.
Proof. solve_decision. Defined.

Section logging.
Context `{UnicodeTables}.

Definition Log (subsystem msg : GoString) (args : list arg) : LogEntry :=
  mkLogEntry subsystem false (Sprintf msg args).

Definition Debug (subsystem msg : GoString) (args : list arg) : LogEntry :=
  mkLogEntry subsystem true (Sprintf msg args).

(** The loop over [logCh]: the lines given to [log.Printf], for the entries
    received in order. *)
Fixpoint RecordLogs (debug : bool) (logCh : list LogEntry) : list GoString :=
  match logCh with
  | [] => []
  | l :: logCh' =>
      if IsDebug l && negb debug then RecordLogs debug logCh'
      else Sprintf (str "[%s] %s") [AStr (Subsystem l); AStr (Msg l)] :: RecordLogs debug logCh'
  end.

(** ** The channel

    [logCh] is unbuffered: a call of [Log] or [Debug] blocks its goroutine until the
    recorder receives, and the recorder receives again only when it has dealt with the
    entry before.  A goroutine is represented by the entries it logs over its life, and
    by those it has yet to send; [log_sent] lists what was sent so far, and by whom.
    The recorder is the main goroutine, which calls [RecordLogs] after it has started
    the servers. *)

Inductive recorder :=
| RStarting                    (** before [RecordLogs] *)
| RReceiving                   (** at the head of the loop *)
| RHolding (l : LogEntry).     (** in the body of the loop *)

Record log_state := mkLogState {
  log_progs : gmap nat (list LogEntry);
  log_pending : gmap nat (list LogEntry);
  log_recorder : recorder;
  log_sent : list (nat * LogEntry);
  log_printed : list GoString
}.

(** The recorder starts; a send and the receive it was waiting for; the body of the
    recorder's loop. *)
Inductive log_drain (debug : bool) : log_state → log_state → Prop :=
| LogStart st :
    log_recorder st = RStarting →
    log_drain debug st
      (mkLogState (log_progs st) (log_pending st) RReceiving (log_sent st) (log_printed st))
| LogSend i e es st :
    log_recorder st = RReceiving → log_pending st !! i = Some (e :: es) →
    log_drain debug st
      (mkLogState (log_progs st) (<[i := es]> (log_pending st)) (RHolding e)
         (log_sent st ++ [(i, e)]) (log_printed st))
| LogPrint e st :
    log_recorder st = RHolding e →
    log_drain debug st
      (mkLogState (log_progs st) (log_pending st) RReceiving (log_sent st)
         (log_printed st ++ RecordLogs debug [e])).

(** A step of the program: one of these, or a new goroutine. *)
Inductive log_step (debug : bool) : log_state → log_state → Prop :=
| LogSpawn i es st :
    log_pending st !! i = None →
    log_step debug st
      (mkLogState (<[i := es]> (log_progs st)) (<[i := es]> (log_pending st)) (log_recorder st)
         (log_sent st) (log_printed st))
| LogDrain st st' : log_drain debug st st' → log_step debug st st'.

(** The entries that goroutine [i] sent, and the one the recorder holds. *)
Definition sent_by (i : nat) (sent : list (nat * LogEntry)) : list LogEntry :=
  (filter (λ ie, ie.1 = i) sent).*2.

Definition in_hand (r : recorder) : list LogEntry :=
  match r with RHolding e => [e] | _ => [] end.

(** * Theorems *)

(** The recorder prints, in the order received, exactly one line
    ["[subsystem] message"] per entry, leaving out the debug entries unless
    debugging is on. *)
Theorem RecordLogs_filter debug logCh :
  RecordLogs debug logCh =
    map (λ l, str "[" ++ Subsystem l ++ str "] " ++ Msg l)
        (filter (λ l, debug = true ∨ IsDebug l = false) logCh).
Proof.
  induction logCh as [|[sub d m] logCh IH]; [done|].
  cbn [RecordLogs IsDebug]. rewrite IH.
  destruct debug, d; simpl; try (rewrite filter_cons_True by (simpl; auto));
    try (rewrite filter_cons_False by (simpl; naive_solver)); try done.
  all: unfold Sprintf; simpl; by rewrite app_nil_r.
Qed.

Lemma RecordLogs_app debug a b : RecordLogs debug (a ++ b) = RecordLogs debug a ++ RecordLogs debug b.
Proof. induction a as [|l a IH]; simpl; [done|]. rewrite IH. by case_test. Qed.

Lemma sent_by_app i a b : sent_by i (a ++ b) = sent_by i a ++ sent_by i b.
Proof. unfold sent_by. by rewrite filter_app, fmap_app. Qed.

Definition log_start : log_state := mkLogState ∅ ∅ RStarting [] [].

Definition log_inv (debug : bool) (st : log_state) : Prop :=
  (∃ taken, (log_sent st).*2 = taken ++ in_hand (log_recorder st) ∧
     log_printed st = RecordLogs debug taken) ∧
  (∀ i, log_pending st !! i = None → log_progs st !! i = None ∧ sent_by i (log_sent st) = []) ∧
  ∀ i es, log_pending st !! i = Some es → log_progs st !! i = Some (sent_by i (log_sent st) ++ es).

Lemma log_inv_drain debug st st' : log_drain debug st st' → log_inv debug st → log_inv debug st'.
Proof.
  intros Hstep ((taken & Ht & Hp) & Hn & Hs). destruct Hstep as [st Hr|i e es st Hr Hi|e st Hr];
    unfold log_inv; cbn [log_progs log_pending log_sent log_printed log_recorder]; rewrite Hr in Ht.
  - split; [by exists taken|done].
  - cbn [in_hand] in Ht. rewrite app_nil_r in Ht. split; [|split].
    + exists taken. split; [by rewrite fmap_app, Ht|done].
    + intros j. rewrite lookup_insert_None. intros [Hj Hij]. destruct (Hn j Hj) as [Hprog Hsent].
      rewrite sent_by_app, Hsent. unfold sent_by. by rewrite filter_cons_False.
    + intros j es'. rewrite lookup_insert_Some, sent_by_app. unfold sent_by at 2.
      intros [[<- <-]|[Hij Hj]].
      * rewrite filter_cons_True by done. rewrite (Hs i _ Hi). simpl. by rewrite <- app_assoc.
      * rewrite filter_cons_False by done. simpl. rewrite app_nil_r. by apply Hs.
  - split; [|done]. exists (taken ++ [e]). split; [by rewrite Ht, app_nil_r|].
    by rewrite Hp, RecordLogs_app.
Qed.

Lemma log_inv_spawn debug i es st :
  log_pending st !! i = None → log_inv debug st →
  log_inv debug (mkLogState (<[i := es]> (log_progs st)) (<[i := es]> (log_pending st))
                   (log_recorder st) (log_sent st) (log_printed st)).
Proof.
  intros Hi (Ht & Hn & Hs). split; [done|].
  cbn [log_progs log_pending log_sent log_recorder]. split.
  - intros j. rewrite !lookup_insert_None. intros [Hj Hij]. by destruct (Hn j Hj).
  - intros j es'. rewrite !lookup_insert_Some. intros [[<- <-]|[Hij Hj]]; [|right; by auto].
    left. by rewrite (proj2 (Hn i Hi)).
Qed.

Lemma log_reachable debug st : rtc (log_step debug) log_start st → log_inv debug st.
Proof.
  revert st. apply rtc_ind_r; [split; [by exists []|done]|].
  intros st st' _ [i es st1 Hi|st1 st2 Hstep] IH; [by apply log_inv_spawn|by eapply log_inv_drain].
Qed.

(** ** Waiting *)

(** The steps it takes until everything is printed: the recorder's start, a send and
    a print per entry to come, and a print for the entry in hand. *)
Definition backlog (st : log_state) : nat :=
  match log_recorder st with RStarting => 1 | _ => 0 end +
  2 * sum_list_with (λ ies, length ies.2) (map_to_list (log_pending st)) +
  length (in_hand (log_recorder st)).

Lemma pending_pop (m : gmap nat (list LogEntry)) i e es :
  m !! i = Some (e :: es) →
  sum_list_with (λ ies, length ies.2) (map_to_list m) =
    S (sum_list_with (λ ies, length ies.2) (map_to_list (<[i := es]> m))).
Proof.
  intros Hi. rewrite <- (insert_delete_id m i (e :: es)) at 1 by done.
  rewrite <- (insert_delete_eq m i es).
  rewrite !map_to_list_insert by apply lookup_delete_eq. done.
Qed.

Lemma backlog_drain debug st st' : log_drain debug st st' → backlog st = S (backlog st').
Proof.
  intros [st1 Hr|i e es st1 Hr Hi|e st1 Hr]; unfold backlog;
    cbn [log_recorder log_pending in_hand length]; rewrite Hr; cbn [in_hand length]; [lia| |lia].
  rewrite (pending_pop _ _ _ _ Hi). lia.
Qed.

Lemma pending_head (l : list (nat * list LogEntry)) :
  sum_list_with (λ ies, length ies.2) l ≠ 0 → ∃ i e es, (i, e :: es) ∈ l.
Proof.
  induction l as [|[i [|e es]] l IH]; cbn [sum_list_with snd length]; intros Hl; [done| |].
  - destruct (IH Hl) as (j & e & es & Hin). exists j, e, es. by right.
  - exists i, e, es. by left.
Qed.

Lemma drain_enabled debug st : backlog st ≠ 0 → ∃ st', log_drain debug st st'.
Proof.
  unfold backlog. destruct (log_recorder st) as [| |e] eqn:Hr; intros Hb;
    [by eexists; apply LogStart| |by eexists; eapply LogPrint].
  destruct (pending_head (map_to_list (log_pending st))) as (i & e & es & Hin%elem_of_map_to_list);
    [cbn [in_hand length] in Hb; lia|].
  eexists. by eapply (LogSend debug i e es).
Qed.

(** C34: the log is faithful under concurrency: however the goroutines of the program
    interleave, what the recorder printed is one line ["[subsystem] message"] per
    entry it has dealt with, in the order sent, without the debug entries unless
    debugging is on; all entries sent but at most one are dealt with; and the entries
    of each goroutine are sent in its own order, none lost, repeated or mixed up.  A
    goroutine may have to wait for the recorder, but not for ever: unless everything is
    printed there is always a step to take, and every step takes one off the [backlog],
    so that without new goroutines all is printed after exactly that many steps. *)
Theorem log_faithful debug st :
  rtc (log_step debug) log_start st →
  (∃ taken, (log_sent st).*2 = taken ++ in_hand (log_recorder st) ∧
     log_printed st =
       map (λ l, str "[" ++ Subsystem l ++ str "] " ++ Msg l)
           (filter (λ l, debug = true ∨ IsDebug l = false) taken)) ∧
  (∀ i prog, log_progs st !! i = Some prog →
     ∃ rest, log_pending st !! i = Some rest ∧ prog = sent_by i (log_sent st) ++ rest) ∧
  (∀ i e, (i, e) ∈ log_sent st → ∃ prog, log_progs st !! i = Some prog ∧ e ∈ prog) ∧
  (backlog st ≠ 0 → ∃ st', log_drain debug st st') ∧
  ∀ k st', nsteps (log_drain debug) k st st' → backlog st = k + backlog st'.
Proof.
  intros ((taken & Ht & Hp) & Hn & Hs)%log_reachable.
  split; [exists taken; by rewrite Hp, RecordLogs_filter|]. split_and!.
  - intros i prog Hi. destruct (log_pending st !! i) as [rest|] eqn:E.
    + exists rest. split; [done|]. rewrite (Hs i rest E) in Hi. by simplify_eq.
    + destruct (Hn i E) as [Hnone _]. congruence.
  - intros i e Hin.
    assert (e ∈ sent_by i (log_sent st)) as Hby.
    { unfold sent_by. apply list_elem_of_fmap. exists (i, e). split; [done|].
      by apply list_elem_of_filter. }
    destruct (log_pending st !! i) as [rest|] eqn:E.
    + eexists. split; [by apply Hs|]. apply elem_of_app. by left.
    + destruct (Hn i E) as [_ Hnil]. rewrite Hnil in Hby. by apply not_elem_of_nil in Hby.
  - apply drain_enabled.
  - clear. intros k st' Hk. induction Hk as [|k st st1 st2 Hd _ IH]; [done|].
    rewrite (backlog_drain _ _ _ Hd), IH. done.
Qed.

End logging.

(** * Witnesses *)

Section witnesses.
#[local] Existing Instance latin1_tables.

(** Two servers log at the same time, one of them a debug entry; the last entry is in
    the recorder's hands. *)
Lemma log_faithful_witness :
  let a := Log (str "HTTP") (str "Listening on port %d") [AInt 70] in
  let b := Debug (str "TFTP") (str "parseRRQ: %s") [AStr (str "short packet")] in
  let c := Log (str "TFTP") (str "Listening on %s") [AStr (str ":69")] in
  ∃ st, rtc (log_step false) log_start st ∧ backlog st = 1 ∧
    log_printed st = [str "[TFTP] Listening on :69"].
Proof.
  intros a b c.
  assert (∃ st, rtc (log_step false) log_start st ∧ log_sent st = [(1, c); (1, b); (0, a)] ∧
    log_recorder st = RHolding a ∧ backlog st = 1) as (st & Hst & Hsent & Hrec & Hb).
  { eexists. split; [|split; [|split]].
    - eapply rtc_l; [by apply (LogSpawn false 0 [a])|]. eapply rtc_l; [by apply (LogSpawn false 1 [c; b])|].
      eapply rtc_l; [by apply LogDrain, LogStart|].
      eapply rtc_l; [apply LogDrain; eapply (LogSend false 1 c [b]); reflexivity|].
      eapply rtc_l; [apply LogDrain; eapply (LogPrint false c); reflexivity|].
      eapply rtc_l; [apply LogDrain; eapply (LogSend false 1 b []); reflexivity|].
      eapply rtc_l; [apply LogDrain; eapply (LogPrint false b); reflexivity|].
      eapply rtc_l; [apply LogDrain; eapply (LogSend false 0 a []); reflexivity|]. apply rtc_refl.
    - reflexivity.
    - reflexivity.
    - vm_compute. reflexivity. }
  exists st. split; [exact Hst|]. split; [exact Hb|].
  destruct (proj1 (log_faithful false st Hst)) as (taken & Ht & ->).
  rewrite Hsent, Hrec in Ht. cbn [in_hand] in Ht. change ([(1, c); (1, b); (0, a)].*2) with ([c; b] ++ [a]) in Ht.
  apply (inj (λ l, l ++ [a])) in Ht as <-. reflexivity.
Defined.

End witnesses.
