(* ===== verification/Udp.v ===== *)
(** The shape shared by the UDP servers: a socket read into a buffer that is
    reused across iterations, and an endless loop of handler steps. *)
From S2P Require Import Prelude GoStrings GoFmt GoNet Logging.

(** * Reading a datagram

    [l.ReadFrom(buf)] copies the datagram over the start of [buf], dropping what
    does not fit, and returns the number of bytes copied. *)

Definition read_into (buf d : bytes) : bytes * nat :=
  (copy_at 0 (take (length buf) d) buf, length d `min` length buf).

(** * What a server does *)

Inductive udp_action :=
| ALog (e : LogEntry)
| AWriteTo (payload : bytes) (ifIndex : Z) (dst : Addr).

(** One iteration's worth of environment: what [ReadFrom] returns (the datagram,
    the control message with the interface index, the peer), and what the
    [WriteTo] of this iteration returns, should it be reached. *)
Record udp_event := mkUdpEvent {
  ev_read : result (bytes * option Z * Addr);
  ev_write : result unit
}.

(** The state of a server after some events: it returned before its loop, it is
    in its loop with a state and the trace of its actions, or it panicked. *)
Inductive server_run (St A : Type) :=
| Returned (e : error)
| Serving (s : St) (trace : list A)
| Crashed (trace : list A).
Arguments Returned {St A} e.
Arguments Serving {St A} s trace.
Arguments Crashed {St A} trace.

(** The endless [for] loop, on a finite prefix of its events. *)
Fixpoint serve_loop {St I A : Type} (step : St → I → go (St * list A))
    (s : St) (trace : list A) (events : list I) : server_run St A :=
  match events with
  | [] => Serving s trace
  | i :: events' =>
      match step s i with
      | Ret (s', acts) => serve_loop step s' (trace ++ acts) events'
      | _ => Crashed trace
      end
  end.

(** * Lemmas *)

Lemma length_read_into buf d : length (read_into buf d).1 = length buf.
Proof. unfold read_into. simpl. apply length_copy_at. rewrite length_take. lia. Qed.

(** The slice [buf[:n]] after a read is the datagram, cut to the buffer's size:
    nothing of an earlier datagram is left in it. *)
Lemma slice_read_into buf d :
  slice (read_into buf d).1 0 (read_into buf d).2 = Ret (take (length buf) d).
Proof.
  rewrite slice_ok; [|simpl; lia|rewrite length_read_into; simpl; lia].
  rewrite Nat.sub_0_r. f_equal. unfold read_into. simpl. apply sub_copy_same.
  - rewrite length_take. lia.
  - lia.
Qed.

(** A loop whose step never crashes on admissible events, keeps an invariant and
    whose actions do not depend on the state (up to the invariant) produces the
    concatenation of the per-event actions. *)
Lemma serve_loop_stateless {St I A} (step : St → I → go (St * list A))
    (Inv : St → Prop) (ok : I → Prop) (handle : I → list A) s trace events :
  (∀ s i, Inv s → ok i → ∃ s', step s i = Ret (s', handle i) ∧ Inv s') →
  Inv s → Forall ok events →
  ∃ s', serve_loop step s trace events = Serving s' (trace ++ flat_map handle events) ∧ Inv s'.
Proof.
  intros Hstep Hs Hok. revert s trace Hs.
  induction Hok as [|i events Hi _ IH]; intros s trace Hs; simpl.
  - exists s. by rewrite app_nil_r.
  - destruct (Hstep s i Hs Hi) as (s' & -> & Hs').
    destruct (IH s' (trace ++ handle i) Hs') as (s'' & -> & Hs'').
    exists s''. by rewrite <- app_assoc.
Qed.
