(* ===== verification/Pxe.v ===== *)
(** pxe/pxe.go: the PXE boot server on port 4011: [ParsePXE], [ReplyPXE] and the
    loop [ServePXE]. *)
From S2P Require Import Prelude GoStrings GoFmt GoNet Dhcp Logging Udp.

(** * Definitions from pxe/pxe.go *)

(** The embedded [DHCPPacket] and the fields of its own; [BootType] is tested
    against nil, and an empty value is not nil. *)
Record PXEPacket := mkPXEPacket {
  pxe_dhcp : DHCPPacket;
  ClientIP : IP;
  BootType : option bytes;
  HTTPServer : GoString
}.

#[export] Instance PXEPacket_eq_dec : EqDecision PXEPacket.
Proof. solve_decision. Defined.

(** The inner loop over the vendor options: it stops at the first option 71. *)
Fixpoint boot_type_loop (fuel : nat) (bootType : option bytes)
    (pxeTyp : Byte.byte) (pxeVal val : bytes) : go (option bytes) :=
  if decide (pxeTyp = 255%gb) then Ret bootType else
  match fuel with
  | O => OutOfFuel
  | S fuel =>
      if decide (pxeTyp = 71%gb) then Ret (Some pxeVal) else
      '(pxeTyp', pxeVal', val') ← DhcpOption val;
      boot_type_loop fuel bootType pxeTyp' pxeVal' val'
  end.

(** The [switch typ] of [ParsePXE]. *)
Definition ParsePXE_switch (ret : PXEPacket) (typ : Byte.byte) (val : bytes)
    : go (result PXEPacket) :=
  let who := [AStr (HardwareAddr_String (MAC (pxe_dhcp ret))); AStr (IP_String (ClientIP ret))] in
  if decide (typ = 43%gb) then
    '(pxeTyp, pxeVal, val') ← DhcpOption val;
    bt ← boot_type_loop (length val) (BootType ret) pxeTyp pxeVal val';
    Ret (Ok (mkPXEPacket (pxe_dhcp ret) (ClientIP ret) bt (HTTPServer ret)))
  else if decide (typ = 97%gb) then
    if decide (length val ≠ 17)
    then Ret (Err (Errorf (str "packet from %s (%s) has malformed option 97") who)) else
    v0 ← index val 0;
    if decide (v0 ≠ 0%gb)
    then Ret (Err (Errorf (str "packet from %s (%s) has malformed option 97") who)) else
    guid ← slice_from val 1;
    Ret (Ok (mkPXEPacket (set_GUID guid (pxe_dhcp ret)) (ClientIP ret)
               (BootType ret) (HTTPServer ret)))
  else Ret (Ok ret).

Definition ParsePXE (b : bytes) : go (result PXEPacket) :=
  if (length b <? 240)%nat then Ret (Err (ErrNew (str "packet too short"))) else
  tid ← slice b 4 8;
  mac ← slice b 28 34;
  cip ← slice b 12 16;
  let ret := mkPXEPacket (mkDHCPPacket tid mac None []) cip None [] in
  let who := [AStr (HardwareAddr_String mac); AStr (IP_String cip)] in
  magic ← slice b 236 240;
  if decide (magic ≠ DhcpMagic)
  then Ret (Err (Errorf (str "packet from %s (%s) is not a DHCP request") who)) else
  tail ← slice_from b 240;
  '(typ, val, opts) ← DhcpOption tail;
  r ← for_options ParsePXE_switch (length b) ret typ val opts;
  match r with
  | Err e => Ret (Err e)
  | Ok ret =>
      match GUID (pxe_dhcp ret), BootType ret with
      | None, _ => Ret (Err (Errorf (str "%s (%s) is not a PXE client") who))
      | Some _, None => Ret (Err (Errorf (str "%s (%s) hasn't selected a menu option") who))
      | Some _, Some _ => Ret (Ok ret)
      end
  end.

Definition Reply_bootp (p : PXEPacket) : bytes :=
  let d := pxe_dhcp p in
  let bootp := replicate 236 0%gb in
  let bootp := <[0 := 2%gb]> bootp in
  let bootp := <[1 := 1%gb]> bootp in
  let bootp := <[2 := 6%gb]> bootp in
  let bootp := <[10 := 128%gb]> bootp in
  let bootp := copy_at 4 (TID d) bootp in
  let bootp := copy_at 16 (ClientIP p) bootp in
  let bootp := copy_at 20 (ServerIP d) bootp in
  let bootp := copy_at 28 (MAC d) bootp in
  copy_at 108 (str "boot") bootp.

Definition ReplyPXE (p : PXEPacket) : bytes :=
  let d := pxe_dhcp p in
  Reply_bootp p ++ DhcpMagic ++
  [53; 1; 5]%gb ++
  [54; 4]%gb ++ ServerIP d ++
  [60; 9]%gb ++ str "PXEClient" ++
  [97; 17; 0]%gb ++ default [] (GUID d) ++
  [43; 7; 71; 4]%gb ++ default [] (BootType p) ++ [255]%gb ++
  [210%gb; to_byte (Z.of_nat (length (HTTPServer p)))] ++ HTTPServer p ++
  [211; 4; 0; 0; 0; 5]%gb ++
  [255]%gb.

Section serve.
Context `{UnicodeTables} (byIndex : Z → result Interface) (httpPort : Z).

(** The text [http://<ip>:<port>/] that becomes pxelinux's path prefix. *)
Definition http_server (ip : IP) : GoString :=
  Sprintf (str "http://%s:%d/") [AStr (IP_String ip); AInt httpPort].

(** One iteration of the loop of [ServePXE]; the state is the read buffer. *)
Definition ServePXE_step (buf : bytes) (ev : udp_event) : go (bytes * list udp_action) :=
  match ev_read ev with
  | Err e =>
      Ret (buf, [ALog (Log (str "PXE") (str "Error reading from socket: %s") [AStr (Error e)])])
  | Ok (d, msg, addr) =>
      let '(buf, n) := read_into buf d in
      pkt ← slice buf 0 n;
      req ← ParsePXE pkt;
      match req with
      | Err e => Ret (buf, [ALog (Debug (str "PXE") (str "ParsePXE: %s") [AStr (Error e)])])
      | Ok req =>
          let mac := AStr (HardwareAddr_String (MAC (pxe_dhcp req))) in
          match msg with
          | None => Panic
          | Some ifIndex =>
              match InterfaceIP byIndex ifIndex with
              | Err e =>
                  Ret (buf, [ALog (Log (str "PXE")
                    (str "Couldn't find an IP address to use to reply to %s: %s")
                    [mac; AStr (Error e)])])
              | Ok ip =>
                  let req := mkPXEPacket (set_ServerIP ip (pxe_dhcp req)) (ClientIP req)
                               (BootType req) (http_server ip) in
                  let log := ALog (Log (str "PXE") (str "Chainloading %s (%s) to pxelinux (via %s)")
                    [mac; AStr (IP_String (ClientIP req)); AStr (IP_String ip)]) in
                  let write := AWriteTo (ReplyPXE req) ifIndex addr in
                  match ev_write ev with
                  | Ok _ => Ret (buf, [log; write])
                  | Err e => Ret (buf, [log; write;
                      ALog (Log (str "PXE") (str "Responding to %s: %s") [mac; AStr (Error e)])])
                  end
              end
          end
      end
  end.

(** [ServePXE]: [listen] is the result of [net.ListenPacket], [setcm] that of
    [SetControlMessage]. *)
Definition ServePXE (pxePort : Z) (listen setcm : result unit) (events : list udp_event)
    : server_run bytes udp_action :=
  match listen, setcm with
  | Err e, _ => Returned e
  | Ok _, Err e => Returned e
  | Ok _, Ok _ =>
      serve_loop ServePXE_step (replicate 1024 0%gb)
        [ALog (Log (str "PXE") (str "Listening on port %d") [AInt pxePort])] events
  end.

End serve.

(** * ParsePXE *)

Fixpoint find_option (t : Byte.byte) (opts : list dhcp_option) : option bytes :=
  match opts with
  | [] => None
  | (t', v) :: opts' => if decide (t' = t) then Some v else find_option t opts'
  end.

(** The last vendor option that has a boot type wins, with its first boot type. *)
Definition last_boot_type (bt : option bytes) (opts : list dhcp_option) : option bytes :=
  foldl (λ bt o, if decide (o.1 = 43%gb)
                 then match find_option 71%gb (options_of o.2) with Some v => Some v | None => bt end
                 else bt) bt opts.

(** The requests the PXE server answers, and what it reads out of them. *)
Definition pxe_request (b : bytes) (p : PXEPacket) : Prop :=
  (240 ≤ length b ∧ sub 236 4 b = [99; 130; 83; 99]%gb) ∧
  Forall valid_guid_option (options_of (drop 240 b)) ∧
  ∃ g bt, last_guid None (options_of (drop 240 b)) = Some g ∧
    last_boot_type None (options_of (drop 240 b)) = Some bt ∧
    p = mkPXEPacket (mkDHCPPacket (sub 4 4 b) (sub 28 6 b) (Some g) []) (sub 12 4 b) (Some bt) [].

Lemma boot_type_loop_spec fuel bt b t v next :
  length b ≤ fuel → DhcpOption b = Ret (t, v, next) →
  boot_type_loop fuel bt t v next =
    Ret match find_option 71%gb (options_of b) with Some x => Some x | None => bt end.
Proof.
  revert b t v next. induction fuel as [|fuel IH]; intros b t v next Hf Hd;
    (destruct (DhcpOption_cases b) as [[Ho Hd']|(t' & v' & nx & Ht & Hl & Ho & Hd')];
     rewrite Hd in Hd'; simplify_eq; rewrite Ho; simpl); [done|lia|done|].
  rewrite decide_False by done. case_decide; [done|].
  destruct (DhcpOption_cases nx) as [[_ Hd2]|(t2 & v2 & nx2 & _ & _ & _ & Hd2)];
    rewrite Hd2; simpl; apply IH; try done; lia.
Qed.

Lemma PXE_switch_spec ret t v :
  ∃ r, ParsePXE_switch ret t v = Ret r ∧
    match r with
    | Ok ret' => valid_guid_option (t, v) ∧
        ret' = mkPXEPacket
                 (if decide (t = 97%gb) then set_GUID (tail v) (pxe_dhcp ret) else pxe_dhcp ret)
                 (ClientIP ret) (last_boot_type (BootType ret) [(t, v)]) (HTTPServer ret)
    | Err _ => ¬ valid_guid_option (t, v)
    end.
Proof.
  unfold valid_guid_option, ParsePXE_switch, last_boot_type. simpl.
  destruct (decide (t = 43%gb)) as [->|].
  { destruct (DhcpOption_cases v) as [[_ Hd]|(t2 & v2 & nx2 & _ & _ & _ & Hd)];
      rewrite Hd; simpl; rewrite (boot_type_loop_spec _ _ v) by done; by eexists. }
  destruct (decide (t = 97%gb)) as [->|]; [|by destruct ret; eexists].
  destruct v as [|x v]; [eexists; split; [done|]; naive_solver|].
  rewrite slice_from_ok by (simpl; lia).
  repeat (case_decide; simplify_eq/=); (eexists; split; [reflexivity|]); simpl; naive_solver.
Qed.

Lemma fold_PXE_switch_spec ret opts :
  ∃ r, fold_options ParsePXE_switch ret opts = Ret r ∧
    match r with
    | Ok ret' => Forall valid_guid_option opts ∧
        ret' = mkPXEPacket
          (mkDHCPPacket (TID (pxe_dhcp ret)) (MAC (pxe_dhcp ret))
             (last_guid (GUID (pxe_dhcp ret)) opts) (ServerIP (pxe_dhcp ret)))
          (ClientIP ret) (last_boot_type (BootType ret) opts) (HTTPServer ret)
    | Err _ => ¬ Forall valid_guid_option opts
    end.
Proof.
  revert ret. induction opts as [|[t v] opts IH]; intros ret.
  { eexists. split; [done|]. simpl. split; [done|]. by destruct ret as [[] ? ? ?]. }
  simpl. destruct (PXE_switch_spec ret t v) as (r & -> & Hr). simpl.
  destruct r as [ret'|e]; [|exists (Err e); split; [done|by inversion 1]].
  destruct Hr as [Hv Hret']. destruct (IH ret') as (r & -> & Hr).
  exists r. split; [done|]. destruct r as [ret''|e].
  - destruct Hr as [Hf ->]. split; [by constructor|]. rewrite Hret'. simpl. by case_decide.
  - intros Hf. apply Hr. by inversion Hf.
Qed.

Lemma ParsePXE_header b :
  240 ≤ length b → sub 236 4 b = DhcpMagic →
  ∃ r, fold_options ParsePXE_switch
         (mkPXEPacket (mkDHCPPacket (sub 4 4 b) (sub 28 6 b) None []) (sub 12 4 b) None [])
         (options_of (drop 240 b)) = Ret r ∧
    let who := [AStr (HardwareAddr_String (sub 28 6 b)); AStr (IP_String (sub 12 4 b))] in
    ParsePXE b = Ret match r with
      | Err e => Err e
      | Ok ret => match GUID (pxe_dhcp ret), BootType ret with
                  | None, _ => Err (Errorf (str "%s (%s) is not a PXE client") who)
                  | Some _, None =>
                      Err (Errorf (str "%s (%s) hasn't selected a menu option") who)
                  | Some _, Some _ => Ok ret
                  end
      end.
Proof.
  intros Hlen Hm.
  destruct (fold_PXE_switch_spec
    (mkPXEPacket (mkDHCPPacket (sub 4 4 b) (sub 28 6 b) None []) (sub 12 4 b) None [])
    (options_of (drop 240 b))) as (r & Hr & _).
  exists r. split; [done|]. unfold ParsePXE.
  destruct (Nat.ltb_spec (length b) 240); [lia|].
  rewrite !slice_ok, slice_from_ok by lia. cbn [mbind go_bind Nat.sub].
  rewrite decide_False by (intros Hx; by apply Hx).
  destruct (DhcpOption_cases (drop 240 b)) as [[_ Hd]|(t & v & nx & _ & _ & _ & Hd)];
    rewrite Hd; cbn [mbind go_bind];
    rewrite (for_options_fold _ (drop 240 b)) by (done || rewrite length_drop; lia);
    rewrite Hr; cbn [mbind go_bind];
    (destruct r as [ret|e]; [by destruct (GUID (pxe_dhcp ret)), (BootType ret)|done]).
Qed.

Lemma ParsePXE_reject b :
  ¬ (240 ≤ length b ∧ sub 236 4 b = DhcpMagic) → ∃ e, ParsePXE b = Ret (Err e).
Proof.
  intros Hn. unfold ParsePXE. destruct (Nat.ltb_spec (length b) 240); [by eexists|].
  rewrite !slice_ok by lia. cbn [mbind go_bind Nat.sub].
  rewrite decide_True by (intros Hm; by apply Hn). by eexists.
Qed.

Lemma ParsePXE_returns b : ∃ r, ParsePXE b = Ret r.
Proof.
  destruct (decide (240 ≤ length b ∧ sub 236 4 b = DhcpMagic)) as [[Hl Hm]|Hn].
  - destruct (ParsePXE_header b Hl Hm) as (r & _ & ->). by eexists.
  - destruct (ParsePXE_reject b Hn) as [e ->]. by eexists.
Qed.

Lemma ParsePXE_iff b p : ParsePXE b = Ret (Ok p) ↔ pxe_request b p.
Proof.
  unfold pxe_request.
  destruct (decide (240 ≤ length b ∧ sub 236 4 b = DhcpMagic)) as [[Hl Hm]|Hn]; cycle 1.
  { destruct (ParsePXE_reject b Hn) as [e ->]. split; [done|tauto]. }
  destruct (ParsePXE_header b Hl Hm) as (r & Hf & ->).
  destruct (fold_PXE_switch_spec
    (mkPXEPacket (mkDHCPPacket (sub 4 4 b) (sub 28 6 b) None []) (sub 12 4 b) None [])
    (options_of (drop 240 b))) as (r' & Hf' & Hr).
  rewrite Hf in Hf'. simplify_eq. destruct r' as [ret|e]; [|naive_solver].
  destruct Hr as [Hv ->]. simpl.
  destruct (last_guid None (options_of (drop 240 b))) as [g|],
    (last_boot_type None (options_of (drop 240 b))) as [bt|]; naive_solver.
Qed.

(** C13: [ParsePXE] returns on every byte sequence, the nested vendor options
    included, and accepts exactly the packets with the DHCP magic whose client
    identifiers are well formed and that select a boot type; it reads the
    transaction id, both addresses, the identifier and the boot type. *)
Theorem ParsePXE_correct b :
  (∃ r, ParsePXE b = Ret r) ∧ ∀ p, ParsePXE b = Ret (Ok p) ↔ pxe_request b p.
Proof. split; [apply ParsePXE_returns|apply ParsePXE_iff]. Qed.

(** * ReplyPXE *)

Definition reply_options (p : PXEPacket) : list dhcp_option :=
  [(53, [5]); (54, ServerIP (pxe_dhcp p)); (60, str "PXEClient");
   (97, 0 :: default [] (GUID (pxe_dhcp p)));
   (43, [71; 4] ++ default [] (BootType p) ++ [255]);
   (210, HTTPServer p); (211, [0; 0; 0; 5])]%gb.

Lemma Reply_bootp_fields p :
  wf_packet (pxe_dhcp p) → length (ClientIP p) = 4 →
  let b := Reply_bootp p in
  length b = 236 ∧ sub 0 4 b = [2; 1; 6; 0]%gb ∧ sub 4 4 b = TID (pxe_dhcp p) ∧
  sub 8 4 b = [0; 0; 128; 0]%gb ∧ sub 16 4 b = ClientIP p ∧
  sub 20 4 b = ServerIP (pxe_dhcp p) ∧ sub 28 6 b = MAC (pxe_dhcp p) ∧
  sub 108 5 b = str "boot" ++ [0%gb].
Proof.
  intros (Ht & Hm & _ & Hs) Hc b. subst b. unfold Reply_bootp. fold bootp_template.
  pose proof length_bootp_template as Hl.
  assert (length (str "boot") = 4) as Hb by done.
  assert (length (copy_at 4 (TID (pxe_dhcp p)) bootp_template) = 236) as H1
    by (rewrite length_copy_at; lia).
  assert (length (copy_at 16 (ClientIP p) (copy_at 4 (TID (pxe_dhcp p)) bootp_template)) = 236)
    as H2 by (rewrite length_copy_at; lia).
  set (c2 := copy_at 16 _ _) in *.
  assert (length (copy_at 20 (ServerIP (pxe_dhcp p)) c2) = 236) as H3
    by (rewrite length_copy_at; lia).
  set (c3 := copy_at 20 _ _) in *.
  assert (length (copy_at 28 (MAC (pxe_dhcp p)) c3) = 236) as H4
    by (rewrite length_copy_at; lia).
  set (c4 := copy_at 28 _ _) in *.
  split_and!; [rewrite length_copy_at by lia; done|..].
  7: { replace (sub 108 5 (copy_at 108 (str "boot") c4))
         with (sub 108 4 (copy_at 108 (str "boot") c4) ++ sub 112 1 (copy_at 108 (str "boot") c4))
         by (unfold sub; rewrite <- (take_take_drop _ 4 1), drop_drop; done).
       rewrite sub_copy_same, sub_copy_other by lia. f_equal. subst c4 c3 c2.
       rewrite !sub_copy_other by lia. done. }
  all: rewrite (sub_copy_other _ _ 108) by lia; subst c4 c3 c2;
    repeat first [rewrite sub_copy_same by lia; done
                 |rewrite sub_copy_other by lia]; done.
Qed.

(** The options before and after the mirrored vendor option. *)
Definition reply_head (p : PXEPacket) : list dhcp_option :=
  [(53, [5]); (54, ServerIP (pxe_dhcp p)); (60, str "PXEClient");
   (97, 0 :: default [] (GUID (pxe_dhcp p)))]%gb.

Definition reply_tail (p : PXEPacket) : list dhcp_option :=
  [(210, HTTPServer p); (211, [0; 0; 0; 5])]%gb.

Lemma ReplyPXE_encoded p :
  wf_packet (pxe_dhcp p) →
  ReplyPXE p = (Reply_bootp p ++ DhcpMagic) ++ flat_map option_bytes (reply_head p) ++
    43%gb :: 7%gb :: [71; 4]%gb ++ default [] (BootType p) ++ [255%gb] ++
    flat_map option_bytes (reply_tail p) ++ [255%gb].
Proof.
  intros (_ & _ & (g & Hg & Hgl) & Hip). unfold ReplyPXE, reply_head, reply_tail. rewrite Hg.
  rewrite <- !app_assoc. do 2 f_equal. simpl. unfold option_bytes. simpl.
  rewrite Hip, Hgl. simpl. repeat (rewrite <- ?app_assoc; simpl; f_equal).
Qed.

Lemma wf_reply_head p : wf_packet (pxe_dhcp p) → Forall wf_option (reply_head p).
Proof.
  intros (_ & _ & (g & Hg & Hgl) & Hip). unfold reply_head. rewrite Hg.
  wf_options; rewrite ?Hip; simpl; rewrite ?Hgl; lia.
Qed.

(** The mirrored vendor option has a constant length byte: the options after it
    are read as intended only for a boot type of four bytes. *)
Lemma reply_options_decode p bt :
  wf_packet (pxe_dhcp p) → BootType p = Some bt → length (HTTPServer p) < 256 →
  options_of (flat_map option_bytes (reply_head p) ++
    43%gb :: 7%gb :: [71; 4]%gb ++ bt ++ [255%gb] ++
    flat_map option_bytes (reply_tail p) ++ [255%gb]) = reply_options p ↔ length bt = 4.
Proof.
  intros Hwf Hbt Hh. rewrite options_of_app by by apply wf_reply_head.
  rewrite options_of_step. cbv zeta. rewrite decide_False by done.
  change (Z.to_nat (u8 7%gb)) with 7.
  destruct (Nat.ltb_spec (length ([71; 4]%gb ++ bt ++ [255%gb] ++
    flat_map option_bytes (reply_tail p) ++ [255%gb])) 7) as [Hs|Hs].
  { rewrite !length_app in Hs. simpl in Hs. rewrite !length_app in Hs. simpl in Hs. lia. }
  change (reply_options p) with (reply_head p ++
    (43%gb, [71; 4]%gb ++ default [] (BootType p) ++ [255%gb]) :: reply_tail p).
  rewrite Hbt. split.
  - intros Heq%(inj _).
    match type of Heq with (_, ?v) :: _ = (_, ?w) :: _ =>
      assert (length v = length w) as Hvw by congruence end.
    rewrite length_take_le in Hvw by done.
    rewrite !length_app in Hvw. simpl in Hvw. lia.
  - intros Hl. do 2 f_equal.
    + do 4 (destruct bt as [|? bt]; [done|]). by destruct bt.
    + rewrite (app_assoc bt), (app_assoc [71; 4]%gb).
      rewrite drop_app_length' by (rewrite !length_app; simpl; lia).
      rewrite options_of_app; [by rewrite options_of_end, app_nil_r|].
      unfold reply_tail. wf_options; simpl; lia.
Qed.

Lemma ReplyPXE_content p bt :
  wf_packet (pxe_dhcp p) → length (ClientIP p) = 4 → BootType p = Some bt →
  length (HTTPServer p) < 256 →
  let b := ReplyPXE p in
  sub 0 4 b = [2; 1; 6; 0]%gb ∧ sub 4 4 b = TID (pxe_dhcp p) ∧ sub 16 4 b = ClientIP p ∧
  sub 20 4 b = ServerIP (pxe_dhcp p) ∧ sub 28 6 b = MAC (pxe_dhcp p) ∧
  sub 108 5 b = str "boot" ++ [0%gb] ∧ sub 236 4 b = DhcpMagic ∧
  (options_of (drop 240 b) = reply_options p ↔ length bt = 4) ∧
  (length bt = 4 → options_of ([71; 4]%gb ++ bt ++ [255%gb]) = [(71%gb, bt)]).
Proof.
  intros Hwf Hc Hbt Hh b. subst b.
  destruct (Reply_bootp_fields p Hwf Hc) as (Hl & H0 & H4 & _ & H16 & H20 & H28 & H108).
  assert (length (Reply_bootp p ++ DhcpMagic) = 240) as Hl2
    by (rewrite length_app, Hl; done).
  rewrite ReplyPXE_encoded by done. rewrite Hbt.
  split_and!; [rewrite !sub_app_l by lia; done..| | |].
  - rewrite sub_app_l by lia. rewrite sub_app_r by lia. rewrite Hl. done.
  - rewrite drop_app_ge by lia. rewrite Hl2, Nat.sub_diag, drop_0.
    by apply reply_options_decode.
  - intros Hbl. do 4 (destruct bt as [|? bt]; [done|]). by destruct bt.
Qed.

(** C14: the reply to a well-formed request is a DHCPACK that repeats the
    transaction id, both addresses and the client identifier, names our address
    as next server and [boot] as boot file, and (exactly when the boot type has
    four bytes, which the parser does not check) decodes to the option list that
    mirrors the menu choice and sets pxelinux's path prefix and reboot timeout. *)
Theorem ReplyPXE_wire p bt :
  wf_packet (pxe_dhcp p) → length (ClientIP p) = 4 → BootType p = Some bt →
  length (HTTPServer p) < 256 →
  let b := ReplyPXE p in
  sub 0 4 b = [2; 1; 6; 0]%gb ∧ sub 4 4 b = TID (pxe_dhcp p) ∧ sub 16 4 b = ClientIP p ∧
  sub 20 4 b = ServerIP (pxe_dhcp p) ∧ sub 28 6 b = MAC (pxe_dhcp p) ∧
  sub 108 5 b = str "boot" ++ [0%gb] ∧ sub 236 4 b = [99; 130; 83; 99]%gb ∧
  (options_of (drop 240 b) = reply_options p ↔ length bt = 4) ∧
  (length bt = 4 → options_of ([71; 4]%gb ++ bt ++ [255%gb]) = [(71%gb, bt)]).
Proof. apply ReplyPXE_content. Qed.

(** * ServePXE *)

Section serve_theorems.
Context `{UnicodeTables} (byIndex : Z → result Interface) (httpPort : Z).

Lemma http_server_text ip :
  http_server httpPort ip =
    str "http://" ++ IP_String ip ++ str ":" ++ Itoa httpPort ++ str "/".
Proof. reflexivity. Qed.

(** The path prefix always fits the one-byte length of option 210. *)
Lemma http_server_length ip :
  length ip = 4 → (min_int ≤ httpPort ≤ max_int)%Z → length (http_server httpPort ip) < 256.
Proof.
  intros Hip Hp. rewrite http_server_text, !length_app.
  pose proof (IP_String_length ip Hip). pose proof (Itoa_length httpPort Hp).
  change (length (str "http://")) with 7. change (length (str ":")) with 1.
  change (length (str "/")) with 1. lia.
Qed.

(** Socket events that carry the control message the server asked for. *)
Definition has_ifindex (ev : udp_event) : Prop :=
  match ev_read ev with Ok (_, None, _) => False | _ => True end.

(** What one event makes the server do, run on a fresh buffer. *)
Definition PXE_actions (ev : udp_event) : list udp_action :=
  match ServePXE_step byIndex httpPort (replicate 1024 0%gb) ev with
  | Ret (_, acts) => acts
  | _ => []
  end.

Lemma ServePXE_step_stateless buf ev :
  length buf = 1024 → has_ifindex ev →
  ∃ buf', ServePXE_step byIndex httpPort buf ev = Ret (buf', PXE_actions ev) ∧ length buf' = 1024.
Proof.
  unfold PXE_actions, ServePXE_step, has_ifindex. intros Hbuf.
  destruct (ev_read ev) as [[[d msg] addr]|e]; [|by eexists].
  destruct msg as [i|]; [|done]. intros _.
  pose proof (slice_read_into buf d) as H1. pose proof (length_read_into buf d) as H2.
  pose proof (slice_read_into (replicate 1024 0%gb) d) as H3.
  destruct (read_into buf d) as [buf' n], (read_into (replicate 1024 0%gb) d) as [buf0 n0].
  cbn [fst snd] in *. rewrite length_replicate, <- Hbuf in H3. rewrite H1, H3. cbn [mbind go_bind].
  destruct (ParsePXE_returns (take (length buf) d)) as [r ->]. cbn [mbind go_bind].
  destruct r as [req|e]; [|eexists; split; [done|lia]].
  destruct (InterfaceIP byIndex i); [|eexists; split; [done|lia]].
  destruct (ev_write ev); (eexists; split; [done|lia]).
Qed.

(** Once listening, the PXE server never stops: on every sequence of socket
    events it performs, in order, the actions each event calls for on its own,
    whatever earlier datagrams left in the buffer. *)
Lemma ServePXE_serves pxePort events :
  Forall has_ifindex events →
  ∃ buf, ServePXE byIndex httpPort pxePort (Ok tt) (Ok tt) events =
    Serving buf (ALog (Log (str "PXE") (str "Listening on port %d") [AInt pxePort]) ::
                 flat_map PXE_actions events).
Proof.
  intros Hev. destruct (serve_loop_stateless (ServePXE_step byIndex httpPort)
    (λ buf, length buf = 1024) has_ifindex PXE_actions (replicate 1024 0%gb)
    [ALog (Log (str "PXE") (str "Listening on port %d") [AInt pxePort])] events)
    as (buf & Hrun & _); [|done|done|].
  - intros. by apply ServePXE_step_stateless.
  - exists buf. apply Hrun.
Qed.

Lemma PXE_replies_iff ev payload i dst :
  AWriteTo payload i dst ∈ PXE_actions ev ↔
  ∃ d req ip,
    ev_read ev = Ok (d, Some i, dst) ∧ pxe_request (take 1024 d) req ∧
    InterfaceIP byIndex i = Ok ip ∧
    payload = ReplyPXE (mkPXEPacket (set_ServerIP ip (pxe_dhcp req)) (ClientIP req)
                          (BootType req) (http_server httpPort ip)).
Proof.
  unfold PXE_actions, ServePXE_step.
  destruct (ev_read ev) as [[[d msg] addr]|e]; [|split; [set_solver|naive_solver]].
  pose proof (slice_read_into (replicate 1024 0%gb) d) as H3.
  destruct (read_into (replicate 1024 0%gb) d) as [buf0 n0]. cbn [fst snd] in *.
  rewrite H3, length_replicate. cbn [mbind go_bind].
  destruct (ParsePXE_returns (take 1024 d)) as [r Hr]. rewrite Hr. cbn [mbind go_bind]. split.
  - destruct r as [req|e]; [|set_solver]. destruct msg as [j|]; [|set_solver].
    destruct (InterfaceIP byIndex j) as [ip|e] eqn:Hip; [|set_solver]. intros Hin.
    assert (j = i ∧ addr = dst ∧ payload = ReplyPXE (mkPXEPacket (set_ServerIP ip (pxe_dhcp req))
      (ClientIP req) (BootType req) (http_server httpPort ip))) as (-> & -> & ->)
      by (destruct (ev_write ev); set_solver).
    exists d, req, ip. split_and!; try done. by apply ParsePXE_iff.
  - intros (d' & req & ip & [= <- -> ->] & Hreq & Hip & ->). apply ParsePXE_iff in Hreq.
    rewrite Hr in Hreq. simplify_eq. rewrite Hip. destruct (ev_write ev); set_solver.
Qed.

Lemma pxe_request_wf b req ip :
  pxe_request b req → length ip = 4 →
  wf_packet (set_ServerIP ip (pxe_dhcp req)) ∧ length (ClientIP req) = 4.
Proof.
  intros ([Hl _] & Hv & g & bt & Hg & _ & ->) H4. simpl. rewrite length_sub by lia.
  split; [|done]. unfold wf_packet. simpl. rewrite !length_sub by lia. split_and!; try done.
  exists g. split; [done|]. by eapply (last_guid_length _ None).
Qed.

(** C12: the PXE server sends a packet exactly when an acceptable request arrives
    on an interface with a usable address: it goes back to the requester through
    that interface, and is the reply for the request's fields, the interface's
    address and the path prefix [http://<address>:<HTTP port>/]; all the length
    assumptions of the encoder hold, but for the boot type's. *)
Theorem ServePXE_replies ev payload i dst :
  (min_int ≤ httpPort ≤ max_int)%Z →
  AWriteTo payload i dst ∈ PXE_actions ev ↔
  ∃ d req ip,
    let prefix := str "http://" ++ IP_String ip ++ str ":" ++ Itoa httpPort ++ str "/" in
    ev_read ev = Ok (d, Some i, dst) ∧ pxe_request (take 1024 d) req ∧
    InterfaceIP byIndex i = Ok ip ∧
    payload = ReplyPXE (mkPXEPacket (set_ServerIP ip (pxe_dhcp req)) (ClientIP req)
                          (BootType req) prefix) ∧
    wf_packet (set_ServerIP ip (pxe_dhcp req)) ∧ length (ClientIP req) = 4 ∧
    length prefix < 256.
Proof.
  intros Hp. rewrite PXE_replies_iff. split.
  - intros (d & req & ip & Hr & Hq & Hip & Hpl). exists d, req, ip. cbv zeta.
    pose proof (InterfaceIP_length _ _ _ Hip) as H4. destruct (pxe_request_wf _ _ ip Hq H4).
    rewrite <- http_server_text. split_and!; try done. by apply http_server_length.
  - intros (d & req & ip & Hr & Hq & Hip & Hpl & _). rewrite <- http_server_text in Hpl. eauto 10.
Qed.

End serve_theorems.

(** * Witnesses *)

Section witnesses.
#[local] Existing Instance latin1_tables.

Definition toy_pxe : PXEPacket :=
  mkPXEPacket toy_packet [10; 0; 0; 7]%gb (Some [128; 0; 0; 0]%gb) (str "http://10.0.0.1:70/").

Definition toy_pxe_request : bytes :=
  mk_discover (TID toy_packet) (MAC toy_packet) (replicate 16 9%gb)
    [(43%gb, [71; 4; 128; 0; 0; 0; 255]%gb)].

Definition toy_pxe_event : udp_event :=
  mkUdpEvent (Ok (toy_pxe_request, Some 3%Z, UDPAddr [10; 0; 0; 7]%gb 4011)) (Ok tt).

Lemma ReplyPXE_wire_witness :
  options_of (drop 240 (ReplyPXE toy_pxe)) = reply_options toy_pxe.
Proof.
  destruct (ReplyPXE_wire toy_pxe [128; 0; 0; 0]%gb) as (_ & _ & _ & _ & _ & _ & _ & Hiff & _).
  - split; [reflexivity|]. split; [reflexivity|]. split; [by exists (replicate 16 9%gb)|reflexivity].
  - reflexivity.
  - reflexivity.
  - apply Nat.ltb_lt. reflexivity.
  - apply Hiff. reflexivity.
Defined.

Lemma ServePXE_replies_witness :
  ∃ payload d req ip,
    ev_read toy_pxe_event = Ok (d, Some 3%Z, UDPAddr [10; 0; 0; 7]%gb 4011) ∧
    pxe_request (take 1024 d) req ∧ InterfaceIP toy_interfaces 3 = Ok ip ∧
    payload = ReplyPXE (mkPXEPacket (set_ServerIP ip (pxe_dhcp req)) (ClientIP req)
                          (BootType req)
                          (str "http://" ++ IP_String ip ++ str ":" ++ Itoa 70 ++ str "/")).
Proof.
  pose (req := mkPXEPacket toy_packet (sub 12 4 toy_pxe_request) (Some [128; 0; 0; 0]%gb)
                 (str "http://10.0.0.1:70/")).
  destruct (ServePXE_replies toy_interfaces 70 toy_pxe_event (ReplyPXE req) 3
    (UDPAddr [10; 0; 0; 7]%gb 4011)) as [Hsent _]; [split; discriminate|].
  destruct Hsent as (d & req' & ip & H1 & H2 & H3 & H4 & _).
  - apply (list_elem_of_lookup_2 _ 1). vm_compute. reflexivity.
  - exists (ReplyPXE req), d, req', ip. auto.
Defined.

End witnesses.
