(* ===== verification/Tftp.v ===== *)
(** tftp/tftp.go, the request side: [nullStr], [parseRRQ], [mkError] and the
    accept loop [Serve]. *)
From S2P Require Import Prelude GoStrings GoFmt GoNet Udp.

(** * Definitions from tftp/tftp.go *)

Record rrq := mkRrq {
  Filename : GoString;
  BlockSize : Z
}.

#[export] Instance rrq_eq_dec : EqDecision rrq.
Proof. solve_decision. Defined.

(** [nullStr]: the string, the rest, and whether there was a terminator. *)
Definition nullStr (b : bytes) : go (GoString * bytes * bool) :=
  match IndexByte b 0%gb with
  | None => Ret ([], [], false)
  | Some off =>
      s ← slice b 0 off;
      remaining ← slice_from b (off + 1);
      Ret (s, remaining, true)
  end.

(** The [for len(b) > 0] loop of [parseRRQ] over the options. *)
Fixpoint parseRRQ_options (fuel : nat) (addr : Addr) (req : rrq) (b : bytes) : go (result rrq) :=
  match b with
  | [] => Ret (Ok req)
  | _ =>
      match fuel with
      | O => OutOfFuel
      | S fuel =>
          let who := AStr (Addr_String addr) in
          '(opt, b, ok) ← nullStr b;
          if negb ok then Ret (Err (Errorf (str "%s sent unterminated option name") [who])) else
          '(valStr, b, ok) ← nullStr b;
          if negb ok
          then Ret (Err (Errorf (str "%s sent unterminated value for option %q") [who; AStr opt]))
          else
          match Atoi valStr with
          | None =>
              Ret (Err (Errorf (str "%s sent non-integer %q for option %q")
                          [who; AStr valStr; AStr opt]))
          | Some val =>
              if decide (opt = str "blksize") then
                if (val <? 8)%Z || (65464 <? val)%Z
                then Ret (Err (Errorf (str "%s requested unsupported blocksize %q")
                                 [who; AInt val]))
                else
                let bs := if (1450 <? val)%Z then 1450%Z else val in
                parseRRQ_options fuel addr (mkRrq (Filename req) bs) b
              else parseRRQ_options fuel addr req b
          end
      end
  end.

Definition parseRRQ (addr : Addr) (b : bytes) : go (result rrq) :=
  let who := AStr (Addr_String addr) in
  if (length b <? 6)%nat
  then Ret (Err (Errorf (str "packet from %s too small to be an RRQ") [who])) else
  hd ← slice b 0 2;
  op ← Uint16 hd;
  if decide (op ≠ 1%Z) then Ret (Err (Errorf (str "packet from %s is not an RRQ") [who])) else
  b ← slice_from b 2;
  '(fname, b, ok) ← nullStr b;
  if negb ok then Ret (Err (Errorf (str "request from %s contains no filename") [who])) else
  '(mode, b, ok) ← nullStr b;
  if negb ok then Ret (Err (Errorf (str "request from %s has no transfer mode") [who])) else
  if decide (mode ≠ str "octet")
  then Ret (Err (Errorf (str "%s requested unsupported transfer mode %q") [who; AStr mode])) else
  parseRRQ_options (length b) addr (mkRrq fname 0) b.

(** [mkError], on the text of the error. *)
Definition mkError (s : GoString) : bytes :=
  let b := replicate (length s + 5) 0%gb in
  let b := <[1 := 5%gb]> b in
  copy_at 4 s b.

(** What the TFTP server does: calls of its [Log] and [Debug] hooks, packets
    sent from the listening socket, transfers started. *)
Inductive tftp_action :=
| TLog (msg : GoString) (args : list arg)
| TDebug (msg : GoString) (args : list arg)
| TWriteTo (payload : bytes) (dst : Addr)
| TGo (addr : Addr) (req : rrq).

Section serve.
Context `{UnicodeTables}.

(** The default [Log], which passes its arguments on as one operand: a verb renders
    the whole slice, and the verbs after it find no operand.  The default [Debug]
    does nothing. *)
Definition slice_verb (v : Byte.byte) (args : list arg) : GoString :=
  str "[" ++ Join (map (format_verb v) args) (str " ") ++ str "]".

Fixpoint Printf_slice (f : GoString) (args : list arg) : GoString :=
  match f with
  | [] => str "%!(EXTRA []interface {}=" ++ slice_verb 118%gb args ++ str ")"
  | [37%gb] => str "%!(NOVERB)" ++ str "%!(EXTRA []interface {}=" ++ slice_verb 118%gb args ++ str ")"
  | 37%gb :: 37%gb :: f' => 37%gb :: Printf_slice f' args
  | 37%gb :: v :: f' => slice_verb v args ++ Sprintf f' []
  | c :: f' => c :: Printf_slice f' args
  end.

Definition default_Log (msg : GoString) (args : list arg) : list GoString := [Printf_slice msg args].
Definition default_Debug (msg : GoString) (args : list arg) : list GoString := [].

(** One iteration of the loop of [Serve], on the result of [ReadFrom]. *)
Definition Serve_step (buf : bytes) (ev : result (bytes * Addr))
    : go (bytes * list tftp_action) :=
  match ev with
  | Err e => Ret (buf, [TLog (str "Reading from socket: %s") [AStr (Error e)]])
  | Ok (d, addr) =>
      let '(buf, n) := read_into buf d in
      pkt ← slice buf 0 n;
      req ← parseRRQ addr pkt;
      match req with
      | Err e => Ret (buf, [TDebug (str "parseRRQ: %s") [AStr (Error e)];
                            TWriteTo (mkError (Error e)) addr])
      | Ok req => Ret (buf, [TGo addr req])
      end
  end.

Definition Serve (localAddr : GoString) (events : list (result (bytes * Addr)))
    : server_run bytes tftp_action :=
  serve_loop Serve_step (replicate 512 0%gb) [TLog (str "Listening on %s") [AStr localAddr]] events.

(** [ListenAndServe]: [listen] is the result of [net.ListenPacket]. *)
Definition ListenAndServe (listen : result GoString) (events : list (result (bytes * Addr)))
    : server_run bytes tftp_action :=
  match listen with
  | Err e => Returned e
  | Ok localAddr => Serve localAddr events
  end.

End serve.

(** * The request format *)

(** A NUL-terminated string, and the read request for a file with options. *)
Definition cstr (s : GoString) : bytes := s ++ [0%gb].

Definition rrq_bytes (fname : GoString) (opts : list (GoString * GoString)) : bytes :=
  [0; 1]%gb ++ cstr fname ++ cstr (str "octet") ++
  flat_map (λ o, cstr o.1 ++ cstr o.2) opts.

Definition nul_free (s : GoString) : Prop := 0%gb ∉ s.

(** The options the server lets through: integer values, and a block size within
    the bounds of RFC 2348. *)
Definition valid_rrq_option (o : GoString * GoString) : Prop :=
  nul_free o.1 ∧ nul_free o.2 ∧
  ∃ z, Atoi o.2 = Some z ∧ (o.1 = str "blksize" → 8 ≤ z ≤ 65464)%Z.

(** The block size granted: the last one asked for, clamped to 1450. *)
Definition granted (bs : Z) (opts : list (GoString * GoString)) : Z :=
  foldl (λ bs o, if decide (o.1 = str "blksize")
                 then match Atoi o.2 with Some z => z `min` 1450 | None => bs end
                 else bs)%Z bs opts.

(** ** Strings *)

Lemma length_cstr s : length (cstr s) = S (length s).
Proof. unfold cstr. rewrite length_app. simpl. lia. Qed.

Lemma nullStr_cstr s b : nul_free s → nullStr (cstr s ++ b) = Ret (s, b, true).
Proof.
  intros Hs. unfold nullStr, cstr. rewrite <- app_assoc. cbn [app].
  rewrite IndexByte_app by done.
  rewrite slice_ok by (rewrite ?length_app; simpl; lia).
  rewrite slice_from_ok by (rewrite ?length_app; simpl; lia). simpl.
  unfold sub. rewrite drop_0, Nat.sub_0_r, take_app_length.
  rewrite drop_app_ge by lia. by replace (length s + 1 - length s) with 1 by lia.
Qed.

Lemma nullStr_cases b :
  (0%gb ∉ b ∧ nullStr b = Ret ([], [], false)) ∨
  (∃ s r, nul_free s ∧ b = cstr s ++ r ∧ nullStr b = Ret (s, r, true)).
Proof.
  destruct (IndexByte b 0%gb) as [i|] eqn:E.
  - right. apply IndexByte_Some in E as [Hs Hb].
    exists (take i b), (drop (S i) b). split; [done|].
    assert (b = cstr (take i b) ++ drop (S i) b) as Hb'
      by (unfold cstr; rewrite <- app_assoc; done).
    split; [done|]. rewrite Hb' at 1. by apply nullStr_cstr.
  - left. split; [by apply IndexByte_None|]. unfold nullStr. by rewrite E.
Qed.

Lemma cstr_inj s t a b : nul_free s → nul_free t → cstr s ++ a = cstr t ++ b → s = t ∧ a = b.
Proof.
  intros Hs Ht Heq. pose proof (nullStr_cstr s a Hs) as H1.
  rewrite Heq, nullStr_cstr in H1 by done. by simplify_eq.
Qed.

(** ** Options *)

Abbreviation rrq_option_bytes := (flat_map (λ o : GoString * GoString, cstr o.1 ++ cstr o.2)).

Lemma clamp_min z : (if (1450 <? z)%Z then 1450%Z else z) = (z `min` 1450)%Z.
Proof. destruct (Z.ltb_spec 1450 z); lia. Qed.

(** Every option sequence the loop accepts is the encoding of valid options. *)
Lemma parseRRQ_options_sound fuel addr req b :
  length b ≤ fuel →
  ∃ r, parseRRQ_options fuel addr req b = Ret r ∧
    ∀ req', r = Ok req' →
      ∃ opts, b = rrq_option_bytes opts ∧ Forall valid_rrq_option opts ∧
              req' = mkRrq (Filename req) (granted (BlockSize req) opts).
Proof.
  revert req b. induction fuel as [|fuel IH]; intros req b Hf.
  { destruct b; simpl in *; [|lia]. eexists. split; [done|]. intros req' [= <-].
    exists []. by destruct req. }
  destruct b as [|c b0]; [eexists; split; [done|]; intros req' [= <-]; exists []; by destruct req|].
  cbn [parseRRQ_options].
  destruct (nullStr_cases (c :: b0)) as [[_ ->]|(opt & b1 & Hopt & Hb1 & ->)]; [by eexists|].
  set (b := c :: b0) in *. cbn [mbind go_bind negb].
  destruct (nullStr_cases b1) as [[_ ->]|(val & b2 & Hval & Hb2 & ->)]; [by eexists|].
  cbn [mbind go_bind negb].
  assert (length b2 ≤ fuel) as Hl.
  { subst b1. rewrite Hb1, !length_app, !length_cstr in Hf. lia. }
  destruct (Atoi val) as [z|] eqn:Hz; [|by eexists].
  assert (∀ bs, valid_rrq_option (opt, val) → granted (BlockSize req) [(opt, val)] = bs →
    ∃ r, parseRRQ_options fuel addr (mkRrq (Filename req) bs) b2 = Ret r ∧
    ∀ req', r = Ok req' → ∃ opts, b = rrq_option_bytes opts ∧ Forall valid_rrq_option opts ∧
              req' = mkRrq (Filename req) (granted (BlockSize req) opts)) as Hnext.
  { intros bs Hv Hbs. destruct (IH (mkRrq (Filename req) bs) b2 Hl) as (r & Hr & Hok).
    exists r. split; [done|]. intros req' Hr'. destruct (Hok req' Hr') as (opts & -> & Hvs & ->).
    exists ((opt, val) :: opts). split_and!.
    - cbn [flat_map fst snd]. rewrite Hb1, Hb2. by rewrite <- app_assoc.
    - by constructor.
    - simpl in *. by rewrite Hbs. }
  case_decide as Hopt2.
  - destruct (Z.ltb_spec z 8); [by eexists|]. destruct (Z.ltb_spec 65464 z); [by eexists|].
    cbn [orb]. apply Hnext.
    + split_and!; [done..|]. exists z. split; [done|]. lia.
    + simpl. rewrite decide_True, Hz by done. symmetry. apply clamp_min.
  - destruct req as [fn bs]. apply Hnext.
    + split_and!; [done..|]. exists z. split; [done|]. naive_solver.
    + simpl. by rewrite decide_False.
Qed.

(** The encoding of valid options is accepted. *)
Lemma parseRRQ_options_complete fuel addr req opts :
  length (rrq_option_bytes opts) ≤ fuel → Forall valid_rrq_option opts →
  parseRRQ_options fuel addr req (rrq_option_bytes opts) =
    Ret (Ok (mkRrq (Filename req) (granted (BlockSize req) opts))).
Proof.
  intros Hf Hv. revert fuel req Hf.
  induction Hv as [|[opt val] opts (Hopt & Hval & z & Hz & Hbs) _ IH]; intros fuel req Hf.
  { destruct req. by destruct fuel. }
  cbn [flat_map fst snd] in *. rewrite <- app_assoc in *.
  remember (cstr opt ++ cstr val ++ rrq_option_bytes opts) as b eqn:Hb.
  destruct b as [|c b0]; [by destruct opt|].
  destruct fuel as [|fuel]; [simpl in Hf; lia|].
  assert (length (rrq_option_bytes opts) ≤ fuel) as Hl.
  { rewrite Hb, !length_app, !length_cstr in Hf. lia. }
  cbn [parseRRQ_options]. rewrite Hb, nullStr_cstr by done. cbn [mbind go_bind negb].
  rewrite nullStr_cstr by done. cbn [mbind go_bind negb]. rewrite Hz. cbn [fst] in Hbs.
  case_decide as Ho.
  - specialize (Hbs Ho). destruct (Z.ltb_spec z 8); [lia|]. destruct (Z.ltb_spec 65464 z); [lia|].
    cbn [orb]. rewrite IH by done. cbn [Filename BlockSize]. do 3 f_equal.
    cbn [granted foldl fst snd]. rewrite decide_True, Hz, clamp_min by done. done.
  - rewrite IH by done. do 3 f_equal. cbn [granted foldl fst snd]. by rewrite decide_False.
Qed.

(** ** parseRRQ *)

Lemma parseRRQ_sound addr b :
  ∃ r, parseRRQ addr b = Ret r ∧
    ∀ req, r = Ok req →
      ∃ fname opts, b = rrq_bytes fname opts ∧ nul_free fname ∧
        Forall valid_rrq_option opts ∧ req = mkRrq fname (granted 0 opts).
Proof.
  unfold parseRRQ. destruct (Nat.ltb_spec (length b) 6); [by eexists|].
  destruct b as [|x [|y b]]; [simpl in *; lia..|].
  rewrite slice_ok, slice_from_ok by (simpl; lia). cbn [mbind go_bind Nat.sub].
  change (sub 0 2 (x :: y :: b)) with [x; y]. change (drop 2 (x :: y :: b)) with b. rewrite Uint16_cons. cbn [mbind go_bind].
  pose proof (u8_range x). pose proof (u8_range y).
  case_decide as Hop; [by eexists|].
  assert (x = 0%gb ∧ y = 1%gb) as [-> ->];
    [split; apply u8_inj; [change (u8 0%gb) with 0%Z|change (u8 1%gb) with 1%Z]; lia|].
  destruct (nullStr_cases b) as [[_ ->]|(fname & b1 & Hf & Hb1 & ->)]; [by eexists|].
  cbn [mbind go_bind negb].
  destruct (nullStr_cases b1) as [[_ ->]|(mode & b2 & Hm & Hb2 & ->)]; [by eexists|].
  cbn [mbind go_bind negb]. case_decide as Hmode; [by eexists|].
  destruct (parseRRQ_options_sound (length b2) addr (mkRrq fname 0) b2) as (r & -> & Hr); [done|].
  exists r. split; [done|]. intros req Hok.
  destruct (Hr req Hok) as (opts & Ho & Hv & ->).
  exists fname, opts. split_and!; [|done..].
  unfold rrq_bytes. rewrite Hb1, Hb2, Ho. by rewrite Hmode.
Qed.

Lemma parseRRQ_complete addr fname opts :
  nul_free fname → Forall valid_rrq_option opts →
  parseRRQ addr (rrq_bytes fname opts) = Ret (Ok (mkRrq fname (granted 0 opts))).
Proof.
  intros Hf Hv. unfold parseRRQ.
  assert (6 ≤ length (rrq_bytes fname opts)) as Hl.
  { unfold rrq_bytes. rewrite !length_app, !length_cstr. simpl. lia. }
  destruct (Nat.ltb_spec (length (rrq_bytes fname opts)) 6); [lia|].
  rewrite slice_ok, slice_from_ok by lia. cbn [mbind go_bind Nat.sub].
  change (sub 0 2 (rrq_bytes fname opts)) with [0; 1]%gb.
  change (drop 2 (rrq_bytes fname opts))
    with (cstr fname ++ cstr (str "octet") ++ rrq_option_bytes opts).
  rewrite Uint16_cons. cbn [mbind go_bind]. rewrite decide_False by (intros Hx; by apply Hx).
  rewrite nullStr_cstr by done. cbn [mbind go_bind negb].
  rewrite nullStr_cstr by (intros Hin; set_solver). cbn [mbind go_bind negb].
  rewrite decide_False by (intros Hx; by apply Hx).
  by apply (parseRRQ_options_complete _ addr (mkRrq fname 0)).
Qed.

Lemma granted_bounds bs opts :
  Forall valid_rrq_option opts → (bs = 0 ∨ 8 ≤ bs ≤ 1450)%Z →
  (granted bs opts = 0 ∨ 8 ≤ granted bs opts ≤ 1450)%Z.
Proof.
  intros Hv. revert bs.
  induction Hv as [|o opts (_ & _ & z & Hz & Hb) _ IH]; intros bs Hbs; simpl; [done|].
  apply IH. case_decide as Ho; [|done]. rewrite Hz. specialize (Hb Ho). lia.
Qed.

(** C16: [parseRRQ] returns on every datagram, and the requests it accepts are
    exactly the encodings of an octet-mode read of a NUL-free file name with
    integer-valued options; the block size is the last one asked for, clamped. *)
Theorem parseRRQ_correct addr b :
  (∃ r, parseRRQ addr b = Ret r) ∧
  ∀ req, parseRRQ addr b = Ret (Ok req) ↔
    ∃ fname opts, b = rrq_bytes fname opts ∧ nul_free fname ∧
      Forall valid_rrq_option opts ∧ req = mkRrq fname (granted 0 opts).
Proof.
  destruct (parseRRQ_sound addr b) as (r & Hr & Hs). split; [by eexists|].
  intros req. rewrite Hr. split.
  - intros [= ->]. by apply Hs.
  - intros (fname & opts & -> & Hf & Hv & ->).
    rewrite parseRRQ_complete in Hr by done. by simplify_eq.
Qed.

(** A block size that reaches a transfer is 0 (none was negotiated) or lies between 8
    and 1450. *)
Lemma parseRRQ_blocksize addr b req :
  parseRRQ addr b = Ret (Ok req) → (BlockSize req = 0 ∨ 8 ≤ BlockSize req ≤ 1450)%Z.
Proof.
  intros Hp. destruct (parseRRQ_sound addr b) as (r & Hr & Hs).
  rewrite Hp in Hr. destruct (Hs req) as (fname & opts & _ & _ & Hv & ->); [by simplify_eq|].
  apply granted_bounds; [done|]. by left.
Qed.

(** * Serve *)

(** An ERROR packet: opcode 5, code 0, the NUL-terminated message. *)
Lemma mkError_wire s : mkError s = [0; 5; 0; 0]%gb ++ cstr s.
Proof.
  unfold mkError, cstr.
  replace (<[1:=5%gb]> (replicate (length s + 5) 0%gb))
    with ([0; 5; 0; 0]%gb ++ replicate (length s + 1) 0%gb)
    by (rewrite (Nat.add_comm _ 5), (Nat.add_comm _ 1); done).
  rewrite copy_at_app by (rewrite ?length_replicate; simpl; lia).
  rewrite drop_replicate. by replace (length s + 1 - length s) with 1 by lia.
Qed.

Section serve_theorems.
Context `{UnicodeTables}.

(** What one datagram calls for: a transfer for an acceptable request, an ERROR
    packet with the reason otherwise. *)
Definition Serve_actions (ev : result (bytes * Addr)) : list tftp_action :=
  match ev with
  | Err e => [TLog (str "Reading from socket: %s") [AStr (Error e)]]
  | Ok (d, addr) =>
      match parseRRQ addr (take 512 d) with
      | Ret (Ok req) => [TGo addr req]
      | Ret (Err e) => [TDebug (str "parseRRQ: %s") [AStr (Error e)];
                        TWriteTo ([0; 5; 0; 0]%gb ++ cstr (Error e)) addr]
      | _ => []
      end
  end.

Lemma Serve_step_stateless buf ev :
  length buf = 512 →
  ∃ buf', Serve_step buf ev = Ret (buf', Serve_actions ev) ∧ length buf' = 512.
Proof.
  unfold Serve_step, Serve_actions. intros Hbuf.
  destruct ev as [[d addr]|e]; [|by eexists].
  pose proof (slice_read_into buf d) as H1. pose proof (length_read_into buf d) as H2.
  destruct (read_into buf d) as [buf' n]. cbn [fst snd] in *. rewrite H1, Hbuf. cbn [mbind go_bind].
  destruct (parseRRQ_sound addr (take 512 d)) as (r & -> & _). cbn [mbind go_bind].
  destruct r as [req|e]; rewrite ?mkError_wire; (eexists; split; [done|lia]).
Qed.

(** The TFTP accept loop never stops and never crashes: it starts exactly the transfers
    of the acceptable requests, and answers every other datagram with an ERROR packet. *)
Lemma Serve_serves localAddr events :
  ∃ buf, Serve localAddr events =
    Serving buf (TLog (str "Listening on %s") [AStr localAddr] :: flat_map Serve_actions events).
Proof.
  destruct (serve_loop_stateless Serve_step (λ buf, length buf = 512) (λ _, True) Serve_actions
    (replicate 512 0%gb) [TLog (str "Listening on %s") [AStr localAddr]] events)
    as (buf & Hrun & _); [|done|by apply Forall_true|].
  - intros. by apply Serve_step_stateless.
  - exists buf. apply Hrun.
Qed.

(** Without hooks of its own a program that uses the package logs a finished transfer
    with both arguments in the place of the first, and none in that of the second. *)
Lemma default_Log_sent fname addr :
  default_Log (str "Sent %q to %s") [AStr fname; AStr addr] =
    [str "Sent [" ++ Quote fname ++ str " " ++ Quote addr ++ str "] to %!s(MISSING)"].
Proof.
  unfold default_Log. cbn -[Quote]. unfold slice_verb. cbn -[Quote].
  by rewrite <- !app_assoc.
Qed.

End serve_theorems.
