(* ===== verification/TftpTransfer.v ===== *)
(** tftp/tftp.go, the transfer side: [sendPacket] with its retries, [transfer]
    and the [Blob] handler. *)
From S2P Require Import Prelude GoStrings GoFmt GoNet GoIO Udp Tftp.

(** * Definitions from tftp/tftp.go *)

Definition numRetries : nat := 5.

(** What [conn.Read] returns: a datagram, the expiry of the read deadline, or
    another error.  After the listed events the network is silent, and every
    further read runs into its deadline. *)
Inductive read_event :=
| RData (d : bytes)
| RTimeout
| RError (e : error).

(** How the inner loop of [sendPacket] ends. *)
Inductive ack_result :=
| AckOk
| AckTimeout
| AckFail (e : error).

(** The inner [for] loop: reads into the 256-byte array [recv] until an answer
    decides this try. *)
Fixpoint await_ack (recv : bytes) (seq : Z) (net : list read_event)
    : go (ack_result * list read_event) :=
  match net with
  | [] => Ret (AckTimeout, [])
  | RTimeout :: net => Ret (AckTimeout, net)
  | RError e :: net => Ret (AckFail e, net)
  | RData d :: net =>
      let '(recv, n) := read_into recv d in
      if (n <? 4)%nat then await_ack recv seq net else
      hd ← slice recv 0 2;
      op ← Uint16 hd;
      if decide (op = 4%Z) then
        num ← slice recv 2 4;
        num ← Uint16 num;
        if decide (num = seq) then Ret (AckOk, net) else await_ack recv seq net
      else if decide (op = 5%Z) then
        rest ← slice_from recv 4;
        '(msg, _, _) ← nullStr rest;
        Ret (AckFail (Errorf (str "client aborted transfer (%q)") [AStr msg]), net)
      else await_ack recv seq net
  end.

(** The retry loop: the packets written, the result, the events left. *)
Fixpoint send_tries (tries : nat) (b : bytes) (seq : Z) (net : list read_event)
    : go (list bytes * result unit * list read_event) :=
  match tries with
  | O => Ret ([], Err (Errorf (str "timed out waiting for ACK #%d") [AInt seq]), net)
  | S tries =>
      '(r, net) ← await_ack (replicate 256 0%gb) seq net;
      match r with
      | AckOk => Ret ([b], Ok tt, net)
      | AckFail e => Ret ([b], Err e, net)
      | AckTimeout =>
          '(ws, res, net) ← send_tries tries b seq net;
          Ret (b :: ws, res, net)
      end
  end.

Definition sendPacket (b : bytes) (seq : Z) (net : list read_event)
    : go (list bytes * result unit * list read_event) :=
  send_tries numRetries b seq net.

Definition Handler : Type := GoString → Addr → result reader.

(** [Blob]: a fresh reader over the same bytes for every path and client. *)
Definition Blob (b : bytes) : Handler := λ _ _, Ok (mkReader b None).

(** What a transfer does: log calls, packets on its own socket, and the deferred
    closing of the byte stream and of the socket. *)
Inductive conn_action :=
| CLog (msg : GoString) (args : list arg)
| CDebug (msg : GoString) (args : list arg)
| CWrite (b : bytes)
| CCloseFile
| CCloseConn.

#[export] Instance conn_action_eq_dec : EqDecision conn_action.
Proof. solve_decision. Defined.

Section transfer.
Context `{UnicodeTables}.

Definition transfer_failed (addr : Addr) (e : GoString) : conn_action :=
  CLog (str "Transfer to %s failed: %s") [AStr (Addr_String addr); AStr e].

(** The DATA loop of [transfer]; [buf] keeps its opcode bytes across iterations. *)
Fixpoint transfer_loop (fuel : nat) (addr : Addr) (fname : GoString) (bsize : nat)
    (seq : Z) (buf : bytes) (f : reader) (net : list read_event) : go (list conn_action) :=
  match fuel with
  | O => OutOfFuel
  | S fuel =>
      let buf := copy_at 2 (PutUint16 seq) buf in
      let '(chunk, err, f) := ReadFull f (length buf - 4) in
      let buf := copy_at 4 chunk buf in
      let n := length chunk in
      let send :=
        pkt ← slice buf 0 (n + 4);
        '(ws, res, net) ← sendPacket pkt seq net;
        match res with
        | Err e => Ret (map CWrite ws ++ [transfer_failed addr (Error e)])
        | Ok _ =>
            let seq := u16 (seq + 1) in
            if (n <? bsize)%nat
            then Ret (map CWrite ws ++
                      [CLog (str "Sent %q to %s") [AStr fname; AStr (Addr_String addr)]])
            else
            rest ← transfer_loop fuel addr fname bsize seq buf f net;
            Ret (map CWrite ws ++ rest)
        end in
      match err with
      | EOF => Ret [transfer_failed addr (str "EOF"); CWrite (mkError (str "EOF"))]
      | OtherErr e => Ret [transfer_failed addr (Error e); CWrite (mkError (Error e))]
      | NilErr => send
      | ErrUnexpectedEOF => send
      end
  end.

(** The OACK packet for a negotiated block size. *)
Definition oack (bs : Z) : bytes :=
  [0; 6]%gb ++ Sprintf (str "blksize" ++ [0%gb] ++ str "%d" ++ [0%gb]) [AInt bs].

(** [defer]: the actions that run when the function returns. *)
Definition defer (closes : list conn_action) (m : go (list conn_action)) : go (list conn_action) :=
  acts ← m; Ret (acts ++ closes).

(** The body of [transfer] once the byte stream is open. *)
Definition transfer_file (addr : Addr) (req : rrq) (f : reader) (net : list read_event)
    : go (list conn_action) :=
  let data bsize net :=
    let buf := <[1 := 3%gb]> (replicate (bsize + 4) 0%gb) in
    transfer_loop (S (length (rd_data f))) addr (Filename req) bsize 1 buf f net in
  if (0 <? BlockSize req)%Z then
    '(ws, res, net) ← sendPacket (oack (BlockSize req)) 0 net;
    match res with
    | Err e => Ret (map CWrite ws ++ [CDebug (str "Transfer to %s failed: %s")
                                        [AStr (Addr_String addr); AStr (Error e)]])
    | Ok _ =>
        rest ← data (Z.to_nat (BlockSize req)) net;
        Ret (map CWrite ws ++ rest)
    end
  else data 512 net.

(** [transfer]: [dial] is the result of [net.Dial]. *)
Definition transfer (dial : result unit) (addr : Addr) (req : rrq) (handler : Handler)
    (net : list read_event) : go (list conn_action) :=
  match dial with
  | Err e => Ret [CLog (str "Couldn't set up TFTP socket for %s: %s")
                    [AStr (Addr_String addr); AStr (Error e)]]
  | Ok _ =>
      defer [CCloseConn]
        match handler (Filename req) addr with
        | Err e => Ret [CDebug (str "Error getting bytes for %q: %s")
                          [AStr (Filename req); AStr (Error e)];
                        CWrite (mkError (Error e))]
        | Ok f => defer [CCloseFile] (transfer_file addr req f net)
        end
  end.

End transfer.

(** * Waiting for an acknowledgement *)

(** The opcode and the block number a datagram starts with. *)
Definition op_num (d : bytes) : option (Z * Z) :=
  match d with
  | a :: b :: c :: e :: _ => Some (u8 a * 256 + u8 b, u8 c * 256 + u8 e)%Z
  | _ => None
  end.

(** The message of an ERROR packet, as read from the whole receive buffer. *)
Definition abort_text (recv : bytes) : GoString :=
  match IndexByte (drop 4 recv) 0%gb with
  | Some off => take off (drop 4 recv)
  | None => []
  end.

Lemma nullStr_text b : ∃ r ok, nullStr b =
  Ret (match IndexByte b 0%gb with Some off => take off b | None => [] end, r, ok).
Proof.
  unfold nullStr. destruct (IndexByte b 0%gb) as [i|] eqn:E; [|by do 2 eexists].
  apply IndexByte_Some in E as [_ Hb]. apply (f_equal length) in Hb.
  rewrite length_app, length_take in Hb. simpl in Hb.
  rewrite slice_ok, slice_from_ok by lia. simpl. unfold sub. rewrite drop_0, Nat.sub_0_r.
  by do 2 eexists.
Qed.

(** The receive buffer starts with the datagram just read. *)
Lemma read_into_head recv a b c e d :
  4 ≤ length recv → ∃ l, (read_into recv (a :: b :: c :: e :: d)).1 = a :: b :: c :: e :: l.
Proof.
  intros Hl. unfold read_into. cbn [fst]. unfold copy_at. rewrite take_0. cbn [app].
  rewrite take_take. destruct recv as [|? [|? [|? [|? recv]]]]; [simpl in Hl; lia..|].
  rewrite Nat.sub_0_r, Nat.min_id. cbn [length take app]. by eexists.
Qed.

Lemma await_ack_data recv seq d net :
  length recv = 256 →
  let recv' := (read_into recv d).1 in
  await_ack recv seq (RData d :: net) =
    match op_num d with
    | None => await_ack recv' seq net
    | Some (op, num) =>
        if decide (op = 4%Z) then if decide (num = seq) then Ret (AckOk, net)
                                  else await_ack recv' seq net
        else if decide (op = 5%Z)
        then Ret (AckFail (Errorf (str "client aborted transfer (%q)") [AStr (abort_text recv')]), net)
        else await_ack recv' seq net
    end.
Proof.
  intros Hr recv'. pose proof (length_read_into recv d) as Hl.
  assert ((read_into recv d).2 = length d `min` 256) as Hn by (unfold read_into; simpl; lia).
  cbn [await_ack]. fold recv' in Hl.
  rewrite (surjective_pairing (read_into recv d)), Hn. fold recv'.
  destruct (Nat.ltb_spec (length d `min` 256) 4) as [Hs|Hs].
  { by destruct d as [|? [|? [|? [|? d]]]]; [..|simpl in Hs; lia]. }
  destruct d as [|x [|y [|z [|w d]]]]; [simpl in Hs; lia..|].
  destruct (read_into_head recv x y z w d) as [l Hrecv]; [lia|]. fold recv' in Hrecv.
  rewrite !slice_ok, slice_from_ok by lia. cbn [mbind go_bind Nat.sub op_num].
  assert (sub 0 2 recv' = [x; y] ∧ sub 2 2 recv' = [z; w]) as [-> ->] by by rewrite Hrecv.
  rewrite !Uint16_cons. cbn [mbind go_bind].
  case_decide; [done|]. case_decide; [|done].
  destruct (nullStr_text (drop 4 recv')) as (r & ok & ->). done.
Qed.

(** Datagrams that leave the server waiting for block [seq], and those that end
    the wait. *)
Definition ignored (seq : Z) (d : bytes) : Prop :=
  match op_num d with
  | None => True
  | Some (op, num) => op ≠ 5%Z ∧ (op = 4%Z → num ≠ seq)
  end.

Definition is_ack (seq : Z) (d : bytes) : Prop := op_num d = Some (4%Z, seq).

(** The client acknowledges [seq] after letting [k] tries expire; [net'] is what
    is left of the network's events. *)
Inductive acked (seq : Z) : nat → list read_event → list read_event → Prop :=
| acked_now junk d net :
    Forall (ignored seq) junk → is_ack seq d →
    acked seq 0 (map RData junk ++ RData d :: net) net
| acked_retry junk k net net' :
    Forall (ignored seq) junk → acked seq k net net' →
    acked seq (S k) (map RData junk ++ RTimeout :: net) net'.

Lemma await_ack_ignored recv seq junk net :
  length recv = 256 → Forall (ignored seq) junk →
  ∃ recv', length recv' = 256 ∧
    await_ack recv seq (map RData junk ++ net) = await_ack recv' seq net.
Proof.
  intros Hr Hj. revert recv Hr. induction Hj as [|d junk Hd _ IH]; intros recv Hr.
  - by exists recv.
  - cbn [map app]. rewrite await_ack_data by done. unfold ignored in Hd.
    assert (length (read_into recv d).1 = 256) as Hl by by rewrite length_read_into.
    destruct (op_num d) as [[op num]|]; [|by apply IH]. destruct Hd as [H5 H4].
    case_decide; [rewrite decide_False by naive_solver|rewrite decide_False by done]; by apply IH.
Qed.

Lemma send_tries_acked tries b seq k net net' :
  acked seq k net net' → k < tries →
  send_tries tries b seq net = Ret (replicate (S k) b, Ok tt, net').
Proof.
  intros Ha. revert tries.
  induction Ha as [junk d net Hj Hd|junk k net net' Hj Ha IH]; intros tries Hk;
    (destruct tries as [|tries]; [lia|]); cbn [send_tries].
  - destruct (await_ack_ignored (replicate 256 0%gb) seq junk (RData d :: net))
      as (recv' & Hl & ->); [done..|].
    rewrite await_ack_data by done. unfold is_ack in Hd. rewrite Hd.
    by rewrite !decide_True by done.
  - destruct (await_ack_ignored (replicate 256 0%gb) seq junk (RTimeout :: net))
      as (recv' & Hl & ->); [done..|].
    cbn [await_ack mbind go_bind]. rewrite IH by lia. done.
Qed.

(** The ways a wait can end. *)
Lemma await_ack_cases recv seq net :
  length recv = 256 →
  ∃ junk r net', Forall (ignored seq) junk ∧ await_ack recv seq net = Ret (r, net') ∧
    match r with
    | AckOk => ∃ d, net = map RData junk ++ RData d :: net' ∧ is_ack seq d
    | AckTimeout => net = map RData junk ++ RTimeout :: net' ∨ (net = map RData junk ∧ net' = [])
    | AckFail e => net = map RData junk ++ RError e :: net' ∨
        ∃ d m num, net = map RData junk ++ RData d :: net' ∧ op_num d = Some (5%Z, num) ∧
          e = Errorf (str "client aborted transfer (%q)") [AStr m]
    end.
Proof.
  revert recv. induction net as [|[d| |e] net IH]; intros recv Hr.
  - exists [], AckTimeout, []. split; [done|]. split; [done|]. by right.
  - rewrite await_ack_data by done.
    assert (length (read_into recv d).1 = 256) as Hl by by rewrite length_read_into.
    destruct (IH _ Hl) as (junk & r & net' & Hj & Hw & Hcase).
    assert (ignored seq d → ∃ junk r net', Forall (ignored seq) junk ∧
      await_ack (read_into recv d).1 seq net = Ret (r, net') ∧
      match r with
      | AckOk => ∃ d0, RData d :: net = map RData junk ++ RData d0 :: net' ∧ is_ack seq d0
      | AckTimeout => RData d :: net = map RData junk ++ RTimeout :: net' ∨
                      (RData d :: net = map RData junk ∧ net' = [])
      | AckFail e => RData d :: net = map RData junk ++ RError e :: net' ∨
          ∃ d0 m num, RData d :: net = map RData junk ++ RData d0 :: net' ∧
            op_num d0 = Some (5%Z, num) ∧
            e = Errorf (str "client aborted transfer (%q)") [AStr m]
      end) as Hskip.
    { intros Hd. exists (d :: junk), r, net'. split; [by constructor|]. split; [done|].
      destruct r; cbn [map app]; [destruct Hcase as (d0 & -> & ?); eauto|..];
        (destruct Hcase as [-> | Hc]; [by left|right]); [by destruct Hc as [-> ->]|].
      destruct Hc as (d0 & m & num & -> & ? & ?). eauto 6. }
    unfold ignored in Hskip. destruct (op_num d) as [[op num]|] eqn:Hop; [|by apply Hskip].
    case_decide as H4; [case_decide as Hn|case_decide as H5].
    + exists [], AckOk, net. split_and!; [done..|]. exists d. subst. done.
    + apply Hskip. split; [lia|done].
    + eexists [], _, net. split_and!; [done..|]. right. subst. eauto 6.
    + apply Hskip. done.
  - exists [], AckTimeout, net. split_and!; [done..|]. by left.
  - exists [], (AckFail e), net. split_and!; [done..|]. by left.
Qed.

Lemma send_tries_outcome tries b seq net :
  ∃ ws res net', send_tries tries b seq net = Ret (ws, res, net') ∧
    tries `min` 1 ≤ length ws ≤ tries ∧ ws = replicate (length ws) b ∧
    (res = Ok tt → ∃ k, length ws = S k ∧ acked seq k net net').
Proof.
  revert net. induction tries as [|tries IH]; intros net.
  { do 3 eexists. split; [done|]. simpl. split; [lia|]. split; done. }
  cbn [send_tries].
  destruct (await_ack_cases (replicate 256 0%gb) seq net) as (junk & r & net1 & Hj & -> & Hc);
    [done|]. cbn [mbind go_bind]. destruct r as [| |e].
  - destruct Hc as (d & -> & Hd). do 3 eexists. split; [done|]. simpl.
    split; [lia|]. split; [done|]. intros _. exists 0. split; [done|]. by constructor.
  - destruct (IH net1) as (ws & res & net2 & -> & Hl & Hw & Hok). cbn [mbind go_bind].
    exists (b :: ws), res, net2. split; [done|]. cbn [length replicate].
    split; [lia|]. split; [by rewrite <- Hw|]. intros Hres.
    destruct (Hok Hres) as (k & Hk & Ha). exists (S k). split; [lia|].
    destruct Hc as [-> | [-> ->]]; [by constructor|].
    exfalso. inversion Ha; by destruct junk0.
  - do 3 eexists. split; [done|]. simpl. split; [lia|]. split; done.
Qed.

(** Events that leave the server without an answer for block [seq]. *)
Definition quiet (seq : Z) (ev : read_event) : Prop :=
  match ev with RData d => ignored seq d | RTimeout => True | RError _ => False end.

Lemma await_ack_quiet recv seq net :
  length recv = 256 → Forall (quiet seq) net →
  ∃ net', await_ack recv seq net = Ret (AckTimeout, net') ∧ Forall (quiet seq) net'.
Proof.
  intros Hr Hq. destruct (await_ack_cases recv seq net Hr) as (junk & r & net' & _ & -> & Hc).
  destruct r as [| |e].
  - destruct Hc as (d & -> & Hd). apply Forall_app in Hq as [_ Hq]. apply Forall_cons in Hq as [Hq _].
    unfold quiet, ignored, is_ack in *. rewrite Hd in Hq. naive_solver.
  - exists net'. split; [done|]. destruct Hc as [-> | [-> ->]]; [|done].
    apply Forall_app in Hq as [_ Hq]. by apply Forall_cons in Hq as [_ Hq].
  - exfalso. destruct Hc as [-> | (d & m & num & -> & Hd & _)]; apply Forall_app in Hq as [_ Hq];
      apply Forall_cons in Hq as [Hq _]; [done|].
    unfold quiet, ignored in Hq. rewrite Hd in Hq. naive_solver.
Qed.

Lemma send_tries_quiet tries b seq net :
  Forall (quiet seq) net →
  ∃ net', send_tries tries b seq net =
    Ret (replicate tries b, Err (Errorf (str "timed out waiting for ACK #%d") [AInt seq]), net').
Proof.
  revert net. induction tries as [|tries IH]; intros net Hq; [by eexists|]. cbn [send_tries].
  destruct (await_ack_quiet (replicate 256 0%gb) seq net ltac:(done) Hq) as (net1 & -> & Hq1).
  cbn [mbind go_bind]. destruct (IH net1 Hq1) as [net2 ->]. by eexists.
Qed.

(** C15: [sendPacket] always returns, after writing its packet between one and five
    times.  It succeeds if and only if the client acknowledges that very block number
    within five tries, having skipped short, unrelated and stale packets without
    resending: an acknowledgement after [k] expired deadlines, for every [k] below
    five, takes exactly [k + 1] writes.  While nothing that counts arrives it writes
    the packet five times and then reports that it timed out. *)
Theorem sendPacket_correct b seq net :
  ∃ ws res net', sendPacket b seq net = Ret (ws, res, net') ∧
    1 ≤ length ws ≤ 5 ∧ ws = replicate (length ws) b ∧
    (∀ k net'', k < 5 → acked seq k net net'' → res = Ok tt ∧ length ws = S k ∧ net' = net'') ∧
    (res = Ok tt → ∃ k, k < 5 ∧ length ws = S k ∧ acked seq k net net') ∧
    (Forall (quiet seq) net →
     length ws = 5 ∧ res = Err (Errorf (str "timed out waiting for ACK #%d") [AInt seq])).
Proof.
  unfold sendPacket, numRetries.
  destruct (send_tries_outcome 5 b seq net) as (ws & res & net' & Hs & Hl & Hw & Hok).
  exists ws, res, net'. split; [done|]. split; [lia|]. split; [done|]. split_and!.
  - intros k net'' Hk Ha. rewrite (send_tries_acked 5 b seq k net net'' Ha Hk) in Hs.
    injection Hs as <- <- <-. cbn [length]. by rewrite length_replicate.
  - intros Hres. destruct (Hok Hres) as (k & Hk & Ha). exists k. split_and!; [lia|done|done].
  - intros Hq. destruct (send_tries_quiet 5 b seq net Hq) as [net2 Hs2]. rewrite Hs2 in Hs.
    by injection Hs as <- <- _.
Qed.

(** * Transfers *)

(** Block [k] of the data (from 0), and the DATA packet that carries it; block
    numbers start at 1 and wrap at 16 bits. *)
Definition data_block (bsize : nat) (data : bytes) (k : nat) : bytes := sub (k * bsize) bsize data.

Definition data_packet (bsize : nat) (data : bytes) (k : nat) : bytes :=
  [0; 3]%gb ++ PutUint16 (u16 (Z.of_nat (S k))) ++ data_block bsize data k.

(** The client acknowledges block after block, from block [i] on, letting the
    given numbers of tries expire. *)
Inductive acked_blocks : nat → list nat → list read_event → list read_event → Prop :=
| acked_done i net : acked_blocks i [] net net
| acked_more i k ks net net1 net2 :
    k < 5 → acked (u16 (Z.of_nat (S i))) k net net1 →
    acked_blocks (S i) ks net1 net2 → acked_blocks i (k :: ks) net net2.

(** The writes this takes: one packet and its retransmissions per block. *)
Fixpoint block_writes (bsize : nat) (data : bytes) (i : nat) (ks : list nat) : list conn_action :=
  match ks with
  | [] => []
  | k :: ks => replicate (S k) (CWrite (data_packet bsize data i)) ++
               block_writes bsize data (S i) ks
  end.

Definition buf_ok (bsize : nat) (buf : bytes) : Prop :=
  ∃ h l rest, buf = [0; 3; h; l]%gb ++ rest ∧ length rest = bsize.

Lemma buf_ok_packet bsize buf seq chunk :
  buf_ok bsize buf → length chunk ≤ bsize →
  let buf' := copy_at 4 chunk (copy_at 2 (PutUint16 seq) buf) in
  length (copy_at 2 (PutUint16 seq) buf) = bsize + 4 ∧
  slice buf' 0 (length chunk + 4) = Ret ([0; 3]%gb ++ PutUint16 seq ++ chunk) ∧
  buf_ok bsize buf'.
Proof.
  intros (h & l & rest & -> & Hl) Hc buf'.
  assert (copy_at 2 (PutUint16 seq) ([0; 3; h; l]%gb ++ rest) =
    ([0; 3]%gb ++ PutUint16 seq) ++ rest) as E2.
  { change ([0; 3; h; l]%gb ++ rest) with ([0; 3]%gb ++ h :: l :: rest).
    rewrite copy_at_app by (simpl; lia). by rewrite <- app_assoc. }
  assert (buf' = ([0; 3]%gb ++ PutUint16 seq) ++ chunk ++ drop (length chunk) rest) as E4.
  { subst buf'. rewrite E2. by rewrite copy_at_app by (simpl; lia). }
  split_and!.
  - rewrite E2. simpl. lia.
  - rewrite slice_ok; [|lia|].
    + rewrite E4, app_assoc, Nat.sub_0_r. f_equal. unfold sub. rewrite drop_0.
      rewrite take_app_length' by (rewrite length_app; simpl; lia). by rewrite <- app_assoc.
    + rewrite E4, !length_app, length_drop. simpl. lia.
  - rewrite E4. unfold PutUint16. do 3 eexists. split; [reflexivity|].
    rewrite length_app, length_drop. lia.
Qed.

Section transfer_theorems.
Context `{UnicodeTables}.

(** How a fully acknowledged transfer ends. *)
Definition transfer_end (addr : Addr) (fname : GoString) (bsize : nat) (data : bytes)
    : list conn_action :=
  if decide (length data `mod` bsize = 0)
  then [transfer_failed addr (str "EOF"); CWrite (mkError (str "EOF"))]
  else [CLog (str "Sent %q to %s") [AStr fname; AStr (Addr_String addr)]].

Lemma u16_succ i : u16 (u16 (Z.of_nat (S i)) + 1) = u16 (Z.of_nat (S (S i))).
Proof. unfold u16. rewrite Zplus_mod_idemp_l. f_equal. lia. Qed.

Lemma transfer_loop_blocks fuel addr fname bsize data i buf ks net net' :
  buf_ok bsize buf → 0 < bsize → i * bsize ≤ length data →
  length data - i * bsize < fuel →
  length data ≤ (i + length ks) * bsize < length data + bsize →
  acked_blocks i ks net net' →
  transfer_loop fuel addr fname bsize (u16 (Z.of_nat (S i))) buf
    (mkReader (drop (i * bsize) data) None) net =
  Ret (block_writes bsize data i ks ++ transfer_end addr fname bsize data).
Proof.
  intros Hbuf Hbs Hi Hfuel Hks Ha. revert fuel buf Hbuf Hi Hfuel Hks.
  induction Ha as [i net|i k ks net net1 net2 Hk Hack _ IH]; intros fuel buf Hbuf Hi Hfuel Hks;
    (destruct fuel as [|fuel]; [lia|]); cbn [transfer_loop].
  - destruct (buf_ok_packet bsize buf (u16 (Z.of_nat (S i))) [] Hbuf) as (Hl & _); [simpl; lia|].
    cbn [length] in Hks. rewrite Nat.add_0_r in Hks.
    rewrite Hl, Nat.add_sub. unfold ReadFull. cbn [rd_data rd_end].
    rewrite drop_ge by lia. destruct (Nat.leb_spec bsize (length (@nil Byte.byte))); [simpl in *; lia|].
    rewrite take_nil. unfold transfer_end. rewrite decide_True; [done|].
    replace (length data) with (i * bsize) by lia. apply Nat.Div0.mod_mul.
  - cbn [length] in Hks. rewrite Nat.add_succ_r in Hks.
    set (chunk := data_block bsize data i).
    assert (take bsize (drop (i * bsize) data) = chunk) as Hchunk by done.
    assert (length chunk = bsize `min` (length data - i * bsize)) as Hcl
      by (rewrite <- Hchunk, length_take, length_drop; done).
    destruct (buf_ok_packet bsize buf (u16 (Z.of_nat (S i))) chunk Hbuf) as (Hl & Hs & Hb');
      [lia|].
    change ([0; 3]%gb ++ PutUint16 (u16 (Z.of_nat (S i))) ++ chunk)
      with (data_packet bsize data i) in Hs.
    assert (sendPacket (data_packet bsize data i) (u16 (Z.of_nat (S i))) net =
      Ret (replicate (S k) (data_packet bsize data i), Ok tt, net1)) as Hsend
      by by apply send_tries_acked.
    rewrite Hl, Nat.add_sub. unfold ReadFull. cbn [rd_data rd_end].
    rewrite Hchunk, drop_drop, length_drop. clearbody chunk.
    destruct (Nat.leb_spec bsize (length data - i * bsize)) as [Hfull|Hshort].
    + rewrite Hs. cbn [mbind go_bind]. rewrite Hsend. cbn [mbind go_bind].
      destruct (Nat.ltb_spec (length chunk) bsize); [lia|].
      rewrite u16_succ. replace (i * bsize + bsize) with (S i * bsize) by lia.
      rewrite IH by (try done; simpl; lia). cbn [mbind go_bind block_writes].
      by rewrite map_replicate, <- app_assoc.
    + assert (chunk ≠ []) as Hne by (intros E; rewrite E in Hcl; simpl in Hcl; nia).
      assert (ks = []) as -> by (destruct ks; [done|simpl in *; nia]).
      assert (∀ r, match chunk with [] => (chunk, EOF, r) | _ => (chunk, ErrUnexpectedEOF, r) end
        = (chunk, ErrUnexpectedEOF, r : reader)) as -> by by destruct chunk.
      rewrite Hs. cbn [mbind go_bind]. rewrite Hsend. cbn [mbind go_bind].
      destruct (Nat.ltb_spec (length chunk) bsize); [|lia].
      unfold transfer_end. rewrite decide_False.
      * cbn [block_writes]. by rewrite app_nil_r, map_replicate.
      * replace (length data) with (length data - i * bsize + i * bsize) by lia.
        rewrite Nat.Div0.mod_add, Nat.mod_small by lia. destruct chunk; [done|]. simpl in *. lia.
Qed.

(** The block size a transfer uses, and the OACK writes before its data. *)
Definition block_size (req : rrq) : nat :=
  if (0 <? BlockSize req)%Z then Z.to_nat (BlockSize req) else 512.

Definition oack_writes (req : rrq) (k0 : nat) : list conn_action :=
  if (0 <? BlockSize req)%Z
  then replicate (S k0) (CWrite ([0; 6]%gb ++ cstr (str "blksize") ++ cstr (Itoa (BlockSize req))))
  else [].

(** The client acknowledges the OACK, if there is one, as block 0. *)
Definition oack_acked (req : rrq) (k0 : nat) (net net' : list read_event) : Prop :=
  if (0 <? BlockSize req)%Z then k0 < 5 ∧ acked 0 k0 net net' else net' = net.

Lemma block_size_pos req : 0 < block_size req.
Proof. unfold block_size. destruct (Z.ltb_spec 0 (BlockSize req)); lia. Qed.

Lemma oack_wire bs : oack bs = [0; 6]%gb ++ cstr (str "blksize") ++ cstr (Itoa bs).
Proof. unfold oack, cstr. rewrite <- app_assoc. reflexivity. Qed.

Lemma fresh_buf_ok bsize : buf_ok bsize (<[1 := 3%gb]> (replicate (bsize + 4) 0%gb)).
Proof.
  rewrite Nat.add_comm. exists 0%gb, 0%gb, (replicate bsize 0%gb).
  by rewrite length_replicate.
Qed.

Lemma blocks_join bsize data n :
  concat (map (data_block bsize data) (seq 0 n)) = take (n * bsize) data.
Proof.
  induction n as [|n IH]; [done|].
  rewrite seq_S, map_app, concat_app, IH. cbn [map concat Nat.add]. rewrite app_nil_r.
  unfold data_block, sub. rewrite take_take_drop. f_equal. lia.
Qed.

(** A transfer whose every packet is acknowledged within the retries. *)
Lemma transfer_acked addr req handler data net net0 net1 k0 ks :
  handler (Filename req) addr = Ok (mkReader data None) →
  oack_acked req k0 net net0 → acked_blocks 0 ks net0 net1 →
  length data ≤ length ks * block_size req < length data + block_size req →
  transfer (Ok tt) addr req handler net =
    Ret (oack_writes req k0 ++ block_writes (block_size req) data 0 ks ++
         transfer_end addr (Filename req) (block_size req) data ++ [CCloseFile; CCloseConn]).
Proof.
  intros Hh Ho Ha Hks. unfold transfer. rewrite Hh.
  pose proof (block_size_pos req) as Hpos.
  assert (∀ bsize, bsize = block_size req →
    transfer_loop (S (length data)) addr (Filename req) bsize 1
      (<[1 := 3%gb]> (replicate (bsize + 4) 0%gb)) (mkReader data None) net0 =
    Ret (block_writes bsize data 0 ks ++ transfer_end addr (Filename req) bsize data)) as Hloop.
  { intros bsize ->.
    apply (transfer_loop_blocks _ addr _ (block_size req) data 0 _ ks net0 net1);
      [apply fresh_buf_ok|simpl; lia..|done]. }
  unfold transfer_file, oack_acked, oack_writes, block_size in *. cbn [rd_data].
  destruct (Z.ltb_spec 0 (BlockSize req)).
  - destruct Ho as [Hk0 Ho]. unfold sendPacket.
    rewrite (send_tries_acked _ _ _ _ _ _ Ho Hk0). cbn [mbind go_bind].
    rewrite Hloop by done. cbn [mbind go_bind defer].
    by rewrite map_replicate, oack_wire, <- !app_assoc.
  - subst net0. rewrite Hloop by done. cbn [mbind go_bind defer]. by rewrite <- !app_assoc.
Qed.

(** C5: over a lossy network on which the client acknowledges every packet within
    five tries, a file whose size is not a multiple of the block size is delivered
    completely: the blocks go out in order, each with its (16-bit) number and as
    often as its tries expired, their payloads concatenate to the file, and the
    transfer closes its stream and its socket. *)
Theorem transfer_delivers addr req handler data net net0 net1 k0 ks :
  handler (Filename req) addr = Ok (mkReader data None) →
  oack_acked req k0 net net0 → acked_blocks 0 ks net0 net1 →
  length data `mod` block_size req ≠ 0 → length ks = S (length data / block_size req) →
  transfer (Ok tt) addr req handler net =
    Ret (oack_writes req k0 ++ block_writes (block_size req) data 0 ks ++
         [CLog (str "Sent %q to %s") [AStr (Filename req); AStr (Addr_String addr)];
          CCloseFile; CCloseConn]) ∧
  concat (map (data_block (block_size req) data) (seq 0 (length ks))) = data.
Proof.
  intros Hh Ho Ha Hmod Hlen. pose proof (block_size_pos req) as Hpos.
  pose proof (Nat.div_mod_eq (length data) (block_size req)) as Hdm.
  pose proof (Nat.mod_upper_bound (length data) (block_size req) ltac:(lia)) as Hub.
  split.
  - rewrite (transfer_acked addr req handler data net net0 net1 k0 ks) by (done || nia).
    unfold transfer_end. by rewrite decide_False by done.
  - rewrite blocks_join. apply take_ge. nia.
Qed.

(** C38: a file whose size is a multiple of the block size (the empty file among
    them) is not delivered: after its last full block has been acknowledged the
    server reports [EOF] as a failure and sends an ERROR packet, where the
    protocol asks for an empty DATA block. *)
Theorem transfer_exact_multiple_fails addr req handler data net net0 net1 k0 ks :
  handler (Filename req) addr = Ok (mkReader data None) →
  oack_acked req k0 net net0 → acked_blocks 0 ks net0 net1 →
  length data = length ks * block_size req →
  transfer (Ok tt) addr req handler net =
    Ret (oack_writes req k0 ++ block_writes (block_size req) data 0 ks ++
         [CLog (str "Transfer to %s failed: %s") [AStr (Addr_String addr); AStr (str "EOF")];
          CWrite ([0; 5; 0; 0]%gb ++ cstr (str "EOF")); CCloseFile; CCloseConn]).
Proof.
  intros Hh Ho Ha Hlen. pose proof (block_size_pos req) as Hpos.
  rewrite (transfer_acked addr req handler data net net0 net1 k0 ks) by (done || lia).
  unfold transfer_end, transfer_failed.
  rewrite decide_True by (rewrite Hlen; apply Nat.Div0.mod_mul). by rewrite mkError_wire.
Qed.

(** ** On any network *)

Definition conn_writes (acts : list conn_action) : list bytes :=
  omap (λ a, match a with CWrite b => Some b | _ => None end) acts.

(** Consecutive blocks from block [i] on, each sent the given number of times. *)
Fixpoint block_sends (bsize : nat) (data : bytes) (i : nat) (cs : list nat) : list bytes :=
  match cs with
  | [] => []
  | c :: cs => replicate c (data_packet bsize data i) ++ block_sends bsize data (S i) cs
  end.

(** The ERROR packet for the end of a stream, if it is sent. *)
Definition stream_error (rend : option error) : GoString :=
  match rend with None => str "EOF" | Some e => Error e end.

Definition error_packet (rend : option error) (err : list bytes) : Prop :=
  err = [] ∨ err = [mkError (stream_error rend)].

Lemma conn_writes_app a b : conn_writes (a ++ b) = conn_writes a ++ conn_writes b.
Proof. apply omap_app. Qed.

Lemma conn_writes_map ws : conn_writes (map CWrite ws) = ws.
Proof. induction ws as [|w ws IH]; simpl; [done|]. by rewrite <- IH at 2. Qed.

Lemma ReadFull_cases data rend bsize i :
  0 < bsize →
  let f := mkReader (drop (i * bsize) data) rend in
  ∃ err f', ReadFull f bsize = (data_block bsize data i, err, f') ∧
    f' = mkReader (drop (S i * bsize) data) rend ∧
    match err with
    | NilErr => length (data_block bsize data i) = bsize
    | ErrUnexpectedEOF => 0 < length (data_block bsize data i) < bsize
    | EOF => rend = None
    | OtherErr e => rend = Some e
    end.
Proof.
  intros Hb f. subst f. unfold ReadFull, data_block, sub. cbn [rd_data rd_end].
  rewrite drop_drop. replace (i * bsize + bsize) with (S i * bsize) by lia.
  rewrite length_drop.
  assert (length (take bsize (drop (i * bsize) data)) = bsize `min` (length data - i * bsize)) as Hl
    by (by rewrite length_take, length_drop).
  destruct (Nat.leb_spec bsize (length data - i * bsize)).
  { do 2 eexists. split_and!; [done..|]. cbv beta iota. lia. }
  destruct rend; [by do 2 eexists|].
  destruct (take bsize (drop (i * bsize) data)) as [|c l] eqn:E; [by do 2 eexists|].
  do 2 eexists. split; [done|]. split; [done|]. cbn [length] in *. lia.
Qed.

Lemma transfer_loop_ordered fuel addr fname bsize data rend i buf net :
  buf_ok bsize buf → 0 < bsize → length data - i * bsize < fuel →
  ∃ acts cs err,
    transfer_loop fuel addr fname bsize (u16 (Z.of_nat (S i))) buf
      (mkReader (drop (i * bsize) data) rend) net = Ret acts ∧
    conn_writes acts = block_sends bsize data i cs ++ err ∧
    Forall (λ c, 1 ≤ c ≤ numRetries) cs ∧ error_packet rend err ∧
    (cs = [] ∨ (i + length cs - 1) * bsize < length data).
Proof.
  intros Hbuf Hbs. revert i buf net Hbuf. induction fuel as [|fuel IH]; intros i buf net Hbuf Hf;
    [lia|]. cbn [transfer_loop].
  assert (length (data_block bsize data i) = bsize `min` (length data - i * bsize)) as Hl
    by (unfold data_block, sub; by rewrite length_take, length_drop).
  destruct (buf_ok_packet bsize buf (u16 (Z.of_nat (S i))) (data_block bsize data i) Hbuf)
    as (Hlen & Hs & Hb'); [lia|].
  rewrite Hlen, Nat.add_sub.
  destruct (ReadFull_cases data rend bsize i Hbs) as (err & f' & -> & -> & Herr).
  rewrite Hs. cbn [mbind go_bind].
  change ([0; 3]%gb ++ PutUint16 (u16 (Z.of_nat (S i))) ++ data_block bsize data i)
    with (data_packet bsize data i).
  unfold sendPacket.
  destruct (send_tries_outcome numRetries (data_packet bsize data i) (u16 (Z.of_nat (S i))) net)
    as (ws & res & net' & -> & Hws & Hrep & _). cbn [mbind go_bind].
  set (send := match res with Ok _ => _ | Err _ => _ end).
  assert (0 < length (data_block bsize data i) → ∃ acts cs err, send = Ret acts ∧
    conn_writes acts = block_sends bsize data i cs ++ err ∧
    Forall (λ c, 1 ≤ c ≤ numRetries) cs ∧ error_packet rend err ∧
    (cs = [] ∨ (i + length cs - 1) * bsize < length data)) as Hsend.
  { intros Hne. subst send. destruct res as [u|e].
    - destruct (Nat.ltb_spec (length (data_block bsize data i)) bsize).
      + eexists _, [length ws], []. split; [done|].
        rewrite conn_writes_app, conn_writes_map. simpl. rewrite <- Hrep, !app_nil_r.
        split_and!; [done|by apply Forall_singleton|by left|]. right.
        replace (i + 1 - 1) with i by lia. lia.
      + destruct (IH (S i) _ net' Hb') as (acts & cs & err' & Hr & Hw & Hcs & He & Hbound);
          [lia|]. rewrite u16_succ, Hr. cbn [mbind go_bind].
        eexists _, (length ws :: cs), err'. split; [done|].
        rewrite conn_writes_app, conn_writes_map, Hw. cbn [block_sends]. rewrite <- Hrep, <- app_assoc.
        split_and!; [done|by constructor|done|]. right. cbn [length].
        destruct Hbound as [-> | Hbd]; [simpl; replace (i + 1 - 1) with i by lia; lia|].
        by replace (i + S (length cs) - 1) with (S i + length cs - 1) by lia.
    - eexists _, [length ws], []. split; [done|].
      rewrite conn_writes_app, conn_writes_map. simpl. rewrite <- Hrep, !app_nil_r.
      split_and!; [done|by apply Forall_singleton|by left|]. right.
      replace (i + 1 - 1) with i by lia. lia. }
  destruct err as [| | |e]; [apply Hsend; lia| |apply Hsend; lia|];
    (eexists _, [], [_]; split; [done|]; split_and!; [done..| |by left]); right; by rewrite Herr.
Qed.

Lemma transfer_sends addr req handler f net :
  handler (Filename req) addr = Ok f →
  ∃ acts k0 cs err,
    transfer (Ok tt) addr req handler net = Ret (acts ++ [CCloseFile; CCloseConn]) ∧
    conn_writes acts =
      replicate k0 (oack (BlockSize req)) ++
      block_sends (block_size req) (rd_data f) 0 cs ++ err ∧
    k0 ≤ numRetries ∧ Forall (λ c, 1 ≤ c ≤ numRetries) cs ∧ error_packet (rd_end f) err ∧
    (cs = [] ∨ (length cs - 1) * block_size req < length (rd_data f)).
Proof.
  intros Hh. unfold transfer. rewrite Hh. destruct f as [data rend].
  pose proof (block_size_pos req) as Hpos.
  assert (∀ net bsize, bsize = block_size req → ∃ acts cs err,
    transfer_loop (S (length data)) addr (Filename req) bsize 1
      (<[1 := 3%gb]> (replicate (bsize + 4) 0%gb)) (mkReader data rend) net = Ret acts ∧
    conn_writes acts = block_sends bsize data 0 cs ++ err ∧
    Forall (λ c, 1 ≤ c ≤ numRetries) cs ∧ error_packet rend err ∧
    (cs = [] ∨ (0 + length cs - 1) * bsize < length data)) as Hloop.
  { intros n bsize ->. apply (transfer_loop_ordered _ addr _ (block_size req) data rend 0);
      [apply fresh_buf_ok|lia..]. }
  unfold transfer_file, block_size in *. cbn [rd_data].
  destruct (Z.ltb_spec 0 (BlockSize req)).
  - unfold sendPacket.
    destruct (send_tries_outcome numRetries (oack (BlockSize req)) 0 net)
      as (ws & res & net' & -> & Hws & Hrep & _). cbn [mbind go_bind].
    destruct res as [u|e].
    + destruct (Hloop net' _ eq_refl) as (acts & cs & err & -> & Hw & Hcs & He & Hb).
      cbn [mbind go_bind defer]. exists (map CWrite ws ++ acts), (length ws), cs, err.
      rewrite conn_writes_app, conn_writes_map, Hw, <- Hrep, <- !app_assoc.
      split_and!; [done|done|lia|done..].
    + cbn [mbind go_bind defer].
      eexists (map CWrite ws ++ [_]), (length ws), [], [].
      rewrite conn_writes_app, conn_writes_map, <- Hrep, <- !app_assoc.
      split_and!; [done|done|lia|done|by left|by left].
  - destruct (Hloop net _ eq_refl) as (acts & cs & err & -> & Hw & Hcs & He & Hb).
    cbn [mbind go_bind defer]. exists acts, 0, cs, err. rewrite <- !app_assoc.
    split_and!; [done|done|lia|done..].
Qed.

(** C17: whatever the network and the byte stream do, a transfer ends, sends block
    after block in order (block [i+1] never before block [i]), no packet more than
    five times and no block that the file does not have, then at most one ERROR
    packet; and it always closes its stream and its socket. *)
Theorem transfer_ordered addr req handler f net :
  handler (Filename req) addr = Ok f →
  ∃ acts k0 cs err,
    transfer (Ok tt) addr req handler net = Ret (acts ++ [CCloseFile; CCloseConn]) ∧
    conn_writes acts =
      replicate k0 (oack (BlockSize req)) ++
      block_sends (block_size req) (rd_data f) 0 cs ++ err ∧
    k0 ≤ 5 ∧ Forall (λ c, 1 ≤ c ≤ 5) cs ∧ error_packet (rd_end f) err ∧
    (cs = [] ∨ (length cs - 1) * block_size req < length (rd_data f)).
Proof. apply transfer_sends. Qed.

(** ** The client's side

    A client keeps the data of the block it waits for, and skips everything else:
    earlier blocks sent again, the OACK, errors. *)

Definition client_step (st : Z * bytes) (pkt : bytes) : Z * bytes :=
  match pkt with
  | a :: b :: c :: d :: chunk =>
      if decide ((a, b) = (0, 3)%gb ∧ (u8 c * 256 + u8 d)%Z = st.1)
      then (u16 (st.1 + 1), st.2 ++ chunk) else st
  | _ => st
  end.

Definition client_receives (pkts : list bytes) : bytes := (foldl client_step (1%Z, []) pkts).2.

Lemma u16_range z : (0 ≤ u16 z < 65536)%Z.
Proof. apply Z.mod_pos_bound. lia. Qed.

Lemma u16_u16 z : u16 (u16 z) = u16 z.
Proof. unfold u16. apply Z.mod_mod. lia. Qed.

Lemma PutUint16_value v :
  (u8 (to_byte (Z.shiftr v 8)) * 256 + u8 (to_byte v))%Z = u16 v.
Proof.
  pose proof (Uint16_PutUint16 v []) as Hv. unfold PutUint16 in Hv. cbn [app] in Hv.
  rewrite Uint16_cons in Hv. by injection Hv.
Qed.

Lemma client_step_data bsize data i n acc :
  client_step (n, acc) (data_packet bsize data i) =
    if decide (u16 (Z.of_nat (S i)) = n) then (u16 (n + 1), acc ++ data_block bsize data i) else (n, acc).
Proof.
  unfold data_packet, PutUint16. cbn [app client_step fst snd].
  rewrite PutUint16_value, u16_u16. by repeat case_decide; try tauto.
Qed.

Lemma client_repeats bsize data i acc c :
  foldl client_step (u16 (Z.of_nat (S (S i))), acc) (replicate c (data_packet bsize data i)) =
    (u16 (Z.of_nat (S (S i))), acc).
Proof.
  induction c as [|c IH]; [done|]. cbn [replicate foldl]. rewrite client_step_data, decide_False; [done|].
  rewrite <- u16_succ. pose proof (u16_range (Z.of_nat (S i))). unfold u16 at 2.
  destruct (decide (u16 (Z.of_nat (S i)) = 65535)%Z) as [->|]; [done|].
  rewrite Z.mod_small by lia. lia.
Qed.

Lemma client_block_sends bsize data i cs :
  Forall (λ c, 1 ≤ c ≤ numRetries) cs →
  foldl client_step (u16 (Z.of_nat (S i)), take (i * bsize) data) (block_sends bsize data i cs) =
    (u16 (Z.of_nat (S (i + length cs))), take ((i + length cs) * bsize) data).
Proof.
  intros Hcs. revert i. induction Hcs as [|c cs Hc _ IH]; intros i; cbn [block_sends].
  { simpl. by rewrite Nat.add_0_r. }
  destruct c as [|c]; [lia|]. rewrite foldl_app. cbn [replicate foldl].
  rewrite client_step_data, decide_True, u16_succ by done. rewrite client_repeats.
  assert (take (i * bsize) data ++ data_block bsize data i = take (S i * bsize) data) as ->.
  { unfold data_block, sub. rewrite take_take_drop. f_equal. lia. }
  rewrite IH. cbn [length]. by rewrite Nat.add_succ_r.
Qed.

Lemma client_oack k bs n acc : foldl client_step (n, acc) (replicate k (oack bs)) = (n, acc).
Proof. induction k as [|k IH]; [done|]. cbn [replicate foldl]. rewrite oack_wire. apply IH. Qed.

Lemma client_error rend err n acc :
  error_packet rend err → foldl client_step (n, acc) err = (n, acc).
Proof. intros [->| ->]; [done|]. simpl. by rewrite mkError_wire. Qed.

Lemma block_sends_elem bsize data i cs p :
  p ∈ block_sends bsize data i cs → ∃ j, i ≤ j < i + length cs ∧ p = data_packet bsize data j.
Proof.
  revert i. induction cs as [|c cs IH]; intros i; cbn [block_sends length]; [by intros ?%not_elem_of_nil|].
  rewrite elem_of_app. intros [[-> _]%elem_of_replicate|Hp]; [exists i; split; [lia|done]|].
  destruct (IH (S i) Hp) as (j & Hj & ->). exists j. split; [lia|done].
Qed.

(** A client that knows the first [k] blocks of a file of [n] takes from the packets of
    the transfer only the next one, as long as no two blocks have the same number. *)
Lemma client_step_next bsize data n k p :
  (Z.of_nat n < 65536)%Z → k ≤ n →
  (∃ j, j < n ∧ p = data_packet bsize data j) ∨ client_step (u16 (Z.of_nat (S k)), take (k * bsize) data) p =
    (u16 (Z.of_nat (S k)), take (k * bsize) data) →
  ∃ k', k' ≤ n ∧ client_step (u16 (Z.of_nat (S k)), take (k * bsize) data) p =
    (u16 (Z.of_nat (S k')), take (k' * bsize) data).
Proof.
  intros Hn Hk [(j & Hj & ->)|Hp]; [|by exists k]. rewrite client_step_data.
  destruct (decide (u16 (Z.of_nat (S j)) = u16 (Z.of_nat (S k)))) as [He|He]; [|by exists k].
  assert (j = k) as ->.
  { unfold u16 in He. rewrite (Z.mod_small (Z.of_nat (S j))) in He by lia.
    destruct (decide (Z.of_nat (S k) = 65536)%Z) as [Hk'|]; [rewrite Hk', Z.mod_same in He by lia; lia|].
    rewrite Z.mod_small in He by lia. lia. }
  exists (S k). split; [lia|]. rewrite u16_succ. f_equal.
  unfold data_block, sub. rewrite take_take_drop. f_equal. lia.
Qed.

Lemma client_any_order bsize data n k pkts :
  (Z.of_nat n < 65536)%Z → k ≤ n →
  Forall (λ p, (∃ j, j < n ∧ p = data_packet bsize data j) ∨ ∀ st, client_step st p = st) pkts →
  ∃ k', (foldl client_step (u16 (Z.of_nat (S k)), take (k * bsize) data) pkts).2 = take (k' * bsize) data.
Proof.
  intros Hn Hk Hp. revert k Hk. induction Hp as [|p pkts Hp _ IH]; intros k Hk; [by exists k|].
  cbn [foldl]. destruct (client_step_next bsize data n k p Hn Hk) as (k' & Hk' & ->); [naive_solver|].
  by apply IH.
Qed.

Lemma client_step_oack bs st : client_step st (oack bs) = st.
Proof. rewrite oack_wire. by destruct st. Qed.

Lemma client_step_error e st : client_step st (mkError e) = st.
Proof. rewrite mkError_wire. by destruct st. Qed.

(** C6: a client that collects the data packets of a transfer holds a prefix of the
    file, cut at a block boundary or complete, whatever answers the server reads and
    even when the byte stream breaks off.  This holds however the packets are lost,
    repeated and reordered on their way, as long as the file has fewer than 65535 full
    blocks, so that no two of its blocks have the same 16-bit number; and when all
    packets arrive in the order they were sent, for files of any size. *)
Theorem transfer_prefix addr req handler f net :
  handler (Filename req) addr = Ok f →
  ∃ acts, transfer (Ok tt) addr req handler net = Ret acts ∧
    ((Z.of_nat (length (rd_data f) / block_size req) < 65535)%Z →
     ∀ pkts, pkts ⊆ conn_writes acts →
       ∃ n, client_receives pkts = take (n * block_size req) (rd_data f)) ∧
    ∃ n, client_receives (conn_writes acts) = take (n * block_size req) (rd_data f).
Proof.
  intros Hh. destruct (transfer_sends addr req handler f net Hh)
    as (acts & k0 & cs & err & Ht & Hw & _ & Hcs & He & Hb).
  pose proof (block_size_pos req) as Hpos.
  assert (conn_writes (acts ++ [CCloseFile; CCloseConn]) = conn_writes acts) as Hacts
    by (rewrite conn_writes_app; apply app_nil_r).
  eexists. split; [exact Ht|]. rewrite Hacts. split.
  - intros Hlen pkts Hsub.
    apply (client_any_order (block_size req) (rd_data f) (length cs) 0 pkts); [|lia|].
    { destruct Hb as [->|Hb]; [simpl; lia|].
      pose proof (Nat.div_le_lower_bound (length (rd_data f)) (block_size req) (length cs - 1)
        ltac:(lia) ltac:(lia)). lia. }
    apply Forall_forall. intros p Hp%Hsub. rewrite Hw, !elem_of_app in Hp.
    destruct Hp as [[-> _]%elem_of_replicate|[Hp|Hp]].
    + right. apply client_step_oack.
    + left. destruct (block_sends_elem _ _ _ _ _ Hp) as (j & Hj & ->). exists j. split; [lia|done].
    + right. destruct He as [->| ->]; [by apply not_elem_of_nil in Hp|].
      apply list_elem_of_singleton in Hp as ->. apply client_step_error.
  - exists (length cs). rewrite Hw. unfold client_receives. rewrite !foldl_app, client_oack.
    pose proof (client_block_sends (block_size req) (rd_data f) 0 cs Hcs) as Hbl.
    change (u16 (Z.of_nat 1)) with 1%Z in Hbl. rewrite take_0 in Hbl. rewrite Hbl.
    by rewrite (client_error (rd_end f)).
Qed.

(** ** Sizes *)

Lemma length_data_packet bsize data i : length (data_packet bsize data i) ≤ bsize + 4.
Proof. unfold data_packet, data_block, sub. rewrite !length_app, length_take. simpl. lia. Qed.

Lemma block_sends_bounds bsize data i cs :
  Forall (λ c, 1 ≤ c ≤ numRetries) cs →
  length (block_sends bsize data i cs) ≤ numRetries * length cs ∧
  Forall (λ p, length p ≤ bsize + 4) (block_sends bsize data i cs).
Proof.
  intros Hcs. revert i. induction Hcs as [|c cs Hc _ IH]; intros i; cbn [block_sends]; [by split; [simpl; lia|]|].
  destruct (IH (S i)) as [Hl Hf]. rewrite length_app, length_replicate. cbn [length]. split; [lia|].
  apply Forall_app. split; [|done]. apply Forall_replicate, length_data_packet.
Qed.

Lemma length_oack bs : (8 ≤ bs ≤ 1450)%Z → length (oack bs) ≤ 31.
Proof.
  intros Hb. rewrite oack_wire, !length_app, !length_cstr.
  pose proof (Itoa_length bs ltac:(unfold min_int, max_int; lia)). simpl. lia.
Qed.

(** C23: the boot loader is sent within bounds: for every request the server accepts
    and on every network, the transfer ends after at most five packets per block, five
    for the OACK, and an ERROR packet; and none of them is longer than 1454 bytes, so
    that with its IP and UDP headers it fits an Ethernet frame. *)
Theorem transfer_bounded addr pkt req data net :
  parseRRQ addr pkt = Ret (Ok req) →
  ∃ acts, transfer (Ok tt) addr req (Blob data) net = Ret acts ∧
    length (conn_writes acts) ≤ 5 * (length data `div` block_size req + 2) + 1 ∧
    Forall (λ p, length p ≤ 1454) (conn_writes acts).
Proof.
  intros Hp. pose proof (parseRRQ_blocksize addr pkt req Hp) as Hbs.
  destruct (transfer_sends addr req (Blob data) (mkReader data None) net eq_refl)
    as (acts & k0 & cs & err & Ht & Hw & Hk & Hcs & He & Hb).
  cbn [rd_data rd_end] in *. eexists. split; [exact Ht|].
  rewrite conn_writes_app. cbn [conn_writes omap list_omap]. rewrite app_nil_r, Hw.
  destruct (block_sends_bounds (block_size req) data 0 cs Hcs) as [Hl Hf]. unfold numRetries in *.
  assert (block_size req ≤ 1450) as Hsz
    by (unfold block_size; destruct (Z.ltb_spec 0 (BlockSize req)); lia).
  assert (length err ≤ 1) as Herr by (destruct He as [->| ->]; simpl; lia).
  assert (length cs ≤ length data `div` block_size req + 1) as Hc.
  { destruct Hb as [->|Hb]; [simpl; lia|]. pose proof (block_size_pos req).
    assert (length cs - 1 ≤ length data `div` block_size req); [|lia].
    apply Nat.div_le_lower_bound; lia. }
  split; [rewrite !length_app, length_replicate; lia|].
  rewrite !Forall_app. split_and!.
  - destruct Hbs as [Hz|Hz]; [|apply Forall_replicate; pose proof (length_oack _ Hz); lia].
    rewrite Hz. apply Forall_replicate. vm_compute. lia.
  - eapply Forall_impl; [exact Hf|]. simpl. intros p Hlen. lia.
  - destruct He as [->| ->]; [done|]. apply Forall_singleton. vm_compute. lia.
Qed.

End transfer_theorems.

(** * Witnesses

    A client that acknowledges block after block, after a lost packet and some
    noise. *)

Section witnesses.
#[local] Existing Instance latin1_tables.

Definition toy_client : Addr := UDPAddr [10; 0; 0; 7]%gb 2070.
Definition ack_of (n : Byte.byte) : read_event := RData [0; 4; 0; n]%gb.
Definition toy_net : list read_event := [RData [1; 2]%gb; RTimeout; ack_of 0%gb; ack_of 1%gb].

Lemma toy_acked : acked (u16 1) 1 toy_net [].
Proof.
  apply (acked_retry _ [[1; 2]%gb] 0); [by repeat constructor|].
  apply (acked_now _ [[0; 4; 0; 0]%gb] [0; 4; 0; 1]%gb []); [|done].
  apply Forall_singleton. split; [done|]. intros _. vm_compute. discriminate.
Qed.

Lemma transfer_delivers_witness :
  transfer (Ok tt) toy_client (mkRrq (str "boot") 0) (Blob (str "PXELINUX")) toy_net =
    Ret [CWrite ([0; 3; 0; 1]%gb ++ str "PXELINUX"); CWrite ([0; 3; 0; 1]%gb ++ str "PXELINUX");
         CLog (str "Sent %q to %s") [AStr (str "boot"); AStr (str "10.0.0.7:2070")];
         CCloseFile; CCloseConn].
Proof.
  destruct (transfer_delivers toy_client (mkRrq (str "boot") 0) (Blob (str "PXELINUX")) (str "PXELINUX")
    toy_net toy_net [] 0 [1]) as [H _]; [reflexivity|reflexivity| |discriminate|reflexivity|exact H].
  eapply acked_more; [apply Nat.ltb_lt; reflexivity|exact toy_acked|constructor].
Defined.

Lemma transfer_exact_multiple_fails_witness :
  transfer (Ok tt) toy_client (mkRrq (str "boot") 8) (Blob (str "PXELINUX")) (ack_of 0%gb :: toy_net) =
    Ret [CWrite ([0; 6]%gb ++ cstr (str "blksize") ++ cstr (str "8"));
         CWrite ([0; 3; 0; 1]%gb ++ str "PXELINUX"); CWrite ([0; 3; 0; 1]%gb ++ str "PXELINUX");
         CLog (str "Transfer to %s failed: %s") [AStr (str "10.0.0.7:2070"); AStr (str "EOF")];
         CWrite ([0; 5; 0; 0]%gb ++ cstr (str "EOF")); CCloseFile; CCloseConn].
Proof.
  apply (transfer_exact_multiple_fails toy_client (mkRrq (str "boot") 8) (Blob (str "PXELINUX"))
    (str "PXELINUX") (ack_of 0%gb :: toy_net) toy_net [] 0 [1]); [reflexivity| | |reflexivity].
  - split; [apply Nat.ltb_lt; reflexivity|]. apply (acked_now 0 []); [constructor|reflexivity].
  - eapply acked_more; [apply Nat.ltb_lt; reflexivity|exact toy_acked|constructor].
Defined.

Lemma transfer_ordered_witness :
  ∃ acts cs, transfer (Ok tt) toy_client (mkRrq (str "boot") 0) (Blob (str "PXELINUX")) [RData [0; 5; 0; 0]%gb] =
      Ret (acts ++ [CCloseFile; CCloseConn]) ∧ Forall (λ c, 1 ≤ c ≤ 5) cs.
Proof.
  destruct (transfer_ordered toy_client (mkRrq (str "boot") 0) (Blob (str "PXELINUX"))
    (mkReader (str "PXELINUX") None) [RData [0; 5; 0; 0]%gb] eq_refl)
    as (acts & k0 & cs & err & Ht & _ & _ & Hcs & _).
  exists acts, cs. split; [exact Ht|exact Hcs].
Defined.

Lemma transfer_bounded_witness :
  ∃ acts, transfer (Ok tt) toy_client (mkRrq (str "boot") 1450) (Blob (replicate 5000 9%gb)) [] = Ret acts ∧
    length (conn_writes acts) ≤ 26 ∧ Forall (λ p, length p ≤ 1454) (conn_writes acts).
Proof.
  exact (transfer_bounded toy_client
    (rrq_bytes (str "boot") [(str "tsize", str "0"); (str "blksize", str "1456")])
    (mkRrq (str "boot") 1450) (replicate 5000 9%gb) [] ltac:(vm_compute; reflexivity)).
Defined.

(** The second data packet is lost, the first one comes twice, and the third after it. *)
Lemma transfer_prefix_witness :
  let f := str "PXELINUX boot loader" in
  ∃ acts n, transfer (Ok tt) toy_client (mkRrq (str "boot") 8) (Blob f)
      [ack_of 0%gb; ack_of 1%gb; ack_of 2%gb; ack_of 3%gb] = Ret acts ∧
    client_receives (data_packet 8 f 0 :: data_packet 8 f 2 :: [data_packet 8 f 0]) = take (n * 8) f.
Proof.
  intros f.
  destruct (transfer_prefix toy_client (mkRrq (str "boot") 8) (Blob f) (mkReader f None)
    [ack_of 0%gb; ack_of 1%gb; ack_of 2%gb; ack_of 3%gb] eq_refl) as (acts & Ht & Hlossy & _).
  destruct (Hlossy ltac:(vm_compute; reflexivity)
    (data_packet 8 f 0 :: data_packet 8 f 2 :: [data_packet 8 f 0])) as [n Hn].
  - vm_compute in Ht. injection Ht as <-. intros p Hp.
    revert p Hp. apply Forall_forall, (bool_decide_unpack _). vm_compute. reflexivity.
  - exists acts, n. split; [exact Ht|exact Hn].
Defined.

End witnesses.
