(* ===== verification/TftpTime.v ===== *)
(** tftp/tftp.go, [sendPacket] against the clock: the read deadline of each try, as
    absolute times, and how this relates to the model of [TftpTransfer], in which the
    expiry of a deadline is an event like any other. *)
From S2P Require Import Prelude GoStrings GoFmt GoNet Udp Tftp TftpTransfer.

(** * Definitions from tftp/tftp.go *)

(** [time.Second], in nanoseconds. *)
Definition second : Z := 1000000000.

(** What reaches the socket: a datagram or an error, with the time it is there to be
    read.  The socket keeps them in order; computing and writing take no time. *)
Definition arrival : Type := Z * (bytes + error).

(** The inner [for] loop with the deadline [deadline], entered at the time [now]; a
    [Read] after the deadline fails even when there is something to read. *)
Fixpoint timed_await (recv : bytes) (num deadline now : Z) (arr : list arrival)
    : go (ack_result * Z * list arrival) :=
  if (deadline <=? now)%Z then Ret (AckTimeout, now, arr) else
  match arr with
  | [] => Ret (AckTimeout, deadline, [])
  | (t, x) :: arr' =>
      if (deadline <=? t)%Z then Ret (AckTimeout, deadline, arr) else
      let now := Z.max now t in
      match x with
      | inr e => Ret (AckFail e, now, arr')
      | inl d =>
          let '(recv, n) := read_into recv d in
          if (n <? 4)%nat then timed_await recv num deadline now arr' else
          hd ← slice recv 0 2;
          op ← Uint16 hd;
          if decide (op = 4%Z) then
            seq ← slice recv 2 4;
            seq ← Uint16 seq;
            if decide (seq = num) then Ret (AckOk, now, arr') else timed_await recv num deadline now arr'
          else if decide (op = 5%Z) then
            rest ← slice_from recv 4;
            '(msg, _, _) ← nullStr rest;
            Ret (AckFail (Errorf (str "client aborted transfer (%q)") [AStr msg]), now, arr')
          else timed_await recv num deadline now arr'
      end
  end.

(** The retry loop; every write with the time of it, and the time of the return. *)
Fixpoint timed_tries (tries : nat) (b : bytes) (num now : Z) (arr : list arrival)
    : go (list (Z * bytes) * result unit * Z * list arrival) :=
  match tries with
  | O => Ret ([], Err (Errorf (str "timed out waiting for ACK #%d") [AInt num]), now, arr)
  | S tries =>
      let deadline := (now + second)%Z in
      '(r, now', arr) ← timed_await (replicate 256 0%gb) num deadline now arr;
      match r with
      | AckOk => Ret ([(now, b)], Ok tt, now', arr)
      | AckFail e => Ret ([(now, b)], Err e, now', arr)
      | AckTimeout =>
          '(ws, res, now', arr) ← timed_tries tries b num now' arr;
          Ret ((now, b) :: ws, res, now', arr)
      end
  end.

Definition timed_sendPacket (b : bytes) (num now : Z) (arr : list arrival)
    : go (list (Z * bytes) * result unit * Z * list arrival) :=
  timed_tries numRetries b num now arr.

(** * Erasing time *)

Definition read_of (x : bytes + error) : read_event :=
  match x with inl d => RData d | inr e => RError e end.

(** What the reads of [net] returned, without the expired deadlines. *)
Definition delivered (net : list read_event) : list (bytes + error) :=
  omap (λ ev, match ev with RData d => Some (inl d) | RTimeout => None | RError e => Some (inr e) end) net.

Lemma delivered_app a b : delivered (a ++ b) = delivered a ++ delivered b.
Proof. apply omap_app. Qed.

Lemma timed_await_data recv num deadline now t d arr :
  length recv = 256 → (now < deadline)%Z → (t < deadline)%Z →
  let recv' := (read_into recv d).1 in
  let now' := Z.max now t in
  timed_await recv num deadline now ((t, inl d) :: arr) =
    match op_num d with
    | None => timed_await recv' num deadline now' arr
    | Some (op, seq) =>
        if decide (op = 4%Z) then if decide (seq = num) then Ret (AckOk, now', arr)
                                  else timed_await recv' num deadline now' arr
        else if decide (op = 5%Z)
        then Ret (AckFail (Errorf (str "client aborted transfer (%q)") [AStr (abort_text recv')]), now', arr)
        else timed_await recv' num deadline now' arr
    end.
Proof.
  intros Hr Hn Ht recv' now'. pose proof (length_read_into recv d) as Hl.
  assert ((read_into recv d).2 = length d `min` 256) as Hlen by (unfold read_into; simpl; lia).
  cbn [timed_await]. rewrite !(proj2 (Z.leb_gt _ _)) by lia. fold recv' in Hl. fold now'.
  rewrite (surjective_pairing (read_into recv d)), Hlen. fold recv'.
  destruct (Nat.ltb_spec (length d `min` 256) 4) as [Hs|Hs].
  { by destruct d as [|? [|? [|? [|? d]]]]; [..|simpl in Hs; lia]. }
  destruct d as [|x [|y [|z [|w d]]]]; [simpl in Hs; lia..|].
  destruct (read_into_head recv x y z w d) as [l Hrecv]; [lia|]. fold recv' in Hrecv.
  rewrite !slice_ok, slice_from_ok by lia. cbn [mbind go_bind Nat.sub op_num].
  assert (sub 0 2 recv' = [x; y] ∧ sub 2 2 recv' = [z; w]) as [-> ->] by by rewrite Hrecv.
  rewrite !Uint16_cons. cbn [mbind go_bind].
  case_decide; [done|]. case_decide; [|done].
  destruct (nullStr_text (drop 4 recv')) as (r & ok & ->). done.
Qed.

(** A try is over at its deadline at the latest, and reads what the untimed loop reads
    when the deadline expires where it did. *)
Definition awaited (recv : bytes) (num deadline now : Z) (arr : list arrival)
    (r : ack_result) (t : Z) (arr' : list arrival) : Prop :=
  (now ≤ t ≤ deadline)%Z ∧ (r = AckTimeout → t = deadline) ∧
  ∃ consumed net, arr = consumed ++ arr' ∧ delivered net = consumed.*2 ∧
    ∀ rest, await_ack recv num (net ++ rest) = Ret (r, rest).

Lemma timed_await_spec recv num deadline now arr :
  length recv = 256 → (now < deadline)%Z →
  ∃ r t arr', timed_await recv num deadline now arr = Ret (r, t, arr') ∧
    awaited recv num deadline now arr r t arr'.
Proof.
  revert recv now. induction arr as [|[t x] arr IH]; intros recv now Hr Hn.
  { cbn [timed_await]. rewrite (proj2 (Z.leb_gt _ _)) by lia. do 3 eexists. split; [done|].
    split; [lia|]. split; [done|]. by exists [], [RTimeout]. }
  destruct (Z.le_gt_cases deadline t) as [Ht|Ht].
  { cbn [timed_await]. rewrite (proj2 (Z.leb_gt _ _)), (proj2 (Z.leb_le _ _)) by lia.
    do 3 eexists. split; [done|]. split; [lia|]. split; [done|]. by exists [], [RTimeout]. }
  destruct x as [d|e]; cycle 1.
  { cbn [timed_await]. rewrite !(proj2 (Z.leb_gt _ _)) by lia. do 3 eexists. split; [done|].
    split; [lia|]. split; [done|]. by exists [(t, inr e)], [RError e]. }
  rewrite timed_await_data by done.
  assert (length (read_into recv d).1 = 256) as Hl by by rewrite length_read_into.
  assert (∀ r t' arr',
    (∀ rest, await_ack recv num (RData d :: rest) = Ret (r, rest)) → r ≠ AckTimeout → t' = Z.max now t → arr' = arr →
    awaited recv num deadline now ((t, inl d) :: arr) r t' arr') as Hdone.
  { intros r t' arr' Hrest Hne -> ->. split; [lia|]. split; [done|].
    by exists [(t, inl d)], [RData d]. }
  destruct (IH (read_into recv d).1 (Z.max now t) Hl ltac:(lia))
    as (r & t' & arr' & Hw & Hb & Hto & consumed & net & -> & Hdel & Hawait).
  assert ((∀ rest, await_ack recv num (RData d :: rest) = await_ack (read_into recv d).1 num rest) →
    ∃ r t0 arr0, timed_await (read_into recv d).1 num deadline (Z.max now t) (consumed ++ arr') =
      Ret (r, t0, arr0) ∧ awaited recv num deadline now ((t, inl d) :: consumed ++ arr') r t0 arr0) as Hskip.
  { intros Hs. exists r, t', arr'. split; [done|]. split; [lia|]. split; [done|].
    exists ((t, inl d) :: consumed), (RData d :: net). split; [done|]. split; [simpl; by f_equal|].
    intros rest. cbn [app]. by rewrite Hs. }
  pose proof (λ rest, await_ack_data recv num d rest Hr) as Ha. cbv zeta in Ha.
  destruct (op_num d) as [[op seq]|]; [|by apply Hskip].
  case_decide; [case_decide|case_decide]; try by apply Hskip.
  - do 3 eexists. split; [done|]. by apply Hdone.
  - do 3 eexists. split; [done|]. by apply Hdone.
Qed.

(** The times of [n] writes from [now] on, one second apart. *)
Definition every_second (now : Z) (n : nat) (b : bytes) : list (Z * bytes) :=
  map (λ k, ((now + Z.of_nat k * second)%Z, b)) (seq 0 n).

Lemma every_second_S now n b :
  every_second now (S n) b = (now, b) :: every_second (now + second) n b.
Proof.
  unfold every_second. cbn [seq map]. f_equal; [f_equal; lia|]. rewrite <- seq_shift, map_map.
  apply map_ext. intros k. f_equal. lia.
Qed.

Lemma timed_tries_spec tries b num now arr :
  ∃ n res t arr',
    timed_tries tries b num now arr = Ret (every_second now n b, res, t, arr') ∧
    tries `min` 1 ≤ n ≤ tries ∧
    (now + Z.of_nat (pred n) * second ≤ t ≤ now + Z.of_nat n * second)%Z ∧
    ∃ consumed net, arr = consumed ++ arr' ∧ delivered net = consumed.*2 ∧
      ∀ rest, send_tries tries b num (net ++ rest) = Ret (replicate n b, res, rest).
Proof.
  revert now arr. induction tries as [|tries IH]; intros now arr.
  { exists 0. do 3 eexists. split; [done|]. split; [simpl; lia|]. split; [simpl; lia|]. by exists [], []. }
  cbn [timed_tries send_tries]. assert (0 < second)%Z as Hsec by done.
  destruct (timed_await_spec (replicate 256 0%gb) num (now + second) now arr ltac:(done) ltac:(lia))
    as (r & t & arr1 & -> & Hb & Hto & consumed & net & -> & Hdel & Hawait).
  cbn [mbind go_bind]. destruct r as [| |e].
  - exists 1. do 3 eexists. split; [by rewrite every_second_S|].
    split; [lia|]. split; [simpl; lia|]. exists consumed, net. split; [done|]. split; [done|].
    intros rest. by rewrite Hawait.
  - rewrite (Hto eq_refl). destruct (IH (now + second)%Z arr1)
      as (n & res & t2 & arr2 & -> & Hn & Ht2 & consumed2 & net2 & -> & Hdel2 & Hsend).
    cbn [mbind go_bind]. exists (S n), res, t2, arr2. split; [by rewrite every_second_S|].
    split; [lia|]. split; [destruct n; simpl in *; lia|]. exists (consumed ++ consumed2), (net ++ net2).
    split; [by rewrite app_assoc|]. split; [by rewrite delivered_app, fmap_app, Hdel, Hdel2|].
    intros rest. rewrite <- app_assoc, Hawait. cbn [mbind go_bind]. by rewrite Hsend.
  - exists 1. do 3 eexists. split; [by rewrite every_second_S|].
    split; [lia|]. split; [simpl; lia|]. exists consumed, net. split; [done|]. split; [done|].
    intros rest. by rewrite Hawait.
Qed.

(** ** An answer in time *)

Lemma timed_await_ack recv num deadline now pre t d arr :
  length recv = 256 → (now < deadline)%Z → Forall (λ a, a.1 ≤ t)%Z pre →
  Forall (λ a, ∃ d, a.2 = inl d ∧ ignored num d) pre → is_ack num d →
  ∃ r t' arr', timed_await recv num deadline now (pre ++ (t, inl d) :: arr) = Ret (r, t', arr') ∧
    ((t < deadline)%Z → r = AckOk ∧ t' = Z.max now t) ∧
    ((deadline ≤ t)%Z → r = AckTimeout ∧ t' = deadline ∧
       ∃ pre', pre' `suffix_of` pre ∧ arr' = pre' ++ (t, inl d) :: arr).
Proof.
  intros Hr Hn Hpre Hig Hd. revert recv now Hr Hn.
  induction Hig as [|[t0 x] pre (d0 & Hx & Hd0) Hig IH]; intros recv now Hr Hn; cbn [app].
  - destruct (Z.le_gt_cases deadline t) as [Ht|Ht].
    + cbn [timed_await]. rewrite (proj2 (Z.leb_gt _ _)), (proj2 (Z.leb_le _ _)) by lia.
      do 3 eexists. split; [done|]. split; [lia|]. intros _. split_and!; [done|done|]. by exists [].
    + rewrite timed_await_data by done. unfold is_ack in Hd. rewrite Hd, !decide_True by done.
      do 3 eexists. split; [done|]. split; [done|lia].
  - cbn [snd] in Hx. subst x. apply Forall_cons in Hpre as [Ht0 Hpre]. cbn [fst] in Ht0.
    destruct (Z.le_gt_cases deadline t0) as [Hlate|Hin].
    + cbn [timed_await]. rewrite (proj2 (Z.leb_gt _ _)), (proj2 (Z.leb_le _ _)) by lia.
      do 3 eexists. split; [done|]. split; [lia|]. intros _. split_and!; [done|done|].
      by exists ((t0, inl d0) :: pre).
    + rewrite timed_await_data by done.
      assert (length (read_into recv d0).1 = 256) as Hl by by rewrite length_read_into.
      destruct (IH Hpre (read_into recv d0).1 (Z.max now t0) Hl ltac:(lia))
        as (r & t' & arr' & Hw & Hok & Hto).
      exists r, t', arr'. split; [|split].
      * unfold ignored in Hd0. destruct (op_num d0) as [[op seq]|]; [|done]. destruct Hd0 as [H5 H4].
        case_decide; [rewrite decide_False by naive_solver|rewrite decide_False by done]; done.
      * intros Ht. destruct (Hok Ht) as [-> ->]. split; [done|lia].
      * intros Ht. destruct (Hto Ht) as (-> & -> & pre' & Hsuf & ->). split_and!; [done|done|].
        exists pre'. split; [by apply suffix_cons_r|done].
Qed.

Lemma timed_tries_ack tries b num now pre t d arr :
  (now ≤ t)%Z → (t < now + Z.of_nat tries * second)%Z → Forall (λ a, a.1 ≤ t)%Z pre →
  Forall (λ a, ∃ d, a.2 = inl d ∧ ignored num d) pre → is_ack num d →
  ∃ ws arr', timed_tries tries b num now (pre ++ (t, inl d) :: arr) = Ret (ws, Ok tt, t, arr').
Proof.
  revert now pre. induction tries as [|tries IH]; intros now pre Hnow Ht Hpre Hig Hd; [lia|].
  assert (0 < second)%Z as Hsec by done. cbn [timed_tries].
  destruct (timed_await_ack (replicate 256 0%gb) num (now + second) now pre t d arr ltac:(done)
    ltac:(lia) Hpre Hig Hd) as (r & t' & arr' & -> & Hok & Hto). cbn [mbind go_bind].
  destruct (Z.le_gt_cases (now + second) t) as [Hlate|Hin].
  - destruct (Hto Hlate) as (-> & -> & pre' & [pre0 ->] & ->).
    apply Forall_app in Hpre as [_ Hpre]. apply Forall_app in Hig as [_ Hig].
    destruct (IH (now + second)%Z pre' Hlate ltac:(lia) Hpre Hig Hd) as (ws & arr2 & ->). by do 2 eexists.
  - destruct (Hok Hin) as [-> ->]. rewrite Z.max_r by lia. by do 2 eexists.
Qed.

(** C19: [sendPacket] keeps to the clock: it writes its packet when it is called and then
    once per second (times are in nanoseconds), at most five times, and returns within a second of its last write,
    so after five seconds at the latest, whatever keeps arriving; an acknowledgement
    that arrives within five seconds, behind nothing but packets to skip, makes it
    return at that moment with success.  Without the times it is the [sendPacket] of
    the other theorems: its reads return the arrivals in order, with an expired
    deadline here and there. *)
Theorem sendPacket_deadlines b num now arr :
  (∃ n res t arr',
    timed_sendPacket b num now arr =
      Ret (map (λ k, ((now + Z.of_nat k * 1000000000)%Z, b)) (seq 0 n), res, t, arr') ∧
    1 ≤ n ≤ 5 ∧ (now + Z.of_nat (n - 1) * 1000000000 ≤ t ≤ now + Z.of_nat n * 1000000000)%Z ∧
    ∃ consumed net, arr = consumed ++ arr' ∧ delivered net = consumed.*2 ∧
      sendPacket b num net = Ret (replicate n b, res, [])) ∧
  (∀ pre t d post,
    arr = pre ++ (t, inl d) :: post → (now ≤ t < now + 5 * 1000000000)%Z → is_ack num d →
    Forall (λ a, (a.1 ≤ t)%Z ∧ ∃ d, a.2 = inl d ∧ ignored num d) pre →
    ∃ ws arr', timed_sendPacket b num now arr = Ret (ws, Ok tt, t, arr')).
Proof.
  change 1000000000%Z with second. unfold timed_sendPacket, sendPacket, numRetries. split.
  - destruct (timed_tries_spec 5 b num now arr)
      as (n & res & t & arr' & Ht & Hn & Hb & consumed & net & -> & Hdel & Hsend).
    exists n, res, t, arr'. split; [exact Ht|]. split; [lia|].
    split; [by replace (n - 1) with (pred n) by lia|]. exists consumed, net. split; [done|]. split; [done|].
    specialize (Hsend []). by rewrite app_nil_r in Hsend.
  - intros pre t d post -> [Hnow Ht] Hd Hpre.
    apply Forall_and in Hpre as [Hp1 Hp2]. by apply timed_tries_ack.
Qed.

(** * Witnesses *)

(** Noise, then a stale acknowledgement every 0.3 seconds; the one that counts arrives
    after 2.5 seconds, on the third try. *)
Definition toy_arrivals : list arrival :=
  map (λ k, ((Z.of_nat k * 300000000)%Z, inl [0; 4; 0; 6]%gb)) (seq 0 9) ++
  [(2500000000, inl [0; 4; 0; 7]%gb)]%Z.

Lemma sendPacket_deadlines_witness :
  ∃ ws arr', timed_sendPacket (str "DATA") 7 0 toy_arrivals = Ret (ws, Ok tt, 2500000000%Z, arr') ∧
    ws.*1 = [0; 1000000000; 2000000000]%Z.
Proof.
  destruct (proj2 (sendPacket_deadlines (str "DATA") 7 0 toy_arrivals)
    (map (λ k, ((Z.of_nat k * 300000000)%Z, inl [0; 4; 0; 6]%gb)) (seq 0 9)) 2500000000%Z [0; 4; 0; 7]%gb [])
    as (ws & arr' & Hs).
  - reflexivity.
  - split; [discriminate|reflexivity].
  - reflexivity.
  - repeat (apply Forall_cons; split; [split; [discriminate|eexists; split; [reflexivity|by split]]|]).
    constructor.
  - exists ws, arr'. split; [exact Hs|]. vm_compute in Hs. by injection Hs as <- _.
Defined.
