(* ===== verification/Base64.v ===== *)
(** Go's [base64.URLEncoding], which http/http.go uses to put file ids in URLs. *)
From S2P Require Import Prelude GoStrings.

(** * Definitions *)

(** The URL-safe alphabet. *)
Definition encode_char (v : Z) : Byte.byte :=
  if (v <? 26)%Z then to_byte (65 + v)
  else if (v <? 52)%Z then to_byte (71 + v)
  else if (v <? 62)%Z then to_byte (v - 4)
  else if (v =? 62)%Z then 45%gb
  else 95%gb.

Definition decode_char (c : Byte.byte) : option Z :=
  let v := u8 c in
  if (65 <=? v)%Z && (v <=? 90)%Z then Some (v - 65)%Z
  else if (97 <=? v)%Z && (v <=? 122)%Z then Some (v - 71)%Z
  else if (48 <=? v)%Z && (v <=? 57)%Z then Some (v + 4)%Z
  else if (v =? 45)%Z then Some 62%Z
  else if (v =? 95)%Z then Some 63%Z
  else None.

Definition padChar : Byte.byte := 61%gb.

(** The sextets of a 24-bit group, from the most significant. *)
Definition sextet (val : Z) (k : Z) : Byte.byte :=
  encode_char ((val `div` 2 ^ (6 * k)) `mod` 64).

(** [EncodeToString]: groups of three bytes, the last one padded. *)
Fixpoint EncodeToString (s : bytes) : bytes :=
  match s with
  | [] => []
  | [a] =>
      let val := (u8 a * 65536)%Z in [sextet val 3; sextet val 2; padChar; padChar]
  | [a; b] =>
      let val := (u8 a * 65536 + u8 b * 256)%Z in
      [sextet val 3; sextet val 2; sextet val 1; padChar]
  | a :: b :: c :: s =>
      let val := (u8 a * 65536 + u8 b * 256 + u8 c)%Z in
      sextet val 3 :: sextet val 2 :: sextet val 1 :: sextet val 0 :: EncodeToString s
  end.

Definition byte_of_group (val : Z) (k : Z) : Byte.byte := to_byte (val `div` 2 ^ (8 * k)).

(** The groups of four characters; padding only in the last one. *)
Fixpoint decode_groups (s : bytes) : option bytes :=
  match s with
  | [] => Some []
  | c1 :: c2 :: c3 :: c4 :: s =>
      v1 ← decode_char c1; v2 ← decode_char c2;
      if decide (c3 = padChar) then
        if decide (c4 = padChar ∧ s = [])
        then let val := (v1 * 2 ^ 18 + v2 * 2 ^ 12)%Z in Some [byte_of_group val 2]
        else None
      else
      v3 ← decode_char c3;
      if decide (c4 = padChar) then
        if decide (s = [])
        then let val := (v1 * 2 ^ 18 + v2 * 2 ^ 12 + v3 * 2 ^ 6)%Z in
             Some [byte_of_group val 2; byte_of_group val 1]
        else None
      else
      v4 ← decode_char c4;
      rest ← decode_groups s;
      let val := (v1 * 2 ^ 18 + v2 * 2 ^ 12 + v3 * 2 ^ 6 + v4)%Z in
      Some (byte_of_group val 2 :: byte_of_group val 1 :: byte_of_group val 0 :: rest)
  | _ => None
  end.

Definition is_newline (c : Byte.byte) : bool := bool_decide (c = 10%gb ∨ c = 13%gb).

(** [DecodeString]: carriage returns and line feeds are skipped anywhere; [None]
    is a [CorruptInputError]. *)
Definition DecodeString (s : bytes) : option bytes :=
  decode_groups (List.filter (λ c, negb (is_newline c)) s).

(** The offset a [CorruptInputError] reports, for an input of [len] bytes given as
    its characters with their positions, newlines left out: the character that is
    not in the alphabet, or out of place; the start of an incomplete group. *)
Fixpoint corrupt_offset (len : nat) (s : list (nat * Byte.byte)) : nat :=
  let bad p := bool_decide (decode_char p.2 = None) in
  match s with
  | p1 :: s1 =>
      if bad p1 then p1.1 else
      match s1 with
      | p2 :: s2 =>
          if bad p2 then p2.1 else
          match s2 with
          | p3 :: s3 =>
              if decide (p3.2 = padChar) then
                match s3 with
                | [] => len
                | p4 :: s4 =>
                    if decide (p4.2 = padChar)
                    then match s4 with p5 :: _ => p5.1 | [] => len end
                    else p4.1 - 1
                end
              else if bad p3 then p3.1 else
              match s3 with
              | p4 :: s4 =>
                  if decide (p4.2 = padChar)
                  then match s4 with p5 :: _ => p5.1 | [] => len end
                  else if bad p4 then p4.1 else corrupt_offset len s4
              | [] => len - 3
              end
          | [] => len - 2
          end
      | [] => len - 1
      end
  | [] => len
  end.

(** [CorruptInputError.Error], for an input that does not decode. *)
Definition corrupt_input_text (s : bytes) : GoString :=
  str "illegal base64 data at input byte " ++
  Itoa (Z.of_nat (corrupt_offset (length s)
    (List.filter (λ p, negb (is_newline p.2)) (imap pair s)))).

(** * Lemmas *)

Lemma encode_char_spec v :
  (0 ≤ v < 64)%Z →
  decode_char (encode_char v) = Some v ∧ encode_char v ≠ padChar ∧
  is_newline (encode_char v) = false ∧ encode_char v ≠ 47%gb ∧ encode_char v ≠ 44%gb ∧
  encode_char v ≠ 32%gb.
Proof.
  intros Hv.
  assert (forallb (λ n, let v := Z.of_nat n in
    bool_decide (decode_char (encode_char v) = Some v ∧ encode_char v ≠ padChar ∧
      is_newline (encode_char v) = false ∧ encode_char v ≠ 47%gb ∧ encode_char v ≠ 44%gb ∧
  encode_char v ≠ 32%gb))
    (seq 0 64) = true) as H by (vm_compute; reflexivity).
  rewrite forallb_forall in H. specialize (H (Z.to_nat v)).
  rewrite Z2Nat.id in H by lia. apply bool_decide_eq_true in H; [done|]. apply in_seq. lia.
Qed.

Lemma sextet_spec val k :
  decode_char (sextet val k) = Some ((val `div` 2 ^ (6 * k)) `mod` 64)%Z ∧ sextet val k ≠ padChar ∧
  is_newline (sextet val k) = false ∧ sextet val k ≠ 47%gb ∧ sextet val k ≠ 44%gb ∧
  sextet val k ≠ 32%gb.
Proof. apply encode_char_spec. apply Z.mod_pos_bound. lia. Qed.

(** Induction on lists by three elements. *)
Lemma list_ind_3 (P : bytes → Prop) :
  P [] → (∀ a, P [a]) → (∀ a b, P [a; b]) → (∀ a b c s, P s → P (a :: b :: c :: s)) → ∀ s, P s.
Proof.
  intros H0 H1 H2 H3 s. assert (∀ n s, length s ≤ n → P s) as H; [|by eapply H].
  intros n. induction n as [|n IH]; intros [|a [|b [|c s']]] Hl; simpl in *; auto; try lia.
  apply H3, IH. lia.
Qed.

Lemma EncodeToString_chars s :
  Forall (λ c, is_newline c = false ∧ c ≠ 47%gb ∧ c ≠ 44%gb ∧ c ≠ 32%gb) (EncodeToString s).
Proof.
  induction s as [|a|a b|a b c s IH] using list_ind_3; simpl;
    repeat (apply Forall_cons; split); try done;
    match goal with |- context [sextet ?v ?k] => pose proof (sextet_spec v k); tauto end.
Qed.

Ltac b64_bytes :=
  apply u8_inj; unfold byte_of_group; rewrite u8_to_byte;
  repeat match goal with b : Byte.byte |- _ =>
    lazymatch goal with
    | _ : (0 ≤ u8 b < 256)%Z |- _ => fail
    | |- _ => pose proof (u8_range b)
    end
  end;
  cbn [Z.mul Z.pow Z.pow_pos Pos.iter Pos.mul Pos.add];
  Z.div_mod_to_equations; lia.

Lemma decode_groups_encode s : decode_groups (EncodeToString s) = Some s.
Proof.
  induction s as [|a|a b|a b c s IH] using list_ind_3; [done|..]; cbn [EncodeToString decode_groups].
  - set (val := (u8 a * 65536)%Z).
    destruct (sextet_spec val 3) as (-> & _). destruct (sextet_spec val 2) as (-> & _).
    cbn [mbind option_bind]. rewrite !decide_True by done. do 2 f_equal. subst val. b64_bytes.
  - set (val := (u8 a * 65536 + u8 b * 256)%Z).
    destruct (sextet_spec val 3) as (-> & _). destruct (sextet_spec val 2) as (-> & _).
    destruct (sextet_spec val 1) as (E1 & Hp & _).
    cbn [mbind option_bind]. rewrite decide_False, E1 by done. cbn [mbind option_bind].
    rewrite !decide_True by done. subst val. do 2 f_equal; [b64_bytes|f_equal; b64_bytes].
  - set (val := (u8 a * 65536 + u8 b * 256 + u8 c)%Z).
    destruct (sextet_spec val 3) as (-> & _). destruct (sextet_spec val 2) as (-> & _).
    destruct (sextet_spec val 1) as (E1 & Hp & _). destruct (sextet_spec val 0) as (E0 & Hp0 & _).
    cbn [mbind option_bind]. rewrite decide_False, E1 by done. cbn [mbind option_bind].
    rewrite decide_False, E0 by done. cbn [mbind option_bind]. rewrite IH. cbn [mbind option_bind].
    subst val. f_equal. f_equal; [b64_bytes|f_equal; [b64_bytes|f_equal; b64_bytes]].
Qed.

Lemma filter_id (f : Byte.byte → bool) s : Forall (λ c, f c = true) s → List.filter f s = s.
Proof. induction 1 as [|c s Hc _ IH]; simpl; [done|]. by rewrite Hc, IH. Qed.

(** Decoding inverts encoding. *)
Lemma DecodeString_Encode s : DecodeString (EncodeToString s) = Some s.
Proof.
  unfold DecodeString. rewrite filter_id; [apply decode_groups_encode|].
  eapply Forall_impl; [apply EncodeToString_chars|]. by intros c (-> & _).
Qed.

Lemma EncodeToString_no_slash s : 47%gb ∉ EncodeToString s.
Proof.
  intros Hin. pose proof (EncodeToString_chars s) as H. rewrite Forall_forall in H.
  by destruct (H _ Hin) as (_ & ? & _).
Qed.

Lemma EncodeToString_nil s : EncodeToString s = [] → s = [].
Proof. by destruct s as [|a [|b [|c s]]]. Qed.
