(* ===== verification/GoHttp.v ===== *)
(** The parts of Go's [net/http] the program uses: requests, the response writer,
    [http.Error], and the routing of [ServeMux]. *)
From S2P Require Import Prelude GoStrings.

(** * Requests and responses of net/http *)

Record request := mkRequest {
  Method : GoString;
  Host : GoString;
  RemoteAddr : GoString;
  URL_Path : GoString;
  URL_String : GoString
}.

(** What a handler has written: headers, the status once it is decided, the body. *)
Record ResponseWriter := mkResponseWriter {
  rw_header : gmap GoString GoString;
  rw_status : option Z;
  rw_body : bytes
}.

Definition new_response : ResponseWriter := mkResponseWriter ∅ None [].

Definition set_header (k v : GoString) (w : ResponseWriter) : ResponseWriter :=
  mkResponseWriter (<[k := v]> (rw_header w)) (rw_status w) (rw_body w).

(** [WriteHeader]: only the first call counts. *)
Definition write_header (code : Z) (w : ResponseWriter) : ResponseWriter :=
  mkResponseWriter (rw_header w) (Some (default code (rw_status w))) (rw_body w).

(** [Write]: decides the status 200 if none was written. *)
Definition write (b : bytes) (w : ResponseWriter) : ResponseWriter :=
  let w := write_header 200 w in
  mkResponseWriter (rw_header w) (rw_status w) (rw_body w ++ b).

(** [http.Error]. *)
Definition http_Error (msg : GoString) (code : Z) (w : ResponseWriter) : ResponseWriter :=
  let w := set_header (str "Content-Type") (str "text/plain; charset=utf-8") w in
  let w := set_header (str "X-Content-Type-Options") (str "nosniff") w in
  write (msg ++ [10%gb]) (write_header code w).

(** * The ServeMux of net/http

    The router of Go 1.21, which is also the one that later releases give a program
    without a [go.mod] file ([GODEBUG=httpmuxgo121=1]).  It works on the decoded path.
    A request for [/dir] is redirected to [/dir/] when only the latter is registered,
    and a request for a path that is not clean to the clean one; the paths of CONNECT
    requests are not cleaned.  The request target [*] is not represented. *)

(** [path.Clean] of a rooted path: its components, without the empty ones and
    ["."], each [".."] taking back the component before it. *)
Fixpoint clean_components (acc l : list GoString) : list GoString :=
  match l with
  | [] => rev acc
  | c :: l =>
      if decide (c = [] ∨ c = str ".") then clean_components acc l
      else if decide (c = str "..") then clean_components (tail acc) l
      else clean_components (c :: acc) l
  end.

Definition path_Clean (p : GoString) : GoString :=
  47%gb :: Join (clean_components [] (Split p 47%gb)) (str "/").

(** [cleanPath]: a path that ends in a slash keeps it. *)
Definition cleanPath (p : GoString) : GoString :=
  match p with
  | [] => str "/"
  | _ =>
      let p := if HasPrefix p (str "/") then p else 47%gb :: p in
      let np := path_Clean p in
      if HasSuffix p (str "/") && negb (bool_decide (np = str "/")) then np ++ str "/" else np
  end.

(** Where a request goes, for handlers named by the elements of [H]. *)
Inductive route (H : Type) :=
| RHandle (h : H)
| RRedirect (path : GoString)
| RNotFound.
Arguments RHandle {H} h.
Arguments RRedirect {H} path.
Arguments RNotFound {H}.

(** [pathMatch]: a pattern that ends in a slash matches by prefix. *)
Definition pathMatch (pattern path : GoString) : bool :=
  if HasSuffix pattern (str "/") then HasPrefix path pattern else bool_decide (path = pattern).

(** [mux.handler], for patterns no two of which match the same path. *)
Fixpoint mux_handler {H} (pats : list (GoString * H)) (path : GoString) : route H :=
  match pats with
  | [] => RNotFound
  | (pat, h) :: pats => if pathMatch pat path then RHandle h else mux_handler pats path
  end.

(** [mux.shouldRedirectRLocked], for patterns without a host. *)
Definition should_redirect {H} (pats : list (GoString * H)) (path : GoString) : bool :=
  let registered p := existsb (λ pat, bool_decide (pat.1 = p)) pats in
  negb (registered path) && negb (bool_decide (path = [])) && registered (path ++ str "/") &&
  negb (HasSuffix path (str "/")).

(** [mux.Handler]. *)
Definition mux_route {H} (pats : list (GoString * H)) (method path : GoString) : route H :=
  let p := if decide (method = str "CONNECT") then path else cleanPath path in
  if should_redirect pats p then RRedirect (p ++ str "/")
  else if decide (p = path) then mux_handler pats path
  else RRedirect p.

(** * Lemmas *)

(** On a clean path the method does not matter. *)
Lemma mux_route_clean {H} (pats : list (GoString * H)) method path :
  cleanPath path = path →
  mux_route pats method path =
    if should_redirect pats path then RRedirect (path ++ str "/") else mux_handler pats path.
Proof.
  intros Hc. unfold mux_route. rewrite Hc.
  assert ((if decide (method = str "CONNECT") then path else path) = path) as -> by by case_decide.
  by rewrite (decide_True (P := path = path)).
Qed.

(** A name that stays in place in a path. *)
Definition plain (name : GoString) : Prop :=
  47%gb ∉ name ∧ name ≠ [] ∧ name ≠ str "." ∧ name ≠ str "..".

Lemma Split_not_in s c : c ∉ s → Split s c = [s].
Proof.
  induction s as [|x s IH]; simpl; [done|]. rewrite not_elem_of_cons. intros [Hx Hs].
  rewrite decide_False by congruence. by rewrite IH.
Qed.

Lemma Split_app a c s : c ∉ a → Split (a ++ c :: s) c = a :: Split s c.
Proof.
  induction a as [|x a IH]; simpl; [by rewrite decide_True|]. rewrite not_elem_of_cons.
  intros [Hx Ha]. rewrite decide_False by congruence. by rewrite IH.
Qed.

Lemma clean_components_plain acc l :
  Forall plain l → clean_components acc l = rev acc ++ l.
Proof.
  intros Hl. revert acc. induction Hl as [|c l (_ & H1 & H2 & H3) _ IH]; intros acc; simpl.
  { by rewrite app_nil_r. }
  rewrite decide_False by naive_solver. rewrite decide_False by done.
  rewrite IH. simpl. by rewrite <- app_assoc.
Qed.

Lemma clean_components_nil acc l : clean_components acc ([] :: l) = clean_components acc l.
Proof. done. Qed.

Lemma Join_snoc_slash dirs name :
  47%gb :: Join (dirs ++ [name]) (str "/") = flat_map (λ d, 47%gb :: d) dirs ++ 47%gb :: name.
Proof.
  induction dirs as [|d dirs IH]; [done|]. cbn [flat_map app].
  rewrite <- app_assoc, <- IH. by destruct dirs.
Qed.

(** A path of plain components is clean. *)
Lemma cleanPath_components dirs name :
  Forall plain dirs → plain name →
  cleanPath (flat_map (λ d, 47%gb :: d) dirs ++ 47%gb :: name) =
    flat_map (λ d, 47%gb :: d) dirs ++ 47%gb :: name.
Proof.
  intros Hd Hn. set (p := flat_map (λ d, 47%gb :: d) dirs ++ 47%gb :: name).
  assert (∃ p', p = 47%gb :: p') as [p' Hp'] by (subst p; destruct dirs; by eexists).
  unfold cleanPath. rewrite Hp'. change (HasPrefix (47%gb :: p') (str "/")) with
    (bool_decide (47%gb :: take 0 p' = str "/")). rewrite bool_decide_true by done. rewrite <- Hp'.
  assert (HasSuffix p (str "/") = false) as ->.
  { apply bool_decide_eq_false. intros [_ H]. destruct Hn as (Hs & Hne & _).
    destruct (exists_last Hne) as (name' & c & ->). subst p.
    rewrite (app_comm_cons name' [c]), app_assoc in H.
    rewrite drop_app_length' in H by (rewrite !length_app; simpl; lia).
    injection H as ->. set_solver. }
  cbn [andb]. unfold path_Clean.
  assert (Split p 47%gb = [] :: dirs ++ [name]) as ->.
  { subst p. clear Hp' p'. destruct Hn as (Hs & _).
    assert (∀ l, 47%gb ∉ l → Split (l ++ flat_map (λ d, 47%gb :: d) dirs ++ 47%gb :: name) 47%gb =
      l :: dirs ++ [name]) as Hsplit; [|exact (Hsplit [] ltac:(set_solver))].
    induction Hd as [|d dirs (Hds & _) _ IH]; intros l Hl; cbn [flat_map app].
    - by rewrite Split_app, Split_not_in.
    - rewrite Split_app by done. rewrite <- app_assoc. by rewrite IH. }
  rewrite clean_components_nil, clean_components_plain; [|apply Forall_app; split; [done|by apply Forall_singleton]].
  apply Join_snoc_slash.
Qed.

Lemma cleanPath_file dir name :
  plain dir → plain name →
  cleanPath (47%gb :: dir ++ 47%gb :: name) = 47%gb :: dir ++ 47%gb :: name.
Proof.
  intros Hd Hn. pose proof (cleanPath_components [dir] name) as H. cbn [flat_map] in H.
  rewrite app_nil_r in H. apply H; [by apply Forall_singleton|done].
Qed.

Lemma plain_len name : 47%gb ∉ name → 3 ≤ length name → plain name.
Proof. intros. split; [done|]. split_and!; intros ->; simpl in *; lia. Qed.
