(* ===== verification/Api.v ===== *)
(** api/api.go: the [Booter] interface and its contract, the boot specifications and
    the slices they hold, and the implementation [StaticBooter]. *)
From S2P Require Import Prelude GoStrings GoFmt GoNet GoIO GoJson.

(** * The world

    A booter acts on the file system, on HTTP servers, on the randomness source
    and on the heap.  The streams it opens are counted until they are closed.  The heap holds the backing arrays of the [[]string] slices,
    because the HTTP server overwrites the elements of the slice it is handed. *)

Record response := mkResponse {
  StatusCode : Z;
  Body : reader
}.

Record World := mkWorld {
  w_heap : gmap nat (list GoString);
  w_next : nat;                               (** first unused heap location *)
  w_rand : reader;                            (** [rand.Reader] *)
  w_open : GoString → result reader;          (** [os.Open] *)
  w_client : GoString → result response;      (** [b.client.Get] *)
  w_get : GoString → result response;         (** [http.Get] *)
  w_streams : nat                             (** open files and response bodies *)
}.

Definition set_heap (h : gmap nat (list GoString)) (w : World) : World :=
  mkWorld h (w_next w) (w_rand w) (w_open w) (w_client w) (w_get w) (w_streams w).

Definition set_rand (r : reader) (w : World) : World :=
  mkWorld (w_heap w) (w_next w) r (w_open w) (w_client w) (w_get w) (w_streams w).

Definition set_streams (n : nat) (w : World) : World :=
  mkWorld (w_heap w) (w_next w) (w_rand w) (w_open w) (w_client w) (w_get w) n.

(** The count after an attempt to open a stream, and after [Close]. *)
Definition opened {A} (r : result A) (w : World) : World :=
  match r with Ok _ => set_streams (S (w_streams w)) w | Err _ => w end.

Definition closed (w : World) : World := set_streams (pred (w_streams w)) w.

(** A [[]string]: nil, or the first [sl_len] elements of a backing array. *)
Record slice_ref := mkSlice {
  sl_ptr : option nat;
  sl_len : nat
}.

Definition nil_slice : slice_ref := mkSlice None 0.

Definition slice_get (w : World) (s : slice_ref) : list GoString :=
  match sl_ptr s with
  | None => []
  | Some l => take (sl_len s) (default [] (w_heap w !! l))
  end.

Definition alloc (arr : list GoString) (w : World) : slice_ref * World :=
  (mkSlice (Some (w_next w)) (length arr),
   mkWorld (<[w_next w := arr]> (w_heap w)) (S (w_next w)) (w_rand w) (w_open w)
     (w_client w) (w_get w) (w_streams w)).

(** [append(s, xs...)], always into a new array (the program never appends to a
    slice that shares its spare capacity); appending nothing returns [s]. *)
Definition append (s : slice_ref) (xs : list GoString) (w : World) : slice_ref * World :=
  match xs with
  | [] => (s, w)
  | _ => alloc (slice_get w s ++ xs) w
  end.

(** [s[i] = v], for an index in range. *)
Definition slice_set (s : slice_ref) (i : nat) (v : GoString) (w : World) : World :=
  match sl_ptr s with
  | None => w
  | Some l => set_heap (alter (λ arr, <[i := v]> arr) l (w_heap w)) w
  end.

(** * Definitions from api/api.go *)

Record BootSpec := mkBootSpec {
  Kernel : GoString;
  Initrd : slice_ref;
  Cmdline : GoString
}.

(** The interface: each method acts on the world. *)
Record Booter := mkBooter {
  ShouldBoot : HardwareAddr → World → result unit * World;
  GetBootSpec : HardwareAddr → World → result BootSpec * World;
  GetFile : GoString → World → result (reader * GoString) * World
}.

(** ** The static booter *)

Record staticBooter := mkStaticBooter {
  kernelPath : GoString;
  initrdPaths : list GoString;
  spec : BootSpec
}.

(** The constructor's loop [for i := range initrdPaths]. *)
Fixpoint static_initrds (i n : nat) (s : slice_ref) (w : World) : slice_ref * World :=
  match n with
  | O => (s, w)
  | S n =>
      let '(s, w) := append s [Itoa (Z.of_nat i)] w in
      static_initrds (S i) n s w
  end.

Definition new_staticBooter (kernelPath : GoString) (initrdPaths : list GoString)
    (cmdline : GoString) (w : World) : staticBooter * World :=
  let '(initrd, w) := static_initrds 0 (length initrdPaths) nil_slice w in
  (mkStaticBooter kernelPath initrdPaths (mkBootSpec (str "kernel") initrd cmdline), w).

Definition static_ShouldBoot (b : staticBooter) (hw : HardwareAddr) (w : World)
    : result unit * World := (Ok tt, w).

(** [BootSpec] hands out a copy of its slice. *)
Definition static_BootSpec (b : staticBooter) (hw : HardwareAddr) (w : World)
    : result BootSpec * World :=
  let '(initrd, w) := append nil_slice (slice_get w (Initrd (spec b))) w in
  (Ok (mkBootSpec (Kernel (spec b)) initrd (Cmdline (spec b))), w).

Definition static_File (b : staticBooter) (id : GoString) (w : World)
    : result (reader * GoString) * World :=
  let open path pretty :=
    (match w_open w path with Ok f => Ok (f, pretty) | Err e => Err e end,
     opened (w_open w path) w) in
  let no_file := Err (Errorf (str "no file with ID %q") [AStr id]) in
  if decide (id = str "kernel") then open (kernelPath b) (str "kernel")
  else match Atoi id with
       | Some i =>
           if bool_decide (0 ≤ i < Z.of_nat (length (initrdPaths b)))%Z then
             match initrdPaths b !! Z.to_nat i with
             | Some path => open path (str "initrd." ++ id)
             | None => (no_file, w)
             end
           else (no_file, w)
       | None => (no_file, w)
       end.

Definition static_booter (b : staticBooter) : Booter :=
  mkBooter (static_ShouldBoot b) (static_BootSpec b) (static_File b).

(** [StaticBooter]. *)
Definition StaticBooter (kernelPath : GoString) (initrdPaths : list GoString)
    (cmdline : GoString) (w : World) : Booter * World :=
  let '(b, w) := new_staticBooter kernelPath initrdPaths cmdline w in (static_booter b, w).

(** * The contract of a Booter

    What the servers rely on.  A booter has a plan per machine: the kernel, the
    initrds and the command line it should boot with, as the targets its file ids
    stand for.  [GetBootSpec] hands out ids for the planned targets, in a slice
    whose array nobody else uses, so that its new owner may overwrite it;
    [GetFile] resolves the ids. *)

Definition same_env (w w' : World) : Prop :=
  w_open w' = w_open w ∧ w_client w' = w_client w ∧ w_get w' = w_get w.

Definition differs_only_at (p : option nat) (h h' : gmap nat (list GoString)) : Prop :=
  ∀ l, p ≠ Some l → h' !! l = h !! l.

Class BooterLaws (b : Booter) := {
  target : Type;
  fetch : target → World → result (reader * GoString);
  denotes : GoString → target → Prop;
  plan : HardwareAddr → World → result (target * list target * GoString);
  booter_inv : World → Prop;
  denotes_nonempty id t : denotes id t → id ≠ [];
  denotes_unique id t t' : denotes id t → denotes id t' → t = t';
  file_law id t w : denotes id t → (GetFile b id w).1 = fetch t w;
  file_opens id w : (GetFile b id w).2 = opened (GetFile b id w).1 w;
  shouldboot_law hw w :
    same_env w (ShouldBoot b hw w).2 ∧ is_ok (ShouldBoot b hw w).1 = is_ok (plan hw w);
  bootspec_law hw w :
    booter_inv w →
    let '(r, w') := GetBootSpec b hw w in
    same_env w w' ∧ booter_inv w' ∧
    match r with
    | Err _ => True
    | Ok s =>
        ∃ k ts, plan hw w = Ok (k, ts, Cmdline s) ∧ denotes (Kernel s) k ∧
          Forall2 denotes (slice_get w' (Initrd s)) ts ∧
          sl_len (Initrd s) = length (slice_get w' (Initrd s)) ∧
          ∀ h, differs_only_at (sl_ptr (Initrd s)) (w_heap w') h → booter_inv (set_heap h w')
    end
}.

(** ** Lemmas on slices *)

Lemma slice_get_alloc arr w :
  slice_get (alloc arr w).2 (alloc arr w).1 = arr.
Proof. unfold slice_get, alloc. simpl. rewrite lookup_insert_eq. apply firstn_all. Qed.

Lemma append_get s xs w :
  slice_get (append s xs w).2 (append s xs w).1 = slice_get w s ++ xs.
Proof. destruct xs as [|x xs]; [by rewrite app_nil_r|]. apply slice_get_alloc. Qed.

Lemma append_env s xs w : same_env w (append s xs w).2.
Proof. by destruct xs. Qed.

(** A slice below the allocation pointer survives an allocation. *)
Definition allocated (w : World) (s : slice_ref) : Prop :=
  ∀ l, sl_ptr s = Some l → l < w_next w.

Lemma append_get_other s xs w s' :
  allocated w s' → slice_get (append s xs w).2 s' = slice_get w s' ∧
                   allocated (append s xs w).2 s'.
Proof.
  intros Ha. destruct xs as [|x xs]; [done|].
  unfold append, alloc, slice_get, allocated in *. cbn [snd w_heap w_next].
  destruct (sl_ptr s') as [l|]; [|done]. specialize (Ha l eq_refl).
  rewrite lookup_insert_ne by lia. split; [done|]. intros l' [= <-]. lia.
Qed.

Lemma append_allocated s xs w :
  allocated w s → allocated (append s xs w).2 (append s xs w).1.
Proof.
  destruct xs as [|x xs]; [done|]. intros _ l. simpl. intros [= <-]. lia.
Qed.

(** A copy [append([]string(nil), xs...)] has its own length; it lives in a new
    array, unless there was nothing to copy. *)
Lemma append_nil_copy xs w :
  sl_len (append nil_slice xs w).1 = length xs ∧
  ∀ l, sl_ptr (append nil_slice xs w).1 = Some l → l = w_next w.
Proof. destruct xs as [|x xs]; [done|]. simpl. split; [done|]. by intros l [= <-]. Qed.

Lemma closed_opened {A} (a : A) w : closed (opened (Ok a) w) = w.
Proof. by destruct w. Qed.

Lemma same_env_refl w : same_env w w.
Proof. done. Qed.

Lemma same_env_trans w1 w2 w3 : same_env w1 w2 → same_env w2 w3 → same_env w1 w3.
Proof. unfold same_env. intros (-> & -> & ->). done. Qed.

#[export] Hint Resolve same_env_refl append_env append_allocated : pixie.

(** * The static booter keeps the contract *)

(** The ids of the initrds are their positions. *)
Definition initrd_ids (n : nat) : list GoString := (λ i, Itoa (Z.of_nat i)) <$> seq 0 n.

(** The representation of a static booter made by its constructor. *)
Definition static_ok (b : staticBooter) (w : World) : Prop :=
  Kernel (spec b) = str "kernel" ∧ allocated w (Initrd (spec b)) ∧
  slice_get w (Initrd (spec b)) = initrd_ids (length (initrdPaths b)).

Lemma static_initrds_spec i n s w :
  allocated w s →
  let '(s', w') := static_initrds i n s w in
  allocated w' s' ∧ same_env w w' ∧
  slice_get w' s' = slice_get w s ++ ((λ i, Itoa (Z.of_nat i)) <$> seq i n).
Proof.
  revert i s w. induction n as [|n IH]; intros i s w Ha; cbn [static_initrds].
  { simpl. rewrite app_nil_r. by split_and!. }
  pose proof (append_get s [Itoa (Z.of_nat i)] w) as Hg.
  pose proof (append_env s [Itoa (Z.of_nat i)] w) as He.
  pose proof (append_allocated s [Itoa (Z.of_nat i)] w Ha) as Ha1.
  destruct (append s [Itoa (Z.of_nat i)] w) as [s1 w1]. cbn [fst snd] in *.
  specialize (IH (S i) s1 w1 Ha1). destruct (static_initrds (S i) n s1 w1) as [s' w'].
  destruct IH as (Ha' & He' & ->). rewrite Hg. split_and!; [done|by eapply same_env_trans|].
  cbn [seq]. rewrite fmap_cons. by rewrite <- app_assoc.
Qed.

Lemma new_staticBooter_ok kp ips cmd w :
  let '(b, w') := new_staticBooter kp ips cmd w in
  static_ok b w' ∧ same_env w w' ∧ kernelPath b = kp ∧ initrdPaths b = ips ∧
  Cmdline (spec b) = cmd.
Proof.
  unfold new_staticBooter. pose proof (static_initrds_spec 0 (length ips) nil_slice w) as H.
  destruct (static_initrds 0 (length ips) nil_slice w) as [s w'].
  destruct H as (Ha & He & Hg); [done|]. unfold static_ok. simpl. by rewrite Hg.
Qed.

(** What the ids of a static booter stand for: a path and a name for the log. *)
Definition static_denotes (b : staticBooter) (id : GoString) (t : GoString * GoString) : Prop :=
  (id = str "kernel" ∧ t = (kernelPath b, str "kernel")) ∨
  ∃ i path, id = Itoa (Z.of_nat i) ∧ initrdPaths b !! i = Some path ∧
            t = (path, str "initrd." ++ id).

Definition static_fetch (t : GoString * GoString) (w : World) : result (reader * GoString) :=
  match w_open w t.1 with Ok f => Ok (f, t.2) | Err e => Err e end.

Definition static_plan (b : staticBooter) (hw : HardwareAddr) (w : World)
    : result ((GoString * GoString) * list (GoString * GoString) * GoString) :=
  Ok ((kernelPath b, str "kernel"),
      imap (λ i path, (path, str "initrd." ++ Itoa (Z.of_nat i))) (initrdPaths b),
      Cmdline (spec b)).

Lemma Itoa_nonneg_inj i j : Itoa (Z.of_nat i) = Itoa (Z.of_nat j) → i = j.
Proof.
  unfold Itoa. intros H. destruct (Z.ltb_spec (Z.of_nat i) 0); [lia|].
  destruct (Z.ltb_spec (Z.of_nat j) 0); [lia|].
  pose proof (Utoa_value (Z.of_nat i) ltac:(lia)) as Hi.
  rewrite H, Utoa_value in Hi by lia. simplify_eq. lia.
Qed.

Lemma Itoa_not_kernel z : Itoa z ≠ str "kernel".
Proof.
  intros H. apply (Itoa_not_in 107%gb z); [done|done|]. rewrite H.
  change (str "kernel") with (107%gb :: str "ernel"). set_solver.
Qed.

(** A Go slice has fewer than 2^63 elements. *)
Definition static_small (b : staticBooter) : Prop := (Z.of_nat (length (initrdPaths b)) ≤ max_int)%Z.

Lemma static_File_denotes b id t w :
  static_small b → static_denotes b id t → (static_File b id w).1 = static_fetch t w.
Proof.
  intros Hs. unfold static_File, static_fetch. intros [[-> ->]|(i & path & -> & Hp & ->)].
  { by rewrite decide_True. }
  rewrite decide_False by apply Itoa_not_kernel.
  pose proof (lookup_lt_Some _ _ _ Hp) as Hi.
  rewrite Atoi_Itoa by (unfold static_small, min_int, max_int in *; lia).
  rewrite bool_decide_true by lia. by rewrite Nat2Z.id, Hp.
Qed.

Lemma static_File_opens b id w : (static_File b id w).2 = opened (static_File b id w).1 w.
Proof. unfold static_File. repeat case_test; simpl; try done; by destruct (w_open w _). Qed.

Lemma static_ids_denote b :
  Forall2 (static_denotes b) (initrd_ids (length (initrdPaths b)))
    (imap (λ i path, (path, str "initrd." ++ Itoa (Z.of_nat i))) (initrdPaths b)).
Proof.
  apply Forall2_same_length_lookup. split.
  { unfold initrd_ids. by rewrite length_imap, length_fmap, length_seq. }
  intros i id t Hid Ht. rewrite list_lookup_imap in Ht.
  destruct (initrdPaths b !! i) as [path|] eqn:Hp; simplify_eq/=.
  unfold initrd_ids in Hid. rewrite list_lookup_fmap in Hid.
  rewrite lookup_seq_lt in Hid by by eapply lookup_lt_Some. simplify_eq/=.
  right. by exists i, path.
Qed.

Section static_laws.
Context (b : staticBooter) (Hsmall : static_small b).

Lemma static_BootSpec_law hw w :
  static_ok b w →
  let '(r, w') := static_BootSpec b hw w in
  same_env w w' ∧ static_ok b w' ∧
  match r with
  | Err _ => True
  | Ok s =>
      ∃ k ts, static_plan b hw w = Ok (k, ts, Cmdline s) ∧ static_denotes b (Kernel s) k ∧
        Forall2 (static_denotes b) (slice_get w' (Initrd s)) ts ∧
        sl_len (Initrd s) = length (slice_get w' (Initrd s)) ∧
        ∀ h, differs_only_at (sl_ptr (Initrd s)) (w_heap w') h → static_ok b (set_heap h w')
  end.
Proof.
  intros (Hk & Ha & Hg). unfold static_BootSpec.
  pose proof (append_get nil_slice (slice_get w (Initrd (spec b))) w) as Hget.
  pose proof (append_env nil_slice (slice_get w (Initrd (spec b))) w) as Henv.
  pose proof (append_get_other nil_slice (slice_get w (Initrd (spec b))) w _ Ha) as [Hown Ha'].
  pose proof (append_nil_copy (slice_get w (Initrd (spec b))) w) as [Hlen Hfresh].
  destruct (append nil_slice (slice_get w (Initrd (spec b))) w) as [s' w']. cbn [fst snd] in *.
  rewrite Hg in *. cbn [app] in Hget.
  split; [done|]. split; [by split_and!|].
  exists (kernelPath b, str "kernel"), (imap (λ i path, (path, str "initrd." ++ Itoa (Z.of_nat i)))
    (initrdPaths b)). cbn [Kernel Initrd Cmdline]. rewrite Hget. split_and!; [done| | |done|].
  - by left.
  - apply static_ids_denote.
  - intros h Hh. split_and!; [done|done|]. rewrite <- Hown. unfold slice_get, allocated in *.
    destruct (sl_ptr (Initrd (spec b))) as [l|]; [|done]. cbn [set_heap w_heap].
    rewrite Hh; [done|]. intros Hs'. specialize (Hfresh _ Hs'). specialize (Ha l eq_refl). lia.
Qed.

Program Definition static_laws : BooterLaws (static_booter b) := {|
  target := GoString * GoString;
  fetch := static_fetch;
  denotes := static_denotes b;
  plan := static_plan b;
  booter_inv := static_ok b
|}.
Next Obligation.
  intros id t [[-> _]|(i & path & -> & _)]; [done|].
  intros H. pose proof (Itoa_nonempty (Z.of_nat i)). done.
Qed.
Next Obligation.
  intros id t t' [[-> ->]|(i & path & -> & Hp & ->)] [[Hk ->]|(j & path' & Hj & Hp' & ->)].
  - done.
  - symmetry in Hj. by apply Itoa_not_kernel in Hj.
  - by apply Itoa_not_kernel in Hk.
  - apply Itoa_nonneg_inj in Hj as ->. by simplify_eq.
Qed.
Next Obligation. intros id t w Hd. by apply static_File_denotes. Qed.
Next Obligation. intros id w. apply static_File_opens. Qed.
Next Obligation. done. Qed.
Next Obligation. intros hw w Hw. by apply static_BootSpec_law. Qed.

End static_laws.

(** * Theorems on the static booter *)

(** The path an id names, with the pretty name: the whole decision of [File]. *)
Definition static_resolve (b : staticBooter) (id : GoString) : option (GoString * GoString) :=
  if decide (id = str "kernel") then Some (kernelPath b, str "kernel")
  else i ← Atoi id;
       if decide (0 ≤ i)%Z then path ← initrdPaths b !! Z.to_nat i; Some (path, str "initrd." ++ id)
       else None.

Lemma static_File_resolve b id w :
  (static_File b id w).1 =
    match static_resolve b id with
    | Some t => static_fetch t w
    | None => Err (Errorf (str "no file with ID %q") [AStr id])
    end.
Proof.
  unfold static_File, static_resolve, static_fetch. case_decide; [done|].
  destruct (Atoi id) as [i|]; [|done]. cbn [mbind option_bind].
  case_bool_decide as Hi.
  - rewrite decide_True by lia. by destruct (initrdPaths b !! Z.to_nat i).
  - case_decide; [|done]. by rewrite lookup_ge_None_2 by lia.
Qed.

Lemma static_resolve_path b id t :
  static_resolve b id = Some t → t.1 ∈ kernelPath b :: initrdPaths b.
Proof.
  unfold static_resolve. case_decide; [intros [= <-]; set_solver|].
  destruct (Atoi id) as [i|]; [|done]. cbn [mbind option_bind]. case_decide; [|done].
  destruct (initrdPaths b !! Z.to_nat i) as [path|] eqn:E; [|done]. intros [= <-].
  apply elem_of_cons. right. by eapply list_elem_of_lookup_2.
Qed.

(** C25: the static booter opens no file but the configured kernel and initrds:
    whatever the id a client sends, the outcome of [File] is the same in any two
    file systems that agree on the configured paths, and a stream it returns is
    that of a configured path. *)
Theorem static_File_confined b id w w' :
  (∀ path, path ∈ kernelPath b :: initrdPaths b → w_open w path = w_open w' path) →
  (static_File b id w).1 = (static_File b id w').1 ∧
  ∀ f pretty, (static_File b id w).1 = Ok (f, pretty) →
    ∃ path, path ∈ kernelPath b :: initrdPaths b ∧ w_open w path = Ok f.
Proof.
  intros Hagree. rewrite !static_File_resolve.
  destruct (static_resolve b id) as [t|] eqn:E; [|done].
  pose proof (static_resolve_path b id t E) as Hin. unfold static_fetch. split.
  - by rewrite (Hagree _ Hin).
  - intros f pretty. destruct (w_open w t.1) as [f'|e] eqn:Ho; [|done]. intros [= -> _]. eauto.
Qed.

(** C26: what [StaticBooter] promises its caller: every machine should boot, every
    [BootSpec] has the id ["kernel"], one id per initrd path in order, and the
    given command line, and [File] resolves these ids to the kernel path and to
    the initrd paths in order; [BootSpec] keeps doing so after the caller has
    overwritten the slice it was handed. *)
Theorem StaticBooter_correct kp ips cmd w hw :
  (Z.of_nat (length ips) ≤ max_int)%Z →
  let '(b, w1) := StaticBooter kp ips cmd w in
  ShouldBoot b hw w1 = (Ok tt, w1) ∧
  ∃ s w2, GetBootSpec b hw w1 = (Ok s, w2) ∧
    Kernel s = str "kernel" ∧ Cmdline s = cmd ∧
    slice_get w2 (Initrd s) = initrd_ids (length ips) ∧
    (GetFile b (str "kernel") w2).1 = static_fetch (kp, str "kernel") w ∧
    (∀ i path, ips !! i = Some path →
       (GetFile b (Itoa (Z.of_nat i)) w2).1 =
         static_fetch (path, str "initrd." ++ Itoa (Z.of_nat i)) w) ∧
    (∀ h, differs_only_at (sl_ptr (Initrd s)) (w_heap w2) h →
       ∃ s' w3, GetBootSpec b hw (set_heap h w2) = (Ok s', w3) ∧
         slice_get w3 (Initrd s') = initrd_ids (length ips)).
Proof.
  intros Hlen. unfold StaticBooter. pose proof (new_staticBooter_ok kp ips cmd w) as H.
  destruct (new_staticBooter kp ips cmd w) as [b w1].
  destruct H as (Hok & (Hopen & _) & <- & <- & <-). split; [done|].
  pose proof (static_BootSpec_law b hw w1 Hok) as Hl.
  pose proof (append_get nil_slice (slice_get w1 (Initrd (spec b))) w1) as Hg.
  cbn [static_booter GetBootSpec GetFile]. unfold static_BootSpec in Hl |- * at 1.
  destruct (append nil_slice (slice_get w1 (Initrd (spec b))) w1) as [s w2]. cbn [fst snd] in Hg.
  destruct Hl as ((Hopen2 & _) & _ & k & ts & _ & _ & _ & _ & Hkeep).
  destruct Hok as (Hk & _ & Hids). rewrite Hids in Hg. cbn [app] in Hg.
  assert (∀ t, static_fetch t w2 = static_fetch t w) as Hf
    by (intros t; unfold static_fetch; by rewrite Hopen2, Hopen).
  eexists _, w2. split; [done|]. cbn [Kernel Cmdline Initrd].
  split_and!; [done|done|done| | |].
  - rewrite (static_File_denotes b _ (kernelPath b, str "kernel")); [by rewrite Hf|done|by left].
  - intros i path Hi. rewrite (static_File_denotes b _ (path, str "initrd." ++ Itoa (Z.of_nat i)));
      [by rewrite Hf|done|right; by exists i, path].
  - intros h Hh. destruct (Hkeep h Hh) as (_ & _ & Hids'). unfold static_BootSpec.
    pose proof (append_get nil_slice (slice_get (set_heap h w2) (Initrd (spec b))) (set_heap h w2)) as Hg'.
    destruct (append nil_slice (slice_get (set_heap h w2) (Initrd (spec b))) (set_heap h w2)) as [s' w3].
    eexists _, w3. split; [done|]. cbn [Initrd fst snd] in *. by rewrite Hg', Hids'.
Qed.

(** * Witnesses *)

Definition toy_mac : HardwareAddr := [82; 84; 0; 18; 52; 86]%gb.

Definition toy_answer : bytes :=
  Json.Encode (str "http://files/k", [str "http://files/i"; str "http://files/j"], str "quiet") ++ [10%gb].

(** Local files [k], [i0] and [i1]; an API server at [http://api] that boots
    [toy_mac]; a file server that has [http://files/k] and refuses [http://files/i]. *)
Definition toy_world : World := {|
  w_heap := ∅;
  w_next := 0;
  w_rand := mkReader (replicate 200 7%gb) None;
  w_open path :=
    if decide (path ∈ [str "k"; str "i0"; str "i1"]) then Ok (mkReader (str "contents of " ++ path) None)
    else Err (ErrNew (str "no such file or directory"));
  w_client u :=
    if decide (u = str "http://api/v1/boot/52:54:00:12:34:56")
    then Ok (mkResponse 200 (mkReader toy_answer None))
    else Ok (mkResponse 404 (mkReader [] None));
  w_get u :=
    if decide (u = str "http://files/k") then Ok (mkResponse 200 (mkReader (str "KERNEL") None))
    else Ok (mkResponse 403 (mkReader (str "go away") None));
  w_streams := 0
|}.

Definition toy_static : staticBooter :=
  (new_staticBooter (str "k") [str "i0"; str "i1"] (str "quiet") toy_world).1.

Section witnesses.
#[local] Existing Instance latin1_tables.

Lemma static_File_confined_witness :
  (static_File toy_static (str "1") toy_world).1 =
    Ok (mkReader (str "contents of i1") None, str "initrd.1") ∧
  (static_File toy_static (str "../../etc/passwd") toy_world).1 =
    (static_File toy_static (str "../../etc/passwd")
       (mkWorld ∅ 0 (w_rand toy_world)
          (λ p, if decide (p = str "../../etc/passwd") then Ok (mkReader (str "root") None)
                else w_open toy_world p) (w_client toy_world) (w_get toy_world) 0)).1.
Proof.
  split; [reflexivity|]. apply (static_File_confined toy_static).
  intros path Hp. cbn [w_open]. rewrite decide_False; [done|]. intros ->.
  revert Hp. apply (bool_decide_eq_false_1 _). reflexivity.
Defined.

Lemma StaticBooter_correct_witness :
  let '(b, w1) := StaticBooter (str "k") [str "i0"; str "i1"] (str "quiet") toy_world in
  ∃ s w2, GetBootSpec b toy_mac w1 = (Ok s, w2) ∧
    slice_get w2 (Initrd s) = [str "0"; str "1"] ∧
    (GetFile b (str "1") w2).1 = Ok (mkReader (str "contents of i1") None, str "initrd.1").
Proof.
  pose proof (StaticBooter_correct (str "k") [str "i0"; str "i1"] (str "quiet") toy_world toy_mac)
    as H.
  assert (Z.of_nat (length [str "i0"; str "i1"]) ≤ max_int)%Z as Hl by (vm_compute; discriminate).
  specialize (H Hl). destruct (StaticBooter _ _ _ toy_world) as [b w1].
  destruct H as (_ & s & w2 & Hs & _ & _ & Hids & _ & Hf & _).
  exists s, w2. split; [exact Hs|]. split; [exact Hids|]. exact (Hf 1 (str "i1") eq_refl).
Defined.

End witnesses.
