(* ===== verification/Remote.v ===== *)
(** api/api.go: the implementation [RemoteBooter] of the [Booter] interface, which
    asks an API server what to boot and fetches files from the URLs it names. *)
From S2P Require Import Prelude GoStrings GoFmt GoNet GoIO GoJson GoUrl Api.

(** * Definitions from api/api.go *)

(** NaCl's secretbox, which is not part of this repository: [box_seal m nonce key]
    and [box_open box nonce key]. *)
Class Secretbox := {
  box_seal : bytes → bytes → bytes → bytes;
  box_open : bytes → bytes → bytes → option bytes
}.

(** [http.StatusText]. *)
Definition StatusText (code : Z) : GoString :=
  match code with
  | 100%Z => str "Continue"
  | 101%Z => str "Switching Protocols"
  | 102%Z => str "Processing"
  | 103%Z => str "Early Hints"
  | 200%Z => str "OK"
  | 201%Z => str "Created"
  | 202%Z => str "Accepted"
  | 203%Z => str "Non-Authoritative Information"
  | 204%Z => str "No Content"
  | 205%Z => str "Reset Content"
  | 206%Z => str "Partial Content"
  | 207%Z => str "Multi-Status"
  | 208%Z => str "Already Reported"
  | 226%Z => str "IM Used"
  | 300%Z => str "Multiple Choices"
  | 301%Z => str "Moved Permanently"
  | 302%Z => str "Found"
  | 303%Z => str "See Other"
  | 304%Z => str "Not Modified"
  | 305%Z => str "Use Proxy"
  | 307%Z => str "Temporary Redirect"
  | 308%Z => str "Permanent Redirect"
  | 400%Z => str "Bad Request"
  | 401%Z => str "Unauthorized"
  | 402%Z => str "Payment Required"
  | 403%Z => str "Forbidden"
  | 404%Z => str "Not Found"
  | 405%Z => str "Method Not Allowed"
  | 406%Z => str "Not Acceptable"
  | 407%Z => str "Proxy Authentication Required"
  | 408%Z => str "Request Timeout"
  | 409%Z => str "Conflict"
  | 410%Z => str "Gone"
  | 411%Z => str "Length Required"
  | 412%Z => str "Precondition Failed"
  | 413%Z => str "Request Entity Too Large"
  | 414%Z => str "Request URI Too Long"
  | 415%Z => str "Unsupported Media Type"
  | 416%Z => str "Requested Range Not Satisfiable"
  | 417%Z => str "Expectation Failed"
  | 418%Z => str "I'm a teapot"
  | 421%Z => str "Misdirected Request"
  | 422%Z => str "Unprocessable Entity"
  | 423%Z => str "Locked"
  | 424%Z => str "Failed Dependency"
  | 425%Z => str "Too Early"
  | 426%Z => str "Upgrade Required"
  | 428%Z => str "Precondition Required"
  | 429%Z => str "Too Many Requests"
  | 431%Z => str "Request Header Fields Too Large"
  | 451%Z => str "Unavailable For Legal Reasons"
  | 500%Z => str "Internal Server Error"
  | 501%Z => str "Not Implemented"
  | 502%Z => str "Bad Gateway"
  | 503%Z => str "Service Unavailable"
  | 504%Z => str "Gateway Timeout"
  | 505%Z => str "HTTP Version Not Supported"
  | 506%Z => str "Variant Also Negotiates"
  | 507%Z => str "Insufficient Storage"
  | 508%Z => str "Loop Detected"
  | 510%Z => str "Not Extended"
  | 511%Z => str "Network Authentication Required"
  | _ => []
  end.

Record remoteBooter := mkRemoteBooter {
  urlPrefix : GoString;
  key : bytes
}.

Section remote.
Context `{UnicodeTables, Secretbox, JsonTexts}.

(** The checks of [getSpec] on the initrd URLs. *)
Fixpoint check_initrds (reqURL : GoString) (imgs : list GoString) : result unit :=
  match imgs with
  | [] => Ok tt
  | img :: imgs =>
      match url_Parse img with
      | Err e => Err (Errorf (str "non-url %q provided by %s for initrd: %s")
                        [AStr img; AStr reqURL; AStr (Error e)])
      | Ok u =>
          if IsAbs u then check_initrds reqURL imgs
          else Err (Errorf (str "initrd URL %q provided by %s is not absolute")
                      [AStr img; AStr reqURL])
      end
  end.

Definition spec_url (b : remoteBooter) (hw : HardwareAddr) : GoString :=
  Sprintf (str "%s/boot/%s") [AStr (urlPrefix b); AStr (HardwareAddr_String hw)].

(** [getSpec]; the body of the response is never closed. *)
Definition getSpec (b : remoteBooter) (hw : HardwareAddr) (w : World)
    : result (GoString * list GoString * GoString) * World :=
  let reqURL := spec_url b hw in
  let r :=
    resp ← w_client w reqURL;
    if decide (StatusCode resp ≠ 200%Z)
    then Err (Errorf (str "%s: %s") [AStr reqURL; AStr (StatusText (StatusCode resp))]) else
    match Json.Decode (Body resp) with
    | Err e => Err (Errorf (str "non-json response from %s: %s") [AStr reqURL; AStr (Error e)])
    | Ok (kernel, initrd, cmdline) =>
        match url_Parse kernel with
        | Err e => Err (Errorf (str "non-url %q provided by %s for kernel: %s")
                          [AStr kernel; AStr reqURL; AStr (Error e)])
        | Ok u =>
            if negb (IsAbs u)
            then Err (Errorf (str "kernel URL %q provided by %s is not absolute")
                        [AStr (URL_text u); AStr reqURL])
            else _ ← check_initrds reqURL initrd; Ok (kernel, initrd, cmdline)
        end
    end in
  (r, opened (w_client w reqURL) w).

Definition signURL (b : remoteBooter) (u : GoString) (w : World) : result GoString * World :=
  let '(nonce, err, r) := ReadFull (w_rand w) 24 in
  let w := set_rand r w in
  match err with
  | NilErr => (Ok (nonce ++ box_seal u nonce (key b)), w)
  | _ => (Err (Errorf (str "could not read randomness for signing nonce: %s")
                 [AStr (read_err_text err)]), w)
  end.

Definition getURL (b : remoteBooter) (signed : GoString) : result GoString :=
  if (length signed <? 24)%nat
  then Err (ErrNew (str "signed blob too short to be valid")) else
  match box_open (drop 24 signed) (take 24 signed) (key b) with
  | None => Err (ErrNew (str "signature verification failed"))
  | Some out => Ok out
  end.

Definition remote_ShouldBoot (b : remoteBooter) (hw : HardwareAddr) (w : World)
    : result unit * World :=
  match getSpec b hw w with (Ok _, w) => (Ok tt, w) | (Err e, w) => (Err e, w) end.

(** The loop over the initrds of [BootSpec]. *)
Fixpoint sign_initrds (b : remoteBooter) (imgs : list GoString) (s : slice_ref) (w : World)
    : result slice_ref * World :=
  match imgs with
  | [] => (Ok s, w)
  | img :: imgs =>
      match signURL b img w with
      | (Err e, w) => (Err e, w)
      | (Ok initrd, w) =>
          let '(s, w) := append s [initrd] w in
          sign_initrds b imgs s w
      end
  end.

Definition remote_BootSpec (b : remoteBooter) (hw : HardwareAddr) (w : World)
    : result BootSpec * World :=
  match getSpec b hw w with
  | (Err e, w) => (Err e, w)
  | (Ok (kernel, initrds, cmdline), w) =>
      match signURL b kernel w with
      | (Err e, w) => (Err e, w)
      | (Ok k, w) =>
          match sign_initrds b initrds nil_slice w with
          | (Err e, w) => (Err e, w)
          | (Ok s, w) => (Ok (mkBootSpec k s cmdline), w)
          end
      end
  end.

(** [File]: whatever the status of the response, its body is the file. *)
Definition remote_File (b : remoteBooter) (id : GoString) (w : World)
    : result (reader * GoString) * World :=
  match getURL b id with
  | Err e => (Err e, w)
  | Ok u =>
      match w_get w u with
      | Err e => (Err e, w)
      | Ok resp => (Ok (Body resp, u), opened (w_get w u) w)
      end
  end.

Definition remote_booter (b : remoteBooter) : Booter :=
  mkBooter (remote_ShouldBoot b) (remote_BootSpec b) (remote_File b).

(** The constructor's record, before it is wrapped as a [Booter]. *)
Definition new_remoteBooter (url : GoString) (w : World) : result remoteBooter * World :=
  let url := if HasSuffix url (str "/") then url else url ++ str "/" in
  let '(key, err, r) := ReadFull (w_rand w) 32 in
  let w := set_rand r w in
  match err with
  | NilErr => (Ok (mkRemoteBooter (url ++ str "v1") key), w)
  | _ => (Err (Errorf (str "failed to get randomness for signing key: %s")
                 [AStr (read_err_text err)]), w)
  end.

(** [RemoteBooter]. *)
Definition RemoteBooter (url : GoString) (w : World) : result Booter * World :=
  match new_remoteBooter url w with
  | (Ok b, w) => (Ok (remote_booter b), w)
  | (Err e, w) => (Err e, w)
  end.

End remote.

(** * The remote booter keeps the contract *)

(** The documented behaviour of secretbox: opening inverts sealing under the same
    nonce and key, and a box that opens is the sealed box of its message (the
    authenticator is recomputed from the ciphertext, which determines the
    message). *)
Class SecretboxLaws `{Secretbox} := {
  open_seal m n k : length n = 24 → box_open (box_seal m n k) n k = Some m;
  seal_open c m n k : length n = 24 → box_open c n k = Some m → c = box_seal m n k
}.

Section remote_laws.
Context `{UnicodeTables, Secretbox, !SecretboxLaws, JsonTexts}.
Context (b : remoteBooter).

Lemma getURL_iff id u :
  getURL b id = Ok u ↔ ∃ nonce, length nonce = 24 ∧ id = nonce ++ box_seal u nonce (key b).
Proof.
  unfold getURL. split.
  - destruct (Nat.ltb_spec (length id) 24) as [|Hl]; [done|].
    destruct (box_open (drop 24 id) (take 24 id) (key b)) as [m|] eqn:E; [|done].
    intros [= ->]. apply seal_open in E; [|rewrite length_take; lia].
    exists (take 24 id). rewrite length_take. split; [lia|].
    rewrite <- E. by rewrite take_drop.
  - intros (nonce & Hn & ->). rewrite length_app.
    destruct (Nat.ltb_spec (length nonce + length (box_seal u nonce (key b))) 24); [lia|].
    rewrite take_app_length', drop_app_length' by lia. by rewrite open_seal.
Qed.

Lemma signURL_spec u w :
  let '(r, w') := signURL b u w in
  same_env w w' ∧ w_heap w' = w_heap w ∧ w_next w' = w_next w ∧
  match r with Ok id => getURL b id = Ok u | Err _ => True end.
Proof.
  unfold signURL. destruct (ReadFull (w_rand w) 24) as [[nonce err] r] eqn:E.
  destruct err; try done. apply ReadFull_nil in E as (Hn & _ & _).
  split_and!; try done. apply getURL_iff. by exists nonce.
Qed.

(** A slice whose length field is the number of its elements. *)
Definition slice_wf (w : World) (s : slice_ref) : Prop := sl_len s = length (slice_get w s).

Lemma slice_get_heap w w' s : w_heap w' = w_heap w → slice_get w' s = slice_get w s.
Proof. unfold slice_get. by intros ->. Qed.

Lemma sign_initrds_spec imgs s w :
  slice_wf w s →
  let '(r, w') := sign_initrds b imgs s w in
  same_env w w' ∧
  match r with
  | Ok s' => slice_wf w' s' ∧ ∃ ids, slice_get w' s' = slice_get w s ++ ids ∧
               Forall2 (λ id u, getURL b id = Ok u) ids imgs
  | Err _ => True
  end.
Proof.
  revert s w. induction imgs as [|img imgs IH]; intros s w Hw; cbn [sign_initrds].
  { split; [done|]. split; [done|]. exists []. by rewrite app_nil_r. }
  pose proof (signURL_spec img w) as Hs. destruct (signURL b img w) as [r w1].
  destruct Hs as (He1 & Hh1 & _ & Hid). destruct r as [id|e]; [|done].
  pose proof (append_get s [id] w1) as Hg. pose proof (append_env s [id] w1) as He2.
  assert (slice_wf (append s [id] w1).2 (append s [id] w1).1) as Hw2.
  { unfold slice_wf. rewrite Hg. done. }
  destruct (append s [id] w1) as [s2 w2]. cbn [fst snd] in *.
  specialize (IH s2 w2 Hw2). destruct (sign_initrds b imgs s2 w2) as [r w'].
  destruct IH as (He3 & Hr). split; [eauto using same_env_trans|].
  destruct r as [s'|e]; [|done]. destruct Hr as (Hwf & ids & Hids & Hall).
  split; [done|]. exists (id :: ids). rewrite Hids, Hg, (slice_get_heap w w1) by done.
  rewrite <- app_assoc. split; [done|]. by constructor.
Qed.

Lemma opened_env {A} (r : result A) w : same_env w (opened r w).
Proof. by destruct r. Qed.

Lemma getSpec_env hw w : same_env w (getSpec b hw w).2.
Proof. apply opened_env. Qed.

Definition remote_fetch (u : GoString) (w : World) : result (reader * GoString) :=
  match w_get w u with Ok resp => Ok (Body resp, u) | Err e => Err e end.

Program Definition remote_laws : BooterLaws (remote_booter b) := {|
  target := GoString;
  fetch := remote_fetch;
  denotes id u := getURL b id = Ok u;
  plan hw w := (getSpec b hw w).1;
  booter_inv _ := True
|}.
Next Obligation. intros id u Hd ->. by unfold getURL in Hd. Qed.
Next Obligation. intros id u u' Hd Hd'. cbn in Hd, Hd'. congruence. Qed.
Next Obligation.
  intros id u w Hd. simpl. unfold remote_File, remote_fetch. rewrite Hd. by destruct (w_get w u).
Qed.
Next Obligation.
  intros id w. simpl. unfold remote_File. destruct (getURL b id) as [u|e]; [|done].
  by destruct (w_get w u) eqn:E; rewrite ?E.
Qed.
Next Obligation.
  intros hw w. cbn [ShouldBoot remote_booter]. unfold remote_ShouldBoot.
  pose proof (getSpec_env hw w) as He.
  by destruct (getSpec b hw w) as [[x|e] w'].
Qed.
Next Obligation.
  intros hw w _. cbn [GetBootSpec remote_booter]. unfold remote_BootSpec.
  pose proof (getSpec_env hw w) as He0.
  destruct (getSpec b hw w) as [[[[kernel initrds] cmdline]|e] w0] eqn:Hspec; [|done].
  cbn [snd] in He0.
  pose proof (signURL_spec kernel w0) as Hs. destruct (signURL b kernel w0) as [r w1].
  destruct Hs as (He1 & Hh1 & _ & Hk). destruct r as [k|e]; [|eauto using same_env_trans].
  pose proof (sign_initrds_spec initrds nil_slice w1 eq_refl) as Hi.
  destruct (sign_initrds b initrds nil_slice w1) as [r w2]. destruct Hi as (He2 & Hr).
  destruct r as [s|e]; cbn [fst snd]; (split; [eauto using same_env_trans|]); [|done].
  destruct Hr as (Hwf & ids & Hids & Hall). split; [done|].
  exists kernel, initrds. cbn [Kernel Initrd Cmdline]. rewrite Hids. cbn [slice_get sl_ptr nil_slice app].
  split_and!; [done|done|done| |done]. unfold slice_wf in Hwf. by rewrite Hids in Hwf.
Qed.

End remote_laws.

(** * Theorems on the remote booter *)

Section remote_theorems.
Context `{UnicodeTables, Secretbox, JsonTexts}.

Lemma signURL_streams b u w : w_streams (signURL b u w).2 = w_streams w.
Proof. unfold signURL. by destruct (ReadFull (w_rand w) 24) as [[n []] r]. Qed.

Lemma sign_initrds_streams b imgs s w : w_streams (sign_initrds b imgs s w).2 = w_streams w.
Proof.
  revert s w. induction imgs as [|img imgs IH]; intros s w; cbn [sign_initrds]; [done|].
  pose proof (signURL_streams b img w) as Hs. destruct (signURL b img w) as [[id|e] w1]; [|done].
  cbn [snd] in Hs. destruct (append s [id] w1) as [s2 w2] eqn:Ea. rewrite IH, <- Hs.
  injection Ea as _ <-. done.
Qed.

Definition absolute (u : GoString) : Prop := ∃ p, url_Parse u = Ok p ∧ IsAbs p = true.

Lemma check_initrds_ok reqURL imgs :
  check_initrds reqURL imgs = Ok tt ↔ Forall absolute imgs.
Proof.
  unfold absolute. induction imgs as [|img imgs IH]; cbn [check_initrds]; [done|].
  rewrite Forall_cons, <- IH. destruct (url_Parse img) as [u|e]; [|naive_solver].
  destruct (IsAbs u) eqn:Eu.
  - split; [eauto|by intros [_ ?]].
  - split; [done|]. intros [(p & [= <-] & Hp) _]. congruence.
Qed.

Lemma spec_url_text b hw :
  spec_url b hw = urlPrefix b ++ str "/boot/" ++ HardwareAddr_String hw.
Proof. unfold spec_url. simpl. by rewrite app_nil_r. Qed.

Lemma getSpec_iff b hw w kernel initrds cmdline :
  (getSpec b hw w).1 = Ok (kernel, initrds, cmdline) ↔
  ∃ resp, w_client w (urlPrefix b ++ str "/boot/" ++ HardwareAddr_String hw) = Ok resp ∧
    StatusCode resp = 200%Z ∧ Json.Decode (Body resp) = Ok (kernel, initrds, cmdline) ∧
    Forall absolute (kernel :: initrds).
Proof.
  unfold getSpec. rewrite spec_url_text. set (reqURL := urlPrefix b ++ _). cbn [fst]. split.
  - destruct (w_client w reqURL) as [resp|e]; [|done]. cbn [mbind result_bind].
    case_decide as Hst; [done|].
    destruct (Json.Decode (Body resp)) as [[[k ims] c]|e] eqn:Ej; [|done].
    destruct (url_Parse k) as [u|e] eqn:Eu; [|done]. destruct (IsAbs u) eqn:Ea; [|done].
    pose proof (check_initrds_ok reqURL ims) as Hci.
    destruct (check_initrds reqURL ims) as [[]|e]; [|done]. intros [= <- <- <-].
    exists resp. split_and!; [done..|]. apply Forall_cons. split; [by exists u|by apply Hci].
  - intros (resp & -> & Hst & Hj & Hall). apply Forall_cons in Hall as [(u & Hu & Ha) Hall].
    cbn [mbind result_bind]. rewrite decide_False by auto. rewrite Hj, Hu, Ha. simpl.
    by rewrite (proj2 (check_initrds_ok reqURL initrds) Hall).
Qed.

(** C27: the remote booter boots a machine exactly when the API server answers the
    request for [<prefix>/boot/<mac>] with status 200 and a JSON object all of
    whose URLs (the kernel's and every initrd's) parse and are absolute, and then
    it boots what the object says. *)
Theorem getSpec_correct b hw w kernel initrds cmdline :
  (getSpec b hw w).1 = Ok (kernel, initrds, cmdline) ↔
  ∃ resp, w_client w (urlPrefix b ++ str "/boot/" ++ HardwareAddr_String hw) = Ok resp ∧
    StatusCode resp = 200%Z ∧ Json.Decode (Body resp) = Ok (kernel, initrds, cmdline) ∧
    Forall absolute (kernel :: initrds).
Proof. apply getSpec_iff. Qed.

(** C21: an answer of the API server that is not what the protocol asks for boots
    nothing: a kernel or an initrd URL that starts with a slash, as in one of the
    example answers of README.api.md, is refused; and whatever JSON object an API server
    sends, in any formatting, an answer that loses its end before the closing brace of
    the object (lost are the bytes [t], the object is followed by [rest]) is refused,
    while one that loses only bytes after the brace is taken for the whole. *)
Theorem getSpec_refuses b hw w body :
  w_client w (urlPrefix b ++ str "/boot/" ++ HardwareAddr_String hw) = Ok (mkResponse 200 body) →
  (∀ kernel initrds cmdline url, Json.Decode body = Ok (kernel, initrds, cmdline) →
     url ∈ kernel :: initrds → HasPrefix url (str "/") = true → is_ok (getSpec b hw w).1 = false) ∧
  (∀ t ms rest,
     Json.scan (Json.MBegin, []) (rd_data body ++ t) = Json.ODone (Json.JObj ms) rest →
     (length rest < length t → is_ok (getSpec b hw w).1 = false) ∧
     (length t ≤ length rest → ∀ kernel initrds cmdline,
        (getSpec b hw w).1 = Ok (kernel, initrds, cmdline) ↔
        Json.Decode (mkReader (rd_data body ++ t) (rd_end body)) = Ok (kernel, initrds, cmdline) ∧
        Forall absolute (kernel :: initrds))).
Proof.
  intros Hr.
  assert (∀ kernel initrds cmdline, (getSpec b hw w).1 = Ok (kernel, initrds, cmdline) ↔
    Json.Decode body = Ok (kernel, initrds, cmdline) ∧ Forall absolute (kernel :: initrds)) as Hget.
  { intros kernel initrds cmdline. rewrite getSpec_iff, Hr. split; [|by eexists].
    intros (resp & [= <-] & _ & Hj & Hall). done. }
  split; [|intros t ms rest Hs; split; intros Ht].
  - intros kernel initrds cmdline url Hd Hin Hrel.
    destruct (getSpec b hw w).1 as [[[k ims] c]|e]; [|done]. exfalso.
    destruct (proj1 (Hget k ims c) eq_refl) as [Hj Hall]. rewrite Hd in Hj. injection Hj as <- <- _.
    rewrite Forall_forall in Hall. destruct (Hall url Hin) as (p & Hp & Ha).
    apply (url_Parse_absolute _ _ Hp) in Ha as (sch & rest & -> & Hv & _).
    apply bool_decide_eq_true in Hrel. destruct sch as [|c0 sch]; [done|]. by injection Hrel as ->.
  - destruct (getSpec b hw w).1 as [[[k ims] c]|e]; [|done]. exfalso.
    destruct (proj1 (Hget k ims c) eq_refl) as [Hj _]. destruct body as [data re].
    by rewrite (Json.Decode_cut ms rest data t re Hs Ht) in Hj.
  - intros kernel initrds cmdline. rewrite Hget. destruct body as [data re].
    by rewrite (Json.Decode_trim ms rest data t re re _ Hs Ht).
Qed.

(** C40: every answer of the API server costs an open connection: [getSpec] does not
    close the body of the response, whatever the answer was, so that each discovery
    and each configuration request in API mode leaves one more stream open. *)
Theorem getSpec_leaks b hw w resp :
  w_client w (urlPrefix b ++ str "/boot/" ++ HardwareAddr_String hw) = Ok resp →
  w_streams (remote_ShouldBoot b hw w).2 = S (w_streams w) ∧
  w_streams (remote_BootSpec b hw w).2 = S (w_streams w).
Proof.
  intros Hr. assert (w_streams (getSpec b hw w).2 = S (w_streams w)) as Hs.
  { unfold getSpec. cbn [snd]. by rewrite spec_url_text, Hr. }
  unfold remote_ShouldBoot, remote_BootSpec.
  destruct (getSpec b hw w) as [[[[k ims] c]|e] w0]; cbn [snd] in *; (split; [done|]); [|done].
  pose proof (signURL_streams b k w0) as Hk. destruct (signURL b k w0) as [[id|e] w1]; cbn [snd] in *; [|lia].
  pose proof (sign_initrds_streams b ims nil_slice w1) as Hi.
  destruct (sign_initrds b ims nil_slice w1) as [[s|e] w2]; cbn [snd] in *; lia.
Qed.

(** [RemoteBooter] fails exactly when it cannot read 32 bytes of key; the
    booter it makes asks [<url>/v1/boot/<mac>], with one slash after the URL
    whether it ends in a slash or not. *)
Lemma new_remoteBooter_correct url w :
  match (new_remoteBooter url w).1 with
  | Ok b =>
      length (key b) = 32 ∧ rd_data (w_rand w) = key b ++ rd_data (w_rand (new_remoteBooter url w).2) ∧
      ∀ hw base, url = base ∨ url = base ++ str "/" → HasSuffix base (str "/") = false →
        spec_url b hw = base ++ str "/v1/boot/" ++ HardwareAddr_String hw
  | Err _ => length (rd_data (w_rand w)) < 32
  end.
Proof.
  unfold new_remoteBooter. destruct (ReadFull (w_rand w) 32) as [[k err] r] eqn:E.
  destruct err; cbn [fst snd].
  2-4: unfold ReadFull in E; destruct (Nat.leb_spec 32 (length (rd_data (w_rand w)))); [done|lia].
  apply ReadFull_nil in E as (Hk & Hd & _). split_and!; [done|done|].
  intros hw base Hurl Hbase. rewrite spec_url_text. cbn [urlPrefix].
  destruct Hurl as [->| ->].
  - rewrite Hbase. by rewrite <- !app_assoc.
  - assert (HasSuffix (base ++ str "/") (str "/") = true) as ->.
    { apply bool_decide_eq_true. rewrite length_app. split; [lia|].
      apply drop_app_length'. lia. }
    by rewrite <- !app_assoc.
Qed.

Context `{!SecretboxLaws}.

(** C24: [File] of the remote booter is not an open proxy: it fetches a URL only
    for an id that is a 24-byte nonce followed by the box sealed with the booter's
    own key, and the URL it fetches is the one sealed in; every other id is
    refused without a request. *)
Theorem remote_File_authentic b id w f u :
  (remote_File b id w).1 = Ok (f, u) ↔
  ∃ nonce resp, length nonce = 24 ∧ id = nonce ++ box_seal u nonce (key b) ∧
    w_get w u = Ok resp ∧ f = Body resp.
Proof.
  unfold remote_File. pose proof (getURL_iff b id) as Hiff. split.
  - destruct (getURL b id) as [u'|e]; [|done]. destruct (Hiff u') as [Hi _].
    destruct (Hi eq_refl) as (nonce & Hn & Hid).
    destruct (w_get w u') as [resp|e] eqn:Eg; [|done]. intros [= <- <-]. eauto 10.
  - intros (nonce & resp & Hn & Hid & Hg & ->).
    rewrite (proj2 (Hiff u)) by eauto. by rewrite Hg.
Qed.

Lemma getSpec_rand b hw w : w_rand (getSpec b hw w).2 = w_rand w.
Proof. unfold getSpec. cbn [snd]. by destruct (w_client w (spec_url b hw)). Qed.

Lemma signURL_ok b u w :
  24 ≤ length (rd_data (w_rand w)) →
  ∃ id w', signURL b u w = (Ok id, w') ∧ getURL b id = Ok u ∧
    rd_data (w_rand w') = drop 24 (rd_data (w_rand w)).
Proof.
  intros Hr. unfold signURL. rewrite ReadFull_full by done. eexists _, _. split; [done|].
  split; [|done]. apply getURL_iff. eexists. split; [|done]. rewrite length_take. lia.
Qed.

Lemma sign_initrds_ok b imgs s w :
  24 * length imgs ≤ length (rd_data (w_rand w)) →
  ∃ s' w', sign_initrds b imgs s w = (Ok s', w').
Proof.
  revert s w. induction imgs as [|img imgs IH]; intros s w Hr; cbn [sign_initrds]; [eauto|].
  cbn [length] in Hr. destruct (signURL_ok b img w) as (id & w1 & -> & _ & Hd); [lia|].
  destruct (append s [id] w1) as [s2 w2] eqn:Ea. apply IH.
  injection Ea as <- <-. cbn [w_rand]. rewrite Hd, length_drop. lia.
Qed.

Lemma remote_BootSpec_ok b hw w kernel initrds cmdline :
  (getSpec b hw w).1 = Ok (kernel, initrds, cmdline) →
  24 * S (length initrds) ≤ length (rd_data (w_rand w)) →
  ∃ s w', remote_BootSpec b hw w = (Ok s, w').
Proof.
  intros Hspec Hr. unfold remote_BootSpec. pose proof (getSpec_rand b hw w) as Hrand.
  destruct (getSpec b hw w) as [r0 w0]. cbn [fst snd] in *. subst r0. rewrite <- Hrand in Hr.
  destruct (signURL_ok b kernel w0) as (k & w1 & -> & _ & Hd); [lia|].
  destruct (sign_initrds_ok b initrds nil_slice w1) as (s & w2 & ->);
    [rewrite Hd, length_drop; lia|]. eauto.
Qed.

(** C28: when the API server says what to boot and there is randomness for one
    nonce per URL, [BootSpec] succeeds, and [File] later turns each of its ids
    back into a request for the URL the API server gave. *)
Theorem remote_BootSpec_complete b hw w kernel initrds cmdline :
  (getSpec b hw w).1 = Ok (kernel, initrds, cmdline) →
  24 * S (length initrds) ≤ length (rd_data (w_rand w)) →
  ∃ s w', remote_BootSpec b hw w = (Ok s, w') ∧ Cmdline s = cmdline ∧
    (∀ w'', (remote_File b (Kernel s) w'').1 = remote_fetch kernel w'') ∧
    Forall2 (λ id u, ∀ w'', (remote_File b id w'').1 = remote_fetch u w'')
      (slice_get w' (Initrd s)) initrds.
Proof.
  intros Hspec Hr. pose proof (@bootspec_law _ (remote_laws b) hw w I) as Hlaw.
  destruct (remote_BootSpec_ok b hw w _ _ _ Hspec Hr) as (s & w' & Hs).
  cbn [remote_booter GetBootSpec] in Hlaw. rewrite Hs in Hlaw.
  destruct Hlaw as (_ & _ & k & ts & Hplan & Hdk & Hall & _).
  change (@plan _ (remote_laws b) hw w) with (getSpec b hw w).1 in Hplan.
  rewrite Hspec in Hplan. injection Hplan as <- <- Hc. exists s, w'. split; [done|]. split; [done|]. split.
  - intros w''. exact (@file_law _ (remote_laws b) _ _ w'' Hdk).
  - eapply Forall2_impl; [exact Hall|]. intros id u Hid w''.
    exact (@file_law _ (remote_laws b) _ _ w'' Hid).
Qed.

(** A file that the remote server refuses to give is served as if it had been
    given: [File] returns the body of the error page, whatever the status. *)
Lemma remote_File_ignores_status b id u w code body :
  getURL b id = Ok u → w_get w u = Ok (mkResponse code body) →
  (remote_File b id w).1 = Ok (body, u).
Proof. intros Hu Hg. unfold remote_File. by rewrite Hu, Hg. Qed.

End remote_theorems.

(** * Witnesses

    A box that prefixes the key to the message satisfies the laws of secretbox
    (and hides nothing). *)

Definition toy_box : Secretbox := {|
  box_seal m n k := k ++ m;
  box_open c n k := if decide (take (length k) c = k) then Some (drop (length k) c) else None
|}.

Lemma toy_box_laws : @SecretboxLaws toy_box.
Proof.
  split.
  - intros m n k _. simpl. rewrite take_app_length, decide_True by done.
    by rewrite drop_app_length.
  - intros c m n k _. simpl. case_decide as Hk; [|done]. intros [= <-].
    by rewrite <- (take_drop (length k) c) at 1; rewrite Hk.
Qed.

Definition toy_remote : remoteBooter := mkRemoteBooter (str "http://api/v1") (replicate 32 7%gb).

Section witnesses.
#[local] Existing Instance latin1_tables.
#[local] Existing Instance toy_box.
#[local] Existing Instance toy_box_laws.
#[local] Existing Instance toy_texts.

Lemma new_remoteBooter_correct_witness :
  ∃ b w', new_remoteBooter (str "http://api/") toy_world = (Ok b, w') ∧
    spec_url b toy_mac = str "http://api/v1/boot/52:54:00:12:34:56".
Proof.
  pose proof (new_remoteBooter_correct (str "http://api/") toy_world) as H.
  destruct (new_remoteBooter (str "http://api/") toy_world) as [[b|e] w'] eqn:E;
    [|vm_compute in E; discriminate].
  cbn [fst snd] in H. destruct H as (_ & _ & H). exists b, w'. split; [reflexivity|].
  exact (H toy_mac (str "http://api") (or_intror eq_refl) eq_refl).
Defined.

Lemma remote_File_authentic_witness :
  (remote_File toy_remote
     (replicate 24 1%gb ++ replicate 32 7%gb ++ str "http://files/k") toy_world).1 =
    Ok (mkReader (str "KERNEL") None, str "http://files/k").
Proof.
  apply remote_File_authentic.
  exists (replicate 24 1%gb), (mkResponse 200 (mkReader (str "KERNEL") None)).
  split_and!; reflexivity.
Defined.

Lemma remote_BootSpec_complete_witness :
  ∃ s w', remote_BootSpec
            toy_remote toy_mac toy_world = (Ok s, w') ∧ Cmdline s = str "quiet".
Proof.
  destruct (remote_BootSpec_complete toy_remote toy_mac toy_world
    (str "http://files/k") [str "http://files/i"; str "http://files/j"] (str "quiet"))
    as (s & w' & Hs & Hc & _); [reflexivity|apply Nat.leb_le; reflexivity|].
  exists s, w'. split; [exact Hs|exact Hc].
Defined.

(** The second example answer of README.api.md. *)
Definition readme_answer : bytes := quoted (str "{
  'kernel': '/kernel',
  'initrd': ['/initrd.0', '/initrd.1']
}
").

(** An API server that always gives the same answer. *)
Definition answering (body : bytes) : World :=
  mkWorld ∅ 0 (w_rand toy_world) (w_open toy_world)
    (λ _, Ok (mkResponse 200 (mkReader body None))) (w_get toy_world) 0.

(** An indented answer, which ends in a newline; its first 63 bytes lack the brace and the newline. *)
Definition pretty_answer : bytes := quoted (str "{
  'kernel': 'http://files/k',
  'initrd': ['http://files/i']
}
").

Lemma getSpec_refuses_witness :
  is_ok (getSpec toy_remote toy_mac (answering readme_answer)).1 = false ∧
  is_ok (getSpec toy_remote toy_mac (answering (take 63 pretty_answer))).1 = false.
Proof.
  split.
  - eapply (proj1 (getSpec_refuses toy_remote toy_mac (answering readme_answer)
      (mkReader readme_answer None) eq_refl)
      (str "/kernel") [str "/initrd.0"; str "/initrd.1"] [] (str "/kernel")); [reflexivity| |reflexivity].
    by left.
  - refine (proj1 (proj2 (getSpec_refuses toy_remote toy_mac (answering (take 63 pretty_answer))
      (mkReader (take 63 pretty_answer) None) eq_refl)
      (drop 63 pretty_answer)
      [(str "kernel", Json.JStr (str "http://files/k")); (str "initrd", Json.JArr [Json.JStr (str "http://files/i")])]
      [10%gb] _) _).
    + reflexivity.
    + apply Nat.ltb_lt. reflexivity.
Defined.

Lemma getSpec_leaks_witness :
  w_streams (remote_BootSpec toy_remote toy_mac toy_world).2 = 1.
Proof.
  destruct (getSpec_leaks toy_remote toy_mac toy_world
    (mkResponse 200 (mkReader toy_answer None)))
    as [_ H]; [reflexivity|exact H].
Defined.

Lemma remote_File_ignores_status_witness :
  (remote_File toy_remote
     (replicate 24 1%gb ++ replicate 32 7%gb ++ str "http://files/i") toy_world).1 =
  Ok (mkReader (str "go away") None, str "http://files/i").
Proof. apply (remote_File_ignores_status _ _ _ _ 403%Z); reflexivity. Defined.

End witnesses.
