(* ===== verification/DhcpServer.v ===== *)
(** dhcp/dhcp.go, the loop [ServeProxyDHCP], and its theorems against the contract
    of the booter it consults. *)
From S2P Require Import Prelude GoStrings GoFmt GoNet Dhcp Logging Udp Api.

(** * Definitions from dhcp/dhcp.go *)

(** [net.IPv4bcast], in its 16-byte form. *)
Definition net_IPv4bcast : IP := v4InV6Prefix ++ IPv4bcast.

(** An event of the loop: the socket's part, and the world in which the booter is
    asked; the loop itself keeps no part of the world. *)
Record dhcp_event := mkDhcpEvent {
  de_udp : udp_event;
  de_world : World
}.

Section serve.
Context `{UnicodeTables} (byIndex : Z → result Interface) (booter : Booter).

Definition ServeProxyDHCP_step (buf : bytes) (ev : dhcp_event) : go (bytes * list udp_action) :=
  match ev_read (de_udp ev) with
  | Err e =>
      Ret (buf, [ALog (Log (str "ProxyDHCP") (str "Error reading from socket: %s") [AStr (Error e)])])
  | Ok (d, msg, addr) =>
      let '(buf, n) := read_into buf d in
      match addr with
      | OtherAddr _ => Panic
      | UDPAddr _ port =>
          let udpAddr := UDPAddr net_IPv4bcast port in
          pkt ← slice buf 0 n;
          req ← ParseDHCP pkt;
          match req with
          | Err e => Ret (buf, [ALog (Debug (str "ProxyDHCP") (str "ParseDHCP: %s") [AStr (Error e)])])
          | Ok req =>
              let mac := AStr (HardwareAddr_String (MAC req)) in
              match (ShouldBoot booter (MAC req) (de_world ev)).1 with
              | Err e =>
                  Ret (buf, [ALog (Debug (str "ProxyDHCP") (str "Not offering to boot %s: %s")
                                     [mac; AStr (Error e)])])
              | Ok _ =>
                  match msg with
                  | None => Panic
                  | Some ifIndex =>
                      match InterfaceIP byIndex ifIndex with
                      | Err e =>
                          Ret (buf, [ALog (Log (str "ProxyDHCP")
                            (str "Couldn't find an IP address to use to reply to %s: %s")
                            [mac; AStr (Error e)])])
                      | Ok ip =>
                          let req := set_ServerIP ip req in
                          let log := ALog (Log (str "ProxyDHCP") (str "Offering to boot %s (via %s)")
                            [mac; AStr (IP_String ip)]) in
                          let write := AWriteTo (OfferDHCP req) ifIndex udpAddr in
                          match ev_write (de_udp ev) with
                          | Ok _ => Ret (buf, [log; write])
                          | Err e => Ret (buf, [log; write;
                              ALog (Log (str "ProxyDHCP") (str "Responding to %s: %s")
                                      [mac; AStr (Error e)])])
                          end
                      end
                  end
              end
          end
      end
  end.

(** [ServeProxyDHCP]: [listen] is the result of [net.ListenPacket], [setcm] that
    of [SetControlMessage]. *)
Definition ServeProxyDHCP (port : Z) (listen setcm : result unit) (events : list dhcp_event)
    : server_run bytes udp_action :=
  match listen, setcm with
  | Err e, _ => Returned e
  | Ok _, Err e => Returned e
  | Ok _, Ok _ =>
      serve_loop ServeProxyDHCP_step (replicate 1024 0%gb)
        [ALog (Log (str "ProxyDHCP") (str "Listening on port %d") [AInt port])] events
  end.

End serve.

(** * Theorems *)

(** What a UDP socket that was asked for control messages delivers: a peer that is
    a UDP address, and the index of the interface. *)
Definition udp_read (ev : dhcp_event) : Prop :=
  match ev_read (de_udp ev) with
  | Ok (_, msg, addr) => (∃ i, msg = Some i) ∧ ∃ ip port, addr = UDPAddr ip port
  | Err _ => True
  end.

Section serve_theorems.
Context `{UnicodeTables} (byIndex : Z → result Interface) (booter : Booter).

(** What one event makes the server do, run on a fresh buffer. *)
Definition DHCP_actions (ev : dhcp_event) : list udp_action :=
  match ServeProxyDHCP_step byIndex booter (replicate 1024 0%gb) ev with
  | Ret (_, acts) => acts
  | _ => []
  end.

Lemma ServeProxyDHCP_step_stateless buf ev :
  length buf = 1024 → udp_read ev →
  ∃ buf', ServeProxyDHCP_step byIndex booter buf ev = Ret (buf', DHCP_actions ev) ∧
    length buf' = 1024.
Proof.
  unfold DHCP_actions, ServeProxyDHCP_step, udp_read. intros Hbuf.
  destruct (ev_read (de_udp ev)) as [[[d msg] addr]|e]; [|by eexists].
  intros ([i ->] & ip & port & ->).
  pose proof (slice_read_into buf d) as H1. pose proof (length_read_into buf d) as H2.
  pose proof (slice_read_into (replicate 1024 0%gb) d) as H3.
  destruct (read_into buf d) as [buf' n], (read_into (replicate 1024 0%gb) d) as [buf0 n0].
  cbn [fst snd] in *. rewrite length_replicate, <- Hbuf in H3. rewrite H1, H3. cbn [mbind go_bind].
  destruct (ParseDHCP_returns (take (length buf) d)) as [r ->]. cbn [mbind go_bind].
  destruct r as [req|e]; [|eexists; split; [done|lia]].
  destruct (ShouldBoot booter (MAC req) (de_world ev)).1; [|eexists; split; [done|lia]].
  destruct (InterfaceIP byIndex i); [|eexists; split; [done|lia]].
  destruct (ev_write (de_udp ev)); (eexists; split; [done|lia]).
Qed.

(** Once listening, the ProxyDHCP server never stops: on every sequence of
    socket events, malformed datagrams, refusals and socket errors included, it
    performs in order the actions each event calls for on its own, whatever
    earlier datagrams left in the buffer. *)
Lemma ServeProxyDHCP_serves port events :
  Forall udp_read events →
  ∃ buf, ServeProxyDHCP byIndex booter port (Ok tt) (Ok tt) events =
    Serving buf (ALog (Log (str "ProxyDHCP") (str "Listening on port %d") [AInt port]) ::
                 flat_map DHCP_actions events).
Proof.
  intros Hev. destruct (serve_loop_stateless (ServeProxyDHCP_step byIndex booter)
    (λ buf, length buf = 1024) udp_read DHCP_actions (replicate 1024 0%gb)
    [ALog (Log (str "ProxyDHCP") (str "Listening on port %d") [AInt port])] events)
    as (buf & Hrun & _); [|done|done|].
  - intros. by apply ServeProxyDHCP_step_stateless.
  - exists buf. apply Hrun.
Qed.

Context `{L : !BooterLaws booter}.

(** The offers of an event, in terms of the specification of discoveries and of
    the booter's plan. *)
Definition offered (ev : dhcp_event) (payload : bytes) (i : Z) (dst : Addr) : Prop :=
  ∃ d ip0 port req ip,
    ev_read (de_udp ev) = Ok (d, Some i, UDPAddr ip0 port) ∧
    pxe_discover (take 1024 d) req ∧ is_ok (plan (MAC req) (de_world ev)) = true ∧
    InterfaceIP byIndex i = Ok ip ∧
    payload = OfferDHCP (set_ServerIP ip req) ∧ wf_packet (set_ServerIP ip req) ∧
    dst = UDPAddr net_IPv4bcast port.

Lemma DHCP_offers_iff ev payload i dst :
  AWriteTo payload i dst ∈ DHCP_actions ev ↔ offered ev payload i dst.
Proof.
  unfold offered, DHCP_actions, ServeProxyDHCP_step.
  destruct (ev_read (de_udp ev)) as [[[d msg] addr]|e]; [|split; [set_solver|naive_solver]].
  pose proof (slice_read_into (replicate 1024 0%gb) d) as H3.
  destruct (read_into (replicate 1024 0%gb) d) as [buf0 n0]. cbn [fst snd] in *.
  rewrite length_replicate in H3. destruct addr as [ip0 port|]; [|split; [set_solver|naive_solver]].
  rewrite H3. cbn [mbind go_bind].
  destruct (ParseDHCP_returns (take 1024 d)) as [r Hr]. rewrite Hr. cbn [mbind go_bind]. split.
  - destruct r as [req|e]; [|set_solver].
    pose proof (shouldboot_law (MAC req) (de_world ev)) as [_ Hsb].
    destruct (ShouldBoot booter (MAC req) (de_world ev)).1 as [u|e]; [|set_solver].
    destruct msg as [j|]; [|set_solver].
    destruct (InterfaceIP byIndex j) as [ip|e] eqn:Hip; [|set_solver]. intros Hin.
    assert (j = i ∧ dst = UDPAddr net_IPv4bcast port ∧ payload = OfferDHCP (set_ServerIP ip req))
      as (-> & -> & ->) by (destruct (ev_write (de_udp ev)); set_solver).
    exists d, ip0, port, req, ip. pose proof (InterfaceIP_length _ _ _ Hip).
    split_and!; try done; [by apply ParseDHCP_iff|by eapply ParseDHCP_wf].
  - intros (d' & ip' & port' & req & ip & [= <- -> <- <-] & Hpd & Hok & Hip & -> & _ & ->).
    apply ParseDHCP_iff in Hpd. rewrite Hr in Hpd. simplify_eq.
    pose proof (shouldboot_law (MAC req) (de_world ev)) as [_ Hsb]. rewrite Hok in Hsb.
    destruct (ShouldBoot booter (MAC req) (de_world ev)).1 as [u|e]; [|done].
    rewrite Hip. destruct (ev_write (de_udp ev)); set_solver.
Qed.

(** C9: the ProxyDHCP server sends a packet exactly when a PXE discovery arrives
    for a machine the booter plans to boot, on an interface with a usable address;
    the packet is the offer for that discovery and that address, well formed,
    broadcast to the client's port on the interface the discovery came in on. *)
Theorem ServeProxyDHCP_offers ev payload i dst :
  AWriteTo payload i dst ∈ DHCP_actions ev ↔ offered ev payload i dst.
Proof. apply DHCP_offers_iff. Qed.

End serve_theorems.

(** * Witnesses *)

Section witnesses.
#[local] Existing Instance latin1_tables.

Definition toy_dhcp_event : dhcp_event :=
  mkDhcpEvent (mkUdpEvent (Ok (toy_discover, Some 3%Z, UDPAddr [0; 0; 0; 0]%gb 68)) (Ok tt)) toy_world.

Lemma ServeProxyDHCP_offers_witness :
  AWriteTo (OfferDHCP toy_packet) 3 (UDPAddr net_IPv4bcast 68) ∈
    DHCP_actions toy_interfaces (static_booter toy_static) toy_dhcp_event.
Proof.
  apply (@ServeProxyDHCP_offers _ _ _ (static_laws toy_static ltac:(vm_compute; discriminate))).
  exists toy_discover, [0; 0; 0; 0]%gb, 68%Z, (mkDHCPPacket (TID toy_packet) (MAC toy_packet)
    (Some (replicate 16 9%gb)) []), [10; 0; 0; 1]%gb.
  split; [reflexivity|]. split; [|split; [reflexivity|]; split; [reflexivity|]; split; [reflexivity|]].
  - apply ParseDHCP_iff. vm_compute. reflexivity.
  - split; [|reflexivity]. split; [reflexivity|]. split; [reflexivity|].
    split; [|reflexivity]. by exists (replicate 16 9%gb).
Defined.

End witnesses.
