(* ===== verification/Http.v ===== *)
(** http/http.go: the three handlers, the routing of [net/http]'s [ServeMux] in
    front of them, and [ServeHTTP]. *)
From S2P Require Import Prelude GoStrings GoFmt GoNet GoIO Base64 Logging GoHttp Api.

(** * Definitions from http/http.go *)

Definition bootFromDisk : GoString := str "
DEFAULT local
LABEL local
LOCALBOOT 0
".

Definition limerick : GoString := str "
	        There once was a protocol called PXE,
	        Whose specification was overly tricksy.
	        A committee refined it,
	        Into a big Turing tarpit,
	        And now you're using it to boot your PC.
".

Record httpServer := mkHttpServer {
  booter : Booter;
  ldlinux : bytes;
  http_key : bytes
}.

(** ["f/" + base64.URLEncoding.EncodeToString(id)]. *)
Definition file_ref (id : GoString) : GoString := str "f/" ++ EncodeToString id.

(** The loop [for i := range spec.Initrd], which overwrites the slice in place. *)
Fixpoint encode_initrds (n i : nat) (s : slice_ref) (w : World) : World :=
  match n with
  | O => w
  | S n =>
      let id := default [] (slice_get w s !! i) in
      encode_initrds n (S i) s (slice_set s i (file_ref id) w)
  end.

Section handlers.
Context `{UnicodeTables}.

Definition Ldlinux (s : httpServer) (r : request) : ResponseWriter * list LogEntry :=
  let n := AInt (Z.of_nat (length (ldlinux s))) in
  let w := set_header (str "Content-Type") (str "application/octet-stream") new_response in
  (write (ldlinux s) w,
   [Debug (str "HTTP") (str "Starting send of ldlinux.c32 to %s (%d bytes)") [AStr (RemoteAddr r); n];
    Log (str "HTTP") (str "Sent ldlinux.c32 to %s (%d bytes)") [AStr (RemoteAddr r); n]]).

(** The text of the pxelinux configuration. *)
Definition config_text (kernel : GoString) (initrds : list GoString) (cmdline : GoString)
    : GoString :=
  Sprintf (str "
SAY %s
DEFAULT linux
LABEL linux
LINUX %s
APPEND initrd=%s %s
") [AStr (Replace limerick 10%gb (str "
SAY ")); AStr kernel; AStr (Join initrds (str ",")); AStr cmdline].

Definition PxelinuxConfig (s : httpServer) (r : request) (wd : World)
    : ResponseWriter * list LogEntry * World :=
  let w := set_header (str "Content-Type") (str "text/plain") new_response in
  let macStr := Base (URL_Path r) in
  let errStr := Sprintf (str "%s requested a pxelinux config from URL %q, which does not include a MAC address")
                  [AStr (RemoteAddr r); AStr (URL_String r)] in
  if negb (HasPrefix macStr (str "01-"))
  then (http_Error (str "Missing MAC address in request") 400 w,
        [Debug (str "HTTP") errStr []], wd) else
  match ParseMAC (drop 3 macStr) with
  | None => (http_Error (str "Malformed MAC address in request") 400 w,
             [Debug (str "HTTP") errStr []], wd)
  | Some mac =>
      let who := [AStr (HardwareAddr_String mac); AStr (RemoteAddr r)] in
      match GetBootSpec (booter s) mac wd with
      | (Err e, wd) =>
          (write bootFromDisk w,
           [Debug (str "HTTP")
              (str "Telling pxelinux on %s (%s) to boot from disk because of API server verdict: %s")
              (who ++ [AStr (Error e)])], wd)
      | (Ok spec, wd) =>
          let kernel := file_ref (Kernel spec) in
          let wd := encode_initrds (sl_len (Initrd spec)) 0 (Initrd spec) wd in
          let cfg := config_text kernel (slice_get wd (Initrd spec)) (Cmdline spec) in
          (write cfg w, [Log (str "HTTP") (str "Sent pxelinux config to %s (%s)") who], wd)
      end
  end.

Definition File (s : httpServer) (r : request) (wd : World)
    : ResponseWriter * list LogEntry * World :=
  let encodedID := Base (URL_Path r) in
  match DecodeString encodedID with
  | None => (http_Error (str "Malformed file ID") 400 new_response,
             [Log (str "http") (str "Bad base64 encoding for URL %q from %s: %s")
                [AStr (URL_String r); AStr (RemoteAddr r);
                 AStr (corrupt_input_text encodedID)]], wd)
  | Some id =>
      match GetFile (booter s) id wd with
      | (Err e, wd) =>
          (http_Error (str "Couldn't get byte stream") 500 new_response,
           [Log (str "HTTP") (str "Couldn't get byte stream for %q from %s: %s")
              [AStr (URL_String r); AStr (RemoteAddr r); AStr (Error e)]], wd)
      | (Ok (f, pretty), wd) =>
          let w := set_header (str "Content-Type") (str "application/octet-stream") new_response in
          let '(data, err) := Copy f in
          (write data w,
           match err with
           | Some e => [Log (str "HTTP") (str "Error serving %s to %s: %s")
                          [AStr pretty; AStr (RemoteAddr r); AStr (Error e)]]
           | None => [Log (str "HTTP") (str "Sent %s to %s (%d bytes)")
                        [AStr pretty; AStr (RemoteAddr r); AInt (Z.of_nat (length data))]]
           end, closed wd)
      end
  end.

End handlers.

(** * ServeHTTP *)

Inductive handler := HLdlinux | HPxelinuxConfig | HFile.

#[export] Instance handler_eq_dec : EqDecision handler.
Proof. solve_decision. Defined.

(** The three [http.HandleFunc] registrations of [ServeHTTP]. *)
Definition patterns : list (GoString * handler) :=
  [(str "/ldlinux.c32", HLdlinux); (str "/pxelinux.cfg/", HPxelinuxConfig); (str "/f/", HFile)].

Section server.
Context `{UnicodeTables}.

(** What a request comes to: a response, or a redirect to another path (301). *)
Inductive reply :=
| Responded (w : ResponseWriter)
| Redirected (path : GoString).

Definition dispatch (s : httpServer) (r : request) (wd : World)
    : reply * list LogEntry * World :=
  match mux_route patterns (Method r) (URL_Path r) with
  | RHandle HLdlinux => let '(w, logs) := Ldlinux s r in (Responded w, logs, wd)
  | RHandle HPxelinuxConfig => let '(w, logs, wd) := PxelinuxConfig s r wd in (Responded w, logs, wd)
  | RHandle HFile => let '(w, logs, wd) := File s r wd in (Responded w, logs, wd)
  | RRedirect p => (Redirected p, [], wd)
  | RNotFound => (Responded (http_Error (str "404 page not found") 404 new_response), [], wd)
  end.

(** [ServeHTTP] up to its call of [http.ListenAndServe]. *)
Definition ServeHTTP (port : Z) (booter : Booter) (ldlinux : bytes) (wd : World)
    : result httpServer * list LogEntry * World :=
  let '(key, err, r) := ReadFull (w_rand wd) 32 in
  let wd := set_rand r wd in
  match err with
  | NilErr =>
      (Ok (mkHttpServer booter ldlinux key),
       [Log (str "HTTP") (str "Listening on port %d") [AInt port]], wd)
  | _ => (Err (Errorf (str "cannot initialize ephemeral signing key: %s")
                 [AStr (read_err_text err)]), [], wd)
  end.

(** The requests the server answers, one after the other. *)
Fixpoint http_run (s : httpServer) (rs : list request) (wd : World) : list reply * World :=
  match rs with
  | [] => ([], wd)
  | r :: rs =>
      let '(rep, _, wd) := dispatch s r wd in
      let '(reps, wd) := http_run s rs wd in (rep :: reps, wd)
  end.

End server.

(** * Lemmas *)

(** ** The in-place encoding of the initrds *)

Lemma slice_get_set s i v w :
  i < sl_len s → slice_get (slice_set s i v w) s = <[i := v]> (slice_get w s).
Proof.
  intros Hi. unfold slice_set, slice_get. destruct (sl_ptr s) as [l|]; [|done].
  cbn [set_heap w_heap]. rewrite lookup_alter_eq.
  destruct (w_heap w !! l) as [arr|]; simpl; [|by destruct (sl_len s)].
  by rewrite take_insert_lt.
Qed.

(** [w'] is [w] but for the array of [s]. *)
Definition updates (s : slice_ref) (w w' : World) : Prop :=
  ∃ h, w' = set_heap h w ∧ differs_only_at (sl_ptr s) (w_heap w) h.

Lemma updates_refl s w : updates s w w.
Proof. exists (w_heap w). split; [by destruct w|done]. Qed.

Lemma updates_set s i v w w' : updates s (slice_set s i v w) w' → updates s w w'.
Proof.
  intros (h & -> & Hd). unfold slice_set in *. exists h. destruct (sl_ptr s) as [l|] eqn:E; [|done].
  split; [done|]. intros l' Hl'. rewrite Hd by done. cbn [set_heap w_heap].
  apply lookup_alter_ne. congruence.
Qed.

Lemma encode_initrds_from n i s w :
  length (slice_get w s) = i + n → sl_len s = i + n →
  slice_get (encode_initrds n i s w) s =
    take i (slice_get w s) ++ (file_ref <$> drop i (slice_get w s)) ∧
  updates s w (encode_initrds n i s w).
Proof.
  revert i w. induction n as [|n IH]; intros i w Hl Hs; cbn [encode_initrds].
  { rewrite take_ge, drop_ge by lia. rewrite app_nil_r. split; [done|apply updates_refl]. }
  destruct (lookup_lt_is_Some_2 (slice_get w s) i) as [x Hx]; [lia|]. rewrite Hx. change (default [] (Some x)) with x.
  assert (slice_get (slice_set s i (file_ref x) w) s = <[i := file_ref x]> (slice_get w s)) as Hg
    by (apply slice_get_set; lia).
  destruct (IH (S i) (slice_set s i (file_ref x) w)) as [Hget Hupd];
    [rewrite Hg, length_insert; lia|lia|].
  split; [|by eapply updates_set]. rewrite Hget, Hg.
  rewrite drop_insert_lt by lia. rewrite (drop_S _ x i) by done. rewrite fmap_cons.
  rewrite (take_S_r _ _ (file_ref x)) by (apply list_lookup_insert_eq; lia).
  rewrite take_insert_ge by lia. by rewrite <- app_assoc.
Qed.

Lemma encode_initrds_spec s w :
  sl_len s = length (slice_get w s) →
  slice_get (encode_initrds (sl_len s) 0 s w) s = file_ref <$> slice_get w s ∧
  updates s w (encode_initrds (sl_len s) 0 s w).
Proof. intros Hl. apply (encode_initrds_from (sl_len s) 0); [by rewrite <- Hl|done]. Qed.

Lemma config_text_eq `{UnicodeTables} kernel initrds cmdline :
  config_text kernel initrds cmdline =
    str "
SAY " ++ Replace limerick 10%gb (str "
SAY ") ++ str "
DEFAULT linux
LABEL linux
LINUX " ++ kernel ++ str "
APPEND initrd=" ++ Join initrds (str ",") ++ str " " ++ cmdline ++ str "
".
Proof. unfold config_text. generalize (Replace limerick 10%gb (str "
SAY ")). intros l. simpl. done. Qed.

(** ** Routing *)

Lemma handler_of_path path h :
  mux_handler patterns path = RHandle h ↔
  match h with
  | HLdlinux => path = str "/ldlinux.c32"
  | HPxelinuxConfig => HasPrefix path (str "/pxelinux.cfg/") = true
  | HFile => HasPrefix path (str "/f/") = true
  end.
Proof.
  unfold patterns, mux_handler.
  change (pathMatch (str "/ldlinux.c32") path) with (bool_decide (path = str "/ldlinux.c32")).
  change (pathMatch (str "/pxelinux.cfg/") path) with (HasPrefix path (str "/pxelinux.cfg/")).
  change (pathMatch (str "/f/") path) with (HasPrefix path (str "/f/")).
  case_bool_decide as H1.
  { subst path. destruct h; vm_compute; naive_solver. }
  destruct (HasPrefix path (str "/pxelinux.cfg/")) eqn:H2.
  { unfold HasPrefix in *. apply bool_decide_eq_true in H2.
    assert (bool_decide (take (length (str "/f/")) path = str "/f/") = false) as ->.
    { apply bool_decide_eq_false. intros H3. apply (f_equal (take 3)) in H2.
      rewrite take_take in H2. change (3 `min` length (str "/pxelinux.cfg/")) with (length (str "/f/")) in H2.
      rewrite H3 in H2. done. }
    destruct h; split; try done. }
  destruct (HasPrefix path (str "/f/")) eqn:H3; destruct h; naive_solver.
Qed.

(** The two paths that are redirected to a directory. *)
Lemma redirect_cases path :
  should_redirect patterns path = true → path = str "/pxelinux.cfg" ∨ path = str "/f".
Proof.
  unfold should_redirect, patterns. cbn [existsb fst]. rewrite !andb_true_iff, !orb_true_iff, !bool_decide_eq_true.
  intros [[_ [H1|[H1|[H1|H1]]]] _]; [|by left; apply (app_inv_tail (str "/"))|by right; apply (app_inv_tail (str "/"))|done].
  apply (f_equal last) in H1. change (str "/") with [47%gb] in H1. rewrite last_snoc in H1. done.
Qed.

Lemma redirect_no_handler path h :
  should_redirect patterns path = true → mux_handler patterns path ≠ RHandle h.
Proof. intros [-> | ->]%redirect_cases; by destruct h. Qed.

Lemma handler_first path h :
  mux_handler patterns path = RHandle h →
  (if should_redirect patterns path then RRedirect (path ++ str "/") else mux_handler patterns path) =
    RHandle h.
Proof. intros Hh. destruct (should_redirect patterns path) eqn:Hs; [|done]. by destruct (redirect_no_handler path h Hs). Qed.

(** C30: a request reaches a handler only on a path of the handler's own shape:
    [/ldlinux.c32] itself, anything below [/pxelinux.cfg/], anything below [/f/]; and,
    for every method but CONNECT, only on a clean path, so that no [..] or empty
    component gets past the router.  CONNECT requests, whose paths are not cleaned, do
    reach the handlers with such components. *)
Theorem mux_route_handles method path h :
  mux_route patterns method path = RHandle h ↔
  (method = str "CONNECT" ∨ cleanPath path = path) ∧
  match h with
  | HLdlinux => path = str "/ldlinux.c32"
  | HPxelinuxConfig => HasPrefix path (str "/pxelinux.cfg/") = true
  | HFile => HasPrefix path (str "/f/") = true
  end.
Proof.
  unfold mux_route. rewrite <- handler_of_path. case_decide as Hm.
  - destruct (should_redirect patterns path) eqn:Hs.
    + split; [done|]. intros [_ Hh]. by destruct (redirect_no_handler _ h Hs).
    + rewrite decide_True by done. naive_solver.
  - case_decide as Hc; [rewrite Hc|].
    + destruct (should_redirect patterns path) eqn:Hs; [|naive_solver].
      split; [done|]. intros [_ Hh]. by destruct (redirect_no_handler _ h Hs).
    + destruct (should_redirect patterns (cleanPath path)); naive_solver.
Qed.

Lemma mux_route_file method name :
  plain name → mux_route patterns method (str "/f/" ++ name) = RHandle HFile.
Proof.
  intros Hn. rewrite mux_route_clean.
  2:{ apply (cleanPath_file (str "f") name); [|done]. unfold plain. apply (bool_decide_unpack _). reflexivity. }
  apply handler_first, handler_of_path. reflexivity.
Qed.

Lemma mux_route_config method name :
  plain name → mux_route patterns method (str "/pxelinux.cfg/" ++ name) = RHandle HPxelinuxConfig.
Proof.
  intros Hn. rewrite mux_route_clean.
  2:{ apply (cleanPath_file (str "pxelinux.cfg") name); [|done]. unfold plain. apply (bool_decide_unpack _). reflexivity. }
  apply handler_first, handler_of_path. reflexivity.
Qed.

Lemma plain_encode id : id ≠ [] → plain (EncodeToString id).
Proof.
  intros Hid. apply plain_len; [apply EncodeToString_no_slash|].
  destruct id as [|a [|b [|c id]]]; [done|simpl; lia..].
Qed.

(** The name pxelinux appends to [pxelinux.cfg/]: the ARP type of Ethernet and
    the hardware address, with dashes. *)
Definition config_name (mac : HardwareAddr) : GoString :=
  str "01-" ++ Join (map hex2 mac) (str "-").

Lemma config_name_no_slash mac : 47%gb ∉ config_name mac.
Proof.
  unfold config_name. rewrite elem_of_app. intros [H|H]; revert H; [by apply (bool_decide_unpack _)|].
  apply Join_not_in; [|by apply (bool_decide_unpack _)].
  apply Forall_map, Forall_forall. intros b _. apply hex2_no_slash.
Qed.

Lemma plain_config_name mac : plain (config_name mac).
Proof.
  apply plain_len; [apply config_name_no_slash|]. unfold config_name. rewrite length_app. simpl. lia.
Qed.

Lemma Base_config mac dir : Base (dir ++ 47%gb :: config_name mac) = config_name mac.
Proof. apply Base_join; [apply config_name_no_slash|done]. Qed.

(** * Theorems *)

Section theorems.
Context `{UnicodeTables}.

(** The response to a request for a file, by what the booter makes of its id. *)
Definition stream_response (x : result (reader * GoString)) : ResponseWriter :=
  match x with
  | Ok (f, _) =>
      mkResponseWriter {[str "Content-Type" := str "application/octet-stream"]} (Some 200%Z) (rd_data f)
  | Err _ => http_Error (str "Couldn't get byte stream") 500 new_response
  end.

(** The world after the handler is done with what the booter gave it. *)
Definition after_file (x : result (reader * GoString) * World) : World :=
  match x with (Ok _, wd) => closed wd | (Err _, wd) => wd end.

Lemma after_file_opened x wd : x.2 = opened x.1 wd → after_file x = wd.
Proof. destruct x as [[a|e] w']; simpl; intros ->; [apply (closed_opened a)|done]. Qed.

Lemma File_encoded s r wd dir id :
  id ≠ [] → URL_Path r = dir ++ 47%gb :: EncodeToString id →
  (File s r wd).1.1 = stream_response (GetFile (booter s) id wd).1 ∧
  (File s r wd).2 = after_file (GetFile (booter s) id wd).
Proof.
  intros Hid Hp. unfold File. rewrite Hp, Base_join;
    [|apply EncodeToString_no_slash|by intros ?%EncodeToString_nil].
  rewrite DecodeString_Encode. destruct (GetFile (booter s) id wd) as [[[f pretty]|e] wd']; [|done].
  done.
Qed.

(** A request for the configuration of a machine, by the verdict of the booter. *)
Lemma dispatch_config s r wd mac :
  mac_length_ok (length mac) = true → URL_Path r = str "/pxelinux.cfg/" ++ config_name mac →
  ∃ logs, dispatch s r wd =
    let plain_text := set_header (str "Content-Type") (str "text/plain") new_response in
    match GetBootSpec (booter s) mac wd with
    | (Err e, wd) => (Responded (write bootFromDisk plain_text), logs, wd)
    | (Ok spec, wd) =>
        let wd := encode_initrds (sl_len (Initrd spec)) 0 (Initrd spec) wd in
        (Responded (write (config_text (file_ref (Kernel spec)) (slice_get wd (Initrd spec))
                             (Cmdline spec)) plain_text), logs, wd)
    end.
Proof.
  intros Hmac Hp. unfold dispatch. rewrite Hp, mux_route_config by apply plain_config_name.
  unfold PxelinuxConfig. rewrite Hp.
  change (str "/pxelinux.cfg/" ++ config_name mac)
    with (str "/pxelinux.cfg" ++ 47%gb :: config_name mac). rewrite Base_config.
  change (HasPrefix (config_name mac) (str "01-")) with true. cbn [negb].
  change (drop 3 (config_name mac)) with (Join (map hex2 mac) [45%gb]).
  rewrite ParseMAC_Join by auto.
  destruct (GetBootSpec (booter s) mac wd) as [[spec|e] wd1]; by eexists.
Qed.

(** The handlers, seen through the contract of the booter. *)
Section contract.
Context (s : httpServer) `{L : !BooterLaws (booter s)}.

(** A reference in a configuration stands for a target: whoever requests it,
    relative to the server's root, in any world, is served the target. *)
Definition serves (ref : GoString) (t : target) : Prop :=
  ∀ r wd, URL_Path r = 47%gb :: ref →
    ∃ logs, dispatch s r wd = (Responded (stream_response (fetch t wd)), logs, wd).

Lemma file_ref_serves id t : denotes id t → serves (file_ref id) t.
Proof.
  intros Hd r wd Hp. pose proof (denotes_nonempty _ _ Hd) as Hne. unfold dispatch.
  assert (mux_route patterns (Method r) (URL_Path r) = RHandle HFile) as ->.
  { rewrite Hp. by apply mux_route_file, plain_encode. }
  destruct (File_encoded s r wd (str "/f") id Hne) as [H1 H2]; [by rewrite Hp|].
  rewrite (after_file_opened _ wd) in H2 by apply file_opens.
  rewrite (file_law _ _ wd Hd) in H1. destruct (File s r wd) as [[w logs] wd'].
  simpl in *. subst. by exists logs.
Qed.

(** The answer to a configuration request, by the ids it is made of. *)
Lemma config_ids r wd mac :
  booter_inv wd → mac_length_ok (length mac) = true →
  URL_Path r = str "/pxelinux.cfg/" ++ config_name mac →
  ∃ resp logs wd', dispatch s r wd = (Responded resp, logs, wd') ∧
    booter_inv wd' ∧ same_env wd wd' ∧ rw_status resp = Some 200%Z ∧
    match (GetBootSpec (booter s) mac wd).1 with
    | Err _ => rw_body resp = bootFromDisk
    | Ok spec =>
        ∃ k ts kid ids, plan mac wd = Ok (k, ts, Cmdline spec) ∧
          rw_body resp = config_text (file_ref kid) (file_ref <$> ids) (Cmdline spec) ∧
          denotes kid k ∧ Forall2 denotes ids ts
    end.
Proof.
  intros Hinv Hmac Hp. destruct (dispatch_config s r wd mac Hmac Hp) as [logs ->].
  pose proof (bootspec_law mac wd Hinv) as Hlaw.
  destruct (GetBootSpec (booter s) mac wd) as [[spec|e] wd1]; cbn [fst].
  - destruct Hlaw as (Henv & _ & k & ts & Hplan & Hk & Hts & Hlen & Hkeep).
    destruct (encode_initrds_spec (Initrd spec) wd1 Hlen) as [Hget (h & Heq & Hh)].
    rewrite Hget, Heq. eexists _, _, _. split; [done|].
    split; [by apply Hkeep|]. split; [done|]. split; [done|].
    by exists k, ts, (Kernel spec), (slice_get wd1 (Initrd spec)).
  - destruct Hlaw as (Henv & Hinv' & _). eexists _, _, _. split; [done|]. by split_and!.
Qed.

Lemma config_request r wd mac :
  booter_inv wd → mac_length_ok (length mac) = true →
  URL_Path r = str "/pxelinux.cfg/" ++ config_name mac →
  ∃ resp logs wd', dispatch s r wd = (Responded resp, logs, wd') ∧
    booter_inv wd' ∧ same_env wd wd' ∧ rw_status resp = Some 200%Z ∧
    match (GetBootSpec (booter s) mac wd).1 with
    | Err _ => rw_body resp = bootFromDisk
    | Ok spec =>
        ∃ k ts kref irefs, plan mac wd = Ok (k, ts, Cmdline spec) ∧
          rw_body resp = config_text kref irefs (Cmdline spec) ∧
          serves kref k ∧ Forall2 serves irefs ts
    end.
Proof.
  intros Hinv Hmac Hp. destruct (config_ids r wd mac Hinv Hmac Hp) as (resp & logs & wd' & H1 & H2 & H3 & H4 & H5).
  exists resp, logs, wd'. split_and!; [done..|].
  destruct (GetBootSpec (booter s) mac wd).1 as [spec|e]; [|done].
  destruct H5 as (k & ts & kid & ids & Hplan & Hb & Hk & Hts).
  exists k, ts, (file_ref kid), (file_ref <$> ids). split_and!; [done|done|by apply file_ref_serves|].
  apply Forall2_fmap_l. eapply Forall2_impl; [exact Hts|]. intros id t. apply file_ref_serves.
Qed.

(** C7: a pxelinux that asks for the configuration of its hardware address is
    answered with status 200: with the configuration that boots the machine's
    planned kernel, initrds and command line, in which every file reference is
    later served as the planned file, or with the instruction to boot from disk
    when the booter refuses (where the comment on [BootSpec] in api/api.go promises a
    reboot that starts again at [ShouldBoot]); and the booter is left able to serve the
    next request, although the initrd slice it handed out was overwritten. *)
Theorem PxelinuxConfig_boots r wd mac :
  booter_inv wd → mac_length_ok (length mac) = true →
  URL_Path r = str "/pxelinux.cfg/" ++ config_name mac →
  ∃ resp logs wd', dispatch s r wd = (Responded resp, logs, wd') ∧
    booter_inv wd' ∧ same_env wd wd' ∧ rw_status resp = Some 200%Z ∧
    match (GetBootSpec (booter s) mac wd).1 with
    | Err _ => rw_body resp = str "
DEFAULT local
LABEL local
LOCALBOOT 0
"
    | Ok spec =>
        ∃ k ts kref irefs, plan mac wd = Ok (k, ts, Cmdline spec) ∧
          rw_body resp = config_text kref irefs (Cmdline spec) ∧
          serves kref k ∧ Forall2 serves irefs ts
    end.
Proof. apply config_request. Qed.

End contract.

(** The hardware address in a configuration request, if there is one. *)
Definition config_mac (path : GoString) : option HardwareAddr :=
  if HasPrefix (Base path) (str "01-") then ParseMAC (drop 3 (Base path)) else None.

(** The configuration handler answers 400 exactly when the last component of
    the path is not ["01-"] and a MAC address, and then without asking the booter
    or changing anything; otherwise the status is 200. *)
Lemma PxelinuxConfig_status s r wd :
  rw_status (PxelinuxConfig s r wd).1.1 =
    Some (if decide (config_mac (URL_Path r) = None) then 400 else 200)%Z ∧
  (config_mac (URL_Path r) = None →
   (PxelinuxConfig s r wd).2 = wd ∧
   ∀ b, PxelinuxConfig (mkHttpServer b (ldlinux s) (http_key s)) r wd = PxelinuxConfig s r wd).
Proof.
  unfold PxelinuxConfig, config_mac. destruct (HasPrefix (Base (URL_Path r)) (str "01-")); [|done].
  destruct (ParseMAC (drop 3 (Base (URL_Path r)))) as [mac|]; [|done]. cbn [negb].
  split; [|done]. rewrite decide_False by done.
  by destruct (GetBootSpec (booter s) mac wd) as [[spec|e] wd'].
Qed.

(** C31: the file handler answers 400 to a name that is not base64, 500 to an id
    the booter does not give, and otherwise 200 with the whole stream the booter
    returned, logging its length when the stream ended without error. *)
Theorem File_correct s r wd :
  let '(w, logs, wd') := File s r wd in
  match DecodeString (Base (URL_Path r)) with
  | None => rw_status w = Some 400%Z ∧ rw_body w = str "Malformed file ID
" ∧ wd' = wd
  | Some id =>
      wd' = after_file (GetFile (booter s) id wd) ∧ w = stream_response (GetFile (booter s) id wd).1 ∧
      ∀ f pretty, (GetFile (booter s) id wd).1 = Ok (f, pretty) → rd_end f = None →
        logs = [mkLogEntry (str "HTTP") false
                  (str "Sent " ++ pretty ++ str " to " ++ RemoteAddr r ++ str " (" ++
                   Itoa (Z.of_nat (length (rd_data f))) ++ str " bytes)")]
  end.
Proof.
  unfold File. destruct (DecodeString (Base (URL_Path r))) as [id|]; [|done].
  destruct (GetFile (booter s) id wd) as [[[f pretty]|e] wd']; [|done].
  split; [done|]. split; [done|]. cbn [fst]. intros f' pretty' [= <- <-] He.
  unfold Copy. rewrite He. unfold Log. simpl. done.
Qed.

Lemma dispatch_inv s `{L : !BooterLaws (booter s)} r wd :
  booter_inv wd → booter_inv (dispatch s r wd).2 ∧ same_env wd (dispatch s r wd).2.
Proof.
  intros Hinv. unfold dispatch. destruct (mux_route patterns (Method r) (URL_Path r)) as [[]|p|]; try done.
  - unfold PxelinuxConfig. case_test; [done|]. destruct (ParseMAC _) as [mac|]; [|done].
    pose proof (bootspec_law mac wd Hinv) as Hlaw.
    destruct (GetBootSpec (booter s) mac wd) as [[spec|e] wd1]; [|by destruct Hlaw as (? & ? & _)].
    destruct Hlaw as (Henv & _ & k & ts & _ & _ & _ & Hlen & Hkeep).
    destruct (encode_initrds_spec (Initrd spec) wd1 Hlen) as [_ (h & -> & Hh)].
    split; [by apply Hkeep|done].
  - unfold File. destruct (DecodeString _) as [id|]; [|done].
    pose proof (after_file_opened _ wd (file_opens id wd)) as Hk.
    destruct (GetFile (booter s) id wd) as [[[f pretty]|e] wd1]; simpl in *; by subst.
Qed.

Lemma http_run_inv s `{L : !BooterLaws (booter s)} rs wd :
  booter_inv wd → booter_inv (http_run s rs wd).2 ∧ same_env wd (http_run s rs wd).2.
Proof.
  revert wd. induction rs as [|r rs IH]; intros wd Hinv; cbn [http_run]; [done|].
  destruct (dispatch_inv s r wd Hinv) as [Hinv1 Henv1].
  destruct (dispatch s r wd) as [[rep logs] wd1]. cbn [snd] in *.
  destruct (IH wd1 Hinv1) as [Hinv2 Henv2]. destruct (http_run s rs wd1) as [reps wd2].
  split; [done|]. eauto using same_env_trans.
Qed.

Lemma updates_streams s w w' : updates s w w' → w_streams w' = w_streams w.
Proof. by intros (h & -> & _). Qed.

(** A booter whose [BootSpec] leaves no stream open. *)
Definition no_leak (b : Booter) : Prop := ∀ hw w, w_streams (GetBootSpec b hw w).2 = w_streams w.

Lemma dispatch_streams s `{L : !BooterLaws (booter s)} r wd :
  no_leak (booter s) → booter_inv wd → w_streams (dispatch s r wd).2 = w_streams wd.
Proof.
  intros Hnl Hinv. unfold dispatch. destruct (mux_route patterns (Method r) (URL_Path r)) as [[]|p|]; try done.
  - unfold PxelinuxConfig. case_test; [done|]. destruct (ParseMAC _) as [mac|]; [|done].
    pose proof (bootspec_law mac wd Hinv) as Hlaw. pose proof (Hnl mac wd) as Hm.
    destruct (GetBootSpec (booter s) mac wd) as [[spec|e] wd1]; [|done].
    destruct Hlaw as (_ & _ & k & ts & _ & _ & _ & Hlen & _).
    destruct (encode_initrds_spec (Initrd spec) wd1 Hlen) as [_ Hu].
    cbn [snd] in *. by rewrite (updates_streams _ _ _ Hu).
  - unfold File. destruct (DecodeString _) as [id|]; [|done].
    pose proof (after_file_opened _ wd (file_opens id wd)) as Hk.
    destruct (GetFile (booter s) id wd) as [[[f pretty]|e] wd1]; simpl in *; by subst.
Qed.

Lemma static_quiet b : no_leak (static_booter b).
Proof.
  intros hw w. cbn [static_booter GetBootSpec]. unfold static_BootSpec.
  by destruct (slice_get w (Initrd (spec b))).
Qed.

Lemma static_config (b : staticBooter) ld key rs r mac w1 :
  static_small b → static_ok b w1 →
  mac_length_ok (length mac) = true → URL_Path r = str "/pxelinux.cfg/" ++ config_name mac →
  let s := mkHttpServer (static_booter b) ld key in
  ∃ resp logs w2, dispatch s r (http_run s rs w1).2 = (Responded resp, logs, w2) ∧
    rw_status resp = Some 200%Z ∧
    rw_body resp = config_text (file_ref (str "kernel"))
                     (file_ref <$> initrd_ids (length (initrdPaths b))) (Cmdline (spec b)).
Proof.
  intros Hlen Hok Hmac Hp s.
  destruct (@http_run_inv s (static_laws b Hlen) rs w1 Hok) as [(Hk & _ & Hids) _].
  set (wd := (http_run s rs w1).2) in *.
  destruct (dispatch_config s r wd mac Hmac Hp) as [logs ->].
  cbn [s booter static_booter GetBootSpec]. unfold static_BootSpec.
  rewrite Hids. pose proof (append_get nil_slice (initrd_ids (length (initrdPaths b))) wd) as Hg.
  pose proof (append_nil_copy (initrd_ids (length (initrdPaths b))) wd) as [Hl _].
  destruct (append nil_slice (initrd_ids (length (initrdPaths b))) wd) as [sl wd1].
  cbn [fst snd] in *. change (slice_get wd nil_slice) with (@nil GoString) in Hg. cbn [app] in Hg.
  destruct (encode_initrds_spec sl wd1) as [Hget _]; [by rewrite Hg|].
  cbn [Initrd Kernel Cmdline]. rewrite Hget, Hg, Hk. eexists _, _, _. by split_and!.
Qed.

End theorems.

(** * Reading the configuration back

    What a pxelinux takes from a configuration: the line of each directive, the
    kernel it names, and the initrds up to the first space of its command line. *)

Fixpoint directive (key : GoString) (lines : list GoString) : option GoString :=
  match lines with
  | [] => None
  | l :: lines => if HasPrefix l key then Some (drop (length key) l) else directive key lines
  end.

Definition read_config (cfg : GoString) : option (GoString * list GoString * GoString) :=
  let lines := Split cfg 10%gb in
  kernel ← directive (str "LINUX ") lines;
  append ← directive (str "APPEND initrd=") lines;
  i ← IndexByte append 32%gb;
  Some (kernel, Split (take i append) 44%gb, drop (S i) append).

Lemma directive_skip key l1 l2 : directive key l1 = None → directive key (l1 ++ l2) = directive key l2.
Proof. induction l1 as [|l l1 IH]; simpl; [done|]. by destruct (HasPrefix l key). Qed.

Lemma directive_here key s lines : directive key ((key ++ s) :: lines) = Some s.
Proof.
  simpl. unfold HasPrefix. rewrite take_app_length, bool_decide_true by done.
  by rewrite drop_app_length.
Qed.

Lemma Split_app_sep a c s : Split (a ++ c :: s) c = Split a c ++ Split s c.
Proof.
  induction a as [|x a IH]; simpl; [by rewrite decide_True|].
  case_decide; [by rewrite IH|]. rewrite IH. pose proof (Split_nonempty a c).
  by destruct (Split a c).
Qed.

Lemma Split_Join l c : l ≠ [] → Forall (λ s, c ∉ s) l → Split (Join l [c]) c = l.
Proof.
  intros Hne Hl. induction Hl as [|s l Hs Hl IH]; [done|].
  destruct l as [|s' l]; [by apply Split_not_in|].
  change (Join (s :: s' :: l) [c]) with (s ++ c :: Join (s' :: l) [c]).
  rewrite Split_app by done. by rewrite IH.
Qed.

Lemma file_ref_chars id c :
  c = 10%gb ∨ c = 32%gb ∨ c = 44%gb → c ∉ file_ref id.
Proof.
  intros Hc. unfold file_ref. rewrite elem_of_app. intros [Hin|Hin].
  - revert Hin. destruct Hc as [->|[->| ->]]; by apply (bool_decide_unpack _).
  - pose proof (EncodeToString_chars id) as H. rewrite Forall_forall in H.
    destruct (H _ Hin) as (Hn & _ & H44 & H32). destruct Hc as [->|[->| ->]]; done.
Qed.

Lemma file_refs_chars ids c :
  c = 10%gb ∨ c = 32%gb ∨ c = 44%gb → Forall (λ s, c ∉ s) (file_ref <$> ids).
Proof. intros Hc. apply Forall_fmap, Forall_forall. intros id _. by apply file_ref_chars. Qed.

Lemma directive_append k s lines :
  directive (str "APPEND initrd=") ((str "LINUX " ++ k) :: (str "APPEND initrd=" ++ s) :: lines) = Some s.
Proof.
  change (directive (str "APPEND initrd=") ((str "APPEND initrd=" ++ s) :: lines) = Some s).
  apply directive_here.
Qed.

(** The lines of a configuration before its kernel. *)
Definition config_intro : GoString := str "
SAY " ++ Replace limerick 10%gb (str "
SAY ") ++ str "
DEFAULT linux
LABEL linux".

Lemma config_text_lines `{UnicodeTables} kernel initrds cmdline :
  config_text kernel initrds cmdline =
    config_intro ++ 10%gb :: (str "LINUX " ++ kernel) ++ 10%gb ::
      (str "APPEND initrd=" ++ Join initrds (str ",") ++ 32%gb :: cmdline) ++ [10%gb].
Proof.
  rewrite config_text_eq. unfold config_intro. generalize (Replace limerick 10%gb (str "
SAY ")). intros l. rewrite <- !app_assoc. simpl.
  repeat (rewrite <- app_assoc; simpl). done.
Qed.

Lemma Split_config `{UnicodeTables} kernel refs cmdline :
  10%gb ∉ kernel → Forall (λ s, 10%gb ∉ s) refs → 10%gb ∉ cmdline →
  Split (config_text kernel refs cmdline) 10%gb =
    Split config_intro 10%gb ++
      [str "LINUX " ++ kernel; str "APPEND initrd=" ++ Join refs (str ",") ++ 32%gb :: cmdline; []].
Proof.
  intros Hk Hr Hc. rewrite config_text_lines, Split_app_sep. f_equal.
  rewrite Split_app, Split_app; [done| |].
  - rewrite !elem_of_app. intros [Hin|[Hin|Hin]]; revert Hin.
    + by apply (bool_decide_unpack _).
    + by apply Join_not_in; [|apply (bool_decide_unpack _)].
    + rewrite elem_of_cons. naive_solver.
  - rewrite elem_of_app. intros [Hin|Hin]; revert Hin; [by apply (bool_decide_unpack _)|done].
Qed.

Lemma read_config_text `{UnicodeTables} kernel initrds cmdline :
  initrds ≠ [] → 10%gb ∉ cmdline →
  read_config (config_text (file_ref kernel) (file_ref <$> initrds) cmdline) =
    Some (file_ref kernel, file_ref <$> initrds, cmdline).
Proof.
  intros Hne Hcmd. unfold read_config.
  rewrite Split_config by (auto using file_ref_chars, file_refs_chars).
  rewrite !directive_skip by (vm_compute; reflexivity). rewrite directive_here, directive_append.
  cbn [mbind option_bind].
  assert (32%gb ∉ Join (file_ref <$> initrds) (str ",")) as Hsp.
  { apply Join_not_in; [apply file_refs_chars; auto|by apply (bool_decide_unpack _)]. }
  rewrite IndexByte_app by done. cbn [mbind option_bind]. rewrite take_app_length.
  rewrite drop_app_ge, Nat.sub_succ_l, Nat.sub_diag by lia.
  change (str ",") with [44%gb]. rewrite Split_Join; [done| |apply file_refs_chars; auto].
  by destruct initrds.
Qed.

(** C29: the configuration says what the boot specification says: a command line
    on one line is read back unchanged, with the kernel's reference and the
    initrds' references in order, whatever bytes the file ids are made of. *)
Theorem config_roundtrip `{UnicodeTables} kernel initrds cmdline :
  initrds ≠ [] → 10%gb ∉ cmdline →
  read_config (config_text (file_ref kernel) (file_ref <$> initrds) cmdline) =
    Some (file_ref kernel, file_ref <$> initrds, cmdline).
Proof. apply read_config_text. Qed.

(** * Witnesses *)

Section witnesses.
#[local] Existing Instance latin1_tables.

Definition toy_small : static_small toy_static.
Proof. vm_compute. discriminate. Defined.

Definition toy_server : httpServer := mkHttpServer (static_booter toy_static) (str "LDLINUX") [].

Definition toy_request : request :=
  mkRequest (str "GET") (str "192.168.1.2:70") (str "192.168.1.7:2070") (str "/pxelinux.cfg/01-52-54-00-12-34-56")
    (str "/pxelinux.cfg/01-52-54-00-12-34-56").

Lemma PxelinuxConfig_boots_witness :
  ∃ resp logs wd',
    dispatch toy_server toy_request
      (new_staticBooter (str "k") [str "i0"; str "i1"] (str "quiet") toy_world).2 =
    (Responded resp, logs, wd') ∧ rw_status resp = Some 200%Z.
Proof.
  destruct (@PxelinuxConfig_boots _ toy_server (static_laws toy_static toy_small) toy_request
    (new_staticBooter (str "k") [str "i0"; str "i1"] (str "quiet") toy_world).2 toy_mac)
    as (resp & logs & wd' & Hd & _ & _ & Hs & _).
  - exact (proj1 (new_staticBooter_ok (str "k") [str "i0"; str "i1"] (str "quiet") toy_world)).
  - reflexivity.
  - reflexivity.
  - exists resp, logs, wd'. split; [exact Hd|exact Hs].
Defined.

Lemma config_roundtrip_witness :
  read_config (config_text (file_ref (str "kernel")) [file_ref (str "0")] (str "console=ttyS0 quiet")) =
    Some (str "f/a2VybmVs", [str "f/MA=="], str "console=ttyS0 quiet").
Proof.
  apply (config_roundtrip (str "kernel") [str "0"] (str "console=ttyS0 quiet"));
    [discriminate|apply (bool_decide_unpack _); reflexivity].
Defined.

End witnesses.
