(* ===== verification/Concurrent.v ===== *)
(** The concurrency of http/http.go: [net/http] runs every handler in a goroutine
    of its own, beside the ProxyDHCP loop, and all of them call the one booter and
    share its heap.  The handlers are cut into the steps between which others may
    run, and every response of every interleaving is shown to be one the sequential
    handlers of [Http] give. *)
From S2P Require Import Prelude GoStrings GoFmt GoNet GoIO Base64 Logging GoHttp GoJson GoUrl Api Remote Http.
From stdpp Require Import relations fin_maps.

(** * What a booter does to the heap

    The arrays a booter owns are its footprint.  It writes to new arrays only, and
    the slice it hands out is one of them, so that two callers never share one. *)

Class BooterFrame (b : Booter) `{L : !BooterLaws b} := {
  footprint : gset nat;
  inv_frame w w' :
    booter_inv w → w_next w ≤ w_next w' →
    (∀ l, l ∈ footprint → w_heap w' !! l = w_heap w !! l) → booter_inv w';
  footprint_allocated w l : booter_inv w → l ∈ footprint → l < w_next w;
  shouldboot_frame hw w :
    w_heap (ShouldBoot b hw w).2 = w_heap w ∧ w_next (ShouldBoot b hw w).2 = w_next w;
  bootspec_frame hw w :
    let '(r, w') := GetBootSpec b hw w in
    w_next w ≤ w_next w' ∧
    (∀ l, l < w_next w → w_heap w' !! l = w_heap w !! l) ∧
    ∀ s l, r = Ok s → sl_ptr (Initrd s) = Some l → w_next w ≤ l < w_next w'
}.

(** * The handlers, step by step *)

(** A request in progress.  [HLoad] is about to read element [i] of the slice it was
    handed, [HStore] to write the encoded id back; [HCopy] has [rest] of the stream
    still to send. *)
Inductive thread :=
| HStart (r : request)
| HLoad (r : request) (mac : HardwareAddr) (spec : BootSpec) (i : nat)
| HStore (r : request) (mac : HardwareAddr) (spec : BootSpec) (i : nat) (ref : GoString)
| HCopy (r : request) (pretty : GoString) (rest : reader) (written : nat) (w : ResponseWriter)
| HDone (r : request) (rep : reply) (logs : list LogEntry).

Section steps.
Context `{UnicodeTables}.

Definition plain_text : ResponseWriter :=
  set_header (str "Content-Type") (str "text/plain") new_response.

Definition octet_stream : ResponseWriter :=
  set_header (str "Content-Type") (str "application/octet-stream") new_response.

(** The part of a handler up to its call of the booter, which is one step; a request
    that needs no more than that is answered at once.  For the static booter one step is
    exact: its methods read fields and an array that nothing writes, allocate, or make
    one call of the operating system, [os.Open]. *)
Definition start_step (s : httpServer) (r : request) (wd : World) : thread * World :=
  let answered := let '(rep, logs, wd') := dispatch s r wd in (HDone r rep logs, wd') in
  match mux_route patterns (Method r) (URL_Path r) with
  | RHandle HPxelinuxConfig =>
      match config_mac (URL_Path r) with
      | None => answered
      | Some mac =>
          match GetBootSpec (booter s) mac wd with
          | (Ok spec, wd') => (HLoad r mac spec 0, wd')
          | (Err _, _) => answered
          end
      end
  | RHandle HFile =>
      match DecodeString (Base (URL_Path r)) with
      | None => answered
      | Some id =>
          match GetFile (booter s) id wd with
          | (Ok (f, pretty), wd') => (HCopy r pretty f 0 octet_stream, wd')
          | (Err _, _) => answered
          end
      end
  | _ => answered
  end.

(** One step of a request; [io.Copy] moves up to [S n] bytes at a time.  The server
    writes the status of a handler that wrote nothing. *)
Definition thread_step (s : httpServer) (n : nat) (t : thread) (wd : World)
    : option (thread * World) :=
  match t with
  | HStart r => Some (start_step s r wd)
  | HLoad r mac spec i =>
      if (i <? sl_len (Initrd spec))%nat then
        Some (HStore r mac spec i (file_ref (default [] (slice_get wd (Initrd spec) !! i))), wd)
      else
        let cfg := config_text (file_ref (Kernel spec)) (slice_get wd (Initrd spec)) (Cmdline spec) in
        Some (HDone r (Responded (write cfg plain_text))
                [Log (str "HTTP") (str "Sent pxelinux config to %s (%s)")
                   [AStr (HardwareAddr_String mac); AStr (RemoteAddr r)]], wd)
  | HStore r mac spec i ref =>
      Some (HLoad r mac spec (S i), slice_set (Initrd spec) i ref wd)
  | HCopy r pretty rest written w =>
      match rd_data rest with
      | [] =>
          Some (HDone r (Responded (write [] w))
            match rd_end rest with
            | Some e => [Log (str "HTTP") (str "Error serving %s to %s: %s")
                           [AStr pretty; AStr (RemoteAddr r); AStr (Error e)]]
            | None => [Log (str "HTTP") (str "Sent %s to %s (%d bytes)")
                         [AStr pretty; AStr (RemoteAddr r); AInt (Z.of_nat written)]]
            end, closed wd)
      | data =>
          let chunk := take (S n) data in
          Some (HCopy r pretty (mkReader (drop (S n) data) (rd_end rest))
                  (written + length chunk) (write chunk w), wd)
      end
  | HDone _ _ _ => None
  end.

(** * The system *)

Record config := mkConfig {
  c_world : World;
  c_threads : gmap nat thread
}.

(** What happens outside the program: files and remote servers change, others draw
    randomness. *)
Definition env_change (w w' : World) : Prop :=
  w_heap w' = w_heap w ∧ w_next w' = w_next w ∧ w_streams w' = w_streams w.

(** A step of the system: a request arrives, a handler goes on, the ProxyDHCP server
    asks the booter about a machine, or the outside changes.  [live] are the requests
    whose file is written to, or whose upstream changes its mind, while it is being
    sent: [io.Copy] reads the stream piece by piece, and what is left of it then
    becomes something else. *)
Inductive cstep (live : nat → Prop) (s : httpServer) : config → config → Prop :=
| CArrive i r c :
    c_threads c !! i = None →
    cstep live s c (mkConfig (c_world c) (<[i := HStart r]> (c_threads c)))
| CHandler i n t t' wd' c :
    c_threads c !! i = Some t → thread_step s n t (c_world c) = Some (t', wd') →
    cstep live s c (mkConfig wd' (<[i := t']> (c_threads c)))
| CDiscover hw c :
    cstep live s c (mkConfig (ShouldBoot (booter s) hw (c_world c)).2 (c_threads c))
| COutside w' c :
    env_change (c_world c) w' → cstep live s c (mkConfig w' (c_threads c))
| CStream i r pretty rest rest' written w c :
    live i → c_threads c !! i = Some (HCopy r pretty rest written w) →
    cstep live s c (mkConfig (c_world c) (<[i := HCopy r pretty rest' written w]> (c_threads c))).

End steps.

(** * The two booters keep to their own arrays *)

Section static_frame.
Context (b : staticBooter) (Hsmall : static_small b).

#[local] Instance static_booter_laws : BooterLaws (static_booter b) := static_laws b Hsmall.

Definition static_footprint : gset nat :=
  match sl_ptr (Initrd (spec b)) with Some l => {[l]} | None => ∅ end.

Lemma static_footprint_spec l : l ∈ static_footprint ↔ sl_ptr (Initrd (spec b)) = Some l.
Proof. unfold static_footprint. destruct (sl_ptr (Initrd (spec b))); set_solver. Qed.

Lemma append_frame s xs w :
  w_next w ≤ w_next (append s xs w).2 ∧
  (∀ l, l < w_next w → w_heap (append s xs w).2 !! l = w_heap w !! l) ∧
  ∀ l, sl_ptr (append s xs w).1 = Some l →
    sl_ptr s = Some l ∨ w_next w ≤ l < w_next (append s xs w).2.
Proof.
  destruct xs as [|x xs]; [auto|]. cbn [append alloc fst snd w_next w_heap sl_ptr].
  split_and!; [lia| |].
  - intros l Hl. apply lookup_insert_ne. lia.
  - intros l [= <-]. right. lia.
Qed.

Program Definition static_frame : BooterFrame (static_booter b) := {|
  footprint := static_footprint
|}.
Next Obligation.
  intros w w' (Hk & Ha & Hg) Hn Hh. split; [done|].
  unfold allocated, slice_get in *. destruct (sl_ptr (Initrd (spec b))) as [l|] eqn:E; [|done].
  rewrite Hh by by apply static_footprint_spec. split; [|done].
  intros l' Hl'. specialize (Ha l' Hl'). lia.
Qed.
Next Obligation. intros w l (_ & Ha & _) Hl%static_footprint_spec. by apply Ha. Qed.
Next Obligation. done. Qed.
Next Obligation.
  intros hw w. cbn [GetBootSpec static_booter]. unfold static_BootSpec.
  pose proof (append_frame nil_slice (slice_get w (Initrd (spec b))) w) as (Hn & Hh & Hp).
  destruct (append nil_slice (slice_get w (Initrd (spec b))) w) as [s' w']. cbn [fst snd] in *.
  split_and!; [done|done|]. intros s l [= <-] Hl. by destruct (Hp l Hl) as [[=]|?].
Qed.

End static_frame.

Section remote_frame.
Context `{UnicodeTables, Secretbox, !SecretboxLaws, JsonTexts} (b : remoteBooter).

#[local] Instance remote_booter_laws : BooterLaws (remote_booter b) := remote_laws b.

Lemma opened_heap {A} (r : result A) w :
  w_heap (opened r w) = w_heap w ∧ w_next (opened r w) = w_next w.
Proof. by destruct r. Qed.

Lemma getSpec_heap hw w :
  w_heap (getSpec b hw w).2 = w_heap w ∧ w_next (getSpec b hw w).2 = w_next w.
Proof. apply opened_heap. Qed.

Lemma sign_initrds_frame imgs s w :
  let '(r, w') := sign_initrds b imgs s w in
  w_next w ≤ w_next w' ∧ (∀ l, l < w_next w → w_heap w' !! l = w_heap w !! l) ∧
  ∀ s' l, r = Ok s' → sl_ptr s' = Some l → sl_ptr s = Some l ∨ w_next w ≤ l < w_next w'.
Proof.
  revert s w. induction imgs as [|img imgs IH]; intros s w; cbn [sign_initrds].
  { split_and!; [done|done|]. intros s' l [= ->]. by left. }
  pose proof (signURL_spec b img w) as Hs. destruct (signURL b img w) as [r w1].
  destruct Hs as (_ & Hh1 & Hn1 & _).
  destruct r as [id|e]; [|by split_and!; [lia|intros; by rewrite Hh1|]].
  pose proof (append_frame s [id] w1) as (Hn2 & Hh2 & Hp2).
  destruct (append s [id] w1) as [s2 w2]. cbn [fst snd] in *.
  specialize (IH s2 w2). destruct (sign_initrds b imgs s2 w2) as [r w'].
  destruct IH as (Hn3 & Hh3 & Hp3). split_and!; [lia| |].
  - intros l Hl. rewrite Hh3, Hh2, Hh1 by lia. done.
  - intros s' l Hr Hl. destruct (Hp3 s' l Hr Hl) as [Hs2|?]; [|lia].
    destruct (Hp2 l Hs2) as [?|?]; [by left|lia].
Qed.

Program Definition remote_frame : BooterFrame (remote_booter b) := {| footprint := ∅ |}.
Next Obligation. done. Qed.
Next Obligation. set_solver. Qed.
Next Obligation.
  intros hw w. cbn [ShouldBoot remote_booter]. unfold remote_ShouldBoot.
  pose proof (getSpec_heap hw w) as Hh. by destruct (getSpec b hw w) as [[x|e] w'].
Qed.
Next Obligation.
  intros hw w. cbn [GetBootSpec remote_booter]. unfold remote_BootSpec.
  pose proof (getSpec_heap hw w) as [Hh0 Hn0].
  destruct (getSpec b hw w) as [[[[kernel initrds] cmdline]|e] w0]; cbn [snd] in *;
    [|by split_and!; [lia|intros; by rewrite Hh0|]].
  pose proof (signURL_spec b kernel w0) as Hs. destruct (signURL b kernel w0) as [r w1].
  destruct Hs as (_ & Hh1 & Hn1 & _).
  destruct r as [k|e]; [|by split_and!; [lia|intros; by rewrite Hh1, Hh0|]].
  pose proof (sign_initrds_frame initrds nil_slice w1) as Hi.
  destruct (sign_initrds b initrds nil_slice w1) as [r w2]. destruct Hi as (Hn2 & Hh2 & Hp).
  destruct r as [s|e]; cbn [fst snd]; (split_and!; [lia|intros; rewrite Hh2, Hh1, Hh0 by lia; done|]); [|done].
  intros s' l [= <-] Hl. destruct (Hp s l eq_refl Hl) as [[=]|?]. lia.
Qed.

End remote_frame.

(** * Every interleaving answers like the sequential handlers *)

(** The array a request is working on. *)
Definition slice_of (t : thread) : option nat :=
  match t with
  | HLoad _ _ spec _ | HStore _ _ spec _ _ => sl_ptr (Initrd spec)
  | _ => None
  end.

Definition request_of (t : thread) : request :=
  match t with
  | HStart r | HLoad r _ _ _ | HStore r _ _ _ _ | HCopy r _ _ _ _ | HDone r _ _ => r
  end.

Lemma write_app a b w : write b (write a w) = write (a ++ b) w.
Proof. unfold write, write_header. simpl. by rewrite app_assoc. Qed.

Lemma slice_get_lookup w w' s :
  (∀ l, sl_ptr s = Some l → w_heap w' !! l = w_heap w !! l) → slice_get w' s = slice_get w s.
Proof. unfold slice_get. destruct (sl_ptr s) as [l|]; [|done]. intros Hl. by rewrite (Hl l). Qed.

Section interleaving.
Context `{UnicodeTables} (live : nat → Prop) (s : httpServer) `{L : !BooterLaws (booter s)}.

(** What the file handler answers with for a stream. *)
Definition file_reply (r : request) (pretty : GoString) (f : reader) : reply * list LogEntry :=
  (Responded (write (rd_data f) octet_stream),
   match rd_end f with
   | Some e => [Log (str "HTTP") (str "Error serving %s to %s: %s")
                  [AStr pretty; AStr (RemoteAddr r); AStr (Error e)]]
   | None => [Log (str "HTTP") (str "Sent %s to %s (%d bytes)")
                [AStr pretty; AStr (RemoteAddr r); AInt (Z.of_nat (length (rd_data f)))]]
   end).

(** The answer of a request whose stream was opened in the world [w1] and changed
    while it was read. *)
Definition streamed (w1 : World) (r : request) (rep : reply * list LogEntry) : Prop :=
  mux_route patterns (Method r) (URL_Path r) = RHandle HFile ∧
  ∃ id f pretty f', DecodeString (Base (URL_Path r)) = Some id ∧
    (GetFile (booter s) id w1).1 = Ok (f, pretty) ∧ rep = file_reply r pretty f'.

(** What the request [j] that called the booter in the world [w1] has done so far, now
    that the world is [w]. *)
Definition progress (j : nat) (w1 : World) (t : thread) (w : World) : Prop :=
  let encoding r mac spec i :=
    mux_route patterns (Method r) (URL_Path r) = RHandle HPxelinuxConfig ∧ config_mac (URL_Path r) = Some mac ∧
    ∃ wd1, GetBootSpec (booter s) mac w1 = (Ok spec, wd1) ∧
      sl_len (Initrd spec) = length (slice_get wd1 (Initrd spec)) ∧ i ≤ sl_len (Initrd spec) ∧
      slice_get w (Initrd spec) =
        (file_ref <$> take i (slice_get wd1 (Initrd spec))) ++ drop i (slice_get wd1 (Initrd spec)) in
  match t with
  | HStart _ => True
  | HLoad r mac spec i => encoding r mac spec i
  | HStore r mac spec i ref =>
      encoding r mac spec i ∧ i < sl_len (Initrd spec) ∧
      ref = file_ref (default [] (slice_get w (Initrd spec) !! i))
  | HCopy r pretty rest written rw =>
      mux_route patterns (Method r) (URL_Path r) = RHandle HFile ∧
      ∃ id f sent, DecodeString (Base (URL_Path r)) = Some id ∧
        (GetFile (booter s) id w1).1 = Ok (f, pretty) ∧
        (f = mkReader (sent ++ rd_data rest) (rd_end rest) ∨ live j) ∧
        written = length sent ∧ write [] rw = write sent octet_stream
  | HDone r rep logs =>
      (dispatch s r w1).1 = (rep, logs) ∨ (live j ∧ streamed w1 r (rep, logs))
  end.

(** The sequential handlers, in the terms of the steps. *)
Lemma dispatch_config_ok r mac wd spec wd1 :
  mux_route patterns (Method r) (URL_Path r) = RHandle HPxelinuxConfig → config_mac (URL_Path r) = Some mac →
  GetBootSpec (booter s) mac wd = (Ok spec, wd1) →
  sl_len (Initrd spec) = length (slice_get wd1 (Initrd spec)) →
  (dispatch s r wd).1 =
    (Responded (write (config_text (file_ref (Kernel spec))
                         (file_ref <$> slice_get wd1 (Initrd spec)) (Cmdline spec)) plain_text),
     [Log (str "HTTP") (str "Sent pxelinux config to %s (%s)")
        [AStr (HardwareAddr_String mac); AStr (RemoteAddr r)]]).
Proof.
  intros Hr Hm Hb Hl. unfold dispatch. rewrite Hr. unfold PxelinuxConfig, config_mac in *.
  destruct (HasPrefix (Base (URL_Path r)) (str "01-")); [|done]. cbn [negb]. rewrite Hm, Hb.
  destruct (encode_initrds_spec (Initrd spec) wd1 Hl) as [Hg _]. cbv zeta. by rewrite Hg.
Qed.

Lemma dispatch_file_ok r id wd f pretty :
  mux_route patterns (Method r) (URL_Path r) = RHandle HFile → DecodeString (Base (URL_Path r)) = Some id →
  (GetFile (booter s) id wd).1 = Ok (f, pretty) →
  (dispatch s r wd).1 = file_reply r pretty f.
Proof.
  intros Hr Hd Hg. unfold dispatch. rewrite Hr. unfold File. rewrite Hd.
  destruct (GetFile (booter s) id wd) as [x wd']. cbn [fst] in Hg. by subst x.
Qed.

(** The first step of a request, and its later steps, make progress. *)
Lemma start_step_progress j r wd :
  booter_inv wd → progress j wd (start_step s r wd).1 (start_step s r wd).2.
Proof.
  intros Hinv. unfold start_step.
  assert (∀ x, x = (let '(rep, logs, wd') := dispatch s r wd in (HDone r rep logs, wd')) →
    progress j wd x.1 x.2) as Hans
    by (intros x ->; destruct (dispatch s r wd) as [[rep logs] wd'] eqn:E; left; by rewrite E).
  destruct (mux_route patterns (Method r) (URL_Path r)) as [[]|p|] eqn:Hr; try by apply Hans.
  - destruct (config_mac (URL_Path r)) as [mac|] eqn:Hm; [|by apply Hans].
    pose proof (bootspec_law mac wd Hinv) as Hlaw.
    destruct (GetBootSpec (booter s) mac wd) as [[spec|e] wd1] eqn:Hb; [|by apply Hans].
    destruct Hlaw as (_ & _ & k & ts & _ & _ & _ & Hlen & _).
    cbn [fst snd progress]. split_and!; [done..|]. exists wd1. split_and!; [done|done|lia|done].
  - destruct (DecodeString (Base (URL_Path r))) as [id|] eqn:Hd; [|by apply Hans].
    destruct (GetFile (booter s) id wd) as [[[f pretty]|e] wd1] eqn:Hg; [|by apply Hans].
    cbn [fst snd progress]. split; [done|]. exists id, f, []. rewrite Hg. split_and!; try done.
    left. by destruct f.
Qed.

Lemma thread_step_progress j n w1 t w t' w' :
  progress j w1 t w → thread_step s n t w = Some (t', w') →
  (∀ r, t ≠ HStart r) → progress j w1 t' w'.
Proof.
  destruct t as [r|r mac spec i|r mac spec i ref|r pretty rest written rw|r rep logs];
    intros Hp Hstep Hns; [by destruct (Hns r)| | | |done]; cbn [thread_step] in Hstep.
  - destruct Hp as (Hr & Hm & wd1 & Hb & Hl & Hi & Hg).
    destruct (Nat.ltb_spec i (sl_len (Initrd spec))); injection Hstep as <- <-.
    { cbn [progress]. split; [|done]. split; [done|]. split; [done|]. by exists wd1. }
    left. rewrite (dispatch_config_ok r mac w1 spec wd1) by done.
    rewrite Hg, take_ge, drop_ge, app_nil_r by lia. done.
  - destruct Hp as ((Hr & Hm & wd1 & Hb & Hl & Hi & Hg) & Hlt & ->). injection Hstep as <- <-.
    split_and!; [done|done|]. exists wd1. split_and!; [done|done|lia|].
    rewrite slice_get_set, Hg by done. set (ids := slice_get wd1 (Initrd spec)) in *.
    destruct (lookup_lt_is_Some_2 ids i) as [x Hx]; [lia|].
    rewrite (drop_S ids x i Hx), (take_S_r ids i x Hx), fmap_app, <- app_assoc.
    assert (length (file_ref <$> take i ids) = i) as Hlen by (rewrite length_fmap, length_take; lia).
    rewrite lookup_app_r by lia. rewrite insert_app_r_alt by lia.
    by rewrite Hlen, Nat.sub_diag.
  - destruct Hp as (Hr & id & f & sent & Hd & Hf & Hrest & -> & Hw).
    destruct rest as [[|c data] re]; cbn [rd_data rd_end] in *; injection Hstep as <- <-.
    + destruct Hrest as [->|Hl]; [left|right].
      * rewrite (dispatch_file_ok r id w1 _ pretty) by done.
        unfold file_reply. cbn [rd_data rd_end]. by rewrite app_nil_r, Hw.
      * split; [done|]. split; [done|]. exists id, f, pretty, (mkReader sent re).
        unfold file_reply. cbn [rd_data rd_end]. by rewrite Hw.
    + split; [done|]. exists id, f, (sent ++ c :: take n data).
      cbn [rd_data rd_end]. split_and!; [done|done| | |].
      * destruct Hrest as [->|Hl]; [left|by right]. rewrite <- app_assoc. simpl. by rewrite take_drop.
      * rewrite length_app. done.
      * rewrite <- write_app, <- Hw, !write_app. by rewrite app_nil_r.
Qed.

(** Progress depends on the array of the request only. *)
Lemma progress_frame j w1 t w w' :
  (∀ l, slice_of t = Some l → w_heap w' !! l = w_heap w !! l) → progress j w1 t w → progress j w1 t w'.
Proof.
  destruct t; cbn [slice_of progress]; intros Hl; try done; by rewrite (slice_get_lookup w w').
Qed.

Context `{F : !BooterFrame (booter s)}.

(** The sequential handlers write to new arrays only. *)
Lemma dispatch_frame r wd :
  booter_inv wd →
  w_next wd ≤ w_next (dispatch s r wd).2 ∧
  ∀ l, l < w_next wd → w_heap (dispatch s r wd).2 !! l = w_heap wd !! l.
Proof.
  intros Hinv. unfold dispatch. destruct (mux_route patterns (Method r) (URL_Path r)) as [[]|p|]; try done.
  - unfold PxelinuxConfig. case_test; [done|]. destruct (ParseMAC _) as [mac|]; [|done].
    pose proof (bootspec_law mac wd Hinv) as Hlaw. pose proof (bootspec_frame mac wd) as Hfr.
    destruct (GetBootSpec (booter s) mac wd) as [[spec|e] wd1]; [|by destruct Hfr as (? & ? & _)].
    destruct Hlaw as (_ & _ & k & ts & _ & _ & _ & Hlen & _). destruct Hfr as (Hn & Hh & Hp).
    destruct (encode_initrds_spec (Initrd spec) wd1 Hlen) as [_ (h & -> & Hd)].
    cbn [snd set_heap w_next w_heap]. split; [done|]. intros l Hl.
    rewrite Hd, Hh; [done|done|]. intros Hs. specialize (Hp spec l eq_refl Hs). lia.
  - unfold File. destruct (DecodeString _) as [id|]; [|done].
    pose proof (after_file_opened _ wd (file_opens id wd)) as Hk.
    destruct (GetFile (booter s) id wd) as [[[f pretty]|e] wd1]; simpl in *; by subst.
Qed.

Lemma start_step_frame r w :
  booter_inv w →
  let '(t', w') := start_step s r w in
  w_next w ≤ w_next w' ∧
  (∀ l, slice_of (HStart r) ≠ Some l → l < w_next w → w_heap w' !! l = w_heap w !! l) ∧
  ∀ l, slice_of t' = Some l → slice_of (HStart r) = Some l ∨ w_next w ≤ l < w_next w'.
Proof.
  intros Hinv. pose proof (dispatch_frame r w Hinv) as [Hn Hh]. unfold start_step.
  destruct (dispatch s r w) as [[rep logs] wd'] eqn:E. cbn [snd] in *.
  destruct (mux_route patterns (Method r) (URL_Path r)) as [[]|p|]; try by split_and!; auto.
  - destruct (config_mac (URL_Path r)) as [mac|]; [|by split_and!; auto].
    pose proof (bootspec_frame mac w) as Hfr.
    destruct (GetBootSpec (booter s) mac w) as [[spec|e] wd1]; [|by split_and!; auto].
    destruct Hfr as (Hn1 & Hh1 & Hp1). split_and!; [done|auto|]. intros l Hl. right. by eapply Hp1.
  - destruct (DecodeString (Base (URL_Path r))) as [id|]; [|by split_and!; auto].
    pose proof (file_opens id w) as Ho.
    destruct (GetFile (booter s) id w) as [[[f pretty]|e] wd1]; [|by split_and!; auto].
    cbn [fst snd] in Ho. subst wd1. by split_and!.
Qed.

Lemma start_step_request r w : request_of (start_step s r w).1 = r.
Proof.
  unfold start_step. destruct (dispatch s r w) as [[rep logs] wd'].
  destruct (mux_route patterns (Method r) (URL_Path r)) as [[]|p|]; try done.
  - destruct (config_mac (URL_Path r)) as [mac|]; [|done]. by destruct (GetBootSpec (booter s) mac w) as [[]].
  - destruct (DecodeString (Base (URL_Path r))) as [id|]; [|done].
    by destruct (GetFile (booter s) id w) as [[[f pretty]|e] wd1].
Qed.

Lemma thread_step_request n t w t' w' :
  thread_step s n t w = Some (t', w') → request_of t' = request_of t.
Proof.
  destruct t as [r|r mac spec i|r mac spec i ref|r pretty rest written rw|r rep logs];
    cbn [thread_step]; [| | | |done].
  - intros [= Hst]. pose proof (start_step_request r w) as Hr. by rewrite Hst in Hr.
  - case_test; by intros [= <- <-].
  - by intros [= <- <-].
  - destruct (rd_data rest); by intros [= <- <-].
Qed.

(** A step writes only to the array of its own request and to new arrays, and a
    request works on one array, new when it got it. *)
Lemma thread_step_frame n t w t' w' :
  booter_inv w → thread_step s n t w = Some (t', w') →
  w_next w ≤ w_next w' ∧
  (∀ l, slice_of t ≠ Some l → l < w_next w → w_heap w' !! l = w_heap w !! l) ∧
  ∀ l, slice_of t' = Some l → slice_of t = Some l ∨ w_next w ≤ l < w_next w'.
Proof.
  intros Hinv. destruct t as [r|r mac spec i|r mac spec i ref|r pretty rest written rw|r rep logs];
    cbn [thread_step]; [| | | |done].
  - intros [= Hst]. pose proof (start_step_frame r w Hinv) as Hf. by rewrite Hst in Hf.
  - case_test; intros [= <- <-]; split_and!; auto; done.
  - intros [= <- <-]. cbn [slice_of]. unfold slice_set.
    destruct (sl_ptr (Initrd spec)) as [l|]; [|split_and!; auto].
    cbn [set_heap w_next w_heap]. split_and!; [done| |auto].
    intros l' Hl' _. apply lookup_alter_ne. congruence.
  - destruct (rd_data rest) as [|c data]; intros [= <- <-]; by split_and!.
Qed.

(** The invariant of the system: the booter's own invariant; every request in
    progress works on an array of its own; every request has progressed from a
    configuration the system went through while the request had not yet called the
    booter. *)
Record sys_inv (c0 c : config) : Prop := {
  si_booter : booter_inv (c_world c);
  si_owns i t l : c_threads c !! i = Some t → slice_of t = Some l →
    l < w_next (c_world c) ∧ l ∉ footprint;
  si_disjoint i j ti tj l : c_threads c !! i = Some ti → c_threads c !! j = Some tj →
    slice_of ti = Some l → slice_of tj = Some l → i = j;
  si_progress i t : c_threads c !! i = Some t →
    ∃ c1, rtc (cstep live s) c0 c1 ∧ rtc (cstep live s) c1 c ∧
      c_threads c1 !! i = Some (HStart (request_of t)) ∧ progress i (c_world c1) t (c_world c)
}.

(** A step that leaves the requests alone and the allocated arrays as they are. *)
Lemma sys_inv_world c0 c w' :
  cstep live s c (mkConfig w' (c_threads c)) → sys_inv c0 c →
  w_heap w' = w_heap (c_world c) → w_next w' = w_next (c_world c) →
  sys_inv c0 (mkConfig w' (c_threads c)).
Proof.
  intros Hstep [Hb Ho Hd Hp] Hh Hn. split; cbn [c_world c_threads].
  - eapply inv_frame; [exact Hb|by rewrite Hn|intros; by rewrite Hh].
  - rewrite Hn. exact Ho.
  - exact Hd.
  - intros i t Ht. destruct (Hp i t Ht) as (c1 & H1 & H2 & H3 & H4). exists c1.
    split_and!; [done|by eapply rtc_r|done|]. eapply progress_frame; [|exact H4].
    intros; by rewrite Hh.
Qed.

Lemma sys_inv_arrive c0 c i r :
  c_threads c !! i = None → rtc (cstep live s) c0 c → sys_inv c0 c →
  sys_inv c0 (mkConfig (c_world c) (<[i := HStart r]> (c_threads c))).
Proof.
  intros Hi Hrtc [Hb Ho Hd Hp].
  assert (cstep live s c (mkConfig (c_world c) (<[i := HStart r]> (c_threads c)))) as Hstep by by constructor.
  split; cbn [c_world c_threads]; [done| | |].
  - intros j t l. rewrite lookup_insert_Some. intros [[<- <-]|[_ Hj]]; [done|by eapply Ho].
  - intros j k tj tk l. rewrite !lookup_insert_Some.
    intros [[<- <-]|[_ Hj]]; [done|]. intros [[<- <-]|[_ Hk]]; [done|by eapply Hd].
  - intros j t. rewrite lookup_insert_Some. intros [[<- <-]|[_ Hj]].
    + eexists. split; [by eapply rtc_r|]. split; [reflexivity|].
      split; [apply lookup_insert_eq|done].
    + destruct (Hp j t Hj) as (c1 & H1 & H2 & H3 & H4). exists c1.
      split_and!; [done|by eapply rtc_r|done|done].
Qed.

Lemma sys_inv_handler c0 c i n t t' w' :
  c_threads c !! i = Some t → thread_step s n t (c_world c) = Some (t', w') →
  rtc (cstep live s) c0 c → sys_inv c0 c →
  sys_inv c0 (mkConfig w' (<[i := t']> (c_threads c))).
Proof.
  intros Hi Hts Hrtc [Hb Ho Hd Hp].
  assert (cstep live s c (mkConfig w' (<[i := t']> (c_threads c)))) as Hstep by (eapply CHandler; eassumption).
  destruct (thread_step_frame n t _ t' w' Hb Hts) as (Hn & Hh & Hs).
  assert (∀ j tj l, j ≠ i → c_threads c !! j = Some tj → slice_of tj = Some l →
    w_heap w' !! l = w_heap (c_world c) !! l ∧ slice_of t' ≠ Some l) as Hother.
  { intros j tj l Hji Hj Hl. destruct (Ho j tj l Hj Hl) as [Hlt _]. split.
    - apply Hh; [|done]. intros Ht. by apply Hji, (Hd j i tj t l).
    - intros Ht'. destruct (Hs l Ht') as [Ht|?]; [|lia]. by apply Hji, (Hd j i tj t l). }
  split; cbn [c_world c_threads].
  - eapply inv_frame; [exact Hb|done|]. intros l Hl.
    apply Hh; [|by eapply footprint_allocated]. intros Ht. by apply (Ho i t l).
  - intros j tj l. rewrite lookup_insert_Some. intros [[<- <-]|[_ Hj]] Hl.
    + destruct (Hs l Hl) as [Ht|?]; [destruct (Ho i t l Hi Ht); split; [lia|done]|].
      split; [lia|]. intros Hf. pose proof (footprint_allocated _ _ Hb Hf). lia.
    + destruct (Ho j tj l Hj Hl). split; [lia|done].
  - intros j k tj tk l. rewrite !lookup_insert_Some.
    intros [[<- <-]|[Hij Hj]] [[<- <-]|[Hik Hk]] Hlj Hlk; [done| | |by eapply Hd].
    + by destruct (Hother k tk l) as [_ []].
    + by destruct (Hother j tj l) as [_ []].
  - intros j tj. rewrite lookup_insert_Some. intros [[<- <-]|[Hij Hj]].
    + destruct (Hp i t Hi) as (c1 & H1 & H2 & H3 & H4).
      destruct t as [r| | | |]; [|exists c1; (split; [done|]); (split; [by eapply rtc_r|]);
        (split; [by rewrite (thread_step_request _ _ _ _ _ Hts)|by eapply thread_step_progress])..].
      injection Hts as Hst. exists c. split; [done|]. split; [by apply rtc_once|].
      pose proof (start_step_progress i r (c_world c) Hb) as Hpr.
      pose proof (start_step_request r (c_world c)) as Hreq. rewrite Hst in Hpr, Hreq.
      cbn [fst snd] in Hreq. by rewrite Hreq.
    + destruct (Hp j tj Hj) as (c1 & H1 & H2 & H3 & H4). exists c1.
      split_and!; [done|by eapply rtc_r|done|]. eapply progress_frame; [|exact H4].
      intros l Hl. by apply (Hother j tj l).
Qed.

Lemma sys_inv_stream c0 c i r pretty rest rest' written rw :
  live i → c_threads c !! i = Some (HCopy r pretty rest written rw) → sys_inv c0 c →
  sys_inv c0 (mkConfig (c_world c) (<[i := HCopy r pretty rest' written rw]> (c_threads c))).
Proof.
  intros Hl Hi [Hb Ho Hd Hp].
  assert (cstep live s c (mkConfig (c_world c) (<[i := HCopy r pretty rest' written rw]> (c_threads c))))
    as Hstep by by eapply CStream.
  split; cbn [c_world c_threads]; [done| | |].
  - intros j t l. rewrite lookup_insert_Some. intros [[<- <-]|[_ Hj]]; [done|by eapply Ho].
  - intros j k tj tk l. rewrite !lookup_insert_Some.
    intros [[<- <-]|[_ Hj]]; [done|]. intros [[<- <-]|[_ Hk]]; [done|by eapply Hd].
  - intros j t. rewrite lookup_insert_Some. intros [[<- <-]|[_ Hj]].
    + destruct (Hp i _ Hi) as (c1 & H1 & H2 & H3 & Hr & id & f & sent & Hdec & Hf & _ & Hw).
      exists c1. split; [done|]. split; [by eapply rtc_r|]. split; [done|]. split; [done|].
      exists id, f, sent. split_and!; [done|done|by right|apply Hw..].
    + destruct (Hp j t Hj) as (c1 & H1 & H2 & H3 & H4). exists c1.
      split_and!; [done|by eapply rtc_r|done|done].
Qed.

Lemma sys_inv_reachable c0 c :
  c_threads c0 = ∅ → booter_inv (c_world c0) → rtc (cstep live s) c0 c → sys_inv c0 c.
Proof.
  intros H0 Hb. revert c. apply rtc_ind_r.
  - split; rewrite ?H0; try done; set_solver.
  - intros c c' Hrtc Hstep IH.
    destruct Hstep as [i r c Hi|i n t t' w' c Hi Hts|hw c|w' c (Hh & Hn & Hs)|i r pr f f' n rw c Hl Hi].
    + by apply sys_inv_arrive.
    + by eapply sys_inv_handler.
    + pose proof (shouldboot_frame hw (c_world c)) as [Hh Hn].
      apply sys_inv_world; [constructor|done|done|done].
    + apply sys_inv_world; [by constructor|done|done|done].
    + by eapply sys_inv_stream.
Qed.

(** ** Streams *)

Definition is_copy (t : thread) : bool := match t with HCopy _ _ _ _ _ => true | _ => false end.

(** The requests whose stream is open. *)
Definition copying (ths : gmap nat thread) : nat :=
  sum_list_with (λ it, Nat.b2n (is_copy it.2)) (map_to_list ths).

Lemma copying_insert_None ths i t :
  ths !! i = None → copying (<[i := t]> ths) = Nat.b2n (is_copy t) + copying ths.
Proof. intros Hi. unfold copying. by rewrite map_to_list_insert. Qed.

Lemma copying_insert_Some ths i t t' :
  ths !! i = Some t →
  copying (<[i := t']> ths) + Nat.b2n (is_copy t) = copying ths + Nat.b2n (is_copy t').
Proof.
  intros Hi. rewrite <- (insert_delete_id ths i t) at 2 by done.
  rewrite <- (insert_delete_eq ths i t'). rewrite !copying_insert_None by apply lookup_delete_eq. lia.
Qed.

Lemma thread_step_streams n t w t' w' :
  no_leak (booter s) → booter_inv w → thread_step s n t w = Some (t', w') →
  Nat.b2n (is_copy t) ≤ w_streams w →
  w_streams w' + Nat.b2n (is_copy t) = w_streams w + Nat.b2n (is_copy t').
Proof.
  intros Hnl Hinv.
  destruct t as [r|r mac spec i|r mac spec i ref|r pretty rest written rw|r rep logs];
    cbn [thread_step]; [| | | |done].
  - intros [= Hst] _. pose proof (dispatch_streams s r w Hnl Hinv) as Hd. unfold start_step in Hst.
    destruct (dispatch s r w) as [[rep logs] wd']. cbn [snd] in Hd.
    destruct (mux_route patterns (Method r) (URL_Path r)) as [[]|p|]; simplify_eq/=; try lia.
    + destruct (config_mac (URL_Path r)) as [mac|]; simplify_eq/=; [|lia]. pose proof (Hnl mac w) as Hm.
      destruct (GetBootSpec (booter s) mac w) as [[spec|e] wd1]; simplify_eq/=; lia.
    + destruct (DecodeString (Base (URL_Path r))) as [id|]; simplify_eq/=; [|lia].
      pose proof (file_opens id w) as Ho.
      destruct (GetFile (booter s) id w) as [[[f pretty]|e] wd1]; simplify_eq/=; lia.
  - case_test; intros [= <- <-]; simpl; lia.
  - intros [= <- <-] _. simpl. unfold slice_set. destruct (sl_ptr (Initrd spec)); simpl; lia.
  - destruct (rd_data rest) as [|c data]; intros [= <- <-]; simpl; lia.
Qed.

Lemma copying_positive ths i t : ths !! i = Some t → Nat.b2n (is_copy t) ≤ copying ths.
Proof.
  intros Hi. rewrite <- (insert_delete_id ths i t) by done.
  rewrite copying_insert_None by apply lookup_delete_eq. lia.
Qed.

Lemma streams_reachable c0 c :
  no_leak (booter s) → (∀ hw w, w_streams (ShouldBoot (booter s) hw w).2 = w_streams w) →
  c_threads c0 = ∅ → booter_inv (c_world c0) → rtc (cstep live s) c0 c →
  w_streams (c_world c) = w_streams (c_world c0) + copying (c_threads c).
Proof.
  intros Hnl Hsb H0 Hb Hrtc. pattern c. revert c Hrtc. apply rtc_ind_r.
  { rewrite H0. unfold copying. rewrite map_to_list_empty. simpl. lia. }
  intros c c' Hrtc Hstep IH. pose proof (si_booter _ _ (sys_inv_reachable c0 c H0 Hb Hrtc)) as Hinv.
  destruct Hstep as [i r c Hi|i n t t' w' c Hi Hts|hw c|w' c (Hh & Hn & Hs)|i r pr f f' n rw c Hl Hi];
    cbn [c_world c_threads].
  - by rewrite copying_insert_None.
  - pose proof (copying_insert_Some _ i t t' Hi) as Hc. pose proof (copying_positive _ _ _ Hi).
    pose proof (thread_step_streams n t _ t' w' Hnl Hinv Hts ltac:(lia)). lia.
  - by rewrite Hsb.
  - by rewrite Hs.
  - pose proof (copying_insert_Some _ i _ (HCopy r pr f' n rw) Hi) as Hc. cbn [is_copy Nat.b2n] in Hc. lia.
Qed.

End interleaving.

(** * The static booter under load *)

Section static_interleaving.
Context `{UnicodeTables}.

Lemma static_initrds_streams i n s w : w_streams (static_initrds i n s w).2 = w_streams w.
Proof. revert i s w. induction n as [|n IH]; intros i s w; cbn [static_initrds]; [done|]. simpl. by rewrite IH. Qed.

Lemma new_staticBooter_streams kp ips cmd w :
  w_streams (new_staticBooter kp ips cmd w).2 = w_streams w.
Proof.
  unfold new_staticBooter. pose proof (static_initrds_streams 0 (length ips) nil_slice w) as Hs.
  by destruct (static_initrds 0 (length ips) nil_slice w).
Qed.

(** C35: in static mode the HTTP server closes every file it opens: at every moment
    of every interleaving, the streams open are those of the requests that are being
    sent, and once every request is answered none is left. *)
Theorem static_no_leak kp ips cmd w0 ld key live c :
  (Z.of_nat (length ips) ≤ max_int)%Z →
  let '(b, w1) := StaticBooter kp ips cmd w0 in
  rtc (cstep live (mkHttpServer b ld key)) (mkConfig w1 ∅) c →
  w_streams (c_world c) = w_streams w0 + copying (c_threads c).
Proof.
  intros Hlen. unfold StaticBooter. pose proof (new_staticBooter_ok kp ips cmd w0) as Hb.
  pose proof (new_staticBooter_streams kp ips cmd w0) as Hst.
  destruct (new_staticBooter kp ips cmd w0) as [b w1]. destruct Hb as (Hok & _ & <- & <- & <-).
  intros Hrtc. cbn [snd] in Hst. rewrite <- Hst.
  apply (@streams_reachable _ live (mkHttpServer (static_booter b) ld key) (static_laws b Hlen)
    (static_frame b Hlen) (mkConfig w1 ∅)); [apply static_quiet|done..].
Qed.

(** C18: with the static booter every machine is given the same configuration,
    whatever other requests and discoveries are being handled at the same time: the
    kernel, one initrd per configured path in order, the configured command line. *)
Theorem static_config_stable kp ips cmd w0 ld key live c i r mac rep logs :
  (Z.of_nat (length ips) ≤ max_int)%Z →
  mac_length_ok (length mac) = true → URL_Path r = str "/pxelinux.cfg/" ++ config_name mac →
  let '(b, w1) := StaticBooter kp ips cmd w0 in
  rtc (cstep live (mkHttpServer b ld key)) (mkConfig w1 ∅) c →
  c_threads c !! i = Some (HDone r rep logs) →
  ∃ resp, rep = Responded resp ∧ rw_status resp = Some 200%Z ∧
    rw_body resp =
      config_text (file_ref (str "kernel")) (file_ref <$> initrd_ids (length ips)) cmd.
Proof.
  intros Hlen Hmac Hp. unfold StaticBooter. pose proof (new_staticBooter_ok kp ips cmd w0) as Hb.
  destruct (new_staticBooter kp ips cmd w0) as [b w1]. destruct Hb as (Hok & _ & <- & <- & <-).
  intros Hrtc Hi. set (s := mkHttpServer (static_booter b) ld key) in *.
  destruct (si_progress _ _ _ _ (@sys_inv_reachable _ live s (static_laws b Hlen) (static_frame b Hlen)
    (mkConfig w1 ∅) c eq_refl Hok Hrtc) i _ Hi) as (c1 & H1 & _ & _ & Hd).
  pose proof (si_booter _ _ _ _ (@sys_inv_reachable _ live s (static_laws b Hlen) (static_frame b Hlen)
    (mkConfig w1 ∅) c1 eq_refl Hok H1)) as Hok1.
  destruct (static_config b ld key [] r mac (c_world c1) Hlen Hok1 Hmac Hp)
    as (resp & logs' & w2 & Hresp & Hs & Hbody). cbn [http_run snd] in Hresp.
  fold s in Hresp. destruct Hd as [Hd|[_ [Hr _]]].
  - rewrite Hresp in Hd. injection Hd as <- _. eauto.
  - rewrite Hp, mux_route_config in Hr by apply plain_config_name. done.
Qed.

(** C8: in static mode, however requests, discoveries and changes outside the program
    interleave, every response is, with its log entries, the one the sequential handler
    gives when it runs alone in a state the system went through between the arrival of
    the request and the response.  The exception is a file that is written to while it
    is being sent: its response has the status, the headers and the log entry of the
    handler, for the bytes as they were read. *)
Theorem http_linearizable kp ips cmd w0 ld key live c i r rep logs :
  (Z.of_nat (length ips) ≤ max_int)%Z →
  let '(b, w1) := StaticBooter kp ips cmd w0 in
  let s := mkHttpServer b ld key in
  rtc (cstep live s) (mkConfig w1 ∅) c →
  c_threads c !! i = Some (HDone r rep logs) →
  ∃ c1, rtc (cstep live s) (mkConfig w1 ∅) c1 ∧ rtc (cstep live s) c1 c ∧
    c_threads c1 !! i = Some (HStart r) ∧
    ((dispatch s r (c_world c1)).1 = (rep, logs) ∨ live i ∧ streamed s (c_world c1) r (rep, logs)).
Proof.
  intros Hlen. unfold StaticBooter. pose proof (new_staticBooter_ok kp ips cmd w0) as Hb.
  destruct (new_staticBooter kp ips cmd w0) as [b w1]. destruct Hb as (Hok & _ & <- & <- & <-).
  intros Hrtc Hi. set (s := mkHttpServer (static_booter b) ld key) in *.
  exact (si_progress _ _ _ _ (@sys_inv_reachable _ live s (static_laws b Hlen) (static_frame b Hlen)
    (mkConfig w1 ∅) c eq_refl Hok Hrtc) i _ Hi).
Qed.

End static_interleaving.

(** * Schedules

    An execution by the list of its steps. *)

Inductive event :=
| Arrive (i : nat) (r : request)
| Go (i n : nat)
| Discover (hw : HardwareAddr)
| Outside (files : GoString → result reader)
| Change (i : nat) (rest : reader).

Definition is_done (t : thread) : bool := match t with HDone _ _ _ => true | _ => false end.

Section schedules.
Context `{UnicodeTables} (s : httpServer).

Definition exec (c : config) (e : event) : config :=
  match e with
  | Arrive i r =>
      match c_threads c !! i with
      | None => mkConfig (c_world c) (<[i := HStart r]> (c_threads c))
      | Some _ => c
      end
  | Go i n =>
      match t ← c_threads c !! i; thread_step s n t (c_world c) with
      | Some (t', wd') => mkConfig wd' (<[i := t']> (c_threads c))
      | None => c
      end
  | Discover hw => mkConfig (ShouldBoot (booter s) hw (c_world c)).2 (c_threads c)
  | Outside files =>
      let w := c_world c in
      mkConfig (mkWorld (w_heap w) (w_next w) (w_rand w) files (w_client w) (w_get w) (w_streams w))
        (c_threads c)
  | Change i rest' =>
      match c_threads c !! i with
      | Some (HCopy r pretty rest written w) =>
          mkConfig (c_world c) (<[i := HCopy r pretty rest' written w]> (c_threads c))
      | _ => c
      end
  end.

Lemma exec_rtc es c : rtc (cstep (λ _, True) s) c (foldl exec c es).
Proof.
  revert c. induction es as [|e es IH]; intros c; [done|]. cbn [foldl].
  transitivity (exec c e); [|done]. destruct e as [i r|i n|hw|files|i rest']; cbn [exec].
  - destruct (c_threads c !! i) eqn:Hi; [done|]. by apply rtc_once, CArrive.
  - destruct (c_threads c !! i) as [t|] eqn:Hi; cbn [mbind option_bind]; [|done].
    destruct (thread_step s n t (c_world c)) as [[t' wd']|] eqn:Hts; [|done].
    apply rtc_once. by eapply CHandler.
  - apply rtc_once, CDiscover.
  - by apply rtc_once, COutside.
  - destruct (c_threads c !! i) as [[]|] eqn:Hi; try done. apply rtc_once. by eapply CStream.
Qed.

End schedules.

(** * Witnesses *)

Section witnesses.
#[local] Existing Instance latin1_tables.

(** Two machines ask for their configuration and two others for the kernel, all at
    once; the files are deleted while the kernel is being sent, and the fourth request
    reads the kernel while it is written to. *)
Definition toy_file_request : request :=
  mkRequest (str "GET") [] [] (str "/f/a2VybmVs") (str "/f/a2VybmVs").

Definition toy_schedule : list event :=
  [Arrive 0 toy_request; Arrive 1 toy_request; Go 0 0; Arrive 2 toy_file_request; Go 1 0; Go 0 0; Go 1 0;
   Go 2 0; Discover toy_mac; Go 1 0; Go 0 0; Go 0 0; Go 2 3; Arrive 3 toy_file_request; Go 3 0; Go 3 7;
   Outside (λ _, Err (ErrNew (str "no such file or directory"))); Go 2 100; Go 1 0;
   Go 0 0; Go 0 0; Change 3 (mkReader (str " changed") None); Go 1 0; Go 1 0; Go 2 0; Go 3 100; Go 3 0].

Definition toy_start : config :=
  mkConfig (new_staticBooter (str "k") [str "i0"; str "i1"] (str "quiet") toy_world).2 ∅.

Definition toy_end : config := foldl (exec toy_server) toy_start toy_schedule.

Lemma toy_done i r :
  (λ t, (is_done t, request_of t)) <$> c_threads toy_end !! i = Some (true, r) →
  ∃ rep logs, c_threads toy_end !! i = Some (HDone r rep logs).
Proof.
  destruct (c_threads toy_end !! i) as [[| | | |r' rep logs]|]; try discriminate.
  intros [= ->]. eauto.
Qed.

(** The body of the fourth response is the old file up to the change, and the new one
    after it. *)
Lemma http_linearizable_witness :
  ∃ rep logs c1, c_threads toy_end !! 3 = Some (HDone toy_file_request rep logs) ∧
    (∃ resp, rep = Responded resp ∧ rw_body resp = str "contents changed") ∧
    rtc (cstep (λ _, True) toy_server) c1 toy_end ∧
    ((dispatch toy_server toy_file_request (c_world c1)).1 = (rep, logs) ∨
     True ∧ streamed toy_server (c_world c1) toy_file_request (rep, logs)).
Proof.
  destruct (toy_done 3 toy_file_request) as (rep & logs & E); [vm_compute; reflexivity|].
  exists rep, logs.
  destruct (http_linearizable (str "k") [str "i0"; str "i1"] (str "quiet") toy_world (str "LDLINUX") []
    (λ _, True) toy_end 3 toy_file_request rep logs ltac:(vm_compute; discriminate)
    (exec_rtc toy_server toy_schedule toy_start) E) as (c1 & _ & H1 & _ & H2).
  exists c1. split; [exact E|]. split; [|split; [exact H1|exact H2]].
  assert ((λ t, match t with HDone _ (Responded resp) _ => Some (rw_body resp) | _ => None end) <$>
    c_threads toy_end !! 3 = Some (Some (str "contents changed"))) as Hb by (vm_compute; reflexivity).
  rewrite E in Hb. destruct rep as [resp|p]; [|discriminate]. injection Hb as Hb.
  exists resp. split; [reflexivity|exact Hb].
Defined.

Lemma static_no_leak_witness :
  copying (c_threads toy_end) = 0 ∧ w_streams (c_world toy_end) = w_streams toy_world.
Proof.
  assert (copying (c_threads toy_end) = 0) as Hc by (vm_compute; reflexivity).
  split; [exact Hc|]. rewrite <- Nat.add_0_r, <- Hc.
  exact (static_no_leak (str "k") [str "i0"; str "i1"] (str "quiet") toy_world (str "LDLINUX") [] (λ _, True) toy_end
    ltac:(vm_compute; discriminate) (exec_rtc toy_server toy_schedule toy_start)).
Defined.

Lemma static_config_stable_witness :
  ∃ rep logs resp, c_threads toy_end !! 0 = Some (HDone toy_request rep logs) ∧
    rep = Responded resp ∧
    rw_body resp = config_text (str "f/a2VybmVs") [str "f/MA=="; str "f/MQ=="] (str "quiet").
Proof.
  destruct (toy_done 0 toy_request) as (rep & logs & E); [vm_compute; reflexivity|]. exists rep, logs.
  destruct (static_config_stable (str "k") [str "i0"; str "i1"] (str "quiet") toy_world (str "LDLINUX") []
    (λ _, True) toy_end 0 toy_request toy_mac rep logs ltac:(vm_compute; discriminate) eq_refl eq_refl
    (exec_rtc toy_server toy_schedule toy_start) E) as (resp & Hr & _ & Hb).
  exists resp. split; [exact E|]. split; [exact Hr|exact Hb].
Defined.

End witnesses.
