(* ===== verification/Assets.v ===== *)
(** assets/pxelinux_autogen.go: the two embedded files and the table that holds
    them.  The compressed bytes and [compress/gzip] are parameters. *)
From S2P Require Import Prelude GoStrings GoFmt GoIO.

(** * Definitions from assets/pxelinux_autogen.go *)

(** [compress/gzip]: what [gzip.NewReader] makes of some bytes, an error or a
    stream together with what its [Close] returns. *)
Class Gzip := { gzip_NewReader : bytes → result (reader * option error) }.

Record bindataFileInfo := mkFileInfo {
  Name : GoString;
  Size : Z;
  Mode : Z;
  ModTime : Z
}.

Definition IsDir (fi : bindataFileInfo) : bool := false.

Record asset := mkAsset {
  a_bytes : bytes;
  a_info : bindataFileInfo
}.

(** A node of the directory tree: its generator, if it is a file, and its
    children. *)
Inductive bintree :=
| Bintree (Func : option (result asset)) (Children : list (GoString * bintree)).

Definition Func (n : bintree) : option (result asset) := let 'Bintree f _ := n in f.
Definition Children (n : bintree) : list (GoString * bintree) := let 'Bintree _ c := n in c.

Fixpoint child (p : GoString) (l : list (GoString * bintree)) : option bintree :=
  match l with
  | [] => None
  | (q, n) :: l => if decide (q = p) then Some n else child p l
  end.

(** ** path/filepath *)

(** [filepath.Clean] on the components of a path: [".."] takes back a component,
    and is kept at the start of a relative path. *)
Fixpoint clean_parts (rooted : bool) (acc l : list GoString) : list GoString :=
  match l with
  | [] => rev acc
  | c :: l =>
      if decide (c = [] ∨ c = str ".") then clean_parts rooted acc l
      else if decide (c = str "..") then
        match acc with
        | [] => clean_parts rooted (if rooted then [] else [c]) l
        | d :: acc' => clean_parts rooted (if decide (d = str "..") then c :: acc else acc') l
        end
      else clean_parts rooted (c :: acc) l
  end.

Definition Clean (path : GoString) : GoString :=
  let rooted := HasPrefix path (str "/") in
  let joined := Join (clean_parts rooted [] (Split path 47%gb)) (str "/") in
  if rooted then 47%gb :: joined else match joined with [] => str "." | _ => joined end.

(** [filepath.Join]: the elements from the first non-empty one on. *)
Fixpoint filepath_Join (elem : list GoString) : GoString :=
  match elem with
  | [] => []
  | [] :: elem => filepath_Join elem
  | _ => Clean (Join elem (str "/"))
  end.

(** [filepath.Dir]: everything before the last slash, cleaned. *)
Definition Dir (path : GoString) : GoString :=
  Clean (rev (drop_while (λ c, negb (is_slash c)) (rev path))).

(** ** The file system calls of [RestoreAsset] *)

Inductive fs_action :=
| MkdirAll (path : GoString) (perm : Z)
| WriteFile (path : GoString) (data : bytes) (perm : Z)
| Chtimes (path : GoString) (atime mtime : Z).

#[export] Instance fs_action_eq_dec : EqDecision fs_action.
Proof. solve_decision. Defined.

Section assets.
Context `{UnicodeTables, Gzip} (ldlinuxC32_data lpxelinux0_data : bytes).
(** The order in which [range] goes over the keys of a map, and what each call on
    the file system returns. *)
Context (iterate : list GoString → list GoString) (os : fs_action → result unit).

(** [bindataRead]: an error of [Close] makes it return its (nil) copy error. *)
Definition bindataRead (data : bytes) (name : GoString) : result bytes :=
  let failed e := Err (Errorf (str "Read %q: %v") [AStr name; AStr (Error e)]) in
  match gzip_NewReader data with
  | Err e => failed e
  | Ok (gz, clErr) =>
      let '(buf, err) := Copy gz in
      match err, clErr with
      | Some e, _ => failed e
      | None, Some _ => Ok []
      | None, None => Ok buf
      end
  end.

Definition ldlinuxC32Bytes : result bytes := bindataRead ldlinuxC32_data (str "ldlinux.c32").

Definition ldlinuxC32 : result asset :=
  bytes ← ldlinuxC32Bytes;
  Ok (mkAsset bytes (mkFileInfo (str "ldlinux.c32") 122308 420 1444138389)).

Definition lpxelinux0Bytes : result bytes := bindataRead lpxelinux0_data (str "lpxelinux.0").

Definition lpxelinux0 : result asset :=
  bytes ← lpxelinux0Bytes;
  Ok (mkAsset bytes (mkFileInfo (str "lpxelinux.0") 91550 420 1444138389)).

Definition _bindata : gmap GoString (result asset) :=
  {[str "ldlinux.c32" := ldlinuxC32; str "lpxelinux.0" := lpxelinux0]}.

Definition cannonicalName (name : GoString) : GoString := Replace name 92%gb (str "/").

Definition Asset (name : GoString) : result bytes :=
  match _bindata !! cannonicalName name with
  | Some f =>
      match f with
      | Err e => Err (Errorf (str "Asset %s can't read by error: %v") [AStr name; AStr (Error e)])
      | Ok a => Ok (a_bytes a)
      end
  | None => Err (Errorf (str "Asset %s not found") [AStr name])
  end.

Definition MustAsset (name : GoString) : go bytes :=
  match Asset name with Err _ => Panic | Ok a => Ret a end.

Definition AssetInfo (name : GoString) : result bindataFileInfo :=
  match _bindata !! cannonicalName name with
  | Some f =>
      match f with
      | Err e => Err (Errorf (str "AssetInfo %s can't read by error: %v") [AStr name; AStr (Error e)])
      | Ok a => Ok (a_info a)
      end
  | None => Err (Errorf (str "AssetInfo %s not found") [AStr name])
  end.

Definition AssetNames : list GoString := iterate (map_to_list _bindata).*1.

Definition _bintree : bintree :=
  Bintree None [(str "ldlinux.c32", Bintree (Some ldlinuxC32) []);
                (str "lpxelinux.0", Bintree (Some lpxelinux0) [])].

(** The walk of [AssetDir] along the components of a path. *)
Fixpoint walk (node : bintree) (pathList : list GoString) : option bintree :=
  match pathList with
  | [] => Some node
  | p :: pathList => node ← child p (Children node); walk node pathList
  end.

Definition AssetDir (name : GoString) : result (list GoString) :=
  let not_found := Err (Errorf (str "Asset %s not found") [AStr name]) in
  let node := match name with
              | [] => Some _bintree
              | _ => walk _bintree (Split (cannonicalName name) 47%gb)
              end in
  match node with
  | None => not_found
  | Some node =>
      match Func node with
      | Some _ => not_found
      | None => Ok (iterate (Children node).*1)
      end
  end.

Definition _filePath (dir name : GoString) : GoString :=
  filepath_Join (dir :: Split (cannonicalName name) 47%gb).

(** The calls made, up to the first that fails, and the result. *)
Fixpoint fs_run (acts : list fs_action) : list fs_action * result unit :=
  match acts with
  | [] => ([], Ok tt)
  | a :: acts =>
      match os a with
      | Err e => ([a], Err e)
      | Ok _ => let '(tr, r) := fs_run acts in (a :: tr, r)
      end
  end.

Definition RestoreAsset (dir name : GoString) : list fs_action * result unit :=
  match Asset name with
  | Err e => ([], Err e)
  | Ok data =>
      match AssetInfo name with
      | Err e => ([], Err e)
      | Ok info =>
          fs_run [MkdirAll (_filePath dir (Dir name)) 493;
                  WriteFile (_filePath dir name) data (Mode info);
                  Chtimes (_filePath dir name) (ModTime info) (ModTime info)]
      end
  end.

(** The loop of [RestoreAssets] over the children of a directory. *)
Fixpoint restore_children (restore : GoString → go (list fs_action * result unit))
    (name : GoString) (children : list GoString) : go (list fs_action * result unit) :=
  match children with
  | [] => Ret ([], Ok tt)
  | child :: children =>
      '(tr, r) ← restore (filepath_Join [name; child]);
      match r with
      | Err e => Ret (tr, Err e)
      | Ok _ =>
          '(tr', r) ← restore_children restore name children;
          Ret (tr ++ tr', r)
      end
  end.

(** [RestoreAssets]; the recursion descends in the tree, whose depth is one. *)
Fixpoint RestoreAssets (fuel : nat) (dir name : GoString) : go (list fs_action * result unit) :=
  match AssetDir name with
  | Err _ => Ret (RestoreAsset dir name)
  | Ok children =>
      match fuel with
      | O => OutOfFuel
      | S fuel => restore_children (RestoreAssets fuel dir) name children
      end
  end.

(** * Theorems *)

Lemma bindata_lookup k :
  _bindata !! k =
    if decide (k = str "ldlinux.c32") then Some ldlinuxC32
    else if decide (k = str "lpxelinux.0") then Some lpxelinux0 else None.
Proof.
  unfold _bindata. case_decide as H1; [subst; by rewrite lookup_insert_eq|].
  rewrite lookup_insert_ne by done. case_decide as H2; [subst; by rewrite lookup_singleton_eq|].
  by rewrite lookup_singleton_ne by done.
Qed.

Context (iterate_perm : ∀ l, iterate l ≡ₚ l).

(** The asset table is consistent, in whatever order maps are iterated: a name
    is listed exactly when the lookup functions know it, the root directory lists
    exactly these names, and the data and the information of a name come from the
    same asset. *)
Theorem assets_consistent name :
  (name ∈ AssetNames ↔ is_Some (_bindata !! name)) ∧
  (∃ names, AssetDir [] = Ok names ∧ names ≡ₚ AssetNames) ∧
  is_ok (Asset name) = is_ok (AssetInfo name) ∧
  (∀ b, Asset name = Ok b →
     ∃ a, AssetInfo name = Ok (a_info a) ∧ b = a_bytes a ∧ Name (a_info a) ∈ AssetNames ∧
       cannonicalName name = Name (a_info a)).
Proof.
  assert (∀ n, n ∈ AssetNames ↔ is_Some (_bindata !! n)) as Hn.
  { intros n. unfold AssetNames. rewrite iterate_perm, list_elem_of_fmap. split.
    - intros ([k v] & -> & Hin%elem_of_map_to_list). by exists v.
    - intros [v Hv]. exists (n, v). by rewrite elem_of_map_to_list. }
  split_and!; [done| | |].
  - eexists. split; [reflexivity|]. unfold AssetNames, _bindata. rewrite !iterate_perm.
    rewrite map_to_list_insert by done. by rewrite map_to_list_singleton.
  - unfold Asset, AssetInfo. by destruct (_bindata !! cannonicalName name) as [[a|e]|].
  - intros b. unfold Asset, AssetInfo. rewrite bindata_lookup.
    assert (is_Some (_bindata !! str "ldlinux.c32") ∧ is_Some (_bindata !! str "lpxelinux.0")) as [H1 H2]
      by (rewrite !bindata_lookup; done).
    case_decide as E1; [|case_decide as E2; [|done]].
    + unfold ldlinuxC32. destruct ldlinuxC32Bytes as [b1|]; [|done]. intros [= <-].
      eexists (mkAsset b1 _). split; [done|]. split; [done|]. split; [by apply Hn|done].
    + unfold lpxelinux0. destruct lpxelinux0Bytes as [b1|]; [|done]. intros [= <-].
      eexists (mkAsset b1 _). split; [done|]. split; [done|]. split; [by apply Hn|done].
Qed.

(** The calls that put one file below a directory. *)
Definition restores (dir name : GoString) (data : bytes) : list fs_action :=
  [MkdirAll (filepath_Join [dir; str "."]) 493; WriteFile (filepath_Join [dir; name]) data 420;
   Chtimes (filepath_Join [dir; name]) 1444138389 1444138389].

Lemma fs_run_app a b :
  fs_run (a ++ b) =
    match fs_run a with
    | (tr, Err e) => (tr, Err e)
    | (tr, Ok _) => let '(tr', r) := fs_run b in (tr ++ tr', r)
    end.
Proof.
  induction a as [|x a IH]; cbn [fs_run app]; [by destruct (fs_run b)|].
  destruct (os x) as [u|e]; [|done]. rewrite IH. destruct (fs_run a) as [tr [u'|e]]; [|done].
  by destruct (fs_run b).
Qed.

(** A run makes every call in order, or stops at the first that fails. *)
Definition runs_to (acts : list fs_action) (tr : list fs_action) (r : result unit) : Prop :=
  match r with
  | Ok _ => tr = acts ∧ Forall (λ a, os a = Ok tt) acts
  | Err e => ∃ before a after, acts = before ++ a :: after ∧ tr = before ++ [a] ∧
               Forall (λ a, os a = Ok tt) before ∧ os a = Err e
  end.

Lemma fs_run_runs acts : runs_to acts (fs_run acts).1 (fs_run acts).2.
Proof.
  induction acts as [|a acts IH]; cbn [fs_run]; [done|].
  destruct (os a) as [[]|e] eqn:E; [|by exists [], a, acts].
  destruct (fs_run acts) as [tr [u|e]]; cbn [fst snd runs_to] in *.
  - destruct IH as [-> IH]. by split; [|constructor].
  - destruct IH as (before & x & after & -> & -> & Hb & Hx). exists (a :: before), x, after.
    by split_and!; [| |constructor|].
Qed.

Lemma AssetInfo_known name data :
  name = str "ldlinux.c32" ∨ name = str "lpxelinux.0" → Asset name = Ok data →
  ∃ size, AssetInfo name = Ok (mkFileInfo name size 420 1444138389).
Proof.
  intros Hname. unfold Asset, AssetInfo. rewrite bindata_lookup. destruct Hname as [->| ->].
  - change (cannonicalName (str "ldlinux.c32")) with (str "ldlinux.c32"). rewrite decide_True by done.
    unfold ldlinuxC32. destruct ldlinuxC32Bytes; [|done]. by eexists.
  - change (cannonicalName (str "lpxelinux.0")) with (str "lpxelinux.0").
    rewrite decide_False, decide_True by done.
    unfold lpxelinux0. destruct lpxelinux0Bytes; [|done]. by eexists.
Qed.

Lemma RestoreAssets_file fuel dir name data :
  name = str "ldlinux.c32" ∨ name = str "lpxelinux.0" →
  Asset name = Ok data → RestoreAssets fuel dir name = Ret (fs_run (restores dir name data)).
Proof.
  intros Hname Ha. destruct (AssetInfo_known name data Hname Ha) as [size Hi].
  assert (AssetDir name = Err (Errorf (str "Asset %s not found") [AStr name])) as Hd
    by by destruct Hname as [->| ->].
  destruct fuel; cbn [RestoreAssets]; rewrite Hd; unfold RestoreAsset; rewrite Ha, Hi;
    by destruct Hname as [->| ->].
Qed.

Lemma restore_both (restore : GoString → go (list fs_action * result unit)) n1 n2 acts1 acts2 :
  filepath_Join [[]; n1] = n1 → filepath_Join [[]; n2] = n2 →
  restore n1 = Ret (fs_run acts1) → restore n2 = Ret (fs_run acts2) →
  restore_children restore [] [n1; n2] = Ret (fs_run (acts1 ++ acts2)).
Proof.
  intros Hn1 Hn2 H1 H2. cbn [restore_children]. rewrite Hn1, Hn2, H1, H2, fs_run_app.
  cbn [mbind go_bind]. destruct (fs_run acts1) as [tr1 [[]|e]]; [|done].
  destruct (fs_run acts2) as [tr2 [[]|e]]; cbn [mbind go_bind]; by rewrite ?app_nil_r.
Qed.

(** C37: restoring the root directory restores both assets one after the other, in
    whatever order the names come, each by making its directory, then writing the file
    with its data and mode, then setting its time, all below the directory and nothing
    else; every call is made when none fails, and after a call that fails there is no
    other, and its error is returned. *)
Theorem RestoreAssets_complete fuel dir ld pxe :
  1 ≤ fuel → Asset (str "ldlinux.c32") = Ok ld → Asset (str "lpxelinux.0") = Ok pxe →
  let ld_calls :=
    [MkdirAll (filepath_Join [dir; str "."]) 493;
     WriteFile (filepath_Join [dir; str "ldlinux.c32"]) ld 420;
     Chtimes (filepath_Join [dir; str "ldlinux.c32"]) 1444138389 1444138389] in
  let pxe_calls :=
    [MkdirAll (filepath_Join [dir; str "."]) 493;
     WriteFile (filepath_Join [dir; str "lpxelinux.0"]) pxe 420;
     Chtimes (filepath_Join [dir; str "lpxelinux.0"]) 1444138389 1444138389] in
  ∃ calls tr r, RestoreAssets fuel dir [] = Ret (tr, r) ∧
    (calls = ld_calls ++ pxe_calls ∨ calls = pxe_calls ++ ld_calls) ∧
    match r with
    | Ok _ => tr = calls ∧ Forall (λ a, os a = Ok tt) calls
    | Err e => ∃ before a after, calls = before ++ a :: after ∧ tr = before ++ [a] ∧
                 Forall (λ a, os a = Ok tt) before ∧ os a = Err e
    end.
Proof.
  intros Hf Hld Hpxe ld_calls pxe_calls. destruct fuel as [|fuel]; [lia|].
  cbn [RestoreAssets AssetDir _bintree Func Children].
  pose proof (iterate_perm [str "ldlinux.c32"; str "lpxelinux.0"]) as Hp.
  change ([(str "ldlinux.c32", Bintree (Some ldlinuxC32) []);
           (str "lpxelinux.0", Bintree (Some lpxelinux0) [])].*1)
    with [str "ldlinux.c32"; str "lpxelinux.0"].
  pose proof (RestoreAssets_file fuel dir _ _ (or_introl eq_refl) Hld) as H1.
  pose proof (RestoreAssets_file fuel dir _ _ (or_intror eq_refl) Hpxe) as H2.
  symmetry in Hp. apply Permutation_length_2_inv in Hp as [->| ->].
  - rewrite (restore_both _ _ _ ld_calls pxe_calls eq_refl eq_refl H1 H2).
    exists (ld_calls ++ pxe_calls), (fs_run (ld_calls ++ pxe_calls)).1, (fs_run (ld_calls ++ pxe_calls)).2.
    split; [by rewrite <- surjective_pairing|]. split; [by left|]. apply fs_run_runs.
  - rewrite (restore_both _ _ _ pxe_calls ld_calls eq_refl eq_refl H2 H1).
    exists (pxe_calls ++ ld_calls), (fs_run (pxe_calls ++ ld_calls)).1, (fs_run (pxe_calls ++ ld_calls)).2.
    split; [by rewrite <- surjective_pairing|]. split; [by right|]. apply fs_run_runs.
Qed.

(** A compressed asset whose stream reads to its end but whose [Close] fails
    is returned as an empty file without an error, because [bindataRead] returns
    the wrong one of its two errors. *)
Theorem bindataRead_loses_close_error data name content e :
  gzip_NewReader data = Ok (mkReader content None, Some e) → bindataRead data name = Ok [].
Proof. unfold bindataRead. by intros ->. Qed.

End assets.

(** * Witnesses *)

(** Streams that are stored as they are; the bytes ["bad"] fail to close. *)
Definition toy_gzip : Gzip := {|
  gzip_NewReader data :=
    Ok (mkReader data None,
        if decide (data = str "bad") then Some (ErrNew (str "gzip: invalid checksum")) else None)
|}.

Section witnesses.
#[local] Existing Instance latin1_tables.
#[local] Existing Instance toy_gzip.

Lemma bindataRead_loses_close_error_witness : bindataRead (str "bad") (str "ldlinux.c32") = Ok [].
Proof.
  apply (bindataRead_loses_close_error _ _ (str "bad") (ErrNew (str "gzip: invalid checksum"))).
  reflexivity.
Defined.

(** A runtime that iterates over maps backwards. *)
Lemma backwards_perm (l : list GoString) : rev l ≡ₚ l.
Proof. symmetry. apply Permutation_rev. Qed.

Lemma assets_consistent_witness :
  (str "ldlinux.c32" ∈ AssetNames (str "LD") (str "PXE") (@rev GoString)) ∧
  Asset (str "LD") (str "PXE") (str "ldlinux.c32") = Ok (str "LD").
Proof.
  destruct (assets_consistent (str "LD") (str "PXE") (@rev GoString) backwards_perm (str "ldlinux.c32"))
    as [Hn _].
  split; [apply Hn; vm_compute; eexists; reflexivity|reflexivity].
Defined.

(** A disk that is full after the first file. *)
Definition full_disk (a : fs_action) : result unit :=
  match a with
  | WriteFile _ data _ => if decide (data = str "LD") then Err (ErrNew (str "no space left on device")) else Ok tt
  | _ => Ok tt
  end.

Lemma RestoreAssets_complete_witness :
  ∃ tr e, RestoreAssets (str "LD") (str "PXE") (@rev GoString) full_disk 1 (str "/tmp") [] = Ret (tr, Err e) ∧
    ∃ a, a ∈ tr ∧ full_disk a = Err e.
Proof.
  destruct (RestoreAssets_complete (str "LD") (str "PXE") (@rev GoString) full_disk backwards_perm
    1 (str "/tmp") (str "LD") (str "PXE")) as (calls & tr & [u|e] & Hr & Hc & Hrun);
    [apply Nat.leb_le; reflexivity|reflexivity|reflexivity|discriminate Hr|].
  exists tr, e. split; [exact Hr|]. destruct Hrun as (before & a & after & _ & -> & _ & Ha).
  exists a. split; [|exact Ha]. apply elem_of_app. right. by left.
Defined.

End witnesses.
