(* ===== verification/Main.v ===== *)
(** pixiecore/pixiecore.go: the choice of the booter from the flags, and [main],
    which starts the four servers. *)
From S2P Require Import Prelude GoStrings GoFmt GoNet GoIO GoJson GoUrl Api Remote TftpTransfer Assets.

(** * Definitions from pixiecore/pixiecore.go *)

(** The values of the command-line flags after [flag.Parse]. *)
Record flags := mkFlags {
  portDHCP : Z;
  portPXE : Z;
  portTFTP : Z;
  portHTTP : Z;
  apiServer : GoString;
  kernelFile : GoString;
  initrdFile : GoString;
  kernelCmdline : GoString;
  debug : bool
}.

(** The values of flags that are not given. *)
Definition default_flags : flags := mkFlags 67 4011 69 70 [] [] [] [] false.

(** The servers [main] starts, each in a goroutine, by the arguments of its call. *)
Inductive service :=
| SProxyDHCP (port : Z) (booter : Booter)
| SPXE (pxePort httpPort : Z)
| STFTP (family addr : GoString) (handler : Handler)
| SHTTP (port : Z) (booter : Booter) (ldlinux : bytes).

(** How [main] goes: it exits with status 1 and a message, on standard error or
    on standard output, or it starts the servers and records the log. *)
Inductive main_outcome :=
| ExitUsage (msg : GoString)
| ExitAsset (msg : GoString)
| Running (services : list service) (debug : bool).

Section main.
Context `{UnicodeTables, Secretbox, JsonTexts, Gzip} (ldlinuxC32_data lpxelinux0_data : bytes).

(** [pickBooter], with the line it logs. *)
Definition pickBooter (fl : flags) (w : World) : result Booter * list GoString * World :=
  let fail msg := (Err (ErrNew msg), [], w) in
  if decide (apiServer fl ≠ []) then
    if decide (kernelFile fl ≠ []) then fail (str "cannot provide -kernel with -api") else
    if decide (initrdFile fl ≠ []) then fail (str "cannot provide -initrd with -api") else
    if decide (kernelCmdline fl ≠ []) then fail (str "cannot provide -cmdline with -api") else
    let '(b, w) := RemoteBooter (apiServer fl) w in
    (b, [Sprintf (str "Starting Pixiecore in API mode, with server %s") [AStr (apiServer fl)]], w)
  else if decide (kernelFile fl ≠ []) then
    if decide (apiServer fl ≠ []) then fail (str "cannot provide -api with -kernel") else
    if decide (initrdFile fl = []) then fail (str "must provide -initrd with -kernel") else
    let '(b, w) := StaticBooter (kernelFile fl) (Split (initrdFile fl) 44%gb) (kernelCmdline fl) w in
    (Ok b, [str "Starting Pixiecore in static mode"], w)
  else fail (str "must specify either -api, or -kernel/-initrd").

Definition main (fl : flags) (w : World) : main_outcome * World :=
  match pickBooter fl w with
  | (Err e, _, w) => (ExitUsage (Error e), w)
  | (Ok booter, _, w) =>
      match Asset ldlinuxC32_data lpxelinux0_data (str "lpxelinux.0") with
      | Err e => (ExitAsset (Error e), w)
      | Ok pxelinux =>
          match Asset ldlinuxC32_data lpxelinux0_data (str "ldlinux.c32") with
          | Err e => (ExitAsset (Error e), w)
          | Ok ldlinux =>
              (Running
                 [SProxyDHCP (portDHCP fl) booter;
                  SPXE (portPXE fl) (portHTTP fl);
                  STFTP (str "udp4") (str ":" ++ Itoa (portTFTP fl)) (Blob pxelinux);
                  SHTTP (portHTTP fl) booter ldlinux] (debug fl), w)
          end
      end
  end.

(** * Theorems *)

(** C33: the flags select the mode exactly: an API server and no other boot flag
    select the remote booter for that server (provided the key can be drawn), no
    API server but a kernel and initrds select the static booter with the initrd
    list split at the commas, and any other combination is an error; the error
    ["cannot provide -api with -kernel"] is never reported. *)
Theorem pickBooter_table fl w :
  let '(r, _, w') := pickBooter fl w in
  match r with
  | Ok b =>
      (apiServer fl ≠ [] ∧ kernelFile fl = [] ∧ initrdFile fl = [] ∧ kernelCmdline fl = [] ∧
       32 ≤ length (rd_data (w_rand w)) ∧ (Ok b, w') = RemoteBooter (apiServer fl) w) ∨
      (apiServer fl = [] ∧ kernelFile fl ≠ [] ∧ initrdFile fl ≠ [] ∧
       (b, w') = StaticBooter (kernelFile fl) (Split (initrdFile fl) 44%gb) (kernelCmdline fl) w)
  | Err e =>
      e ≠ ErrNew (str "cannot provide -api with -kernel") ∧
      ((apiServer fl ≠ [] ∧ (kernelFile fl ≠ [] ∨ initrdFile fl ≠ [] ∨ kernelCmdline fl ≠ [] ∨
                             length (rd_data (w_rand w)) < 32)) ∨
       (apiServer fl = [] ∧ (kernelFile fl = [] ∨ initrdFile fl = [])))
  end.
Proof.
  unfold pickBooter. destruct (decide (apiServer fl ≠ [])) as [Ha|Ha].
  - destruct (decide (kernelFile fl ≠ [])) as [Hk|Hk]; [split; [done|auto]|].
    destruct (decide (initrdFile fl ≠ [])) as [Hi|Hi]; [split; [done|auto]|].
    destruct (decide (kernelCmdline fl ≠ [])) as [Hc|Hc]; [split; [done|auto 6]|].
    apply dec_stable in Hk, Hi, Hc.
    unfold RemoteBooter, new_remoteBooter, ReadFull.
    destruct (Nat.leb_spec 32 (length (rd_data (w_rand w)))); [left; by split_and!|].
    destruct (rd_end (w_rand w)); [split; [done|auto 6]|].
    destruct (take 32 (rd_data (w_rand w))); (split; [done|auto 6]).
  - apply dec_stable in Ha. destruct (decide (kernelFile fl ≠ [])) as [Hk|Hk];
      [|apply dec_stable in Hk; split; [done|auto]].
    destruct (decide (initrdFile fl = [])) as [Hi|Hi]; [split; [done|auto]|].
    destruct (StaticBooter _ _ _ w) as [b w'] eqn:E. right. done.
Qed.

End main.
