(* ===== verification/Process.v ===== *)
(** The running process of pixiecore/pixiecore.go: the goroutines [main] starts for
    the four servers, those the servers start for transfers and requests, the log hooks
    of the TFTP package, and when the process ends. *)
From S2P Require Import Prelude GoStrings GoFmt GoNet GoIO Dhcp Logging Udp Pxe Tftp TftpTransfer GoHttp GoJson GoUrl Api Remote DhcpServer Http Assets Main.

(** * Definitions from pixiecore/pixiecore.go *)

(** What the operating system does for a process: the interface table, the results of
    opening the sockets, the events on them, the socket and the network of the [i]th
    transfer, the HTTP requests with the state of the machine in which each is served,
    and what [http.ListenAndServe] returned, if it has. *)
Record environment := mkEnvironment {
  e_interfaces : Z → result Interface;
  e_dhcp_listen : result unit;
  e_dhcp_setcm : result unit;
  e_dhcp : list dhcp_event;
  e_pxe_listen : result unit;
  e_pxe_setcm : result unit;
  e_pxe : list udp_event;
  e_tftp_listen : result GoString;
  e_tftp : list (result (bytes * Addr));
  e_transfers : nat → result unit * list read_event;
  e_requests : list (request * World);
  e_http : option error
}.

(** A goroutine: running or at its end, with the log entries it sent; past the return
    of the server, in [log.Fatalln]; or in a panic. *)
Inductive goroutine :=
| Up (logs : list LogEntry)
| Down (e : error)
| Panicking.

Definition udp_logs (acts : list udp_action) : list LogEntry :=
  omap (λ a, match a with ALog e => Some e | AWriteTo _ _ _ => None end) acts.

Section process.
Context `{UnicodeTables}.

(** The hooks [main] installs in the TFTP package. *)
Definition tftp_Log (msg : GoString) (args : list arg) : LogEntry := Log (str "TFTP") msg args.
Definition tftp_Debug (msg : GoString) (args : list arg) : LogEntry := Debug (str "TFTP") msg args.

Definition tftp_logs (acts : list tftp_action) : list LogEntry :=
  omap (λ a, match a with
             | TLog msg args => Some (tftp_Log msg args)
             | TDebug msg args => Some (tftp_Debug msg args)
             | TWriteTo _ _ | TGo _ _ => None
             end) acts.

Definition loop_state {St A} (logs : list A → list LogEntry) (r : server_run St A) : goroutine :=
  match r with
  | Returned e => Down e
  | Serving _ trace => Up (logs trace)
  | Crashed _ => Panicking
  end.

Definition run_service (env : environment) (w : World) (s : service) : goroutine :=
  match s with
  | SProxyDHCP port booter =>
      loop_state udp_logs
        (ServeProxyDHCP (e_interfaces env) booter port (e_dhcp_listen env) (e_dhcp_setcm env) (e_dhcp env))
  | SPXE pxePort httpPort =>
      loop_state udp_logs
        (ServePXE (e_interfaces env) httpPort pxePort (e_pxe_listen env) (e_pxe_setcm env) (e_pxe env))
  | STFTP _ _ _ => loop_state tftp_logs (ListenAndServe (e_tftp_listen env) (e_tftp env))
  | SHTTP port booter ldlinux =>
      match ServeHTTP port booter ldlinux w with
      | (Err e, _, _) => Down e
      | (Ok _, logs, _) => match e_http env with Some e => Down e | None => Up logs end
      end
  end.

(** The transfers [Serve] starts: [go transfer(addr, req, handler)]. *)
Definition started (acts : list tftp_action) : list (Addr * rrq) :=
  omap (λ a, match a with TGo addr req => Some (addr, req) | _ => None end) acts.

Definition conn_logs (acts : list conn_action) : list LogEntry :=
  omap (λ a, match a with
             | CLog msg args => Some (tftp_Log msg args)
             | CDebug msg args => Some (tftp_Debug msg args)
             | CWrite _ | CCloseFile | CCloseConn => None
             end) acts.

(** The goroutine of a transfer.  One whose model runs out of fuel counts as a panic. *)
Definition run_transfer (handler : Handler) (io : result unit * list read_event)
    (areq : Addr * rrq) : goroutine :=
  match transfer io.1 areq.1 areq.2 handler io.2 with
  | Ret acts => Up (conn_logs acts)
  | Panic | OutOfFuel => Panicking
  end.

Definition serving_trace {St A} (r : server_run St A) : list A :=
  match r with Serving _ trace | Crashed trace => trace | Returned _ => [] end.

(** The goroutines a server starts: a transfer per accepted TFTP request, and in
    [net/http] one per connection, which runs the handlers and would recover from a
    panic of theirs. *)
Definition spawned (env : environment) (w : World) (s : service) : list goroutine :=
  match s with
  | STFTP _ _ handler =>
      imap (λ i, run_transfer handler (e_transfers env i))
        (started (serving_trace (ListenAndServe (e_tftp_listen env) (e_tftp env))))
  | SHTTP port booter ldlinux =>
      match ServeHTTP port booter ldlinux w with
      | (Ok srv, _, _) => map (λ rw, Up (dispatch srv rw.1 rw.2).1.2) (e_requests env)
      | (Err _, _, _) => []
      end
  | SProxyDHCP _ _ | SPXE _ _ => []
  end.

Definition goroutines (env : environment) (w : World) (s : service) : list goroutine :=
  run_service env w s :: spawned env w s.

(** The process ends with the first goroutine that reaches [log.Fatalln], with status
    1 and the error, or that panics, with status 2. *)
Inductive process_exits (env : environment) (w : World) (services : list service)
    : Z → GoString → Prop :=
| ExitFatal s e :
    s ∈ services → Down e ∈ goroutines env w s → process_exits env w services 1 (Error e)
| ExitPanic s :
    s ∈ services → Panicking ∈ goroutines env w s → process_exits env w services 2 (str "panic").

(** * Theorems *)

Lemma main_services `{Secretbox, JsonTexts, Gzip} ldlinuxC32_data lpxelinux0_data fl w0 services dbg w :
  main ldlinuxC32_data lpxelinux0_data fl w0 = (Running services dbg, w) →
  ∃ booter ldlinux pxelinux,
    services = [SProxyDHCP (portDHCP fl) booter; SPXE (portPXE fl) (portHTTP fl);
                STFTP (str "udp4") (str ":" ++ Itoa (portTFTP fl)) (Blob pxelinux);
                SHTTP (portHTTP fl) booter ldlinux].
Proof.
  unfold main. destruct (pickBooter fl w0) as [[[b|e] lines] w1]; [|done].
  destruct (Asset _ _ (str "lpxelinux.0")) as [pl|e]; [|done].
  destruct (Asset _ _ (str "ldlinux.c32")) as [ld|e]; [|done]. intros [= <- _ _]. eauto.
Qed.

(** The sockets deliver what UDP sockets deliver. *)
Definition env_ok (env : environment) : Prop :=
  Forall udp_read (e_dhcp env) ∧ Forall has_ifindex (e_pxe env).

(** The error of [ServeHTTP] when it cannot draw its key. *)
Definition key_error (w : World) : option error :=
  let '(_, err, _) := ReadFull (w_rand w) 32 in
  match err with
  | NilErr => None
  | _ => Some (Errorf (str "cannot initialize ephemeral signing key: %s") [AStr (read_err_text err)])
  end.

(** The reasons to end: a socket that cannot be opened or set up, no randomness for
    the key of the HTTP server, or the return of [http.ListenAndServe]. *)
Definition startup_error (env : environment) (w : World) (e : error) : Prop :=
  e_dhcp_listen env = Err e ∨ (is_ok (e_dhcp_listen env) = true ∧ e_dhcp_setcm env = Err e) ∨
  e_pxe_listen env = Err e ∨ (is_ok (e_pxe_listen env) = true ∧ e_pxe_setcm env = Err e) ∨
  e_tftp_listen env = Err e ∨
  key_error w = Some e ∨ (key_error w = None ∧ e_http env = Some e).

(** When the goroutine of one server ends. *)
Definition service_error (env : environment) (w : World) (s : service) (e : error) : Prop :=
  match s with
  | SProxyDHCP _ _ =>
      e_dhcp_listen env = Err e ∨ (is_ok (e_dhcp_listen env) = true ∧ e_dhcp_setcm env = Err e)
  | SPXE _ _ =>
      e_pxe_listen env = Err e ∨ (is_ok (e_pxe_listen env) = true ∧ e_pxe_setcm env = Err e)
  | STFTP _ _ _ => e_tftp_listen env = Err e
  | SHTTP _ _ _ => key_error w = Some e ∨ (key_error w = None ∧ e_http env = Some e)
  end.

(** A handler whose stream is always there keeps every transfer from panicking. *)
Definition total_handler (handler : Handler) : Prop :=
  ∀ path addr, ∃ f, handler path addr = Ok f.

Lemma run_transfer_up handler io areq :
  total_handler handler → ∃ logs, run_transfer handler io areq = Up logs.
Proof.
  intros Hh. unfold run_transfer. destruct io as [[[]|e] net], areq as [addr req]; cbn [fst snd].
  - destruct (Hh (Filename req) addr) as [f Hf].
    destruct (transfer_sends addr req handler f net Hf) as (acts & k0 & cs & err & -> & _). by eexists.
  - cbn [transfer]. by eexists.
Qed.

Definition service_handler_ok (s : service) : Prop :=
  match s with STFTP _ _ handler => total_handler handler | _ => True end.

(** The goroutines of transfers and requests only run. *)
Lemma spawned_up env w s g :
  service_handler_ok s → g ∈ spawned env w s → ∃ logs, g = Up logs.
Proof.
  intros Hs. destruct s as [port b|pxePort httpPort|family addr handler|port b ld]; cbn [spawned];
    [by intros Hg%not_elem_of_nil..| |].
  - intros (i & areq & -> & _)%elem_of_lookup_imap_1. by apply run_transfer_up.
  - destruct (ServeHTTP port b ld w) as [[[srv|e] logs] w']; [|by intros Hg%not_elem_of_nil].
    intros (rw & -> & _)%list_elem_of_fmap. by eexists.
Qed.

(** Once its sockets are open a server does not return, and it never panics. *)
Lemma run_service_ends env w s :
  env_ok env →
  run_service env w s ≠ Panicking ∧ ∀ e, run_service env w s = Down e ↔ service_error env w s e.
Proof.
  intros [Hd Hp].
  destruct s as [port b|pxePort httpPort|family addr handler|port b ld]; cbn [run_service service_error].
  - destruct (e_dhcp_listen env) as [[]|e1] eqn:E1, (e_dhcp_setcm env) as [[]|e2] eqn:E2; cbn [is_ok].
    1: destruct (ServeProxyDHCP_serves (e_interfaces env) b port (e_dhcp env) Hd) as [buf ->].
    all: simpl; split; [done|]; intros e; split; intros H'; naive_solver congruence.
  - destruct (e_pxe_listen env) as [[]|e1] eqn:E1, (e_pxe_setcm env) as [[]|e2] eqn:E2; cbn [is_ok].
    1: destruct (ServePXE_serves (e_interfaces env) httpPort pxePort (e_pxe env) Hp) as [buf ->].
    all: simpl; split; [done|]; intros e; split; intros H'; naive_solver congruence.
  - destruct (e_tftp_listen env) as [a|e1]; cbn [ListenAndServe].
    + destruct (Serve_serves a (e_tftp env)) as [buf ->]. split; [done|]. intros e. by split.
    + simpl. split; [done|]. intros e. split; congruence.
  - unfold ServeHTTP, key_error. destruct (ReadFull (w_rand w) 32) as [[k err] r].
    destruct err, (e_http env) as [e'|]; (split; [done|]); intros e0; split; intros H'; naive_solver congruence.
Qed.

Lemma goroutines_end env w s :
  env_ok env → service_handler_ok s →
  Panicking ∉ goroutines env w s ∧ ∀ e, Down e ∈ goroutines env w s ↔ service_error env w s e.
Proof.
  intros Henv Hs. destruct (run_service_ends env w s Henv) as [Hp Hd].
  assert (∀ g, g ∈ spawned env w s → g ≠ Panicking ∧ ∀ e, g ≠ Down e) as Hup.
  { intros g Hg. by destruct (spawned_up env w s g Hs Hg) as [logs ->]. }
  unfold goroutines. split.
  - intros [Hg|Hg]%elem_of_cons; [by apply Hp|]. by destruct (Hup _ Hg).
  - intros e. rewrite elem_of_cons, <- Hd. split; [|by left].
    intros [Hg|Hg]; [done|]. by destruct (proj2 (Hup _ Hg) e).
Qed.

(** C22: the process that [main] started keeps running: whatever datagrams and requests
    arrive, and whatever happens to the transfers these start, it ends only when a socket
    cannot be opened or set up, when the HTTP server cannot draw its key, or when
    [http.ListenAndServe] returns, and then with status 1 and that error; no datagram
    makes a server or a transfer panic. *)
Theorem process_exits_iff `{Secretbox, JsonTexts, Gzip} ldlinuxC32_data lpxelinux0_data
    fl w0 services dbg w env code msg :
  main ldlinuxC32_data lpxelinux0_data fl w0 = (Running services dbg, w) → env_ok env →
  process_exits env w services code msg ↔
  code = 1%Z ∧ ∃ e, startup_error env w e ∧ msg = Error e.
Proof.
  intros Hmain Henv.
  destruct (main_services _ _ _ _ _ _ _ Hmain) as (b & ld & pl & ->).
  assert (∀ s, s ∈ [SProxyDHCP (portDHCP fl) b; SPXE (portPXE fl) (portHTTP fl);
      STFTP (str "udp4") (str ":" ++ Itoa (portTFTP fl)) (Blob pl); SHTTP (portHTTP fl) b ld] →
      service_handler_ok s) as Hok.
  { intros s Hs. repeat (apply elem_of_cons in Hs as [->|Hs]); [done|done| |done|by apply not_elem_of_nil in Hs].
    intros path addr. by eexists. }
  split.
  - intros [s e Hs He|s Hs He]; [|by destruct (goroutines_end env w s Henv (Hok s Hs))].
    split; [done|]. exists e. split; [|done].
    apply (goroutines_end env w s Henv (Hok s Hs)) in He. unfold startup_error.
    repeat (apply elem_of_cons in Hs as [->|Hs]); [..|by apply not_elem_of_nil in Hs];
      cbn [service_error] in He; tauto.
  - intros [-> (e & He & ->)].
    assert (∃ s, s ∈ [SProxyDHCP (portDHCP fl) b; SPXE (portPXE fl) (portHTTP fl);
      STFTP (str "udp4") (str ":" ++ Itoa (portTFTP fl)) (Blob pl); SHTTP (portHTTP fl) b ld] ∧
      service_error env w s e) as (s & Hs & Hse).
    { unfold startup_error in He. destruct He as [He|[He|[He|[He|[He|He]]]]].
      1, 2: exists (SProxyDHCP (portDHCP fl) b); split; [set_solver|simpl; tauto].
      1, 2: exists (SPXE (portPXE fl) (portHTTP fl)); split; [set_solver|simpl; tauto].
      - exists (STFTP (str "udp4") (str ":" ++ Itoa (portTFTP fl)) (Blob pl)). split; [set_solver|done].
      - exists (SHTTP (portHTTP fl) b ld). split; [set_solver|done]. }
    apply (ExitFatal _ _ _ s); [done|]. by apply (goroutines_end env w s Henv (Hok s Hs)).
Qed.

End process.

(** * Witnesses *)

Section witnesses.
#[local] Existing Instance latin1_tables.
#[local] Existing Instance toy_box.
#[local] Existing Instance toy_texts.
#[local] Existing Instance toy_gzip.

Definition toy_flags : flags :=
  mkFlags 67 4011 69 70 [] (str "k") (str "i0,i1") (str "quiet") false.

Definition in_use : error := ErrNew (str "listen udp4 :69: bind: address already in use").

(** Noise on the DHCP socket, two TFTP requests (one client aborts, for the other no
    socket is to be had), an HTTP request, and the TFTP port in use or not. *)
Definition toy_environment (tftp : result GoString) : environment :=
  mkEnvironment toy_interfaces (Ok tt) (Ok tt)
    [toy_dhcp_event; mkDhcpEvent (mkUdpEvent (Ok (str "noise", Some 3%Z, UDPAddr [] 68)) (Ok tt)) toy_world]
    (Ok tt) (Ok tt) [] tftp
    [Ok (rrq_bytes (str "a") [], toy_client); Ok (rrq_bytes (str "b") [], toy_client)]
    (λ i, match i with
          | O => (Ok tt, [RData ([0; 5; 0; 0]%gb ++ str "no thanks")])
          | _ => (Err in_use, [])
          end)
    [(mkRequest (str "GET") (str "h:70") (str "10.0.0.7:2071") (str "/f/!") (str "/f/!"), toy_world)] None.

Definition toy_running : main_outcome * World := main (str "LD") (str "PXE") toy_flags toy_world.

Definition toy_services : list service :=
  match toy_running.1 with Running services _ => services | _ => [] end.

Lemma toy_environment_ok tftp : env_ok (toy_environment tftp).
Proof. split; [|constructor]. repeat constructor; eauto. Qed.

Lemma process_exits_iff_witness :
  process_exits (toy_environment (Err in_use)) toy_running.2 toy_services 1
    (str "listen udp4 :69: bind: address already in use") ∧
  (∀ code msg, process_exits (toy_environment (Ok (str "0.0.0.0:69"))) toy_running.2 toy_services code msg →
     False).
Proof.
  split.
  - apply (process_exits_iff (str "LD") (str "PXE") toy_flags toy_world toy_services false toy_running.2
      (toy_environment (Err in_use))); [reflexivity|apply toy_environment_ok|].
    split; [reflexivity|]. exists in_use. split; [|reflexivity]. unfold startup_error. simpl. auto 6.
  - intros code msg Hex.
    apply (process_exits_iff (str "LD") (str "PXE") toy_flags toy_world toy_services false toy_running.2
      (toy_environment (Ok (str "0.0.0.0:69")))) in Hex; [|reflexivity|apply toy_environment_ok].
    destruct Hex as [_ (e & He & _)]. unfold startup_error in He.
    change (key_error toy_running.2) with (@None error) in He. simpl in He.
    destruct He as [He|[[_ He]|[He|[[_ He]|[He|[He|[_ He]]]]]]]; discriminate He.
Defined.

End witnesses.
