(* ===== verification/Boot.v ===== *)
(** The whole program: what a machine that netboots gets from the servers that
    [main] starts. *)
From S2P Require Import Prelude GoStrings GoFmt GoNet GoIO Dhcp Logging Udp Pxe Tftp TftpTransfer Base64 GoHttp GoJson GoUrl Api Remote DhcpServer Http Assets Main Process.

Section boot.
Context `{UnicodeTables, Secretbox, JsonTexts, Gzip} (ldlinuxC32_data lpxelinux0_data : bytes).

(** ** The four stages of a boot *)

(** A PXE discovery on an interface with an address is answered with an offer that
    names that address as the boot server. *)
Definition offers_boot (booter : Booter) : Prop :=
  ∀ byIndex ev d ip0 port i ip req,
    ev_read (de_udp ev) = Ok (d, Some i, UDPAddr ip0 port) →
    pxe_discover (take 1024 d) req → InterfaceIP byIndex i = Ok ip →
    AWriteTo (OfferDHCP (set_ServerIP ip req)) i (UDPAddr net_IPv4bcast port)
      ∈ DHCP_actions byIndex booter ev.

(** A request to the boot server is answered with the address of the TFTP server
    and with the prefix of the HTTP server on the given port; a client that asked for a
    boot type of four bytes can read the answer. *)
Definition chainloads (httpPort : Z) : Prop :=
  ∀ byIndex ev d peer i ip req,
    ev_read ev = Ok (d, Some i, peer) →
    pxe_request (take 1024 d) req → InterfaceIP byIndex i = Ok ip →
    let reply := mkPXEPacket (set_ServerIP ip (pxe_dhcp req)) (ClientIP req) (BootType req)
                   (str "http://" ++ IP_String ip ++ str ":" ++ Itoa httpPort ++ str "/") in
    AWriteTo (ReplyPXE reply) i peer ∈ PXE_actions byIndex httpPort ev ∧
    (length (default [] (BootType req)) = 4 → (min_int ≤ httpPort ≤ max_int)%Z →
     sub 20 4 (ReplyPXE reply) = ip ∧ sub 108 5 (ReplyPXE reply) = str "boot" ++ [0%gb] ∧
     options_of (drop 240 (ReplyPXE reply)) = reply_options reply).

(** A transfer of any file name that the client acknowledges delivers the boot
    loader, unless its size is a multiple of the block size. *)
Definition loads (handler : Handler) (file : bytes) : Prop :=
  ∀ addr req net net0 net1 k0 ks,
    oack_acked req k0 net net0 → acked_blocks 0 ks net0 net1 →
    length file `mod` block_size req ≠ 0 → length ks = S (length file / block_size req) →
    transfer (Ok tt) addr req handler net =
      Ret (oack_writes req k0 ++ block_writes (block_size req) file 0 ks ++
           [CLog (str "Sent %q to %s") [AStr (Filename req); AStr (Addr_String addr)];
            CCloseFile; CCloseConn]).

(** A reference is served as the file at [path], in every world with the file
    system of [w]. *)
Definition serves_path (s : httpServer) (w : World) (ref path pretty : GoString) : Prop :=
  ∀ r wd, same_env w wd → URL_Path r = 47%gb :: ref →
    ∃ logs, dispatch s r wd = (Responded (stream_response (static_fetch (path, pretty) w)), logs, wd).

(** The boot loader, whatever was requested before, gets for its hardware address
    a configuration whose references are served as the given files. *)
Definition configures (booter : Booter) (ldlinux : bytes) (w w1 : World)
    (kernel : GoString) (initrds : list GoString) (cmdline : GoString) : Prop :=
  ∀ key rs r mac,
    mac_length_ok (length mac) = true → URL_Path r = str "/pxelinux.cfg/" ++ config_name mac →
    let s := mkHttpServer booter ldlinux key in
    ∃ resp logs w2 kref irefs,
      dispatch s r (http_run s rs w1).2 = (Responded resp, logs, w2) ∧
      rw_status resp = Some 200%Z ∧ rw_body resp = config_text kref irefs cmdline ∧
      serves_path s w kref kernel (str "kernel") ∧
      length irefs = length initrds ∧
      ∀ i iref path, irefs !! i = Some iref → initrds !! i = Some path →
        serves_path s w iref path (str "initrd." ++ Itoa (Z.of_nat i)).

(** ** Each stage *)

Lemma offers_boot_static b : static_small b → offers_boot (static_booter b).
Proof.
  intros Hs byIndex ev d ip0 port i ip req Hr Hd Hip.
  apply (@DHCP_offers_iff _ _ _ (static_laws b Hs)). exists d, ip0, port, req, ip.
  pose proof (InterfaceIP_length _ _ _ Hip). split_and!; try done.
  eapply ParseDHCP_wf; [by apply ParseDHCP_iff|done].
Qed.

Lemma chainloads_any httpPort : chainloads httpPort.
Proof.
  intros byIndex ev d peer i ip req Hr Hq Hip reply.
  split; [apply PXE_replies_iff; by exists d, req, ip|]. intros Hbt Hport.
  pose proof (InterfaceIP_length _ _ _ Hip) as H4. destruct (pxe_request_wf _ _ ip Hq H4) as [Hwf Hc].
  destruct (BootType req) as [bt|] eqn:Hb; [|done]. cbn [default] in Hbt.
  destruct (ReplyPXE_content reply bt) as (_ & _ & _ & H20 & _ & H108 & _ & Hopts & _); [done..| |].
  - subst reply. cbn [HTTPServer]. rewrite <- http_server_text. by apply http_server_length.
  - split; [exact H20|]. split; [exact H108|]. by apply Hopts.
Qed.

Lemma loads_blob file : loads (Blob file) file.
Proof.
  intros addr req net net0 net1 k0 ks Ho Ha Hm Hl.
  pose proof (block_size_pos req) as Hpos.
  pose proof (Nat.div_mod_eq (length file) (block_size req)) as Hdm.
  pose proof (Nat.mod_upper_bound (length file) (block_size req) ltac:(lia)) as Hub.
  rewrite (transfer_acked addr req (Blob file) file net net0 net1 k0 ks) by (done || nia).
  unfold transfer_end. by rewrite decide_False by done.
Qed.

Lemma serves_path_static b ld key w id t :
  static_small b → static_denotes b id t →
  serves_path (mkHttpServer (static_booter b) ld key) w (file_ref id) t.1 t.2.
Proof.
  intros Hs Hd r wd [Ho _] Hp.
  pose proof (@file_ref_serves _ (mkHttpServer (static_booter b) ld key) (static_laws b Hs)
    id t Hd r wd Hp) as [logs Hdis].
  exists logs. rewrite Hdis. cbn [fetch static_laws]. unfold static_fetch. by rewrite Ho.
Qed.

Lemma configures_static b ld w w1 :
  static_small b → static_ok b w1 →
  configures (static_booter b) ld w w1 (kernelPath b) (initrdPaths b) (Cmdline (spec b)).
Proof.
  intros Hs Hok key rs r mac Hmac Hp s.
  destruct (static_config b ld key rs r mac w1 Hs Hok Hmac Hp) as (resp & logs & w2 & Hd & Hst & Hb).
  eexists resp, logs, w2, _, _. split; [exact Hd|]. split; [done|]. split; [exact Hb|].
  split; [|split].
  - apply (serves_path_static b ld key w _ (kernelPath b, str "kernel")); [done|by left].
  - unfold initrd_ids. by rewrite !length_fmap, length_seq.
  - intros i iref path Hi Hpath. unfold initrd_ids in Hi. rewrite !list_lookup_fmap in Hi.
    rewrite lookup_seq_lt in Hi by by eapply lookup_lt_Some. simplify_eq/=.
    apply (serves_path_static b ld key w _ (path, str "initrd." ++ Itoa (Z.of_nat i))); [done|].
    right. by exists i, path.
Qed.

(** C3: started with a kernel and initrds and no API server, Pixiecore runs servers
    that take a PXE client from its discovery to its files: the offer; the reply that
    points to our own HTTP server, which a client that asked for a boot type of four
    bytes can read; the boot loader over TFTP, for a client that acknowledges every packet
    within five tries and whose block size does not divide the size of the loader; then
    the configuration for its hardware address, whatever else was requested before, with
    the configured command line and references that are served as the configured kernel
    and initrds. *)
Theorem static_mode_boots fl w pxelinux ldlinux :
  apiServer fl = [] → kernelFile fl ≠ [] → initrdFile fl ≠ [] →
  (Z.of_nat (length (Split (initrdFile fl) 44%gb)) ≤ max_int)%Z →
  Asset ldlinuxC32_data lpxelinux0_data (str "lpxelinux.0") = Ok pxelinux →
  Asset ldlinuxC32_data lpxelinux0_data (str "ldlinux.c32") = Ok ldlinux →
  ∃ booter handler w1,
    main ldlinuxC32_data lpxelinux0_data fl w =
      (Running [SProxyDHCP (portDHCP fl) booter; SPXE (portPXE fl) (portHTTP fl);
                STFTP (str "udp4") (str ":" ++ Itoa (portTFTP fl)) handler;
                SHTTP (portHTTP fl) booter ldlinux] (debug fl), w1) ∧
    offers_boot booter ∧ chainloads (portHTTP fl) ∧ loads handler pxelinux ∧
    configures booter ldlinux w w1 (kernelFile fl) (Split (initrdFile fl) 44%gb) (kernelCmdline fl).
Proof.
  intros Ha Hk Hi Hlen Hpxe Hld. unfold main, pickBooter.
  rewrite decide_False by auto. rewrite decide_True by done. rewrite decide_False by auto.
  rewrite decide_False by done. unfold StaticBooter.
  pose proof (new_staticBooter_ok (kernelFile fl) (Split (initrdFile fl) 44%gb) (kernelCmdline fl) w) as Hb.
  destruct (new_staticBooter _ _ _ w) as [b w1]. destruct Hb as (Hok & _ & <- & Hips & <-).
  rewrite Hpxe, Hld. exists (static_booter b), (Blob pxelinux), w1. rewrite <- Hips in *.
  split; [done|]. split; [by apply offers_boot_static|]. split; [apply chainloads_any|].
  split; [apply loads_blob|]. by apply configures_static.
Qed.

(** ** API mode *)

Context `{!SecretboxLaws}.







End boot.

(** * Witnesses *)

Section witnesses.
#[local] Existing Instance latin1_tables.
#[local] Existing Instance toy_box.
#[local] Existing Instance toy_box_laws.
#[local] Existing Instance toy_texts.
#[local] Existing Instance toy_gzip.

Lemma static_mode_boots_witness :
  ∃ booter handler w1,
    main (str "LD") (str "PXE") toy_flags toy_world =
      (Running [SProxyDHCP 67 booter; SPXE 4011 70; STFTP (str "udp4") (str ":69") handler;
                SHTTP 70 booter (str "LD")] false, w1) ∧
    configures booter (str "LD") toy_world w1 (str "k") [str "i0"; str "i1"] (str "quiet").
Proof.
  destruct (static_mode_boots (str "LD") (str "PXE") toy_flags toy_world (str "PXE") (str "LD"))
    as (booter & handler & w1 & Hm & _ & _ & _ & Hc);
    [reflexivity|discriminate|discriminate|vm_compute; discriminate|reflexivity|reflexivity|].
  exists booter, handler, w1. split; [exact Hm|exact Hc].
Defined.


End witnesses.
