(* ===== verification/Netboot.v ===== *)
(** A machine that netboots, against the servers that [main] starts: the steps of its
    PXE firmware and of pxelinux as an executable client, which reads the answers of
    the servers off the wire, and the theorem that it ends up with the configured
    files. *)
From S2P Require Import Prelude GoStrings GoFmt GoNet GoIO Dhcp Logging Udp Pxe Tftp TftpTransfer Base64 GoHttp GoJson GoUrl Api Remote DhcpServer Http Assets Main Process.

(** * The client

    Not part of the program: what it is for.  The firmware broadcasts a discovery,
    takes the boot server and the boot type from the menu of the first offer that is
    addressed to it, asks the boot server, loads the boot file over TFTP, and starts
    it; pxelinux fetches its module, its configuration and the files the configuration
    names over HTTP, below the path prefix it was given.  Everything it sends goes to the
    address it was told and to the port of the protocol, and arrives only at a server
    that listens there; it sees only what is sent to it or to everyone on its network. *)

(** The IPv4 addresses of the interface [i] of the server. *)
Definition own_addresses (byIndex : Z → result Interface) (i : Z) : list IP :=
  match byIndex i with
  | Ok iface => match if_addrs iface with Ok addrs => v4_addrs addrs | Err _ => [] end
  | Err _ => []
  end.

Record machine := mkMachine {
  m_tid : bytes;
  m_mac : HardwareAddr;
  m_guid : bytes;
  m_ip : IP
}.

Definition wf_machine (m : machine) : Prop :=
  length (m_tid m) = 4 ∧ length (m_mac m) = 6 ∧ length (m_guid m) = 16 ∧ length (m_ip m) = 4.

(** A BOOTP request with the given options. *)
Definition m_packet (m : machine) (opts : list dhcp_option) : bytes :=
  copy_at 28 (m_mac m) (copy_at 12 (m_ip m)
    (copy_at 4 (m_tid m) ([1; 1; 6; 0]%gb ++ replicate 232 0%gb))) ++
  [99; 130; 83; 99]%gb ++ flat_map option_bytes opts ++ [255%gb].

Definition m_class : dhcp_option := (60%gb, str "PXEClient:Arch:00000:UNDI:002001").

Definition m_discover (m : machine) : bytes :=
  mk_discover (m_tid m) (m_mac m) (m_guid m) [m_class].

(** The request for a boot type of the menu, layer 0. *)
Definition m_request (m : machine) (type : bytes) : bytes :=
  m_packet m [(53, [3]); m_class; (43, [71; 4] ++ type ++ [0; 0; 255]); (97, 0 :: m_guid m)]%gb.

(** An answer is for the machine if it repeats its transaction id and address. *)
Definition for_me (m : machine) (b : bytes) : bool :=
  bool_decide (b !! 0 = Some 2%gb ∧ sub 4 4 b = m_tid m ∧ sub 28 6 b = m_mac m ∧
               sub 236 4 b = [99; 130; 83; 99]%gb).

(** The first boot server of an offer: its boot type and its address. *)
Definition read_offer (m : machine) (b : bytes) : option (bytes * IP) :=
  if for_me m b then
    let opts := options_of (drop 240 b) in
    class ← find_option 60%gb opts;
    vendor ← find_option 43%gb opts;
    servers ← find_option 8%gb (options_of vendor);
    if decide (class = str "PXEClient" ∧ servers !! 2 = Some 1%gb)
    then Some (take 2 servers, sub 3 4 servers) else None
  else None.

(** The boot file, its server and the path prefix of a reply. *)
Definition read_reply (m : machine) (b : bytes) : option (IP * GoString * GoString) :=
  if for_me m b then
    let opts := options_of (drop 240 b) in
    type ← find_option 53%gb opts;
    prefix ← find_option 210%gb opts;
    if decide (type = [5%gb])
    then Some (sub 20 4 b, take_while (λ c, negb (bool_decide (c = 0%gb))) (sub 108 128 b), prefix)
    else None
  else None.

(** The datagrams that arrive at the machine, on the network of interface [i]: those
    for the client port that are broadcast or sent to its address. *)
Definition received (i : Z) (m : machine) (acts : list udp_action) : list bytes :=
  omap (λ a, match a with
             | AWriteTo p j (UDPAddr dst port) =>
                 if decide (j = i ∧ port = 68%Z ∧ (dst = net_IPv4bcast ∨ dst = m_ip m)) then Some p else None
             | AWriteTo _ _ (OtherAddr _) | ALog _ => None
             end) acts.

(** The acknowledgements of the OACK and of the first [n] blocks. *)
Definition m_acks (n : nat) : list read_event :=
  map (λ i, RData ([0; 4]%gb ++ PutUint16 (Z.of_nat i))) (seq 0 (S n)).

Definition m_rrq (file : GoString) : bytes :=
  rrq_bytes file [(str "tsize", str "0"); (str "blksize", str "1450")].

Definition m_addr (m : machine) (port : Z) : Addr := UDPAddr (m_ip m) port.

Section client.
Context `{UnicodeTables}.

(** The file that a transfer from the server at [ip] delivers, if its last packet is a
    short block; the service listens on all addresses [own] of the server. *)
Definition m_tftp (own : list IP) (m : machine) (ip : IP) (family addr : GoString) (handler : Handler) (file : GoString) (n : nat) : option bytes :=
  if decide (ip ∈ own ∧ family = str "udp4" ∧ addr = str ":69") then
    match Serve_actions (Ok (m_rrq file, m_addr m 2070)) with
    | [TGo addr req] =>
        match transfer (Ok tt) addr req handler (m_acks n) with
        | Ret acts =>
            match last (conn_writes acts) with
            | Some (0 :: 3 :: _ :: _ :: chunk)%gb =>
                if (length chunk <? 1450)%nat then Some (client_receives (conn_writes acts)) else None
            | _ => None
            end
        | _ => None
        end
    | _ => None
    end
  else None.

(** A GET request that must succeed: the URL names the server, which is at one of the
    addresses [own] and at [port]. *)
Definition at_server (own : list IP) (port : Z) (u : URL) : bool :=
  bool_decide (Scheme u = str "http") &&
  existsb (λ ip, bool_decide (url_Host u = IP_String ip ++ str ":" ++ Itoa port)) own.

Definition m_get (own : list IP) (port : Z) (m : machine) (s : httpServer) (url : GoString) (wd : World) : option (bytes * World) :=
  match url_Parse url with
  | Ok u =>
      let r := mkRequest (str "GET") (url_Host u) (Addr_String (m_addr m 2071)) (Path u) (URL_text u) in
      if at_server own port u then
        match dispatch s r wd with
        | (Responded resp, _, wd) =>
            if decide (rw_status resp = Some 200%Z) then Some (rw_body resp, wd) else None
        | (Redirected _, _, _) => None
        end
      else None
  | Err _ => None
  end.

Fixpoint m_get_all (own : list IP) (port : Z) (m : machine) (s : httpServer) (urls : list GoString) (wd : World)
    : option (list bytes * World) :=
  match urls with
  | [] => Some ([], wd)
  | url :: urls =>
      '(b, wd) ← m_get own port m s url wd;
      '(bs, wd) ← m_get_all own port m s urls wd;
      Some (b :: bs, wd)
  end.

(** What a machine has when it starts its kernel. *)
Record booted := mkBooted {
  b_loader : bytes;
  b_module : bytes;
  b_kernel : bytes;
  b_initrds : list bytes;
  b_cmdline : GoString
}.

Definition m_pxelinux (own : list IP) (port : Z) (m : machine) (s : httpServer) (prefix : GoString)
    (loader : bytes) (wd : World) : option booted :=
  '(ldlinux, wd) ← m_get own port m s (prefix ++ str "ldlinux.c32") wd;
  '(cfg, wd) ← m_get own port m s (prefix ++ str "pxelinux.cfg/" ++ config_name (m_mac m)) wd;
  '(kref, irefs, cmdline) ← read_config cfg;
  '(kernel, wd) ← m_get own port m s (prefix ++ kref) wd;
  '(initrds, wd) ← m_get_all own port m s (map (app prefix) irefs) wd;
  Some (mkBooted loader ldlinux kernel initrds cmdline).

(** The boot type and the boot server that the discovery, broadcast to port 67, finds
    on the interface [i] of the server, and the answer of that boot server. *)
Definition m_offer (byIndex : Z → result Interface) (i : Z) (port : Z) (b : Booter) (m : machine) (w : World)
    : option (bytes * IP) :=
  let discovery :=
    mkDhcpEvent (mkUdpEvent (Ok (m_discover m, Some i, UDPAddr [0; 0; 0; 0]%gb 68)) (Ok tt)) w in
  if decide (port = 67%Z)
  then head (omap (read_offer m) (received i m (DHCP_actions byIndex b discovery))) else None.

Definition m_reply (byIndex : Z → result Interface) (i : Z) (port httpPort : Z) (m : machine)
    (type : bytes) (server : IP) : option (IP * GoString * GoString) :=
  let request := mkUdpEvent (Ok (m_request m type, Some i, m_addr m 68)) (Ok tt) in
  if decide (port = 4011%Z ∧ server ∈ own_addresses byIndex i)
  then head (omap (read_reply m) (received i m (PXE_actions byIndex httpPort request))) else None.

(** The whole boot on the interface [i] of the server, in the world [w]; the machine
    acknowledges up to [n] blocks of the boot loader. *)
Definition netboot (byIndex : Z → result Interface) (i : Z) (key : bytes) (n : nat)
    (services : list service) (m : machine) (w : World) : option booted :=
  match services with
  | [SProxyDHCP dhcpPort dhcp_booter; SPXE pxePort httpPort; STFTP family addr handler;
     SHTTP port http_booter ldlinux] =>
      '(type, server) ← m_offer byIndex i dhcpPort dhcp_booter m w;
      '(next, file, prefix) ← m_reply byIndex i pxePort httpPort m type server;
      loader ← m_tftp (own_addresses byIndex i) m next family addr handler file n;
      m_pxelinux (own_addresses byIndex i) port m (mkHttpServer http_booter ldlinux key) prefix loader w
  | _ => None
  end.

End client.

(** * The text of the addresses *)

Lemma forallb_digits (f : Byte.byte → bool) z :
  (∀ c, is_digit c = true → f c = true) → (0 ≤ z)%Z → forallb f (Itoa z) = true.
Proof.
  intros Hf Hz. unfold Itoa. destruct (Z.ltb_spec z 0); [lia|]. apply forallb_forall.
  intros c Hc. pose proof (Utoa_digits z Hz) as Hd. rewrite Forall_forall in Hd.
  apply Hf, Hd. by apply list_elem_of_In.
Qed.

Lemma digit_host c : is_digit c = true → host_char c = true.
Proof. intros Hc. unfold host_char. by rewrite Hc, orb_true_r. Qed.

Lemma plain_host_server ip port :
  length ip = 4 → (0 ≤ port)%Z → plain_host (IP_String ip ++ str ":" ++ Itoa port).
Proof.
  intros Hip Hp. exists (IP_String ip), (str ":" ++ Itoa port). split_and!; [done| |].
  - do 4 (destruct ip as [|? ip]; [done|]). destruct ip; [|done].
    rewrite IP_String_4, !forallb_app, !andb_true_iff.
    repeat split; try done; (apply forallb_digits; [apply digit_host|apply u8_range]).
  - by apply forallb_digits.
Qed.

Lemma path_char_encode id : forallb path_char (EncodeToString id) = true.
Proof.
  assert (∀ v k, path_char (sextet v k) = true) as Hs.
  { intros v k. unfold sextet. pose proof (Z.mod_pos_bound (v `div` 2 ^ (6 * k)) 64 ltac:(lia)) as Hb.
    assert (forallb (λ n, path_char (encode_char (Z.of_nat n))) (seq 0 64) = true) as Hall by done.
    rewrite forallb_forall in Hall. specialize (Hall (Z.to_nat ((v `div` 2 ^ (6 * k)) `mod` 64))).
    rewrite Z2Nat.id in Hall by lia. apply Hall, in_seq. lia. }
  induction id as [|a|a b|a b c id IH] using list_ind_3; cbn [EncodeToString forallb];
    rewrite ?Hs, ?IH; done.
Qed.

Lemma path_char_config mac : forallb path_char (config_name mac) = true.
Proof.
  assert (∀ b, forallb path_char (hex2 b) = true) as Hh.
  { apply byte_forall. vm_compute. reflexivity. }
  unfold config_name. rewrite forallb_app. apply andb_true_iff. split; [done|].
  induction mac as [|b mac IH]; [done|]. destruct mac as [|b' mac]; [apply Hh|].
  change (Join (map hex2 (b :: b' :: mac)) (str "-"))
    with (hex2 b ++ str "-" ++ Join (map hex2 (b' :: mac)) (str "-")).
  by rewrite !forallb_app, Hh, IH.
Qed.

(** * The stages *)

(** ** DHCP *)

Definition offered_to (m : machine) (ip : IP) : DHCPPacket :=
  mkDHCPPacket (m_tid m) (m_mac m) (Some (m_guid m)) ip.

Lemma ParseDHCP_m_discover m :
  wf_machine m → ParseDHCP (take 1024 (m_discover m)) = Ret (Ok (offered_to m [])).
Proof.
  intros (Ht & Hm & Hg & _). unfold m_discover. rewrite take_ge.
  - apply ParseDHCP_discover; [done..|]. apply Forall_singleton. split.
    + split; [done|]. apply Nat.ltb_lt. reflexivity.
    + by apply (bool_decide_unpack _).
  - unfold mk_discover. rewrite !length_app, !length_copy_at, !length_app.
    + cbn [flat_map app option_bytes fst snd length]. rewrite !length_app. cbn [length].
      rewrite !length_app. cbn [length]. rewrite Hg. vm_compute. lia.
    + simpl. lia.
    + rewrite length_copy_at; simpl; lia.
Qed.

Lemma lookup_head_sub b x l n : sub 0 n b = x :: l → b !! 0 = Some x.
Proof. unfold sub. rewrite drop_0. destruct n, b; simpl; [done..|]. by intros [= ->]. Qed.

Lemma OfferDHCP_for_me m ip :
  wf_machine m → length ip = 4 →
  read_offer m (OfferDHCP (offered_to m ip)) = Some ([128; 0]%gb, ip).
Proof.
  intros (Ht & Hm & Hg & _) Hip.
  assert (wf_packet (offered_to m ip)) as Hwf by (split_and!; eauto).
  destruct (OfferDHCP_content _ Hwf) as (_ & H0 & _ & H4 & H28 & H236 & Hopts & Hmenu).
  unfold read_offer, for_me. rewrite bool_decide_true, Hopts
    by (split_and!; [by eapply lookup_head_sub|done..]).
  change (find_option 60%gb (offer_options (offered_to m ip))) with (Some (str "PXEClient")).
  change (find_option 43%gb (offer_options (offered_to m ip))) with (Some (Offer_pxe (offered_to m ip))).
  cbn [mbind option_bind]. rewrite Hmenu.
  change (find_option 8%gb (menu_options (offered_to m ip))) with (Some ([128; 0; 1]%gb ++ ip)).
  cbn [mbind option_bind]. rewrite decide_True by done. do 2 f_equal. unfold sub.
  change (drop 3 ([128; 0; 1]%gb ++ ip)) with ip. by apply take_ge; lia.
Qed.

Lemma InterfaceIP_own byIndex i ip : InterfaceIP byIndex i = Ok ip → ip ∈ own_addresses byIndex i.
Proof.
  unfold InterfaceIP, own_addresses. destruct (byIndex i) as [iface|]; [|done]. simpl.
  destruct (if_addrs iface) as [addrs|]; [|done]. simpl.
  assert (∀ f ip, first_addr f addrs = Some ip → ip ∈ v4_addrs addrs) as Hin.
  { intros f ip' Hf. pose proof (first_addr_spec f addrs) as Hs. rewrite Hf in Hs.
    destruct Hs as (pre & post & -> & _). set_solver. }
  repeat case_match; intros; simplify_eq; eauto.
Qed.

Section stages.
Context `{UnicodeTables} (byIndex : Z → result Interface) (i : Z) (ip : IP) (m : machine).
Context (Hip : InterfaceIP byIndex i = Ok ip) (Hm : wf_machine m).

Let Hip4 : length ip = 4 := InterfaceIP_length _ _ _ Hip.

(** The discovery is answered with the menu of the boot server. *)
Lemma stage_offer b w :
  is_ok (ShouldBoot b (m_mac m) w).1 = true →
  m_offer byIndex i 67 b m w = Some ([128; 0]%gb, ip).
Proof.
  intros Hok. unfold m_offer. rewrite decide_True by done. unfold DHCP_actions, ServeProxyDHCP_step. cbn [ev_read de_udp ev_write de_world].
  pose proof (slice_read_into (replicate 1024 0%gb) (m_discover m)) as Hs.
  destruct (read_into (replicate 1024 0%gb) (m_discover m)) as [buf n]. cbn [fst snd] in Hs.
  rewrite length_replicate in Hs. rewrite Hs. cbn [mbind go_bind].
  rewrite ParseDHCP_m_discover by done. cbn [mbind go_bind MAC offered_to].
  destruct (ShouldBoot b (m_mac m) w).1 as [u|e]; [|done]. rewrite Hip.
  change (set_ServerIP ip (offered_to m [])) with (offered_to m ip).
  unfold received. cbn [omap list_omap]. rewrite decide_True by auto. cbn [omap list_omap].
  by rewrite OfferDHCP_for_me.
Qed.

(** ** PXE *)

Lemma m_packet_fields opts :
  Forall wf_option opts →
  length (m_packet m opts) = 241 + length (flat_map option_bytes opts) ∧
  sub 4 4 (m_packet m opts) = m_tid m ∧ sub 12 4 (m_packet m opts) = m_ip m ∧
  sub 28 6 (m_packet m opts) = m_mac m ∧ sub 236 4 (m_packet m opts) = DhcpMagic ∧
  options_of (drop 240 (m_packet m opts)) = opts.
Proof.
  intros Ho. destruct Hm as (Ht & Hmac & _ & Hmip). unfold m_packet.
  set (tmpl := [1; 1; 6; 0]%gb ++ replicate 232 0%gb).
  assert (length tmpl = 236) as Hl0 by done.
  assert (length (copy_at 4 (m_tid m) tmpl) = 236) as Hl1 by (rewrite length_copy_at; lia).
  set (c1 := copy_at 4 _ _) in *.
  assert (length (copy_at 12 (m_ip m) c1) = 236) as Hl2 by (rewrite length_copy_at; lia).
  set (c2 := copy_at 12 _ _) in *.
  assert (length (copy_at 28 (m_mac m) c2) = 236) as Hl by (rewrite length_copy_at; lia).
  set (hdr := copy_at 28 _ _) in *.
  split_and!.
  - rewrite !length_app, Hl. simpl. lia.
  - rewrite sub_app_l by lia. subst hdr c2 c1. rewrite !(sub_copy_other 4) by lia. apply sub_copy_same; lia.
  - rewrite sub_app_l by lia. subst hdr c2. rewrite sub_copy_other by lia. apply sub_copy_same; lia.
  - rewrite sub_app_l by lia. apply sub_copy_same; lia.
  - rewrite sub_app_r, Hl by lia. done.
  - rewrite app_assoc, drop_app_length' by (rewrite length_app, Hl; done).
    rewrite options_of_app by done. by rewrite options_of_end, app_nil_r.
Qed.

Definition replied_to (prefix : GoString) : PXEPacket :=
  mkPXEPacket (offered_to m ip) (m_ip m) (Some [128; 0; 0; 0]%gb) prefix.

Lemma ParsePXE_m_request :
  ParsePXE (take 1024 (m_request m [128; 0]%gb)) =
    Ret (Ok (mkPXEPacket (offered_to m []) (m_ip m) (Some [128; 0; 0; 0]%gb) [])).
Proof.
  pose proof Hm as (_ & _ & Hg & _). unfold m_request.
  set (opts := [_; _; _; _]).
  assert (Forall wf_option opts) as Hwf
    by (subst opts; repeat apply Forall_cons_2; [split; [done|]..|done]; cbn; rewrite ?Hg; lia).
  destruct (m_packet_fields opts Hwf) as (Hl & H4 & H12 & H28 & H236 & Hopts).
  assert (length (flat_map option_bytes opts) = 65) as Hlo
    by (subst opts; cbn; rewrite length_app, Hg; done).
  rewrite take_ge by lia. apply ParsePXE_iff. unfold pxe_request. rewrite Hopts, H4, H12, H28.
  split; [split; [lia|done]|]. split.
  - subst opts. repeat apply Forall_cons_2; try done. intros _. cbn. by rewrite Hg.
  - by exists (m_guid m), [128; 0; 0; 0]%gb.
Qed.

Lemma ReplyPXE_for_me prefix :
  length prefix < 256 →
  read_reply m (ReplyPXE (replied_to prefix)) = Some (ip, str "boot", prefix).
Proof.
  intros Hp. pose proof Hm as (Ht & Hmac & Hg & Hmip).
  assert (wf_packet (pxe_dhcp (replied_to prefix))) as Hwf by (split_and!; eauto).
  destruct (ReplyPXE_content (replied_to prefix) [128; 0; 0; 0]%gb Hwf Hmip eq_refl Hp)
    as (H0 & H4 & _ & H20 & H28 & H108 & H236 & [_ Hopts] & _).
  unfold read_reply, for_me. rewrite bool_decide_true, (Hopts eq_refl)
    by (split_and!; [by eapply lookup_head_sub|done..]).
  change (find_option 53%gb (reply_options (replied_to prefix))) with (Some [5%gb]).
  change (find_option 210%gb (reply_options (replied_to prefix))) with (Some prefix).
  cbn [mbind option_bind]. rewrite decide_True by done. rewrite H20.
  replace (sub 108 128 (ReplyPXE (replied_to prefix)))
    with (sub 108 5 (ReplyPXE (replied_to prefix)) ++ sub 113 123 (ReplyPXE (replied_to prefix)))
    by (unfold sub; rewrite <- (take_take_drop _ 5 123), drop_drop; done).
  by rewrite H108.
Qed.

(** The request for the menu's boot type is answered with the name of the boot file
    and with the prefix of the HTTP server. *)
Lemma stage_reply httpPort :
  (min_int ≤ httpPort ≤ max_int)%Z →
  m_reply byIndex i 4011 httpPort m [128; 0]%gb ip = Some (ip, str "boot", http_server httpPort ip).
Proof.
  intros Hport. unfold m_reply. rewrite decide_True by (split; [done|by apply InterfaceIP_own]).
  unfold PXE_actions, ServePXE_step. cbn [ev_read ev_write].
  pose proof (slice_read_into (replicate 1024 0%gb) (m_request m [128; 0]%gb)) as Hs.
  destruct (read_into (replicate 1024 0%gb) (m_request m [128; 0]%gb)) as [buf n]. cbn [fst snd] in Hs.
  rewrite length_replicate in Hs. rewrite Hs. cbn [mbind go_bind].
  rewrite ParsePXE_m_request. cbn [mbind go_bind pxe_dhcp ClientIP BootType]. rewrite Hip.
  change (mkPXEPacket (set_ServerIP ip (offered_to m [])) _ _ ?h) with (replied_to h).
  unfold received. cbn [omap list_omap m_addr]. rewrite decide_True by auto. cbn [omap list_omap].
  rewrite ReplyPXE_for_me by by apply http_server_length. done.
Qed.

End stages.

(** ** TFTP *)

Lemma m_acks_from n i :
  map (λ i, RData ([0; 4]%gb ++ PutUint16 (Z.of_nat i))) (seq i (S n)) =
    RData ([0; 4]%gb ++ PutUint16 (Z.of_nat i)) ::
    map (λ i, RData ([0; 4]%gb ++ PutUint16 (Z.of_nat i))) (seq (S i) n).
Proof. done. Qed.

Lemma acked_first j net :
  acked (u16 (Z.of_nat j)) 0 (RData ([0; 4]%gb ++ PutUint16 (Z.of_nat j)) :: net) net.
Proof.
  apply (acked_now _ [] _ net); [done|]. unfold is_ack, PutUint16. cbn [app op_num].
  rewrite PutUint16_value. done.
Qed.

Lemma m_acks_blocks k n j :
  k ≤ n → ∃ net', acked_blocks j (replicate k 0)
    (map (λ i, RData ([0; 4]%gb ++ PutUint16 (Z.of_nat i))) (seq (S j) n)) net'.
Proof.
  revert n j. induction k as [|k IH]; intros n j Hk; [eexists; constructor|].
  destruct n as [|n]; [lia|]. destruct (IH n (S j) ltac:(lia)) as [net' Ha].
  exists net'. cbn [replicate]. rewrite m_acks_from.
  eapply acked_more; [unfold numRetries; lia|apply acked_first|exact Ha].
Qed.

Lemma block_writes_once bsize data j k :
  conn_writes (block_writes bsize data j (replicate k 0)) = block_sends bsize data j (replicate k 1).
Proof.
  revert j. induction k as [|k IH]; intros j; [done|]. cbn [replicate block_writes block_sends].
  rewrite conn_writes_app, IH. done.
Qed.

Lemma block_sends_last bsize data j k :
  last (block_sends bsize data j (replicate (S k) 1)) = Some (data_packet bsize data (j + k)).
Proof.
  revert j. induction k as [|k IH]; intros j; [by rewrite Nat.add_0_r|].
  change (block_sends bsize data j (replicate (S (S k)) 1))
    with ([data_packet bsize data j] ++ block_sends bsize data (S j) (replicate (S k) 1)).
  rewrite last_app, IH. by rewrite Nat.add_succ_r.
Qed.

Section tftp.
Context `{UnicodeTables}.

Lemma m_rrq_served m :
  Serve_actions (Ok (m_rrq (str "boot"), m_addr m 2070)) = [TGo (m_addr m 2070) (mkRrq (str "boot") 1450)].
Proof.
  unfold Serve_actions, m_rrq. rewrite take_ge by (vm_compute; lia).
  rewrite parseRRQ_complete; [done|by apply (bool_decide_unpack _)|].
  repeat apply Forall_cons_2; [..|done]; (split; [by apply (bool_decide_unpack _)|]);
    (split; [by apply (bool_decide_unpack _)|]); eexists; (split; [vm_compute; reflexivity|]); [done|lia].
Qed.

(** The boot loader arrives, unless its size is a multiple of the block size. *)
Lemma stage_tftp own m ip file n :
  ip ∈ own → length file `mod` 1450 ≠ 0 → length file / 1450 < n →
  m_tftp own m ip (str "udp4") (str ":69") (Blob file) (str "boot") n = Some file.
Proof.
  intros Hown Hmod Hn. unfold m_tftp. rewrite decide_True by done. rewrite m_rrq_served.
  set (req := mkRrq (str "boot") 1450). set (q := length file / 1450) in *.
  pose proof (Nat.div_mod_eq (length file) 1450) as Hdm. fold q in Hdm.
  pose proof (Nat.mod_upper_bound (length file) 1450 ltac:(lia)) as Hub.
  destruct (m_acks_blocks (S q) n 0 Hn) as [net' Ha].
  rewrite (transfer_acked _ req (Blob file) file (m_acks n) _ net' 0 (replicate (S q) 0) eq_refl
    (conj (Nat.lt_0_succ 4) (acked_first 0 _)) Ha).
  2:{ rewrite length_replicate. change (block_size req) with 1450. lia. }
  change (block_size req) with 1450.
  unfold transfer_end. rewrite decide_False by done.
  rewrite !conn_writes_app, block_writes_once.
  change (conn_writes (oack_writes req 0)) with [[0; 6]%gb ++ cstr (str "blksize") ++ cstr (Itoa 1450)].
  rewrite <- (oack_wire 1450). change ([oack 1450]) with (replicate 1 (oack 1450)).
  cbn [conn_writes omap list_omap]. rewrite !app_nil_r, last_app, block_sends_last.
  unfold data_packet at 1, PutUint16. cbn [app].
  assert (length (data_block 1450 file (0 + q)) <? 1450 = true)%nat as ->.
  { apply Nat.ltb_lt. unfold data_block, sub. rewrite length_take, length_drop. lia. }
  unfold client_receives. rewrite foldl_app, client_oack.
  pose proof (client_block_sends 1450 file 0 (replicate (S q) 1)) as Hc.
  change (u16 (Z.of_nat 1)) with 1%Z in Hc. change (take (0 * 1450) file) with (@nil Byte.byte) in Hc. rewrite Hc.
  - cbn [snd]. rewrite length_replicate, take_ge by lia. done.
  - apply Forall_replicate. unfold numRetries. lia.
Qed.

End tftp.

(** ** HTTP *)

Section http.
Context `{UnicodeTables} (own : list IP) (m : machine) (ip : IP) (httpPort : Z).
Context (Hown : ip ∈ own) (Hip4 : length ip = 4) (Hport : (0 ≤ httpPort)%Z).

Let prefix : GoString := http_server httpPort ip.

Lemma at_server_self u :
  Scheme u = str "http" → url_Host u = IP_String ip ++ str ":" ++ Itoa httpPort →
  at_server own httpPort u = true.
Proof.
  intros Hsch Hhost. unfold at_server. rewrite bool_decide_true by done. cbn [andb].
  apply existsb_exists. exists ip. split; [by apply list_elem_of_In|]. by apply bool_decide_eq_true.
Qed.

(** A reference below the prefix is a request for that path of the server. *)
Lemma m_get_ref s ref wd :
  forallb path_char ref = true →
  ∃ r, URL_Path r = 47%gb :: ref ∧
    ∀ resp logs wd', dispatch s r wd = (Responded resp, logs, wd') → rw_status resp = Some 200%Z →
      m_get own httpPort m s (prefix ++ ref) wd = Some (rw_body resp, wd').
Proof.
  intros Hp. unfold m_get.
  assert (prefix ++ ref = str "http://" ++ (IP_String ip ++ str ":" ++ Itoa httpPort) ++ (47%gb :: ref)) as ->.
  { subst prefix. rewrite http_server_text, <- !app_assoc. done. }
  rewrite url_Parse_http; [|by apply plain_host_server|by rewrite <- Hp|by right].
  cbv zeta. rewrite at_server_self by done.
  eexists. split; [|intros resp logs wd' -> Hst; by rewrite decide_True]. done.
Qed.

(** The content of a target, in every world with the environment of [w]. *)
Definition delivers {b : Booter} {L : BooterLaws b} (w : World) (t : target) (data : bytes) : Prop :=
  ∀ wd, same_env w wd → ∃ pretty, fetch t wd = Ok (mkReader data None, pretty).

Context (b : Booter) {L : BooterLaws b} (ld key : bytes).

Let s : httpServer := mkHttpServer b ld key.

Lemma path_char_ref id : forallb path_char (file_ref id) = true.
Proof. unfold file_ref. by rewrite forallb_app, path_char_encode. Qed.

Lemma m_get_target w wd id t data :
  denotes id t → delivers w t data → same_env w wd →
  m_get own httpPort m s (prefix ++ file_ref id) wd = Some (data, wd).
Proof.
  intros Hd Hdel Henv. destruct (Hdel wd Henv) as [pretty Hf].
  destruct (m_get_ref s (file_ref id) wd (path_char_ref id)) as (r & Hr & Hget).
  destruct (@file_ref_serves _ s L id t Hd r wd Hr) as [logs Hdis].
  change (@fetch b L t wd) with (@fetch (booter s) L t wd) in Hf. rewrite Hf in Hdis.
  by apply (Hget _ _ _ Hdis).
Qed.

Lemma m_get_targets w wd ids ts datas :
  Forall2 denotes ids ts → Forall2 (delivers w) ts datas → same_env w wd →
  m_get_all own httpPort m s (map (app prefix) (file_ref <$> ids)) wd = Some (datas, wd).
Proof.
  intros Hids. revert datas. induction Hids as [|id t ids ts Hd _ IH]; intros datas Hdat Henv;
    inversion Hdat as [|? data ? datas' Ht Hts]; subst; [done|].
  cbn [fmap list_fmap map m_get_all]. rewrite (m_get_target w wd id t data) by done.
  cbn [mbind option_bind]. by rewrite (IH _ Hts Henv).
Qed.

Lemma m_get_module w : m_get own httpPort m s (prefix ++ str "ldlinux.c32") w = Some (ld, w).
Proof.
  destruct (m_get_ref s (str "ldlinux.c32") w eq_refl) as (r & Hr & Hget).
  assert (∃ logs, dispatch s r w = (Responded (write ld (set_header (str "Content-Type")
    (str "application/octet-stream") new_response)), logs, w)) as [logs Hdis]
    by (unfold dispatch; rewrite Hr, mux_route_clean by reflexivity; by eexists).
  exact (Hget _ _ _ Hdis eq_refl).
Qed.

Lemma m_get_config w k ts cmdline :
  booter_inv w → length (m_mac m) = 6 →
  plan (m_mac m) w = Ok (k, ts, cmdline) → is_ok (GetBootSpec b (m_mac m) w).1 = true →
  ∃ kid ids wd, same_env w wd ∧ denotes kid k ∧ Forall2 denotes ids ts ∧
    m_get own httpPort m s (prefix ++ str "pxelinux.cfg/" ++ config_name (m_mac m)) w =
      Some (config_text (file_ref kid) (file_ref <$> ids) cmdline, wd).
Proof.
  intros Hinv Hmac Hplan Hok.
  destruct (m_get_ref s (str "pxelinux.cfg/" ++ config_name (m_mac m)) w) as (r & Hr & Hget);
    [by rewrite forallb_app, path_char_config|].
  rewrite app_comm_cons in Hr.
  destruct (@config_ids _ s L r w (m_mac m)) as (resp & logs & wd & Hdis & _ & Henv & Hst & Hcfg);
    [done|by rewrite Hmac|exact Hr|].
  rewrite (Hget _ _ _ Hdis Hst).
  cbn [s booter] in Hcfg. destruct (GetBootSpec b (m_mac m) w).1 as [spec|e]; [|done].
  destruct Hcfg as (k' & ts' & kid & ids & Hplan' & Hbody & Hdk & Hdi).
  rewrite Hplan in Hplan'. injection Hplan' as <- <- ->. rewrite Hbody.
  by exists kid, ids, wd.
Qed.

Lemma m_pxelinux_steps srv pre loader w w1 w2 w3 w4 ldl cfg kref irefs cmdline kernel initrds :
  m_get own httpPort m srv (pre ++ str "ldlinux.c32") w = Some (ldl, w1) →
  m_get own httpPort m srv (pre ++ str "pxelinux.cfg/" ++ config_name (m_mac m)) w1 = Some (cfg, w2) →
  read_config cfg = Some (kref, irefs, cmdline) →
  m_get own httpPort m srv (pre ++ kref) w2 = Some (kernel, w3) →
  m_get_all own httpPort m srv (map (app pre) irefs) w3 = Some (initrds, w4) →
  m_pxelinux own httpPort m srv pre loader w = Some (mkBooted loader ldl kernel initrds cmdline).
Proof.
  unfold m_pxelinux. intros Hl Hc Hr Hk Hi. rewrite Hl. cbn [mbind option_bind]. rewrite Hc.
  cbn [mbind option_bind]. rewrite Hr. cbn [mbind option_bind].
  rewrite Hk. cbn [mbind option_bind]. by rewrite Hi.
Qed.

(** pxelinux gets its module, its configuration, and the files that the booter plans
    for the machine. *)
Lemma stage_pxelinux w k ts cmdline kernel initrds loader :
  booter_inv w → length (m_mac m) = 6 →
  plan (m_mac m) w = Ok (k, ts, cmdline) → is_ok (GetBootSpec b (m_mac m) w).1 = true →
  ts ≠ [] → 10%gb ∉ cmdline → delivers w k kernel → Forall2 (delivers w) ts initrds →
  m_pxelinux own httpPort m s prefix loader w = Some (mkBooted loader ld kernel initrds cmdline).
Proof.
  intros Hinv Hmac Hplan Hok Hts Hcmd Hk Hi.
  destruct (m_get_config w k ts cmdline Hinv Hmac Hplan Hok) as (kid & ids & wd & Henv & Hdk & Hdi & Hcfg).
  assert (ids ≠ []) as Hids by (intros ->; apply Hts; symmetry; by apply Forall2_nil_inv_l in Hdi).
  pose proof (read_config_text kid ids cmdline Hids Hcmd) as Hread.
  pose proof (m_get_target w wd kid k kernel Hdk Hk Henv) as Hkernel.
  pose proof (m_get_targets w wd ids ts initrds Hdi Hi Henv) as Hinitrds.
  revert Hcfg Hread. generalize (config_text (file_ref kid) (file_ref <$> ids) cmdline).
  intros cfg Hcfg Hread.
  exact (m_pxelinux_steps s prefix loader w w wd wd wd ld cfg (file_ref kid) (file_ref <$> ids)
    cmdline kernel initrds (m_get_module w) Hcfg Hread Hkernel Hinitrds).
Qed.

End http.

(** * The whole boot *)

Lemma netboot_steps `{UnicodeTables} byIndex i key n p1 b p2 httpPort family addr handler p3 b' ld
    m w type ip ip' file prefix loader :
  m_offer byIndex i p1 b m w = Some (type, ip) →
  m_reply byIndex i p2 httpPort m type ip = Some (ip', file, prefix) →
  m_tftp (own_addresses byIndex i) m ip' family addr handler file n = Some loader →
  netboot byIndex i key n
    [SProxyDHCP p1 b; SPXE p2 httpPort; STFTP family addr handler; SHTTP p3 b' ld] m w =
  m_pxelinux (own_addresses byIndex i) p3 m (mkHttpServer b' ld key) prefix loader w.
Proof.
  intros Ho Hr Hl. cbv beta iota delta [netboot mbind option_bind]. rewrite Ho, Hr, Hl. reflexivity.
Qed.

(** Against the contract of the booter. *)
Lemma netboot_boots `{UnicodeTables} (b : Booter) `{L : !BooterLaws b}
    byIndex i ip key n httpPort pxelinux ld m w k ts cmdline kernel initrds :
  InterfaceIP byIndex i = Ok ip → wf_machine m → (0 ≤ httpPort ≤ max_int)%Z →
  length pxelinux `mod` 1450 ≠ 0 → length pxelinux / 1450 < n →
  booter_inv w → plan (m_mac m) w = Ok (k, ts, cmdline) → is_ok (GetBootSpec b (m_mac m) w).1 = true →
  ts ≠ [] → 10%gb ∉ cmdline → delivers w k kernel → Forall2 (delivers w) ts initrds →
  netboot byIndex i key n
    [SProxyDHCP 67 b; SPXE 4011 httpPort; STFTP (str "udp4") (str ":69") (Blob pxelinux);
     SHTTP httpPort b ld] m w =
  Some (mkBooted pxelinux ld kernel initrds cmdline).
Proof.
  intros Hip Hm Hport Hmod Hn Hinv Hplan Hok Hts Hcmd Hk Hi.
  pose proof (InterfaceIP_length _ _ _ Hip) as Hip4. pose proof (InterfaceIP_own _ _ _ Hip) as Hown.
  pose proof (shouldboot_law (m_mac m) w) as [_ Hsb]. rewrite Hplan in Hsb.
  erewrite netboot_steps;
    [|by apply (stage_offer byIndex i ip m Hip Hm b w)
     |apply (stage_reply byIndex i ip m Hip Hm); unfold min_int; lia
     |by apply stage_tftp].
  eapply stage_pxelinux; [exact Hown|exact Hip4|lia|exact Hinv|apply Hm|exact Hplan|done..].
Qed.

Section modes.
Context `{UnicodeTables, Secretbox, JsonTexts, Gzip} (ldlinuxC32_data lpxelinux0_data : bytes).
Context (byIndex : Z → result Interface) (i : Z) (ip : IP) (m : machine) (pxelinux ldlinux : bytes) (n : nat).

Lemma static_delivers b (Hs : static_small b) w w' (t : GoString * GoString) data :
  same_env w w' → w_open w t.1 = Ok (mkReader data None) →
  @delivers _ (static_laws b Hs) w' t data.
Proof.
  intros [Ho _] Ht wd [Ho' _]. cbn [fetch static_laws]. unfold static_fetch.
  rewrite Ho', Ho, Ht. by eexists.
Qed.

Lemma Forall2_imap_l {A B C} (P : A → C → Prop) (Q : B → C → Prop) (f : nat → A → B) l k :
  (∀ j x y, P x y → Q (f j x) y) → Forall2 P l k → Forall2 Q (imap f l) k.
Proof.
  intros Hpq Hl. revert f Hpq. induction Hl as [|x y l k Hxy _ IH]; intros f Hpq; [constructor|].
  rewrite imap_cons. constructor; [by apply Hpq|]. apply IH. intros j. apply Hpq.
Qed.

Context (Hip : InterfaceIP byIndex i = Ok ip) (Hm : wf_machine m).
Context (Hmod : length pxelinux `mod` 1450 ≠ 0) (Hn : length pxelinux / 1450 < n).

Lemma static_netboots b key w w' httpPort kernel initrds :
  static_small b → static_ok b w' → same_env w w' → (0 ≤ httpPort ≤ max_int)%Z →
  initrdPaths b ≠ [] → 10%gb ∉ Cmdline (spec b) →
  w_open w (kernelPath b) = Ok (mkReader kernel None) →
  Forall2 (λ path data, w_open w path = Ok (mkReader data None)) (initrdPaths b) initrds →
  netboot byIndex i key n
    [SProxyDHCP 67 (static_booter b); SPXE 4011 httpPort; STFTP (str "udp4") (str ":69") (Blob pxelinux);
     SHTTP httpPort (static_booter b) ldlinux] m w' =
  Some (mkBooted pxelinux ldlinux kernel initrds (Cmdline (spec b))).
Proof.
  intros Hs Hok Henv Hport Hne Hcmd Hk Hi.
  apply (@netboot_boots _ _ (static_laws b Hs) byIndex i ip key n httpPort
    pxelinux ldlinux m w' (kernelPath b, str "kernel")
    (imap (λ i path, (path, str "initrd." ++ Itoa (Z.of_nat i))) (initrdPaths b))); try done.
  - cbn [static_booter GetBootSpec]. unfold static_BootSpec. by destruct (slice_get _ _).
  - by destruct (initrdPaths b).
  - by apply (static_delivers b Hs w).
  - eapply Forall2_imap_l; [|exact Hi]. intros j path data Hp. by apply (static_delivers b Hs w).
Qed.

Context (Hpxe : Asset ldlinuxC32_data lpxelinux0_data (str "lpxelinux.0") = Ok pxelinux).
Context (Hld : Asset ldlinuxC32_data lpxelinux0_data (str "ldlinux.c32") = Ok ldlinux).

(** C1: with a kernel and initrds on the command line and the standard ports for DHCP,
    PXE and TFTP, a PXE machine on an interface with an IPv4 address boots: its firmware
    and its pxelinux, reading every answer off the wire and talking only to the addresses
    and ports they are told, end up with the embedded boot loader and module, the contents
    of the kernel and initrd files in order, and the command line, whatever was requested
    of the HTTP server before and whatever its port.  The machine asks for TFTP blocks of
    1450 bytes and acknowledges each; the boot loader's size is no multiple of that, and
    the command line has no line break. *)
Theorem netboot_static fl w kernel initrds :
  portDHCP fl = 67%Z → portPXE fl = 4011%Z → portTFTP fl = 69%Z →
  apiServer fl = [] → kernelFile fl ≠ [] → initrdFile fl ≠ [] →
  (Z.of_nat (length (Split (initrdFile fl) 44%gb)) ≤ max_int)%Z →
  10%gb ∉ kernelCmdline fl → (0 ≤ portHTTP fl ≤ max_int)%Z →
  w_open w (kernelFile fl) = Ok (mkReader kernel None) →
  Forall2 (λ path data, w_open w path = Ok (mkReader data None)) (Split (initrdFile fl) 44%gb) initrds →
  ∃ booter w1,
    let services :=
      [SProxyDHCP (portDHCP fl) booter; SPXE (portPXE fl) (portHTTP fl);
       STFTP (str "udp4") (str ":" ++ Itoa (portTFTP fl)) (Blob pxelinux);
       SHTTP (portHTTP fl) booter ldlinux] in
    main ldlinuxC32_data lpxelinux0_data fl w = (Running services (debug fl), w1) ∧
    ∀ key rs, netboot byIndex i key n services m (http_run (mkHttpServer booter ldlinux key) rs w1).2 =
      Some (mkBooted pxelinux ldlinux kernel initrds (kernelCmdline fl)).
Proof.
  intros Hp1 Hp2 Hp3 Ha Hk Hi Hlen Hcmd Hport Hkf Hif. rewrite Hp1, Hp2, Hp3.
  unfold main, pickBooter. rewrite Hp1, Hp2, Hp3. rewrite decide_False by auto. rewrite decide_True by done.
  rewrite decide_False by auto. rewrite decide_False by done. unfold StaticBooter.
  pose proof (new_staticBooter_ok (kernelFile fl) (Split (initrdFile fl) 44%gb) (kernelCmdline fl) w) as Hb.
  pose proof (Split_nonempty (initrdFile fl) 44%gb) as Hne.
  destruct (new_staticBooter _ _ _ w) as [b w1]. destruct Hb as (Hok & Henv & Hkp & Hips & Hc).
  rewrite <- Hkp, <- Hips, <- Hc in *.
  rewrite Hpxe, Hld. exists (static_booter b), w1. split; [done|]. intros key rs.
  destruct (@http_run_inv _ (mkHttpServer (static_booter b) ldlinux key) (static_laws b Hlen) rs w1 Hok)
    as [Hok2 Henv2].
  apply (static_netboots b key w); eauto using same_env_trans.
Qed.

(** ** API mode *)

Context `{!SecretboxLaws}.



End modes.

(** * Witnesses *)

Section witnesses.
#[local] Existing Instance latin1_tables.
#[local] Existing Instance toy_box.
#[local] Existing Instance toy_box_laws.
#[local] Existing Instance toy_texts.
#[local] Existing Instance toy_gzip.

Definition toy_machine : machine :=
  mkMachine [1; 2; 3; 4]%gb toy_mac (replicate 16 9%gb) [10; 0; 0; 7]%gb.

Lemma toy_machine_wf : wf_machine toy_machine.
Proof. split_and!; reflexivity. Qed.

Lemma netboot_static_witness :
  ∃ services w1, main (str "LD") (str "PXE") toy_flags toy_world = (Running services false, w1) ∧
    netboot toy_interfaces 3 [] 1 services toy_machine w1 =
      Some (mkBooted (str "PXE") (str "LD") (str "contents of k")
              [str "contents of i0"; str "contents of i1"] (str "quiet")).
Proof.
  destruct (netboot_static (str "LD") (str "PXE") toy_interfaces 3 [10; 0; 0; 1]%gb toy_machine
    (str "PXE") (str "LD") 1 eq_refl toy_machine_wf ltac:(discriminate) Nat.lt_0_1 eq_refl eq_refl
    toy_flags toy_world (str "contents of k") [str "contents of i0"; str "contents of i1"])
    as (booter & w1 & Hmain & Hboot).
  - reflexivity.
  - reflexivity.
  - reflexivity.
  - reflexivity.
  - discriminate.
  - discriminate.
  - vm_compute. discriminate.
  - apply (bool_decide_unpack _). reflexivity.
  - split; discriminate.
  - reflexivity.
  - constructor; [reflexivity|]. constructor; [reflexivity|constructor].
  - eexists _, w1. split; [exact Hmain|]. exact (Hboot [] []).
Defined.


End witnesses.
