(* ===== verification/Example.v ===== *)
(** example/main.go: the example API server, and what Pixiecore's remote booter
    makes of it. *)
From S2P Require Import Prelude GoStrings GoFmt GoNet GoIO GoHttp GoJson GoUrl Api Remote.

(** * Definitions from example/main.go *)

Record example_flags := mkExampleFlags {
  ex_port : Z;
  ex_kernelFile : GoString;
  ex_initrdFile : GoString;
  ex_kernelCmdline : GoString
}.

Inductive example_handler := EAPI | EKernel | EInitrd.

(** The registrations of [main]. *)
Definition example_patterns : list (GoString * example_handler) :=
  [(str "/v1/boot/", EAPI); (str "/kernel", EKernel); (str "/initrd", EInitrd)].

Section example.
Context `{UnicodeTables} (fl : example_flags).

(** [API]; [werr] is what writing the response returns.  The line is the one
    given to [log.Printf]. *)
Definition API (r : request) (werr : option error) : GoString * go ResponseWriter :=
  let line := Sprintf (str "Serving boot config for %s") [AStr (Base (URL_Path r))] in
  let resp := (Sprintf (str "http://%s/kernel") [AStr (Host r)],
               [Sprintf (str "http://%s/initrd") [AStr (Host r)]],
               ex_kernelCmdline fl) in
  (line, match werr with
         | Some _ => Panic
         | None => Ret (write (Json.Encode resp ++ [10%gb]) new_response)
         end).

Definition serveFile (open : GoString → result reader) (path : GoString) (werr : option error)
    : GoString * go ResponseWriter :=
  (Sprintf (str "Serving file %s") [AStr path],
   match open path with
   | Err _ => Panic
   | Ok f =>
       let '(data, err) := Copy f in
       match err, werr with
       | None, None => Ret (write data new_response)
       | _, _ => Panic
       end
   end).

(** The server that [main] runs, on one request; [None] for a redirect, and a
    handler that panics has its connection closed by [net/http]. *)
Definition example_dispatch (open : GoString → result reader) (r : request) (werr : option error)
    : option (go ResponseWriter) :=
  match mux_route example_patterns (Method r) (URL_Path r) with
  | RHandle EAPI => Some (API r werr).2
  | RHandle EKernel => Some (serveFile open (ex_kernelFile fl) werr).2
  | RHandle EInitrd => Some (serveFile open (ex_initrdFile fl) werr).2
  | RRedirect _ => None
  | RNotFound => Some (Ret (http_Error (str "404 page not found") 404 new_response))
  end.

(** * Theorems *)

(** A request for [http://<host><path>] that reaches the server undisturbed. *)
Definition example_get (open : GoString → result reader) (host path : GoString) : result response :=
  match example_dispatch open (mkRequest (str "GET") host [] path path) None with
  | Some (Ret w) => Ok (mkResponse (default 200%Z (rw_status w)) (mkReader (rw_body w) None))
  | _ => Err (ErrNew (str "EOF"))
  end.

(** The machine with the remote booter reaches the example server under [host]. *)
Definition connected (w : World) (open : GoString → result reader) (host : GoString) : Prop :=
  (∀ path, w_client w (str "http://" ++ host ++ path) = example_get open host path) ∧
  (∀ path, w_get w (str "http://" ++ host ++ path) = example_get open host path).

Lemma route_boot name : plain name → mux_route example_patterns (str "GET") (str "/v1/boot/" ++ name) = RHandle EAPI.
Proof.
  intros Hn. rewrite mux_route_clean.
  { destruct name as [|c name]; [by destruct Hn as (_ & ? & _)|reflexivity]. }
  apply (cleanPath_components [str "v1"; str "boot"] name); [|done].
  apply Forall_cons. split; [|apply Forall_singleton]; unfold plain; apply (bool_decide_unpack _); reflexivity.
Qed.

Lemma mac_plain mac : 2 ≤ length mac → plain (HardwareAddr_String mac).
Proof.
  intros Hl. apply plain_len; [apply mac_no_slash|].
  pose proof (length_Join_hex2 mac 58%gb) as Hj. unfold HardwareAddr_String.
  change (str ":") with [58%gb]. destruct mac; [simpl in Hl; lia|]. specialize (Hj ltac:(done)). lia.
Qed.

Lemma plain_url_absolute host path :
  plain_host host → forallb path_char path = true → HasPrefix path (str "/") = true →
  absolute (str "http://" ++ host ++ path).
Proof. intros Hh Hp Hr. unfold absolute. rewrite url_Parse_http by auto. by eexists. Qed.

Lemma plain_url_ascii host path :
  plain_host host → forallb path_char path = true →
  Json.coerce 0 (str "http://" ++ host ++ path) = str "http://" ++ host ++ path.
Proof.
  intros (name & port & -> & Hn & Hd) Hp. apply Json.coerce_ascii.
  assert (∀ f, forallb (λ c, implb (f c) (u8 c <? 128)%Z) all_bytes = true →
    ∀ s, forallb f s = true → Forall (λ c, u8 c < 128)%Z s) as Hascii.
  { intros f Hf s Hs. pose proof (Forall_chars f _ s Hf Hs) as Hall.
    eapply Forall_impl; [exact Hall|]. intros c Hc. by apply Z.ltb_lt. }
  rewrite !Forall_app. split_and!.
  - apply (Hascii (λ c, u8 c <? 128)%Z); vm_compute; reflexivity.
  - apply (Hascii host_char); [vm_compute; reflexivity|done].
  - destruct port as [|c port]; [done|].
    assert (c = 58%gb ∧ forallb is_digit port = true) as [-> Hport] by (destruct c; done).
    apply Forall_cons. split; [vm_compute; reflexivity|]. apply (Hascii is_digit); [vm_compute; reflexivity|done].
  - apply (Hascii path_char); [vm_compute; reflexivity|done].
Qed.

Context `{JsonTexts}.

(** C36: the example server is what a remote booter expects: reached under a plain
    host name, for every machine the booter gets the kernel and initrd URLs of that
    very server and the configured command line (as valid UTF-8), and fetching them
    yields the configured files. *)
Theorem example_serves_remote w open host mac b kernel initrd :
  connected w open host → plain_host host → 2 ≤ length mac →
  urlPrefix b = str "http://" ++ host ++ str "/v1" →
  open (ex_kernelFile fl) = Ok (mkReader kernel None) →
  open (ex_initrdFile fl) = Ok (mkReader initrd None) →
  let k := str "http://" ++ host ++ str "/kernel" in
  let i := str "http://" ++ host ++ str "/initrd" in
  (getSpec b mac w).1 = Ok (k, [i], Json.coerce 0 (ex_kernelCmdline fl)) ∧
  remote_fetch k w = Ok (mkReader kernel None, k) ∧
  remote_fetch i w = Ok (mkReader initrd None, i).
Proof.
  intros [Hc Hg] Hh Hmac Hpre Hok Hoi k i. split_and!.
  - apply getSpec_iff. rewrite Hpre.
    assert ((str "http://" ++ host ++ str "/v1") ++ str "/boot/" ++ HardwareAddr_String mac =
      str "http://" ++ host ++ str "/v1/boot/" ++ HardwareAddr_String mac) as ->
      by by rewrite <- !app_assoc.
    rewrite Hc. unfold example_get, example_dispatch. cbn [URL_Path].
    rewrite route_boot by by apply mac_plain. unfold API. cbn [snd Host].
    change (Sprintf (str "http://%s/kernel") [AStr host]) with k.
    change (Sprintf (str "http://%s/initrd") [AStr host]) with i.
    eexists. split; [reflexivity|]. split; [done|]. split.
    + cbn [Body rw_body write write_header new_response app].
      rewrite Json.Decode_answer. cbn [fst snd map]. unfold k, i. by rewrite !plain_url_ascii.
    + repeat constructor; by apply plain_url_absolute.
  - unfold remote_fetch, k. rewrite Hg. unfold example_get, example_dispatch. cbn [URL_Path].
    change (mux_route example_patterns (str "GET") (str "/kernel")) with (RHandle EKernel).
    unfold serveFile. rewrite Hok. done.
  - unfold remote_fetch, i. rewrite Hg. unfold example_get, example_dispatch. cbn [URL_Path].
    change (mux_route example_patterns (str "GET") (str "/initrd")) with (RHandle EInitrd).
    unfold serveFile. rewrite Hoi. done.
Qed.

End example.

(** * Witnesses *)

Section witnesses.
#[local] Existing Instance latin1_tables.
#[local] Existing Instance toy_texts.

Definition toy_example : example_flags := mkExampleFlags 4242 (str "k") (str "i0") (str "quiet").

(** A network on which only the example server answers, as [ex]. *)
Definition example_world : World :=
  let get u := if HasPrefix u (str "http://ex")
               then example_get toy_example (w_open toy_world) (str "ex") (drop 9 u)
               else Err (ErrNew (str "no such host")) in
  mkWorld ∅ 0 (w_rand toy_world) (w_open toy_world) get get 0.

Lemma example_connected : connected toy_example example_world (w_open toy_world) (str "ex").
Proof. split; intros path; reflexivity. Qed.

Lemma example_serves_remote_witness :
  (getSpec (mkRemoteBooter (str "http://ex/v1") []) toy_mac example_world).1 =
    Ok (str "http://ex/kernel", [str "http://ex/initrd"], str "quiet") ∧
  remote_fetch (str "http://ex/kernel") example_world =
    Ok (mkReader (str "contents of k") None, str "http://ex/kernel").
Proof.
  destruct (example_serves_remote toy_example example_world (w_open toy_world) (str "ex") toy_mac
    (mkRemoteBooter (str "http://ex/v1") []) (str "contents of k") (str "contents of i0"))
    as (H1 & H2 & _);
    [exact example_connected| |apply Nat.leb_le; reflexivity|reflexivity|
     reflexivity|reflexivity|split; [exact H1|exact H2]].
  exists (str "ex"), []. split; [reflexivity|]. split; reflexivity.
Defined.

End witnesses.
